(** * PrismaX knowledge-base worker: a shallow embedding and its properties

    The development follows the sources under [electron/knowledge]:
    - [meta-db.ts]      migration of the per-knowledge-base SQLite file,
    - [meta-schema.ts]  the list of migrations,
    - [kb-worker.ts]    the worker process: chunker, streaming import,
                        job scheduler and request dispatch,
    - [worker-client.ts] the controller-side table of pending calls.

    Tables are lists of rows in insertion (rowid) order, the module-level
    [Map]s and [Set] of the worker are [gmap]s and a [gset], JavaScript
    numbers that hold counts and timestamps are [Z], exceptions are the
    [Throw] outcome of a small state-and-exception monad. *)

From stdpp Require Import gmap strings list fin_maps sorting.
From Stdlib Require Import ZArith Ascii Lia DecimalString.

Open Scope Z_scope.

(* ================================================================== *)
(** * Part I: the embedding                                            *)
(* ================================================================== *)

(** Outcome of a piece of JavaScript: a value, or a thrown [Error] with
    its message. *)
Inductive res (A : Type) : Type :=
| Ok (a : A)
| Throw (msg : string).
Arguments Ok {A} a.
Arguments Throw {A} msg.

Definition is_ok {A} (r : res A) : bool :=
  match r with Ok _ => true | Throw _ => false end.

(* ------------------------------------------------------------------ *)
(** ** meta-db.ts: migrations                                          *)
(* ------------------------------------------------------------------ *)

Module Migration.

(** [KnowledgeMetaMigration] of meta-schema.ts. *)
Record KnowledgeMetaMigration := {
  mig_id : Z;
  mig_name : string;
  mig_sql : string
}.

(** A row of [schema_migrations(id PRIMARY KEY, name, applied_at)]. *)
Record migration_row := {
  row_id : Z;
  row_name : string;
  row_applied_at : Z
}.

Section Migrate.
(** Everything in the database file besides [schema_migrations]. *)
Context {content : Type}.
(** [sqlite.exec(sql)]: [Throw message] when SQLite rejects the script,
    [message] being the text of the error it throws. *)
Variable exec : string -> content -> res content.

Record metadb := {
  data : content;
  schema_migrations : list migration_row
}.

(** [SELECT COALESCE(MAX(id), 0) FROM schema_migrations] *)
Definition max_recorded_id (rows : list migration_row) : Z :=
  match rows with
  | [] => 0
  | r :: rest => fold_left (fun acc x => Z.max acc (row_id x)) rest (row_id r)
  end.

(** [Array.prototype.sort((a, b) => a.id - b.id)]: a stable sort on the id. *)
Fixpoint insert_by_id (m : KnowledgeMetaMigration)
    (l : list KnowledgeMetaMigration) : list KnowledgeMetaMigration :=
  match l with
  | [] => [m]
  | x :: rest =>
      if mig_id m <? mig_id x then m :: x :: rest
      else x :: insert_by_id m rest
  end.

Definition sort_by_id (l : list KnowledgeMetaMigration) : list KnowledgeMetaMigration :=
  foldr insert_by_id [] l.

Definition pending_migrations (migrations : list KnowledgeMetaMigration)
    (currentId : Z) : list KnowledgeMetaMigration :=
  sort_by_id (filter (fun m => currentId < mig_id m) migrations).

(** [INSERT INTO schema_migrations(id, name, applied_at)]: the primary
    key rejects an id that is already recorded. *)
Definition insert_migration_row (now : Z) (m : KnowledgeMetaMigration)
    (rows : list migration_row) : res (list migration_row) :=
  if existsb (fun r => row_id r =? mig_id m) rows
  then Throw "UNIQUE constraint failed: schema_migrations.id"
  else Ok (rows ++ [{| row_id := mig_id m; row_name := mig_name m;
                       row_applied_at := now |}]).

(** The body of the [sqlite.transaction(() => { for (...) ... })]
    closure; [Throw message] when a statement throws. *)
Fixpoint run_pending (now : Z) (pending : list KnowledgeMetaMigration)
    (db : metadb) : res metadb :=
  match pending with
  | [] => Ok db
  | m :: rest =>
      match exec (mig_sql m) (data db) with
      | Throw message => Throw message
      | Ok d =>
          match insert_migration_row now m (schema_migrations db) with
          | Throw message => Throw message
          | Ok rows =>
              run_pending now rest {| data := d; schema_migrations := rows |}
          end
      end
  end.

(** [migrateKnowledgeMetaDb]: one transaction around all pending
    migrations; better-sqlite3 rolls it back and throws the same error
    again when the closure throws. *)
Definition migrateKnowledgeMetaDb (migrations : list KnowledgeMetaMigration)
    (now : Z) (db : metadb) : res unit * metadb :=
  let currentId := max_recorded_id (schema_migrations db) in
  let pending := pending_migrations migrations currentId in
  match pending with
  | [] => (Ok (), db)
  | _ =>
      match run_pending now pending db with
      | Ok db' => (Ok (), db')
      | Throw message => (Throw message, db)
      end
  end.

(** What the specification describes instead: every migration in its
    own transaction, recorded before the next one starts. *)
Fixpoint migrate_each_in_own_transaction (now : Z)
    (pending : list KnowledgeMetaMigration) (db : metadb) : res unit * metadb :=
  match pending with
  | [] => (Ok (), db)
  | m :: rest =>
      match run_pending now [m] db with
      | Ok db' => migrate_each_in_own_transaction now rest db'
      | Throw message => (Throw message, db)
      end
  end.

Definition migrate_as_specified (migrations : list KnowledgeMetaMigration)
    (now : Z) (db : metadb) : res unit * metadb :=
  migrate_each_in_own_transaction now
    (pending_migrations migrations (max_recorded_id (schema_migrations db))) db.

Definition recorded_ids (db : metadb) : list Z :=
  map row_id (schema_migrations db).

(** The scripts executed one after the other on the data, up to the
    first one that SQLite rejects. *)
Fixpoint run_scripts (sqls : list string) (d : content) : res content :=
  match sqls with
  | [] => Ok d
  | sql :: rest =>
      match exec sql d with
      | Ok d' => run_scripts rest d'
      | Throw message => Throw message
      end
  end.

End Migrate.

Arguments metadb content : clear implicits.

(** [KNOWLEDGE_META_MIGRATIONS] of meta-schema.ts; the SQL text is kept by
    name only, its statements are all [CREATE ... IF NOT EXISTS]. *)
Definition KNOWLEDGE_META_MIGRATIONS : list KnowledgeMetaMigration :=
  [ {| mig_id := 1; mig_name := "init"; mig_sql := "init.sql" |};
    {| mig_id := 2; mig_name := "job_items"; mig_sql := "job_items.sql" |} ].

(** A sample interpreter for scripts: a script named ["bad.sql"] fails,
    every other script appends its name to the log of applied scripts. *)
Definition sample_exec (sql : string) (applied : list string) : res (list string) :=
  if String.eqb sql "bad.sql" then Throw "incomplete input"
  else Ok (applied ++ [sql]).

Definition sample_first : KnowledgeMetaMigration :=
  {| mig_id := 1; mig_name := "first"; mig_sql := "first.sql" |}.
Definition sample_second : KnowledgeMetaMigration :=
  {| mig_id := 2; mig_name := "second"; mig_sql := "bad.sql" |}.
Definition sample_migrations : list KnowledgeMetaMigration :=
  [ sample_second; sample_first ].

Definition empty_db : metadb (list string) :=
  {| data := []; schema_migrations := [] |}.

(** The statement of the specification about a failing run: when the
    pending list splits into [earlier], a migration [m] whose script
    fails, and the rest, every migration of [earlier] is still recorded
    after the call. *)
Definition later_failure_keeps_earlier {content}
    (exec : string -> content -> res content)
    (migrations : list KnowledgeMetaMigration) (now : Z) (db : metadb content) : Prop :=
  forall earlier m later db1,
    pending_migrations migrations (max_recorded_id (schema_migrations db))
      = earlier ++ m :: later ->
    run_pending exec now earlier db = Ok db1 ->
    (exists message, exec (mig_sql m) (data db1) = Throw message) ->
    forall e, In e earlier ->
      In (mig_id e) (recorded_ids (snd (migrateKnowledgeMetaDb exec migrations now db))).

(** The order of the ids, and the row that records a migration. *)
Definition id_le (a b : KnowledgeMetaMigration) : Prop := mig_id a <= mig_id b.

Definition row_of (now : Z) (m : KnowledgeMetaMigration) : migration_row :=
  {| row_id := mig_id m; row_name := mig_name m; row_applied_at := now |}.

End Migration.

(* ------------------------------------------------------------------ *)
(** ** JavaScript strings and the chunker of kb-worker.ts              *)
(* ------------------------------------------------------------------ *)

(** A JavaScript string is a sequence of UTF-16 code units; a [Buffer] is
    a sequence of bytes. Both are lists of integers. *)
Abbreviation jsstring := (list Z).
Abbreviation buffer := (list Z).

(** The code units of a 7-bit literal. *)
Definition js (s : string) : jsstring :=
  map (fun a => Z.of_nat (nat_of_ascii a)) (String.list_ascii_of_string s).

Module Chunker.

(** White space and line terminators removed by [String.prototype.trim]
    (ECMA-262, WhiteSpace and LineTerminator). *)
Definition isWhiteSpace (c : Z) : bool :=
  (c =? 9) || (c =? 10) || (c =? 11) || (c =? 12) || (c =? 13) || (c =? 32)
  || (c =? 160) || (c =? 5760) || ((8192 <=? c) && (c <=? 8202))
  || (c =? 8232) || (c =? 8233) || (c =? 8239) || (c =? 8287)
  || (c =? 12288) || (c =? 65279).

Fixpoint trimStart (s : jsstring) : jsstring :=
  match s with
  | [] => []
  | c :: rest => if isWhiteSpace c then trimStart rest else s
  end.

Definition trimEnd (s : jsstring) : jsstring := rev (trimStart (rev s)).

Definition trim (s : jsstring) : jsstring := trimEnd (trimStart s).

(** The [while (carry.length >= chunkSize)] loop of [push]. The fuel
    bounds the number of iterations; [None] stands for a loop that is
    still running when the fuel is spent. *)
Fixpoint push_loop (fuel : nat) (chunkSize overlap : nat) (carry : jsstring)
    : option (list jsstring * jsstring) :=
  if (length carry <? chunkSize)%nat then Some ([], carry)
  else
    match fuel with
    | O => None
    | S fuel' =>
        let part := take chunkSize carry in
        match push_loop fuel' chunkSize overlap (drop (chunkSize - overlap) carry) with
        | Some (chunks, carry') => Some (part :: chunks, carry')
        | None => None
        end
    end.

(** The loop as a relation: from the carry [s] it emits [chunks] and
    leaves [carry]. *)
Inductive pushes (chunkSize overlap : nat) : jsstring -> list jsstring -> jsstring -> Prop :=
| pushes_stop s :
    (length s < chunkSize)%nat -> pushes chunkSize overlap s [] s
| pushes_more s chunks carry :
    (chunkSize <= length s)%nat ->
    pushes chunkSize overlap (drop (chunkSize - overlap) s) chunks carry ->
    pushes chunkSize overlap s (take chunkSize s :: chunks) carry.

(** [push(text)]: the closure variable [carry] is threaded explicitly.
    One unit of fuel per code unit of the carry is enough whenever
    [overlap < chunkSize] (see [push_loop_terminates]). *)
Definition push (chunkSize overlap : nat) (carry text : jsstring)
    : option (list jsstring * jsstring) :=
  push_loop (length (carry ++ text)) chunkSize overlap (carry ++ text).

(** [flush()]: the trimmed carry, or [null] when nothing is left; the
    carry becomes empty. *)
Definition flush (carry : jsstring) : option jsstring * jsstring :=
  let rest := trim carry in
  (if (0 <? length rest)%nat then Some rest else None, []).

(** The constants of the two call sites, [chunkTextStream(2000, 200)]. *)
Definition CHUNK_SIZE : nat := 2000.
Definition OVERLAP : nat := 200.

(** All rows a document gets when its text arrives in the given pieces:
    every piece is pushed, then the carry is flushed. Used by
    [importOneFile] (one piece per read buffer, then the decoder's tail)
    and by [handleCreateNote] (a single piece). *)
Fixpoint push_all (chunkSize overlap : nat) (carry : jsstring)
    (pieces : list jsstring) : option (list jsstring * jsstring) :=
  match pieces with
  | [] => Some ([], carry)
  | text :: rest =>
      match push chunkSize overlap carry text with
      | None => None
      | Some (chunks, carry') =>
          match push_all chunkSize overlap carry' rest with
          | None => None
          | Some (more, carry'') => Some (chunks ++ more, carry'')
          end
      end
  end.

Definition chunk_pieces (chunkSize overlap : nat) (pieces : list jsstring)
    : option (list jsstring) :=
  match push_all chunkSize overlap [] pieces with
  | None => None
  | Some (chunks, carry) =>
      match fst (flush carry) with
      | Some rest => Some (chunks ++ [rest])
      | None => Some chunks
      end
  end.

(** Reading the text back from the stored chunks "accounting for the
    overlap": the first chunk whole, every later chunk without its first
    [overlap] code units. *)
Definition reassemble (overlap : nat) (chunks : list jsstring) : jsstring :=
  match chunks with
  | [] => []
  | first :: rest => first ++ concat (map (drop overlap) rest)
  end.

End Chunker.

(* ------------------------------------------------------------------ *)
(** ** Values that travel over the IPC channel                         *)
(* ------------------------------------------------------------------ *)

Module Js.

(** A JSON value as the channel delivers it; [JUndefined] is what
    reading a missing property gives. Numbers are the integers that
    [String] prints digit by digit, those below 10^21 in magnitude. *)
#[warnings="-register-all"]
Inductive jsval :=
| JUndefined
| JNull
| JBool (b : bool)
| JNum (n : Z)
| JStr (s : string)
| JArr (items : list jsval)
| JObj (fields : list (string * jsval)).

(** [!v] is [negb (truthy v)]. *)
Definition truthy (v : jsval) : bool :=
  match v with
  | JUndefined | JNull => false
  | JBool b => b
  | JNum n => negb (n =? 0)
  | JStr s => negb (String.eqb s "")
  | JArr _ | JObj _ => true
  end.

(** [typeof v === "object"] *)
Definition typeof_object (v : jsval) : bool :=
  match v with
  | JNull | JArr _ | JObj _ => true
  | _ => false
  end.

Definition has_field (k : string) (fields : list (string * jsval)) : bool :=
  existsb (fun p => String.eqb (fst p) k) fields.

(** [v.k] for a key that no prototype defines. *)
Definition get (k : string) (v : jsval) : jsval :=
  match v with
  | JObj fields =>
      match List.find (fun p => String.eqb (fst p) k) fields with
      | Some p => snd p
      | None => JUndefined
      end
  | _ => JUndefined
  end.

Fixpoint join_with (sep : string) (l : list string) : string :=
  match l with
  | [] => ""
  | [x] => x
  | x :: rest => x +:+ sep +:+ join_with sep rest
  end.

(** [String(v)], also the property key [v] is converted to. [None] is
    the [TypeError] for an object whose own [toString] property hides
    the inherited method with a value that cannot be called. *)
Fixpoint ToString (v : jsval) : option string :=
  match v with
  | JUndefined => Some "undefined"
  | JNull => Some "null"
  | JBool b => Some (if b then "true" else "false")
  | JNum n => Some (NilZero.string_of_int (Z.to_int n))
  | JStr s => Some s
  | JArr items =>
      join_with "," <$>
        mapM (fun x => match x with
                       | JUndefined | JNull => Some ""
                       | _ => ToString x
                       end) items
  | JObj fields =>
      if has_field "toString" fields then None else Some "[object Object]"
  end.

End Js.

(* ------------------------------------------------------------------ *)
(** ** kb-worker.ts: tables, worker state and the effect monad         *)
(* ------------------------------------------------------------------ *)

Module Kb.
Import Js.

Inductive JobStatus :=
| JobPending | JobProcessing | JobPaused | JobDone | JobFailed | JobCanceled.

Inductive JobItemStatus :=
| ItemPending | ItemProcessing | ItemDone | ItemFailed | ItemSkipped.

#[global] Instance JobStatus_eq_dec : EqDecision JobStatus.
Proof. solve_decision. Defined.
#[global] Instance JobItemStatus_eq_dec : EqDecision JobItemStatus.
Proof. solve_decision. Defined.

Inductive ImportSource :=
| SrcFiles (paths : list string)
| SrcDirectory (paths : list string) (recursive : option bool).

(** A row of [jobs]. *)
Record job := {
  job_id : string;
  job_type : string;
  job_status : JobStatus;
  job_payload : list ImportSource;
  progress_current : Z;
  progress_total : Z;
  job_error_message : option string;
  job_created_at : Z;
  job_started_at : option Z;
  job_finished_at : option Z;
  job_updated_at : Z;
  job_heartbeat_at : option Z
}.

(** A row of [job_items]; [kind] is always ['file']. *)
Record job_item := {
  item_id : string;
  item_job_id : string;
  item_source_path : string;
  item_status : JobItemStatus;
  item_error_message : option string;
  item_created_at : Z;
  item_updated_at : Z;
  item_started_at : option Z;
  item_finished_at : option Z
}.

Inductive DocumentKind := KindFile | KindNote.

(** The hex digest written by [hash.digest("hex")], kept as the bytes
    that were fed to the hash. *)
Inductive digest := Sha256Of (bytes : buffer).

(** A row of [documents]. *)
Record document := {
  doc_id : string;
  doc_kind : DocumentKind;
  doc_title : jsstring;
  doc_source_path : option string;
  doc_blob_rel_path : option string;
  doc_mime_type : option string;
  doc_size_bytes : Z;
  doc_sha256 : option digest;
  doc_created_at : Z;
  doc_updated_at : Z
}.

(** A row of [chunks]; the full-text index is maintained from this table
    by triggers and is not kept separately. *)
Record chunk := {
  chunk_id : string;
  chunk_document_id : string;
  chunk_index : Z;
  chunk_content : jsstring;
  chunk_created_at : Z
}.

Record note := {
  note_document_id : string;
  note_content : jsstring
}.

(** The contents of one [meta.sqlite]. *)
Record tables := {
  jobs : list job;
  job_items : list job_item;
  documents : list document;
  chunks : list chunk;
  notes : list note;
  schema_migrations : list Migration.migration_row
}.

Definition empty_tables : tables :=
  {| jobs := []; job_items := []; documents := []; chunks := []; notes := [];
     schema_migrations := [] |}.

(** One knowledge-base directory. [meta] is the database as the open
    connection sees it, uncommitted changes included; [tx] is [Some s]
    while a manual [BEGIN] is open, [s] being what [ROLLBACK] (or a crash)
    restores. [blobs] maps a path relative to the directory to the bytes
    of the file. *)
Record kbdir := {
  meta : tables;
  tx : option tables;
  blobs : gmap string buffer
}.

Definition empty_kbdir : kbdir :=
  {| meta := empty_tables; tx := None; blobs := ∅ |}.

(** Where [importOneFile] is suspended. *)
Inductive import_phase :=
| AwaitStat                                     (* await fs.promises.stat *)
| AwaitStream (documentId blobRelPath : string) (* for await (buf of reader) ... once(writer, "close") *)
| AwaitRm (blobRelPath : string) (message : string). (* await fs.promises.rm in the catch block *)

(** The run loop of a knowledge base, suspended in
    [await importOneFile({kbId, jobId, jobItemId, sourcePath})]. *)
Record suspended_loop := {
  sl_job : string;
  sl_item : string;
  sl_source : string;
  sl_phase : import_phase
}.

(** Values returned by handlers and carried by messages. *)
Inductive value :=
| VInit (kbId metaDbPath : string)
| VJobId (jobId : string)
| VJobs (rows : list job)
| VSuccess
| VSearch (results : list (string * string))
| VDocumentId (documentId : string)
| VStats (n_documents n_chunks n_jobs : Z).

(** What the worker passes to [process.send]. *)
Inductive message :=
| MsgOk (id : jsval) (result : value)
| MsgError (id : jsval) (msg : string)
| MsgEvent (event : string) (kbId : string) (job : option job).

(** The worker process: the directories on disk and the module-level
    variables of kb-worker.ts. [dbCache] holds the ids whose handle is
    open (the handle itself is [meta]/[tx] of the directory). *)
Record worker := {
  disk : gmap string kbdir;
  dbCache : gset string;
  runningByKb : gmap string string;
  inMemoryCanceledJobs : gset string;
  suspended : gmap string suspended_loop;
  sent : list message
}.

Definition initial_worker : worker :=
  {| disk := ∅; dbCache := ∅; runningByKb := ∅; inMemoryCanceledJobs := ∅;
     suspended := ∅; sent := [] |}.

Definition kb_of (w : worker) (kbId : string) : kbdir :=
  default empty_kbdir (disk w !! kbId).

Definition db_of (w : worker) (kbId : string) : tables := meta (kb_of w kbId).

Definition with_disk (f : gmap string kbdir -> gmap string kbdir) (w : worker) : worker :=
  {| disk := f (disk w); dbCache := dbCache w; runningByKb := runningByKb w;
     inMemoryCanceledJobs := inMemoryCanceledJobs w; suspended := suspended w;
     sent := sent w |}.
Definition with_dbCache (f : gset string -> gset string) (w : worker) : worker :=
  {| disk := disk w; dbCache := f (dbCache w); runningByKb := runningByKb w;
     inMemoryCanceledJobs := inMemoryCanceledJobs w; suspended := suspended w;
     sent := sent w |}.
Definition with_running (f : gmap string string -> gmap string string) (w : worker) : worker :=
  {| disk := disk w; dbCache := dbCache w; runningByKb := f (runningByKb w);
     inMemoryCanceledJobs := inMemoryCanceledJobs w; suspended := suspended w;
     sent := sent w |}.
Definition with_canceled (f : gset string -> gset string) (w : worker) : worker :=
  {| disk := disk w; dbCache := dbCache w; runningByKb := runningByKb w;
     inMemoryCanceledJobs := f (inMemoryCanceledJobs w); suspended := suspended w;
     sent := sent w |}.
Definition with_suspended (f : gmap string suspended_loop -> gmap string suspended_loop)
    (w : worker) : worker :=
  {| disk := disk w; dbCache := dbCache w; runningByKb := runningByKb w;
     inMemoryCanceledJobs := inMemoryCanceledJobs w; suspended := f (suspended w);
     sent := sent w |}.
Definition with_sent (f : list message -> list message) (w : worker) : worker :=
  {| disk := disk w; dbCache := dbCache w; runningByKb := runningByKb w;
     inMemoryCanceledJobs := inMemoryCanceledJobs w; suspended := suspended w;
     sent := f (sent w) |}.

Definition with_kb (kbId : string) (f : kbdir -> kbdir) (w : worker) : worker :=
  with_disk (fun d => <[kbId := f (kb_of w kbId)]> d) w.

(** *** The effect monad: worker state plus exceptions. A [Throw] keeps
    the state changes made before it. *)
Definition M (A : Type) : Type := worker -> res A * worker.

Definition ret {A} (a : A) : M A := fun w => (Ok a, w).
Definition throw {A} (msg : string) : M A := fun w => (Throw msg, w).
Definition bind {A B} (m : M A) (k : A -> M B) : M B :=
  fun w => match m w with
           | (Ok a, w') => k a w'
           | (Throw msg, w') => (Throw msg, w')
           end.
Definition gets {A} (f : worker -> A) : M A := fun w => (Ok (f w), w).
Definition modify (f : worker -> worker) : M unit := fun w => (Ok (), f w).
(** [try { m } catch (e) { h(e) }] *)
Definition try_catch {A} (m : M A) (h : string -> M A) : M A :=
  fun w => match m w with
           | (Ok a, w') => (Ok a, w')
           | (Throw msg, w') => h msg w'
           end.
(** [try { m } catch { /* ignore */ }], and [void m] for a promise whose
    rejection nobody observes. *)
Definition ignore_errors {A} (m : M A) : M unit :=
  fun w => (Ok (), snd (m w)).

#[global] Instance M_ret : MRet M := @ret.
#[global] Instance M_bind : MBind M := fun A B k m => bind m k.

(** *** SQLite through better-sqlite3 *)

(** A statement that cannot fail ([UPDATE], or a read). *)
Definition db_run (kbId : string) (f : tables -> tables) : M unit :=
  modify (with_kb kbId (fun k => {| meta := f (meta k); tx := tx k; blobs := blobs k |})).

(** A statement that a constraint can reject; [f] gives the new tables
    or the message of the error SQLite throws. *)
Definition db_try (kbId : string) (f : tables -> res tables) : M unit :=
  t ← gets (fun w => db_of w kbId);
  match f t with
  | Ok t' => db_run kbId (fun _ => t')
  | Throw message => throw message
  end.

(** [db.exec("BEGIN")] *)
Definition db_begin (kbId : string) : M unit :=
  k ← gets (fun w => kb_of w kbId);
  match tx k with
  | Some _ => throw "cannot start a transaction within a transaction"
  | None => modify (with_kb kbId (fun k =>
              {| meta := meta k; tx := Some (meta k); blobs := blobs k |}))
  end.

(** [db.exec("COMMIT")] *)
Definition db_commit (kbId : string) : M unit :=
  k ← gets (fun w => kb_of w kbId);
  match tx k with
  | None => throw "cannot commit - no transaction is active"
  | Some _ => modify (with_kb kbId (fun k =>
                {| meta := meta k; tx := None; blobs := blobs k |}))
  end.

(** [db.exec("ROLLBACK")] *)
Definition db_rollback (kbId : string) : M unit :=
  k ← gets (fun w => kb_of w kbId);
  match tx k with
  | None => throw "cannot rollback - no transaction is active"
  | Some s => modify (with_kb kbId (fun k =>
                {| meta := s; tx := None; blobs := blobs k |}))
  end.

(** [wp m Q w]: running [m] from [w] ends in an outcome and a state
    that satisfy [Q]. *)
Definition wp {A} (m : M A) (Q : res A -> worker -> Prop) (w : worker) : Prop :=
  Q (fst (m w)) (snd (m w)).

(** What is durable in the file: the open transaction is not. *)
Definition committed (k : kbdir) : tables :=
  match tx k with Some s => s | None => meta k end.

(** [process.send(msg)] *)
Definition send (msg : message) : M unit := modify (with_sent (fun l => l ++ [msg])).

(** The worker process dies and a new one is forked: the module-level
    variables start empty, an open transaction is gone from the file. *)
Definition restart (w : worker) : worker :=
  {| disk := (fun k => {| meta := committed k; tx := None; blobs := blobs k |}) <$> disk w;
     dbCache := ∅; runningByKb := ∅; inMemoryCanceledJobs := ∅; suspended := ∅;
     sent := sent w |}.

(** Statements one after the other. *)
Definition run_all (l : list (M unit)) : M unit :=
  foldr (fun m k => m;; k) (ret ()) l.

End Kb.

(* ------------------------------------------------------------------ *)
(** ** kb-worker.ts: the ingestion engine                              *)
(* ------------------------------------------------------------------ *)

(** What the worker takes from Node: the [path] module,
    [String.prototype.toLowerCase], [Buffer.byteLength(s, "utf8")] and a
    [StringDecoder("utf8")] with its internal state. *)
Record NodeApi := {
  extname : string -> string;
  basename : string -> string;
  join : string -> string -> string;
  toLowerCase : string -> string;
  byteLength : jsstring -> Z;
  decoder_state : Type;
  decoder_new : decoder_state;
  decoder_write : decoder_state -> buffer -> jsstring * decoder_state;
  decoder_end : decoder_state -> jsstring
}.

Module Ingest.
Import Kb.

Definition textExts : gset string :=
  list_to_set
    [ ".txt"; ".md"; ".markdown"; ".mdx"; ".json"; ".jsonl"; ".yaml"; ".yml";
      ".csv"; ".ts"; ".tsx"; ".js"; ".jsx"; ".mjs"; ".cjs"; ".py"; ".go";
      ".rs"; ".java"; ".kt"; ".kts"; ".rb"; ".php"; ".html"; ".htm"; ".css";
      ".scss"; ".xml"; ".toml"; ".ini"; ".sh"; ".bash"; ".zsh"; ".sql" ].

Definition mimeTypes : gmap string string :=
  list_to_map
    [ (".txt", "text/plain"); (".md", "text/markdown");
      (".markdown", "text/markdown"); (".json", "application/json");
      (".csv", "text/csv"); (".png", "image/png"); (".jpg", "image/jpeg");
      (".jpeg", "image/jpeg"); (".webp", "image/webp"); (".gif", "image/gif");
      (".pdf", "application/pdf") ].

(** [buf.includes(0)] *)
Definition bufferLooksBinary (buf : buffer) : bool := existsb (Z.eqb 0) buf.

(** Answer of [fs.promises.stat]. *)
Inductive stat_result :=
| StatError                 (* the promise rejects *)
| StatNotFile               (* stat.isFile() is false *)
| StatFile (size : Z).

(** What the read stream delivers: its buffers in order, then either the
    end of the stream or an error (of the reader or of the blob writer). *)
Record read_outcome := {
  buffers : list buffer;
  stream_error : option string
}.

(** The value [importOneFile] resolves to. *)
Record ImportResult := {
  r_status : JobItemStatus;
  r_documentId : option string;
  r_error : option string
}.

(** [importOneFile] either returns or waits for the file system. *)
Inductive import_step :=
| Returned (r : ImportResult)
| Awaiting (p : import_phase).

Section WithNode.
Variable node : NodeApi.

Definition isSupportedTextExtension (filePath : string) : bool :=
  bool_decide (toLowerCase node (extname node filePath) ∈ textExts).

Definition guessMimeType (filePath : string) : option string :=
  mimeTypes !! toLowerCase node (extname node filePath).

Definition getBlobRelPath (documentId sourcePath : string) : string :=
  join node "blobs" (documentId +:+ extname node sourcePath).

(** [INSERT INTO documents ... VALUES (?, 'file', ..., NULL, ?, ?)]:
    the id is the primary key. *)
Definition insert_document (d : document) (t : tables) : res tables :=
  if existsb (fun x => String.eqb (doc_id x) (doc_id d)) (documents t)
  then Throw "UNIQUE constraint failed: documents.id"
  else Ok {| jobs := jobs t; job_items := job_items t;
             documents := documents t ++ [d]; chunks := chunks t;
             notes := notes t; schema_migrations := schema_migrations t |}.

(** [INSERT INTO chunks(id, document_id, chunk_index, content, created_at)]:
    the id is a primary key, [document_id] a foreign key. *)
Definition insert_chunk (c : chunk) (t : tables) : res tables :=
  if existsb (fun x => String.eqb (chunk_id x) (chunk_id c)) (chunks t)
  then Throw "UNIQUE constraint failed: chunks.id"
  else if negb (existsb (fun d => String.eqb (doc_id d) (chunk_document_id c)) (documents t))
  then Throw "FOREIGN KEY constraint failed"
  else Ok {| jobs := jobs t; job_items := job_items t;
             documents := documents t; chunks := chunks t ++ [c];
             notes := notes t; schema_migrations := schema_migrations t |}.

(** [UPDATE documents SET sha256 = ?, updated_at = ? WHERE id = ?] *)
Definition update_sha (documentId : string) (h : digest) (now : Z) (t : tables) : tables :=
  {| jobs := jobs t; job_items := job_items t;
     documents := map (fun d =>
       if String.eqb (doc_id d) documentId then
         {| doc_id := doc_id d; doc_kind := doc_kind d; doc_title := doc_title d;
            doc_source_path := doc_source_path d;
            doc_blob_rel_path := doc_blob_rel_path d;
            doc_mime_type := doc_mime_type d; doc_size_bytes := doc_size_bytes d;
            doc_sha256 := Some h; doc_created_at := doc_created_at d;
            doc_updated_at := now |}
       else d) (documents t);
     chunks := chunks t; notes := notes t;
     schema_migrations := schema_migrations t |}.

(** [UPDATE job_items SET updated_at = ? WHERE id = ?] of the [finally]. *)
Definition touch_item (jobItemId : string) (now : Z) (t : tables) : tables :=
  {| jobs := jobs t;
     job_items := map (fun i =>
       if String.eqb (item_id i) jobItemId then
         {| item_id := item_id i; item_job_id := item_job_id i;
            item_source_path := item_source_path i; item_status := item_status i;
            item_error_message := item_error_message i;
            item_created_at := item_created_at i; item_updated_at := now;
            item_started_at := item_started_at i;
            item_finished_at := item_finished_at i |}
       else i) (job_items t);
     documents := documents t; chunks := chunks t; notes := notes t;
     schema_migrations := schema_migrations t |}.

(** The local variables of the streaming loop. The bytes given to
    [writer.write] go to the blob on disk. *)
Record stream_state := {
  hashed : buffer;
  decoder : decoder_state node;
  carry : jsstring;
  chunkIndex : Z;
  decidedBinary : bool;
  canIndex : bool
}.

Definition write_blob (kbId blobRelPath : string) (bytes : buffer) : M unit :=
  modify (with_kb kbId (fun k =>
    {| meta := meta k; tx := tx k;
       blobs := <[blobRelPath := default [] (blobs k !! blobRelPath) ++ bytes]> (blobs k) |})).

(** [fs.createWriteStream(blobAbsPath, { flags: "wx" })]: a new, empty
    file (the name is new because the document id is). *)
Definition create_blob (kbId blobRelPath : string) : M unit :=
  modify (with_kb kbId (fun k =>
    {| meta := meta k; tx := tx k; blobs := <[blobRelPath := []]> (blobs k) |})).

Definition remove_blob (kbId blobRelPath : string) : M unit :=
  modify (with_kb kbId (fun k =>
    {| meta := meta k; tx := tx k; blobs := delete blobRelPath (blobs k) |})).

(** [for (const part of parts) insertChunk.run(randomUUID(), documentId,
    chunkIndex++, part, Date.now())]; [chunkIds] gives the UUID drawn for
    each index. *)
Fixpoint insert_parts (kbId documentId : string) (chunkIds : Z -> string) (now : Z)
    (parts : list jsstring) (index : Z) : M Z :=
  match parts with
  | [] => ret index
  | part :: rest =>
      db_try kbId (insert_chunk
        {| chunk_id := chunkIds index; chunk_document_id := documentId;
           chunk_index := index; chunk_content := part; chunk_created_at := now |});;
      insert_parts kbId documentId chunkIds now rest (index + 1)
  end.

(** [chunker.push(text)] followed by the inserts. *)
Definition push_and_insert (kbId documentId : string) (chunkIds : Z -> string) (now : Z)
    (text : jsstring) (st : stream_state) : M stream_state :=
  match Chunker.push Chunker.CHUNK_SIZE Chunker.OVERLAP (carry st) text with
  | None => throw "chunker does not terminate"
  | Some (parts, carry') =>
      index ← insert_parts kbId documentId chunkIds now parts (chunkIndex st);
      ret {| hashed := hashed st; decoder := decoder st; carry := carry';
             chunkIndex := index; decidedBinary := decidedBinary st;
             canIndex := canIndex st |}
  end.

(** The body of [for await (const buf of reader)]. *)
Fixpoint stream_loop (kbId documentId blobRelPath : string) (chunkIds : Z -> string)
    (now : Z) (bufs : list buffer) (st : stream_state) : M stream_state :=
  match bufs with
  | [] => ret st
  | buf :: rest =>
      let st1 := {| hashed := hashed st ++ buf; decoder := decoder st;
                    carry := carry st; chunkIndex := chunkIndex st;
                    decidedBinary := decidedBinary st; canIndex := canIndex st |} in
      write_blob kbId blobRelPath buf;;
      if negb (canIndex st1) then
        stream_loop kbId documentId blobRelPath chunkIds now rest st1
      else if negb (decidedBinary st1) && bufferLooksBinary buf then
        stream_loop kbId documentId blobRelPath chunkIds now rest
          {| hashed := hashed st1; decoder := decoder st1; carry := carry st1;
             chunkIndex := chunkIndex st1; decidedBinary := true; canIndex := false |}
      else
        let '(text, dec) := decoder_write node (decoder st1) buf in
        st2 ← push_and_insert kbId documentId chunkIds now text
                {| hashed := hashed st1; decoder := dec; carry := carry st1;
                   chunkIndex := chunkIndex st1; decidedBinary := true;
                   canIndex := canIndex st1 |};
        stream_loop kbId documentId blobRelPath chunkIds now rest st2
  end.

(** After the loop: the decoder's tail, the flush, the digest, COMMIT. *)
Definition stream_finish (kbId documentId : string) (chunkIds : Z -> string)
    (now : Z) (st : stream_state) : M ImportResult :=
  let tail := decoder_end node (decoder st) in
  (if canIndex st then
     st' ← push_and_insert kbId documentId chunkIds now tail st;
     match fst (Chunker.flush (carry st')) with
     | Some rest =>
         _ ← insert_parts kbId documentId chunkIds now [rest] (chunkIndex st');
         ret ()
     | None => ret ()
     end
   else ret ());;
  db_run kbId (update_sha documentId (Sha256Of (hashed st)) now);;
  db_commit kbId;;
  ret {| r_status := if canIndex st then ItemDone else ItemSkipped;
         r_documentId := Some documentId; r_error := None |}.

(** The [catch] block up to its [await fs.promises.rm]. *)
Definition import_catch (kbId blobRelPath : string) (message : string) : M import_step :=
  ignore_errors (db_rollback kbId);;
  ret (Awaiting (AwaitRm blobRelPath message)).

(** [importOneFile], first part: after [fs.promises.stat] settled.
    [documentId] is the UUID drawn for the document. *)
Definition importOneFile_on_stat (kbId jobItemId sourcePath : string)
    (st : stat_result) (documentId : string) (now : Z) : M import_step :=
  match st with
  | StatError =>
      ret (Returned {| r_status := ItemFailed; r_documentId := None;
                       r_error := Some "文件不存在或无法读取" |})
  | StatNotFile =>
      ret (Returned {| r_status := ItemSkipped; r_documentId := None;
                       r_error := Some "非文件" |})
  | StatFile size =>
      let blobRelPath := getBlobRelPath documentId sourcePath in
      db_begin kbId;;
      try_catch
        (db_try kbId (insert_document
           {| doc_id := documentId; doc_kind := KindFile;
              doc_title := js (basename node sourcePath);
              doc_source_path := Some sourcePath;
              doc_blob_rel_path := Some blobRelPath;
              doc_mime_type := guessMimeType sourcePath;
              doc_size_bytes := size; doc_sha256 := None;
              doc_created_at := now; doc_updated_at := now |});;
         create_blob kbId blobRelPath;;
         ret (Awaiting (AwaitStream documentId blobRelPath)))
        (import_catch kbId blobRelPath)
  end.

(** Second part: the stream ran to its end or to an error. The
    requests served while the stream was running touch other tables
    than the stream does, so the whole stream is one step here. *)
Definition importOneFile_on_stream (kbId jobItemId sourcePath documentId blobRelPath : string)
    (out : read_outcome) (chunkIds : Z -> string) (now : Z) : M import_step :=
  try_catch
    (st ← stream_loop kbId documentId blobRelPath chunkIds now (buffers out)
            {| hashed := []; decoder := decoder_new node; carry := [];
               chunkIndex := 0; decidedBinary := false;
               canIndex := isSupportedTextExtension sourcePath |};
     match stream_error out with
     | Some e => throw e
     | None =>
         r ← stream_finish kbId documentId chunkIds now st;
         db_run kbId (touch_item jobItemId now);;
         ret (Returned r)
     end)
    (import_catch kbId blobRelPath).

(** Third part: [fs.promises.rm] settled; the [finally] and the
    result. [removed] tells whether the removal succeeded: when it did
    not, the [catch] around it ignores the error and the blob stays. *)
Definition importOneFile_on_rm (kbId jobItemId blobRelPath message : string)
    (removed : bool) (now : Z) : M import_step :=
  (if removed then remove_blob kbId blobRelPath else ret ());;
  db_run kbId (touch_item jobItemId now);;
  ret (Returned {| r_status := ItemFailed; r_documentId := None;
                   r_error := Some message |}).

(** [importOneFile] from its call to its result when nothing else
    runs in between: the answers of the file system are given at once. *)
Definition importOneFile (kbId jobItemId sourcePath : string)
    (st : stat_result) (out : read_outcome) (removed : bool)
    (documentId : string) (chunkIds : Z -> string) (now : Z) : M ImportResult :=
  s1 ← importOneFile_on_stat kbId jobItemId sourcePath st documentId now;
  s2 ← match s1 with
       | Awaiting (AwaitStream d b) =>
           importOneFile_on_stream kbId jobItemId sourcePath d b out chunkIds now
       | other => ret other
       end;
  s3 ← match s2 with
       | Awaiting (AwaitRm b message) =>
           importOneFile_on_rm kbId jobItemId b message removed now
       | other => ret other
       end;
  match s3 with
  | Returned r => ret r
  | Awaiting _ => throw "importOneFile is still waiting"
  end.

(** The decoder run over the buffers: the strings it returns and the
    state it is left in. *)
Fixpoint decode_run (dec : decoder_state node) (bufs : list buffer)
    : list jsstring * decoder_state node :=
  match bufs with
  | [] => ([], dec)
  | buf :: rest =>
      let '(text, dec') := decoder_write node dec buf in
      let '(texts, dec'') := decode_run dec' rest in
      (text :: texts, dec'')
  end.

(** The strings the decoder hands to the chunker: one per buffer, then
    the tail of [decoder.end()]. *)
Fixpoint decode_buffers (dec : decoder_state node) (bufs : list buffer)
    : list jsstring :=
  match bufs with
  | [] => [decoder_end node dec]
  | buf :: rest =>
      let '(text, dec') := decoder_write node dec buf in
      text :: decode_buffers dec' rest
  end.

(** The decoded text content of a file read in the given buffers. *)
Definition decoded_text (bufs : list buffer) : jsstring :=
  concat (decode_buffers (decoder_new node) bufs).

(** The indexing decision at the end of the stream: the extension is in
    the allow-list and the first buffer, if there is one, has no NUL. *)
Definition indexed (sourcePath : string) (bufs : list buffer) : bool :=
  isSupportedTextExtension sourcePath
  && match bufs with
     | [] => true
     | first :: _ => negb (bufferLooksBinary first)
     end.

End WithNode.

(** The rows that [insert_parts] adds for the given parts, starting at
    [index]. *)
Fixpoint chunk_rows (documentId : string) (chunkIds : Z -> string) (now : Z)
    (index : Z) (parts : list jsstring) : list chunk :=
  match parts with
  | [] => []
  | part :: rest =>
      {| chunk_id := chunkIds index; chunk_document_id := documentId;
         chunk_index := index; chunk_content := part; chunk_created_at := now |}
      :: chunk_rows documentId chunkIds now (index + 1) rest
  end.

(** [SELECT ... FROM chunks WHERE document_id = ? ORDER BY chunk_index]
    (rows are inserted in index order). *)
Definition chunks_of (documentId : string) (t : tables) : list chunk :=
  List.filter (fun c => String.eqb (chunk_document_id c) documentId) (chunks t).

Definition document_of (documentId : string) (t : tables) : option document :=
  List.find (fun d => String.eqb (doc_id d) documentId) (documents t).

(** Two states of the worker that differ, in the directory [kbId], by
    chunk rows appended and bytes written to the blob [rel] only. *)
Record streamed (kbId rel : string) (rows : list chunk) (bytes : buffer)
    (w w' : worker) : Prop := {
  st_jobs : jobs (db_of w' kbId) = jobs (db_of w kbId);
  st_items : job_items (db_of w' kbId) = job_items (db_of w kbId);
  st_documents : documents (db_of w' kbId) = documents (db_of w kbId);
  st_chunks : chunks (db_of w' kbId) = chunks (db_of w kbId) ++ rows;
  st_tx : tx (kb_of w' kbId) = tx (kb_of w kbId);
  st_blob : forall old, blobs (kb_of w kbId) !! rel = Some old ->
            blobs (kb_of w' kbId) !! rel = Some (old ++ bytes)
}.

(** The first buffer, if there is one, has no NUL byte. *)
Definition first_clean (bufs : list buffer) : bool :=
  match bufs with
  | [] => true
  | first :: _ => negb (bufferLooksBinary first)
  end.

(** The row [importOneFile] inserts for a file. *)
Definition file_document (node : NodeApi) (sourcePath documentId : string) (size now : Z) : document :=
  {| doc_id := documentId; doc_kind := KindFile;
     doc_title := js (basename node sourcePath);
     doc_source_path := Some sourcePath;
     doc_blob_rel_path := Some (getBlobRelPath node documentId sourcePath);
     doc_mime_type := guessMimeType node sourcePath;
     doc_size_bytes := size; doc_sha256 := None;
     doc_created_at := now; doc_updated_at := now |}.

(** The rows of a document whose text was chunked: the full windows,
    then the trimmed remainder unless it is empty. *)
Definition stored_parts (full : list jsstring) (carry : jsstring) : list jsstring :=
  full ++ match fst (Chunker.flush carry) with Some rest => [rest] | None => [] end.

(** What a file that was imported without failure leaves in the
    knowledge base [kbId]: a committed document row with its digest, the
    blob with the bytes of the file, and the chunk rows of its text if it
    was indexed. *)
Record file_imported (node : NodeApi) (kbId sourcePath documentId : string)
    (chunkIds : Z -> string) (now : Z) (bufs : list buffer) (w w' : worker) : Prop := {
  fi_fresh : document_of documentId (db_of w kbId) = None;
  fi_tx_before : tx (kb_of w kbId) = None;
  fi_tx : tx (kb_of w' kbId) = None;
  fi_blob : blobs (kb_of w' kbId) !! getBlobRelPath node documentId sourcePath
            = Some (concat bufs);
  fi_document :
    exists d, document_of documentId (db_of w' kbId) = Some d
              /\ doc_sha256 d = Some (Sha256Of (concat bufs))
              /\ doc_kind d = KindFile
              /\ doc_blob_rel_path d = Some (getBlobRelPath node documentId sourcePath)
              /\ doc_source_path d = Some sourcePath;
  fi_chunks :
    if indexed node sourcePath bufs then
      exists full carry,
        Chunker.pushes Chunker.CHUNK_SIZE Chunker.OVERLAP (decoded_text node bufs) full carry
        /\ chunks (db_of w' kbId)
           = chunks (db_of w kbId)
             ++ chunk_rows documentId chunkIds now 0 (stored_parts full carry)
    else chunks (db_of w' kbId) = chunks (db_of w kbId)
}.

(** What a completed stream leaves behind. *)
Record stream_done (node : NodeApi) (kbId sourcePath documentId rel : string) (chunkIds : Z -> string)
    (now : Z) (bufs : list buffer) (w w' : worker) (r : ImportResult) : Prop := {
  sd_status : r_status r = if indexed node sourcePath bufs then ItemDone else ItemSkipped;
  sd_document : r_documentId r = Some documentId;
  sd_error : r_error r = None;
  sd_was_open : tx (kb_of w kbId) <> None;
  sd_tx : tx (kb_of w' kbId) = None;
  sd_blob : forall old, blobs (kb_of w kbId) !! rel = Some old ->
            blobs (kb_of w' kbId) !! rel = Some (old ++ concat bufs);
  sd_documents : documents (db_of w' kbId)
                 = documents (update_sha documentId (Sha256Of (concat bufs)) now (db_of w kbId));
  sd_jobs : jobs (db_of w' kbId) = jobs (db_of w kbId);
  sd_chunks :
    if indexed node sourcePath bufs then
      exists full carry,
        Chunker.pushes Chunker.CHUNK_SIZE Chunker.OVERLAP (decoded_text node bufs) full carry
        /\ chunks (db_of w' kbId)
           = chunks (db_of w kbId)
             ++ chunk_rows documentId chunkIds now 0 (stored_parts full carry)
    else chunks (db_of w' kbId) = chunks (db_of w kbId)
}.

(** [fs.createReadStream(path)] on a regular file: buffers of
    [highWaterMark] bytes (64 KiB by default), the last one shorter. *)
Fixpoint split_every (fuel n : nat) (bytes : buffer) : list buffer :=
  match fuel with
  | O => []
  | S fuel' =>
      match bytes with
      | [] => []
      | _ => take n bytes :: split_every fuel' n (drop n bytes)
      end
  end.

Definition read_stream (bytes : buffer) : read_outcome :=
  {| buffers := split_every (length bytes) (256 * 256) bytes; stream_error := None |}.

(** The statement that the chunk rows of an imported file, read in
    index order and joined with the overlap taken out, give back its
    decoded text. *)
Definition chunks_reconstruct_text (node : NodeApi) (kbId jobItemId sourcePath : string)
    (bytes : buffer) (documentId : string) (chunkIds : Z -> string) (now : Z)
    (w : worker) : Prop :=
  let w' := snd (importOneFile node kbId jobItemId sourcePath
                   (StatFile (Z.of_nat (length bytes))) (read_stream bytes) true
                   documentId chunkIds now w) in
  Chunker.reassemble Chunker.OVERLAP (map chunk_content (chunks_of documentId (db_of w' kbId)))
  = decoded_text node (buffers (read_stream bytes)).

(** Trimming the remainder [carry] changes nothing that reading the
    rows back uses: without a window before it the remainder is the whole
    text and stays as it is; with one, the first [OVERLAP] code units of
    the last piece are dropped, and the trimmed remainder agrees with
    the remainder after them. *)
Definition trim_keeps_text (full : list jsstring) (carry : jsstring) : Prop :=
  match full with
  | [] => Chunker.trim carry = carry
  | _ :: _ =>
      drop Chunker.OVERLAP (Chunker.trim carry) = drop Chunker.OVERLAP carry
  end.


(** The statement that a file with a NUL byte anywhere gets no chunk
    rows. *)
Definition nul_means_no_chunks (node : NodeApi) (kbId jobItemId sourcePath : string)
    (bytes : buffer) (documentId : string) (chunkIds : Z -> string) (now : Z)
    (w : worker) : Prop :=
  In 0 bytes ->
  chunks_of documentId
    (db_of (snd (importOneFile node kbId jobItemId sourcePath
                   (StatFile (Z.of_nat (length bytes))) (read_stream bytes) true
                   documentId chunkIds now w)) kbId) = [].

End Ingest.

(* ------------------------------------------------------------------ *)
(** ** kb-worker.ts: opening a database, the run loop, the handlers    *)
(* ------------------------------------------------------------------ *)

Module Scheduler.
Import Kb Ingest.

(** *** Row updates (the [SET] clauses) *)

Definition set_job (j : job) (status : JobStatus) (progress : Z)
    (error : option string) (started finished : option Z) (updated : Z)
    (heartbeat : option Z) : job :=
  {| job_id := job_id j; job_type := job_type j; job_status := status;
     job_payload := job_payload j; progress_current := progress;
     progress_total := progress_total j; job_error_message := error;
     job_created_at := job_created_at j; job_started_at := started;
     job_finished_at := finished; job_updated_at := updated;
     job_heartbeat_at := heartbeat |}.

Definition set_item (i : job_item) (status : JobItemStatus)
    (error : option string) (updated : Z) (started finished : option Z) : job_item :=
  {| item_id := item_id i; item_job_id := item_job_id i;
     item_source_path := item_source_path i; item_status := status;
     item_error_message := error; item_created_at := item_created_at i;
     item_updated_at := updated; item_started_at := started;
     item_finished_at := finished |}.

Definition with_jobs (f : list job -> list job) (t : tables) : tables :=
  {| jobs := f (jobs t); job_items := job_items t; documents := documents t;
     chunks := chunks t; notes := notes t; schema_migrations := schema_migrations t |}.

Definition with_items (f : list job_item -> list job_item) (t : tables) : tables :=
  {| jobs := jobs t; job_items := f (job_items t); documents := documents t;
     chunks := chunks t; notes := notes t; schema_migrations := schema_migrations t |}.

(** [UPDATE table SET ... WHERE cond] *)
Definition update_where {A} (cond : A -> bool) (set : A -> A) (rows : list A) : list A :=
  map (fun r => if cond r then set r else r) rows.

Definition is_job (jobId : string) (j : job) : bool := String.eqb (job_id j) jobId.
Definition is_item (itemId : string) (i : job_item) : bool := String.eqb (item_id i) itemId.
Definition job_has (s : JobStatus) (j : job) : bool := bool_decide (job_status j = s).
Definition item_has (s : JobItemStatus) (i : job_item) : bool := bool_decide (item_status i = s).

(** [status IN ('done', 'failed', 'skipped')] *)
Definition item_terminal (i : job_item) : bool :=
  item_has ItemDone i || item_has ItemFailed i || item_has ItemSkipped i.

(** [UPDATE jobs SET status = 'paused', updated_at = ? WHERE status = 'processing'] *)
Definition recover_jobs (now : Z) : tables -> tables :=
  with_jobs (update_where (job_has JobProcessing) (fun j =>
    set_job j JobPaused (progress_current j) (job_error_message j)
      (job_started_at j) (job_finished_at j) now (job_heartbeat_at j))).

(** [UPDATE job_items SET status = 'pending', updated_at = ? WHERE status = 'processing'] *)
Definition recover_items (now : Z) : tables -> tables :=
  with_items (update_where (item_has ItemProcessing) (fun i =>
    set_item i ItemPending (item_error_message i) now
      (item_started_at i) (item_finished_at i))).

(** The two statements of the start-up recovery of [getDb], in order. *)
Definition recovery_statements (now : Z) : list (tables -> tables) :=
  [recover_jobs now; recover_items now].

Definition recover (now : Z) (t : tables) : tables :=
  foldl (fun acc stmt => stmt acc) t (recovery_statements now).

(** [UPDATE jobs SET status = 'processing', started_at = COALESCE(started_at, ?),
    updated_at = ?, heartbeat_at = ? WHERE id = ?] *)
Definition mark_processing (jobId : string) (now : Z) : tables -> tables :=
  with_jobs (update_where (is_job jobId) (fun j =>
    set_job j JobProcessing (progress_current j) (job_error_message j)
      (Some (default now (job_started_at j))) (job_finished_at j) now (Some now))).

(** [UPDATE jobs SET status = 'done', finished_at = ?, updated_at = ?,
    heartbeat_at = ? WHERE id = ?] *)
Definition mark_done (jobId : string) (now : Z) : tables -> tables :=
  with_jobs (update_where (is_job jobId) (fun j =>
    set_job j JobDone (progress_current j) (job_error_message j)
      (job_started_at j) (Some now) now (Some now))).

(** [UPDATE jobs SET status = 'failed', error_message = ?, finished_at = ?,
    updated_at = ? WHERE id = ?] *)
Definition mark_failed (jobId message : string) (now : Z) : tables -> tables :=
  with_jobs (update_where (is_job jobId) (fun j =>
    set_job j JobFailed (progress_current j) (Some message)
      (job_started_at j) (Some now) now (job_heartbeat_at j))).

(** [UPDATE job_items SET status = 'processing', started_at = ?, updated_at = ?
    WHERE id = ?] *)
Definition mark_item_processing (itemId : string) (now : Z) : tables -> tables :=
  with_items (update_where (is_item itemId) (fun i =>
    set_item i ItemProcessing (item_error_message i) now (Some now) (item_finished_at i))).

(** [UPDATE job_items SET status = ?, error_message = ?, finished_at = ?,
    updated_at = ? WHERE id = ?] *)
Definition record_item_result (itemId : string) (r : ImportResult) (now : Z)
    : tables -> tables :=
  with_items (update_where (is_item itemId) (fun i =>
    set_item i (r_status r) (r_error r) now (item_started_at i) (Some now))).

(** [SELECT COUNT( * ) FROM job_items WHERE job_id = ? AND status IN
    ('done', 'failed', 'skipped')] *)
Definition count_terminal (jobId : string) (t : tables) : Z :=
  Z.of_nat (length (List.filter
    (fun i => String.eqb (item_job_id i) jobId && item_terminal i) (job_items t))).

(** [UPDATE jobs SET progress_current = ?, updated_at = ?, heartbeat_at = ?
    WHERE id = ?] *)
Definition set_progress (jobId : string) (progress now : Z) : tables -> tables :=
  with_jobs (update_where (is_job jobId) (fun j =>
    set_job j (job_status j) progress (job_error_message j)
      (job_started_at j) (job_finished_at j) now (Some now))).

(** [UPDATE jobs SET status = 'paused', updated_at = ? WHERE id = ? AND
    status IN ('pending','processing')] *)
Definition pause_job (jobId : string) (now : Z) : tables -> tables :=
  with_jobs (update_where
    (fun j => is_job jobId j && (job_has JobPending j || job_has JobProcessing j))
    (fun j => set_job j JobPaused (progress_current j) (job_error_message j)
                (job_started_at j) (job_finished_at j) now (job_heartbeat_at j))).

(** [UPDATE jobs SET status = 'pending', updated_at = ? WHERE id = ? AND
    status IN ('paused','pending')] *)
Definition resume_job (jobId : string) (now : Z) : tables -> tables :=
  with_jobs (update_where
    (fun j => is_job jobId j && (job_has JobPaused j || job_has JobPending j))
    (fun j => set_job j JobPending (progress_current j) (job_error_message j)
                (job_started_at j) (job_finished_at j) now (job_heartbeat_at j))).

(** [UPDATE jobs SET status = 'canceled', finished_at = COALESCE(finished_at, ?),
    updated_at = ? WHERE id = ?] *)
Definition cancel_job (jobId : string) (now : Z) : tables -> tables :=
  with_jobs (update_where (is_job jobId) (fun j =>
    set_job j JobCanceled (progress_current j) (job_error_message j)
      (job_started_at j) (Some (default now (job_finished_at j))) now
      (job_heartbeat_at j))).

(** [UPDATE job_items SET status = 'skipped', updated_at = ? WHERE job_id = ?
    AND status IN ('pending','processing')] *)
Definition skip_open_items (jobId : string) (now : Z) : tables -> tables :=
  with_items (update_where
    (fun i => String.eqb (item_job_id i) jobId
              && (item_has ItemPending i || item_has ItemProcessing i))
    (fun i => set_item i ItemSkipped (item_error_message i) now
                (item_started_at i) (item_finished_at i))).

(** *** Queries *)

(** [SELECT ... FROM jobs WHERE id = ?] *)
Definition find_job (jobId : string) (t : tables) : option job :=
  List.find (is_job jobId) (jobs t).

(** [ORDER BY created_at ASC LIMIT 1]: the row with the least
    [created_at]; among equal timestamps the one inserted first. *)
Definition oldest {A} (created_at : A -> Z) (rows : list A) : option A :=
  foldl (fun acc x =>
           match acc with
           | None => Some x
           | Some y => if created_at x <? created_at y then Some x else Some y
           end) None rows.

(** [SELECT id, source_path FROM job_items WHERE job_id = ? AND status =
    'pending' ORDER BY created_at ASC LIMIT 1] *)
Definition next_pending_item (jobId : string) (t : tables) : option job_item :=
  oldest item_created_at
    (List.filter (fun i => String.eqb (item_job_id i) jobId && item_has ItemPending i)
       (job_items t)).

(** [SELECT 1 FROM jobs WHERE status = 'paused' LIMIT 1] *)
Definition has_paused (t : tables) : bool := existsb (job_has JobPaused) (jobs t).

(** [SELECT id FROM jobs WHERE type = 'import_files' AND status = 'pending'
    ORDER BY created_at ASC LIMIT 1] *)
Definition next_pending_job (t : tables) : option job :=
  oldest job_created_at
    (List.filter (fun j => String.eqb (job_type j) "import_files" && job_has JobPending j)
       (jobs t)).

(** Number of rows of [jobs] with status ['processing']. *)
Definition processing_count (t : tables) : nat :=
  length (List.filter (job_has JobProcessing) (jobs t)).

(** The single-flight invariant of the specification. *)
Definition at_most_one_processing (w : worker) : Prop :=
  forall kbId, (processing_count (db_of w kbId) <= 1)%nat.

(** How the loop of [processImportJob] leaves a synchronous stretch. *)
Inductive loop_exit := Suspended | Exited.

(** The scripts of [KNOWLEDGE_META_MIGRATIONS] only create tables,
    indexes and triggers [IF NOT EXISTS]: they succeed and leave the
    rows alone. *)
Definition exec_schema_script (sql : string) (t : tables) : res tables := Ok t.

(** The migration of [openKnowledgeMetaDb] on the tables of a file. *)
Definition migrate_tables (now : Z) (t : tables) : res unit * tables :=
match Migration.migrateKnowledgeMetaDb exec_schema_script
        Migration.KNOWLEDGE_META_MIGRATIONS now
        {| Migration.data := t;
           Migration.schema_migrations := schema_migrations t |} with
| (r, m) =>
    (r, {| jobs := jobs (Migration.data m); job_items := job_items (Migration.data m);
           documents := documents (Migration.data m);
           chunks := chunks (Migration.data m); notes := notes (Migration.data m);
           schema_migrations := Migration.schema_migrations m |})
end.

(** [openKnowledgeMetaDb(dbPath)]: open and migrate. *)
Definition openKnowledgeMetaDb (now : Z) (kbId : string) : M unit :=
t ← gets (fun w => db_of w kbId);
match migrate_tables now t with
| (Ok _, t') => db_run kbId (fun _ => t')
| (Throw msg, _) => throw msg
end.

(** [ensureKbDirs(kbId)]: the directory exists afterwards (the
    manifest file is not part of the model). *)
Definition ensureKbDirs (kbId : string) : M unit :=
  modify (with_kb kbId (fun k => k)).

(** The statements of [getDb(kbId)] when the handle is not cached. *)
Definition getDb_statements (now : Z) (kbId : string) : list (M unit) :=
[ ensureKbDirs kbId;
  openKnowledgeMetaDb now kbId;
  db_run kbId (recover_jobs now);
  db_run kbId (recover_items now);
  modify (with_dbCache (fun c => {[kbId]} ∪ c)) ].

(** [getDb(kbId)] *)
Definition getDb (now : Z) (kbId : string) : M unit :=
cached ← gets (fun w => bool_decide (kbId ∈ dbCache w));
if (cached : bool) then ret () else run_all (getDb_statements now kbId).

(** The directory after [getDb] opened its database. *)
Definition opened (now : Z) (k : kbdir) : kbdir :=
  {| meta := recover now (snd (migrate_tables now (meta k))); tx := tx k; blobs := blobs k |}.

(** The worker after its process died [n] statements into [getDb] and
  was started again. *)
Definition open_interrupted (n : nat) (now : Z) (kbId : string) (w : worker) : worker :=
restart (snd (run_all (take n (getDb_statements now kbId)) w)).

(** The recovery pass "inside one transaction": a process that dies
  after the migration (the second statement) leaves either none or all
  of the recovery in the file. *)
Definition recovery_is_atomic (now : Z) (kbId : string) (w : worker) : Prop :=
forall n, (2 <= n)%nat ->
  db_of (open_interrupted n now kbId w) kbId = db_of (open_interrupted 2 now kbId w) kbId
  \/ db_of (open_interrupted n now kbId w) kbId = db_of (snd (getDb now kbId w)) kbId.

(** [sendEvent("job:update", { kbId, job: jobSummary(db, jobId) })] *)
Definition sendJobUpdate (kbId jobId : string) : M unit :=
  t ← gets (fun w => db_of w kbId);
  send (MsgEvent "job:update" kbId (find_job jobId t)).

(** [scheduleNextPendingJob(kbId, db)]; [start] is
    [void processImportJob(kbId, ·)]. *)
Definition scheduleNextPendingJob (start : string -> M unit) (kbId : string) : M unit :=
  t ← gets (fun w => db_of w kbId);
  if has_paused t then ret ()
  else
    match next_pending_job t with
    | Some next =>
        if String.eqb (job_id next) "" then ret ()
        else ignore_errors (start (job_id next))
    | None => ret ()
    end.

(** One pass from the top of [while (true)] to the next
    [await importOneFile(...)] or out of the loop. *)
Definition loop_top (now : Z) (kbId jobId : string) : M loop_exit :=
  canceled ← gets (fun w => bool_decide (jobId ∈ inMemoryCanceledJobs w));
  if (canceled : bool) then ret Exited
  else
    t ← gets (fun w => db_of w kbId);
    match job_status <$> find_job jobId t with
    | None | Some JobDone | Some JobFailed | Some JobCanceled | Some JobPaused =>
        ret Exited
    | Some JobPending | Some JobProcessing =>
        match next_pending_item jobId t with
        | None =>
            db_run kbId (mark_done jobId now);;
            sendJobUpdate kbId jobId;;
            ret Exited
        | Some next =>
            db_run kbId (mark_item_processing (item_id next) now);;
            getDb now kbId;;
            modify (with_suspended (fun s =>
              <[kbId := {| sl_job := jobId; sl_item := item_id next;
                           sl_source := item_source_path next;
                           sl_phase := AwaitStat |}]> s));;
            ret Suspended
        end
    end.

(** The statements of the loop body after [await importOneFile]. *)
Definition after_import (r : ImportResult) (now : Z) (kbId jobId itemId : string)
    : M unit :=
  db_run kbId (record_item_result itemId r now);;
  t ← gets (fun w => db_of w kbId);
  db_run kbId (set_progress jobId (count_terminal jobId t) now);;
  sendJobUpdate kbId jobId.

(** The [try { ... } catch { ... } finally { ... }] around the loop, for
    one synchronous stretch [body] of it. *)
Definition loop_segment (start : string -> M unit) (now : Z) (kbId jobId : string)
    (body : M loop_exit) : M unit :=
  let finally :=
    modify (with_running (fun r => delete kbId r));;
    scheduleNextPendingJob start kbId in
  fun w =>
    match body w with
    | (Ok Suspended, w') => (Ok (), w')
    | (Ok Exited, w') => finally w'
    | (Throw message, w') =>
        (db_run kbId (mark_failed jobId message now);;
         sendJobUpdate kbId jobId;;
         finally) w'
    end.

(** [runningByKb.get(kbId) && runningByKb.get(kbId) !== jobId] *)
Definition other_job_running (running : option string) (jobId : string) : bool :=
  match running with
  | Some r => negb (String.eqb r "") && negb (String.eqb r jobId)
  | None => false
  end.

(** [processImportJob(kbId, jobId)] up to its first [await]. The calls
    nest through [scheduleNextPendingJob]; [fuel] bounds the nesting. *)
Fixpoint processImportJob (fuel : nat) (now : Z) (kbId jobId : string) : M unit :=
  match fuel with
  | O => ret ()
  | S fuel' =>
      getDb now kbId;;
      running ← gets (fun w => runningByKb w !! kbId);
      if other_job_running running jobId then ret ()
      else
        modify (with_running (fun r => <[kbId := jobId]> r));;
        db_run kbId (mark_processing jobId now);;
        sendJobUpdate kbId jobId;;
        loop_segment (processImportJob fuel' now kbId) now kbId jobId
          (loop_top now kbId jobId)
  end.

(** Enough fuel for every nesting that can occur: each nested call
    takes one more job out of the pending ones, so any larger amount
    gives the same worker (see [start_job_enough_fuel]). *)
Definition fuel_for (w : worker) (kbId : string) : nat :=
  S (S (length (jobs (db_of w kbId)))).

(** [void processImportJob(kbId, jobId)] *)
Definition start_job (now : Z) (kbId jobId : string) : M unit :=
  fuel ← gets (fun w => fuel_for w kbId);
  ignore_errors (processImportJob fuel now kbId jobId).

(** The loop continues after a step of [importOneFile]. *)
Definition continue_loop (now : Z) (kbId : string) (sl : suspended_loop)
    (step : M import_step) : M unit :=
  modify (with_suspended (fun s => delete kbId s));;
  ignore_errors
    (loop_segment (start_job now kbId) now kbId (sl_job sl)
       (s ← step;
        match s with
        | Awaiting p =>
            modify (with_suspended (fun m =>
              <[kbId := {| sl_job := sl_job sl; sl_item := sl_item sl;
                           sl_source := sl_source sl; sl_phase := p |}]> m));;
            ret Suspended
        | Returned r =>
            after_import r now kbId (sl_job sl) (sl_item sl);;
            loop_top now kbId (sl_job sl)
        end)).

End Scheduler.

(* ------------------------------------------------------------------ *)
(** ** kb-worker.ts: the request handlers and the worker as a machine  *)
(* ------------------------------------------------------------------ *)

Module Handlers.
Import Js Kb Ingest Scheduler.

(** What one request reads from outside the worker: the clock, the UUIDs
    it draws (in drawing order), the files found under a directory by
    [collectFilesFromDirectory(dir, recursive)], and the rows the
    full-text index returns for a query. *)
Record call_env := {
  now : Z;
  uuid : nat -> string;
  collect : string -> bool -> list string;
  fts_match : tables -> jsstring -> Z -> list (string * string)
}.

Inductive request :=
| EnsureInitialized (kbId : string)
| ImportFiles (kbId : string) (sources : list ImportSource)
| ListJobs (kbId : string)
| PauseJob (kbId jobId : string)
| ResumeJob (kbId jobId : string)
| CancelJob (kbId jobId : string)
| Search (kbId : string) (query : jsstring) (limit : Z)
| CreateNote (kbId : string) (title content : jsstring)
| GetStats (kbId : string).

(** [[...new Set(files)]]: first occurrences, in order. *)
Fixpoint dedupe (seen : gset string) (files : list string) : list string :=
  match files with
  | [] => []
  | f :: rest =>
      if bool_decide (f ∈ seen) then dedupe seen rest
      else f :: dedupe ({[f]} ∪ seen) rest
  end.

(** [resolveImportFileList(sources)] *)
Definition resolveImportFileList (collect : string -> bool -> list string)
    (sources : list ImportSource) : list string :=
  dedupe ∅
    (concat (map (fun source =>
       match source with
       | SrcFiles paths => paths
       | SrcDirectory paths recursive =>
           concat (map (fun dir => collect dir (default true recursive)) paths)
       end) sources)).

(** [INSERT INTO jobs(...) VALUES (?, 'import_files', 'pending', ?, 0, ?,
    NULL, ?, NULL, NULL, ?, NULL)]: the id is the primary key. *)
Definition insert_job (jobId : string) (sources : list ImportSource) (total now : Z)
    (t : tables) : res tables :=
  if existsb (is_job jobId) (jobs t) then Throw "UNIQUE constraint failed: jobs.id"
  else Ok (with_jobs (fun l => l ++
    [{| job_id := jobId; job_type := "import_files"; job_status := JobPending;
        job_payload := sources; progress_current := 0; progress_total := total;
        job_error_message := None; job_created_at := now; job_started_at := None;
        job_finished_at := None; job_updated_at := now;
        job_heartbeat_at := None |}]) t).

(** [INSERT INTO job_items(...) VALUES (?, ?, 'file', ?, 'pending', NULL, ?,
    ?, NULL, NULL)]: unique index on [(job_id, source_path)], primary key
    [id], foreign key [job_id]. SQLite tests the unique indexes of a
    table from the newest to the oldest while it inserts the row, and
    the foreign keys when the statement ends. *)
Definition insert_item (itemId jobId sourcePath : string) (now : Z)
    (t : tables) : res tables :=
  if existsb (fun i => String.eqb (item_job_id i) jobId
                       && String.eqb (item_source_path i) sourcePath) (job_items t)
  then Throw "UNIQUE constraint failed: job_items.job_id, job_items.source_path"
  else if existsb (is_item itemId) (job_items t)
  then Throw "UNIQUE constraint failed: job_items.id"
  else if negb (existsb (is_job jobId) (jobs t))
  then Throw "FOREIGN KEY constraint failed"
  else Ok (with_items (fun l => l ++
    [{| item_id := itemId; item_job_id := jobId; item_source_path := sourcePath;
        item_status := ItemPending; item_error_message := None;
        item_created_at := now; item_updated_at := now; item_started_at := None;
        item_finished_at := None |}]) t).

(** [INSERT INTO notes(document_id, content)]: [document_id] is the
    primary key and a foreign key. *)
Definition insert_note (documentId : string) (content : jsstring) (t : tables)
    : res tables :=
  if existsb (fun n => String.eqb (note_document_id n) documentId) (notes t)
  then Throw "UNIQUE constraint failed: notes.document_id"
  else if negb (existsb (fun d => String.eqb (doc_id d) documentId) (documents t))
  then Throw "FOREIGN KEY constraint failed"
  else Ok {| jobs := jobs t; job_items := job_items t; documents := documents t;
             chunks := chunks t;
             notes := notes t ++ [{| note_document_id := documentId;
                                     note_content := content |}];
             schema_migrations := schema_migrations t |}.

(** The order of [ORDER BY created_at DESC]. *)
Definition newer_first (a b : job) : Prop := job_created_at b <= job_created_at a.
#[global] Instance newer_first_dec : RelDecision newer_first.
Proof. intros a b. unfold newer_first. apply _. Defined.

Section WithNode.
Variable node : NodeApi.
Variable USER_DATA_PATH : string.

Definition getKnowledgeMetaDbPathFromUserData (kbId : string) : string :=
  join node (join node (join node USER_DATA_PATH "knowledge-bases") kbId) "meta.sqlite".

Definition handleEnsureInitialized (env : call_env) (kbId : string) : M value :=
  if String.eqb kbId "" then throw "kbId 不能为空"
  else
    ensureKbDirs kbId;;
    getDb (now env) kbId;;
    ret (VInit kbId (getKnowledgeMetaDbPathFromUserData kbId)).

(** [for (const sourcePath of files) insertItem.run(randomUUID(), jobId,
    sourcePath, now, now)]; the [n]-th UUID of the call is [uuid env n]. *)
Fixpoint insert_items (env : call_env) (kbId jobId : string) (n : nat)
    (files : list string) : M unit :=
  match files with
  | [] => ret ()
  | sourcePath :: rest =>
      db_try kbId (insert_item (uuid env n) jobId sourcePath (now env));;
      insert_items env kbId jobId (S n) rest
  end.

Definition handleImportFiles (env : call_env) (kbId : string)
    (sources : list ImportSource) : M value :=
  if String.eqb kbId "" then throw "kbId 不能为空"
  else if bool_decide (sources = []) then throw "sources 不能为空"
  else
    ensureKbDirs kbId;;
    getDb (now env) kbId;;
    let files := resolveImportFileList (collect env) sources in
    if bool_decide (files = []) then throw "未发现可导入的文件"
    else
      let jobId := uuid env 0 in
      db_begin kbId;;
      try_catch
        (db_try kbId (insert_job jobId sources (Z.of_nat (length files)) (now env));;
         insert_items env kbId jobId 1 files;;
         db_commit kbId)
        (fun e => ignore_errors (db_rollback kbId);; throw e);;
      running ← gets (fun w => runningByKb w !! kbId);
      (if running is None then start_job (now env) kbId jobId else ret ());;
      sendJobUpdate kbId jobId;;
      ret (VJobId jobId).

(** [ORDER BY created_at DESC LIMIT 200] *)
Definition handleListJobs (env : call_env) (kbId : string) : M value :=
  if String.eqb kbId "" then throw "kbId 不能为空"
  else
    getDb (now env) kbId;;
    t ← gets (fun w => db_of w kbId);
    ret (VJobs (take 200
      (merge_sort newer_first (jobs t)))).

Definition handlePauseJob (env : call_env) (kbId jobId : string) : M value :=
  if String.eqb kbId "" || String.eqb jobId "" then throw "kbId/jobId 不能为空"
  else
    getDb (now env) kbId;;
    db_run kbId (pause_job jobId (now env));;
    sendJobUpdate kbId jobId;;
    ret VSuccess.

Definition handleResumeJob (env : call_env) (kbId jobId : string) : M value :=
  if String.eqb kbId "" || String.eqb jobId "" then throw "kbId/jobId 不能为空"
  else
    getDb (now env) kbId;;
    db_run kbId (resume_job jobId (now env));;
    running ← gets (fun w => runningByKb w !! kbId);
    (if running is None then start_job (now env) kbId jobId else ret ());;
    sendJobUpdate kbId jobId;;
    ret VSuccess.

Definition handleCancelJob (env : call_env) (kbId jobId : string) : M value :=
  if String.eqb kbId "" || String.eqb jobId "" then throw "kbId/jobId 不能为空"
  else
    modify (with_canceled (fun c => {[jobId]} ∪ c));;
    getDb (now env) kbId;;
    db_run kbId (cancel_job jobId (now env));;
    db_run kbId (skip_open_items jobId (now env));;
    sendJobUpdate kbId jobId;;
    ret VSuccess.

Definition handleSearch (env : call_env) (kbId : string) (query : jsstring)
    (limit : Z) : M value :=
  let query := Chunker.trim query in
  if String.eqb kbId "" then throw "kbId 不能为空"
  else if bool_decide (query = []) then ret (VSearch [])
  else
    getDb (now env) kbId;;
    t ← gets (fun w => db_of w kbId);
    ret (VSearch (fts_match env t query limit)).

Definition handleCreateNote (env : call_env) (kbId : string)
    (title content : jsstring) : M value :=
  let title := Chunker.trim title in
  if String.eqb kbId "" then throw "kbId 不能为空"
  else if bool_decide (title = []) then throw "title 不能为空"
  else
    getDb (now env) kbId;;
    let documentId := uuid env 0 in
    db_begin kbId;;
    try_catch
      (db_try kbId (insert_document
         {| doc_id := documentId; doc_kind := KindNote; doc_title := title;
            doc_source_path := None; doc_blob_rel_path := None;
            doc_mime_type := Some "text/markdown";
            doc_size_bytes := byteLength node content; doc_sha256 := None;
            doc_created_at := now env; doc_updated_at := now env |});;
       db_try kbId (insert_note documentId content);;
       match Chunker.push Chunker.CHUNK_SIZE Chunker.OVERLAP [] content with
       | None => throw "chunker does not terminate"
       | Some (parts, carry) =>
           let ids := fun i => uuid env (S (Z.to_nat i)) in
           idx ← insert_parts kbId documentId ids (now env) parts 0;
           match fst (Chunker.flush carry) with
           | Some rest =>
               _ ← insert_parts kbId documentId ids (now env) [rest] idx; ret ()
           | None => ret ()
           end
       end;;
       db_commit kbId)
      (fun e => ignore_errors (db_rollback kbId);; throw e);;
    ret (VDocumentId documentId).

Definition handleGetStats (env : call_env) (kbId : string) : M value :=
  if String.eqb kbId "" then throw "kbId 不能为空"
  else
    getDb (now env) kbId;;
    t ← gets (fun w => db_of w kbId);
    ret (VStats (Z.of_nat (length (documents t))) (Z.of_nat (length (chunks t)))
                (Z.of_nat (length (jobs t)))).

(** The statement that a failed import leaves the metadata store of
    the knowledge base as it was. *)
Definition failed_import_leaves_store (env : call_env) (kbId : string)
    (sources : list ImportSource) (w : worker) : Prop :=
  resolveImportFileList (collect env) sources = [] ->
  db_of (snd (handleImportFiles env kbId sources w)) kbId = db_of w kbId.

(** The handler a request is routed to. *)
Definition handle (env : call_env) (req : request) : M value :=
  match req with
  | EnsureInitialized kbId => handleEnsureInitialized env kbId
  | ImportFiles kbId sources => handleImportFiles env kbId sources
  | ListJobs kbId => handleListJobs env kbId
  | PauseJob kbId jobId => handlePauseJob env kbId jobId
  | ResumeJob kbId jobId => handleResumeJob env kbId jobId
  | CancelJob kbId jobId => handleCancelJob env kbId jobId
  | Search kbId query limit => handleSearch env kbId query limit
  | CreateNote kbId title content => handleCreateNote env kbId title content
  | GetStats kbId => handleGetStats env kbId
  end.

(** [try { respondOk(id, await handler(params)) } catch (error)
    { respondError(id, error) }] *)
Definition serve (id : jsval) (env : call_env) (req : request) : M unit :=
  fun w =>
    match handle env req w with
    | (Ok result, w') => send (MsgOk id result) w'
    | (Throw msg, w') => send (MsgError id msg) w'
    end.

(** What happens to the worker, one synchronous stretch at a time: a
    request is served, [importOneFile] is resumed by the file system,
    or the process dies and is started again. Every handler runs to
    its end without yielding once the file list of [kb.importFiles] is
    known, so a request is one step. *)
Inductive event :=
| Request (id : jsval) (req : request) (env : call_env)
| StatSettled (kbId : string) (st : stat_result) (documentId : string) (now : Z)
| StreamSettled (kbId : string) (out : read_outcome) (chunkIds : Z -> string) (now : Z)
| RmSettled (kbId : string) (removed : bool) (now : Z)
| Restart.

Definition step (ev : event) (w : worker) : worker :=
  match ev with
  | Request id req env => snd (serve id env req w)
  | StatSettled kbId st documentId now =>
      match suspended w !! kbId with
      | Some sl =>
          match sl_phase sl with
          | AwaitStat =>
              snd (continue_loop now kbId sl
                     (importOneFile_on_stat node kbId (sl_item sl) (sl_source sl)
                        st documentId now) w)
          | _ => w
          end
      | None => w
      end
  | StreamSettled kbId out chunkIds now =>
      match suspended w !! kbId with
      | Some sl =>
          match sl_phase sl with
          | AwaitStream documentId blobRelPath =>
              snd (continue_loop now kbId sl
                     (importOneFile_on_stream node kbId (sl_item sl) (sl_source sl)
                        documentId blobRelPath out chunkIds now) w)
          | _ => w
          end
      | None => w
      end
  | RmSettled kbId removed now =>
      match suspended w !! kbId with
      | Some sl =>
          match sl_phase sl with
          | AwaitRm blobRelPath message =>
              snd (continue_loop now kbId sl
                     (importOneFile_on_rm kbId (sl_item sl) blobRelPath message removed
                        now) w)
          | _ => w
          end
      | None => w
      end
  | Restart => restart w
  end.

Definition run (evs : list event) (w : worker) : worker :=
  foldl (fun w ev => step ev w) w evs.

(** The states the worker can be in. *)
Definition reachable (w : worker) : Prop :=
  exists evs, w = run evs initial_worker.

End WithNode.
End Handlers.

(* ------------------------------------------------------------------ *)
(** ** kb-worker.ts: the message listener                              *)
(* ------------------------------------------------------------------ *)

Module Rpc.
Import Js Kb.

Inductive handler_name :=
| HEnsureInitialized | HImportFiles | HListJobs | HPauseJob | HResumeJob
| HCancelJob | HSearch | HCreateNote | HGetStats.

(** The object literal [handlers]. *)
Definition handlers : gmap string handler_name :=
  list_to_map
    [ ("kb.ensureInitialized", HEnsureInitialized);
      ("kb.importFiles", HImportFiles);
      ("kb.listJobs", HListJobs);
      ("kb.pauseJob", HPauseJob);
      ("kb.resumeJob", HResumeJob);
      ("kb.cancelJob", HCancelJob);
      ("kb.search", HSearch);
      ("kb.createNote", HCreateNote);
      ("kb.getStats", HGetStats) ].

(** [handlers] is a plain object: a key it does not own is looked up on
    [Object.prototype], whose string keys these are. *)
Definition Object_prototype_keys : gset string :=
  list_to_set
    [ "constructor"; "__defineGetter__"; "__defineSetter__"; "hasOwnProperty";
      "__lookupGetter__"; "__lookupSetter__"; "isPrototypeOf";
      "propertyIsEnumerable"; "toString"; "valueOf"; "__proto__";
      "toLocaleString" ].

Inductive handler_ref :=
| Own (h : handler_name)
| Inherited (key : string).

(** [handlers[method]]; [None] is [undefined]. *)
Definition get_handler (key : string) : option handler_ref :=
  match handlers !! key with
  | Some h => Some (Own h)
  | None =>
      if bool_decide (key ∈ Object_prototype_keys) then Some (Inherited key)
      else None
  end.

Definition respondOk (id : jsval) (result : value) : M unit := send (MsgOk id result).
Definition respondError (id : jsval) (message : string) : M unit := send (MsgError id message).

Section Listener.
(** [await handler(params)]: what calling the looked-up value does. *)
Variable invoke : handler_ref -> jsval -> M value.

(** [process.on("message", async (msg) => { ... })]. A [Throw] is a
    rejection of the listener's promise. *)
Definition on_message (msg : jsval) : M unit :=
  if negb (truthy msg) || negb (typeof_object msg) then ret ()
  else
    let id := get "id" msg in
    let method := get "method" msg in
    let params := get "params" msg in
    if negb (truthy id) || negb (truthy method) then ret ()
    else
      match ToString method with
      | None => throw "TypeError: Cannot convert object to primitive value"
      | Some key =>
          match get_handler key with
          | None => respondError id ("未知方法: " +:+ key)
          | Some handler =>
              fun w =>
                match invoke handler params w with
                | (Ok result, w') => respondOk id result w'
                | (Throw message, w') => respondError id message w'
                end
          end
      end.

(** A message the listener drops at one of its two guards. *)
Definition malformed (msg : jsval) : bool :=
  negb (truthy msg) || negb (typeof_object msg)
  || negb (truthy (get "id" msg)) || negb (truthy (get "method" msg)).

End Listener.

(** A request as [call(method, params)] of the client builds it. *)
Definition request_message (id method : string) (params : jsval) : jsval :=
  JObj [("id", JStr id); ("method", JStr method); ("params", params)].

End Rpc.

(* ------------------------------------------------------------------ *)
(** ** worker-client.ts: pending calls of the controller               *)
(* ------------------------------------------------------------------ *)

Module Client.
Import Js Kb.

(** How the promise returned by [call] ended. *)
Inductive settlement :=
| Resolved (result : value)
| Rejected (message : string).

(** [pending] maps the id of a call whose timer is armed to its method
    (the timer's closure keeps it for the error text); [settled] lists the
    promises settled so far; [requests] is what went to [child.send]. *)
Record client := {
  pending : gmap string string;
  settled : list (string * settlement);
  requests : list jsval
}.

Definition new_client : client :=
  {| pending := ∅; settled := []; requests := [] |}.

Inductive client_event :=
| Call (id method : string) (params : jsval)   (* call(method, params), id drawn *)
| Message (msg : message)                      (* child.on("message") *)
| TimerFired (id : string)                     (* the setTimeout callback *)
| Dispose.                                     (* dispose(), child "exit" or "error" *)

Definition settle (id : string) (s : settlement) (c : client) : client :=
  {| pending := delete id (pending c);
     settled := settled c ++ [(id, s)];
     requests := requests c |}.

(** [pending.get(res.id)]: the keys of the map are strings. *)
Definition pending_call (id : jsval) (c : client) : option string :=
  match id with
  | JStr s => if bool_decide (s ∈ dom (pending c)) then Some s else None
  | _ => None
  end.

Definition client_step (ev : client_event) (c : client) : client :=
  match ev with
  | Call id method params =>
      {| pending := <[id := method]> (pending c);
         settled := settled c;
         requests := requests c ++ [Rpc.request_message id method params] |}
  | Message (MsgEvent _ _ _) => c
  | Message (MsgOk id result) =>
      match pending_call id c with
      | Some s => settle s (Resolved result) c
      | None => c
      end
  | Message (MsgError id message) =>
      match pending_call id c with
      | Some s => settle s (Rejected message) c
      | None => c
      end
  | TimerFired id =>
      match pending c !! id with
      | Some method => settle id (Rejected ("知识库任务超时: " +:+ method)) c
      | None => c
      end
  | Dispose =>
      {| pending := ∅;
         settled := settled c ++
           map (fun id => (id, Rejected "知识库工作进程已退出")) (elements (dom (pending c)));
         requests := requests c |}
  end.

(** The event carries a response for the call [id]. *)
Definition responds_to (id : string) (ev : client_event) : bool :=
  match ev with
  | Message (MsgOk (JStr s) _) | Message (MsgError (JStr s) _) => String.eqb s id
  | _ => false
  end.

(** The statement that a call whose request the worker dropped ends by
    its timer only: whatever event takes it out of [pending], without
    being a response to it, is the firing of its timer. *)
Definition ends_only_by_timeout (c : client) (id : string) : Prop :=
  forall ev,
    is_Some (pending c !! id) ->
    responds_to id ev = false ->
    pending (client_step ev c) !! id = None ->
    ev = TimerFired id.

End Client.

(* ------------------------------------------------------------------ *)
(** ** Sample surroundings for concrete runs                           *)
(* ------------------------------------------------------------------ *)

Module Sample.
Import Js Kb Ingest Scheduler Handlers.

Fixpoint after_last (sep : ascii) (l : list ascii) (acc : list ascii) : list ascii :=
  match l with
  | [] => acc
  | c :: rest =>
      if Ascii.eqb c sep then after_last sep rest rest else after_last sep rest acc
  end.

(** [path.basename] on a POSIX path without trailing slash. *)
Definition posix_basename (p : string) : string :=
  let l := String.list_ascii_of_string p in
  String.string_of_list_ascii (after_last "/" l l).

(** [path.extname] on such a path: from the last dot of the base name,
    unless there is none or it is the first character. *)
Definition posix_extname (p : string) : string :=
  let b := String.list_ascii_of_string (posix_basename p) in
  let e := after_last "." b b in
  if (length e =? length b)%nat then ""
  else if (S (length e) =? length b)%nat && negb (length e =? 0)%nat then ""
  else if String.eqb (posix_basename p) ".." then ""
  else String.String "." (String.string_of_list_ascii e).

Definition posix_join (a b : string) : string := a +:+ "/" +:+ b.

(** [toLowerCase] on 7-bit text. *)
Definition ascii_lower (c : ascii) : ascii :=
  let n := nat_of_ascii c in
  if ((65 <=? n) && (n <=? 90))%nat then ascii_of_nat (n + 32) else c.

Definition ascii_toLowerCase (s : string) : string :=
  String.string_of_list_ascii (map ascii_lower (String.list_ascii_of_string s)).

(** A decoder that is exact on 7-bit input: one code unit per byte, the
    replacement character for any other byte; it never holds bytes back. *)
Definition ascii_decode (buf : buffer) : jsstring :=
  map (fun b => if b <? 128 then b else 65533) buf.

Definition posix_ascii : NodeApi :=
  {| extname := posix_extname;
     basename := posix_basename;
     join := posix_join;
     toLowerCase := ascii_toLowerCase;
     byteLength := fun s => Z.of_nat (length s);
     decoder_state := unit;
     decoder_new := ();
     decoder_write := fun _ buf => (ascii_decode buf, ());
     decoder_end := fun _ => [] |}.

(** A request environment at time [t] whose UUIDs are [prefix] followed
    by a counter, with empty directories and an empty index. *)
Definition numbered (prefix : string) (n : nat) : string :=
  prefix +:+ String.string_of_list_ascii (replicate n "'"%char).

Definition env_at (t : Z) (prefix : string) : call_env :=
  {| now := t; uuid := numbered prefix;
     collect := fun _ _ => []; fts_match := fun _ _ _ => [] |}.

Definition sample_step := step posix_ascii "/data".
Definition sample_run := run posix_ascii "/data".

Definition status_of (w : worker) (kbId jobId : string) : option JobStatus :=
  job_status <$> find_job jobId (db_of w kbId).

Definition files (paths : list string) : list ImportSource := [SrcFiles paths].

(** A worker whose process died while job ["A"] was importing its
    only file. *)
Definition crashed_worker : worker :=
  sample_run
    [ Request (JStr "r1") (ImportFiles "kb" (files ["/tmp/a.txt"])) (env_at 1 "A");
      Restart ]
    initial_worker.

(** The three bytes of ["hi\n"]. *)
Definition hi_newline : buffer := [104; 105; 10].

Definition chunk_ids (i : Z) : string := numbered "c" (Z.to_nat i).

(** A text file of 64 KiB of the letter [a] followed by one NUL byte:
    the NUL arrives in the second buffer of the read stream. *)
Definition late_nul_file : buffer := replicate (256 * 256) 97 ++ [0].

(** A file whose first byte is NUL. *)
Definition early_nul_file : buffer := [0; 104; 105].

(** A text file of 4000 times the letter [a]: two full windows and a
    remainder of 400 code units. *)
Definition long_text_file : buffer := replicate 4000 97.

(** A text file of 1800 times the letter [a] followed by 200 blanks:
    one window holds all of it, and what remains after the window is
    white space only. *)
Definition blank_tail_file : buffer := replicate 1800 97 ++ replicate 200 32.





(** Job ["A"] imports [/tmp/a.txt] and runs to its end. *)
Definition import_A : list event :=
  [ Request (JStr "r1") (ImportFiles "kb" (files ["/tmp/a.txt"])) (env_at 1 "A");
    StatSettled "kb" (StatFile 3) "d1" 2;
    StreamSettled "kb" (read_stream hi_newline) chunk_ids 3 ].

Definition worker_A_done : worker := sample_run import_A initial_worker.

Definition cancel_A : event := Request (JStr "r2") (CancelJob "kb" "A") (env_at 4 "x").
Definition resume_A : event := Request (JStr "r3") (ResumeJob "kb" "A") (env_at 5 "y").
Definition import_B : event :=
  Request (JStr "r4") (ImportFiles "kb" (files ["/tmp/b.txt"])) (env_at 6 "B").

(** The finished job is cancelled, resumed, and a second import is
    requested. *)
Definition two_jobs_trace : list event := import_A ++ [cancel_A; resume_A; import_B].
Definition worker_two_jobs : worker := sample_run two_jobs_trace initial_worker.

(** Job ["A"] is cancelled while its only file is being looked up, then
    the lookup fails. *)
Definition cancel_in_flight_trace : list event :=
  [ Request (JStr "r1") (ImportFiles "kb" (files ["/tmp/a.txt"])) (env_at 1 "A");
    Request (JStr "r2") (CancelJob "kb" "A") (env_at 2 "x");
    StatSettled "kb" StatError "d1" 3 ].
Definition worker_canceled_in_flight : worker :=
  sample_run cancel_in_flight_trace initial_worker.

(** Job ["A"] is cancelled with its item still open, the worker process
    is started again, and the job is resumed. *)
Definition cancel_restart_resume_trace : list event :=
  [ Request (JStr "r1") (ImportFiles "kb" (files ["/tmp/a.txt"])) (env_at 1 "A");
    Request (JStr "r2") (CancelJob "kb" "A") (env_at 2 "x");
    Restart;
    Request (JStr "r3") (ResumeJob "kb" "A") (env_at 5 "y") ].
Definition worker_done_unfinished : worker :=
  sample_run cancel_restart_resume_trace initial_worker.

Definition job_row (w : worker) (kbId jobId : string) : option job :=
  find_job jobId (db_of w kbId).

Definition item_statuses (w : worker) (kbId : string) : list (string * JobItemStatus) :=
  map (fun i => (item_id i, item_status i)) (job_items (db_of w kbId)).

(** A handler that returns at once, for runs of the listener. *)
Definition sample_invoke (h : Rpc.handler_ref) (params : jsval) : M value := ret VSuccess.

(** The client after [call("", null)] drew the id ["c1"]. *)
Definition client_after_empty_method : Client.client :=
  Client.client_step (Client.Call "c1" "" JNull) Client.new_client.

(** The client after [call("kb.search", null)] drew the id ["c2"]. *)
Definition client_after_search : Client.client :=
  Client.client_step (Client.Call "c2" "kb.search" JNull) Client.new_client.

End Sample.

(* ------------------------------------------------------------------ *)
(** ** Progress of a job: the invariant of the tables and of the loops *)
(* ------------------------------------------------------------------ *)

Module Progress.
Import Js Kb Ingest Scheduler Handlers.

(** [SELECT COUNT( * ) FROM job_items WHERE job_id = ?] *)
Definition count_items (jobId : string) (t : tables) : Z :=
  Z.of_nat (length (List.filter (fun i => String.eqb (item_job_id i) jobId) (job_items t))).

(** What a reader of [jobs] sees of the progress of a row. *)
Definition progress_row (j : job) : string * Z * Z :=
  (job_id j, progress_current j, progress_total j).

(** The tables of one database are in order: item ids are unique (the
    primary key), every item belongs to a job (the foreign key), and for
    every job the progress counter is not ahead of the items that are
    finished, while the job has no more items than its total. *)
Record tables_ok (t : tables) : Prop := {
  ok_item_ids : NoDup (map item_id (job_items t));
  ok_item_job : Forall (fun i => existsb (is_job (item_job_id i)) (jobs t) = true)
                  (job_items t);
  ok_progress : Forall (fun j => 0 <= progress_current j <= count_terminal (job_id j) t
                                 /\ count_items (job_id j) t <= progress_total j)
                  (jobs t)
}.

(** Two versions of the tables show the same jobs with the same progress. *)
Definition jobs_frame (t t' : tables) : Prop :=
  map progress_row (jobs t) = map progress_row (jobs t').

(** Every job of [t] is still there in [t'], with the same total and a
    progress counter that is not smaller. *)
Definition progress_le (t t' : tables) : Prop :=
  forall jobId j, find_job jobId t = Some j ->
    exists j', find_job jobId t' = Some j'
               /\ progress_total j' = progress_total j
               /\ progress_current j <= progress_current j'.

(** A directory is in order: its tables are, and so is what a [ROLLBACK]
    would restore, which shows the same progress. *)
Definition kb_inv (k : kbdir) : Prop :=
  tables_ok (meta k)
  /\ forall s, tx k = Some s -> tables_ok s /\ jobs_frame s (meta k).

Definition Data (w : worker) : Prop := forall kbId, kb_inv (kb_of w kbId).

Definition W (w w' : worker) : Prop :=
  forall kbId, progress_le (db_of w kbId) (db_of w' kbId).

(** The control state of a knowledge base: whether a manual transaction
    is open, the suspended run loop, the job recorded as running. *)
Definition ctl (w : worker) (kbId : string) : bool * option suspended_loop * option string :=
  (bool_decide (is_Some (tx (kb_of w kbId))), suspended w !! kbId, runningByKb w !! kbId).

(** A transaction stays open across steps only under a loop that waits
    for its stream, and a suspended loop is recorded as running. *)
Definition ctl_ok (c : bool * option suspended_loop * option string) : Prop :=
  (c.1.1 = true -> exists sl d b, c.1.2 = Some sl /\ sl_phase sl = AwaitStream d b)
  /\ (is_Some c.1.2 -> is_Some c.2).

Definition Inv (w : worker) : Prop := Data w /\ forall kbId, ctl_ok (ctl w kbId).

(** [w] comes from [w0] by statements on the knowledge base [kbId]: the
    directories are in order, no progress was lost, the control state of
    the other knowledge bases is that of [w0], and that of [kbId] is [c]. *)
Definition at_kb (kbId : string) (w0 : worker)
    (c : bool * option suspended_loop * option string) (w : worker) : Prop :=
  Data w /\ W w0 w /\ (forall kb, kb <> kbId -> ctl w kb = ctl w0 kb) /\ ctl w kbId = c.

Definition settled (kbId : string) (w0 w : worker) : Prop :=
  exists c, at_kb kbId w0 c w /\ ctl_ok c.

(** A statement that keeps the tables in order and the progress as it
    is, on the tables [t]. *)
Definition stmt_ok (f : tables -> tables) (t : tables) : Prop :=
  tables_ok t -> tables_ok (f t) /\ jobs_frame t (f t).

(** A piece of worker code that changes neither progress nor control. *)
Definition quiet {A} (m : M A) : Prop :=
  forall kbId w0 c w, at_kb kbId w0 c w -> at_kb kbId w0 c (snd (m w)).

Definition result_terminal (s : JobItemStatus) : bool :=
  match s with ItemDone | ItemFailed | ItemSkipped => true | _ => false end.

Definition awaits_stream (p : import_phase) : bool :=
  match p with AwaitStream _ _ => true | _ => false end.

(** The result a step of [importOneFile] leaves: a finished item status
    with the transaction closed, or the next wait, with the transaction
    open exactly when the wait is for the stream. *)
Definition step_post (kbId : string) (w0 : worker) (s : option suspended_loop)
    (r : option string) (res : res import_step) (w' : worker) : Prop :=
  match res with
  | Ok (Returned x) =>
      result_terminal (r_status x) = true /\ at_kb kbId w0 (false, s, r) w'
  | Ok (Awaiting p) => at_kb kbId w0 (awaits_stream p, s, r) w'
  | Throw _ => at_kb kbId w0 (false, s, r) w'
  end.

(** How a stretch of the loop ends: suspended in [importOneFile], the
    transaction open only if the wait is for the stream; or out of the
    loop, with no transaction and nothing suspended. *)
Definition loop_post (kbId : string) (w0 : worker) (r : option string)
    (res : res loop_exit) (w' : worker) : Prop :=
  match res with
  | Ok Suspended =>
      exists b sl, at_kb kbId w0 (b, Some sl, r) w'
                   /\ (b = true -> exists d bl, sl_phase sl = AwaitStream d bl)
  | _ => at_kb kbId w0 (false, None, r) w'
  end.

(** The tables while the items of the new job [jobId] are being
    inserted: [k] of them are there. *)
Definition mid (jobId : string) (total k : Z) (t0 t : tables) : Prop :=
  NoDup (map item_id (job_items t))
  /\ Forall (fun i => existsb (is_job (item_job_id i)) (jobs t) = true) (job_items t)
  /\ progress_le t0 t
  /\ count_items jobId t = k
  /\ Forall (fun j => 0 <= progress_current j <= count_terminal (job_id j) t
                      /\ if is_job jobId j then progress_total j = total
                         else count_items (job_id j) t <= progress_total j) (jobs t).

(** The worker inside the transaction of a handler that was begun
    from [w]. *)
Definition in_block (kbId : string) (w w1 : worker) : Prop :=
  (forall kb, kb <> kbId -> kb_of w1 kb = kb_of w kb)
  /\ tx (kb_of w1 kbId) = Some (db_of w kbId)
  /\ blobs (kb_of w1 kbId) = blobs (kb_of w kbId)
  /\ suspended w1 = suspended w
  /\ runningByKb w1 = runningByKb w.

(** The knowledge base a request is about. *)
Definition request_kb (req : request) : string :=
  match req with
  | EnsureInitialized kbId | ImportFiles kbId _ | ListJobs kbId | PauseJob kbId _
  | ResumeJob kbId _ | CancelJob kbId _ | Search kbId _ _ | CreateNote kbId _ _
  | GetStats kbId => kbId
  end.

(** Number of rows of [jobs] with status ['pending']. *)
Definition pending_count (t : tables) : nat :=
  length (List.filter (job_has JobPending) (jobs t)).

(** The same, leaving out the rows of the job [jobId]. *)
Definition pending_others (jobId : string) (t : tables) : nat :=
  length (List.filter (fun j => job_has JobPending j && negb (is_job jobId j)) (jobs t)).

(** The knowledge base [kbId] has at most [n] pending jobs. *)
Definition pending_le (kbId : string) (n : nat) (w : worker) : Prop :=
  (pending_count (db_of w kbId) <= n)%nat.

(** Code that keeps a property of the worker, however it ends. *)
Definition preserves {A} (P : worker -> Prop) (m : M A) : Prop :=
  forall w, P w -> P (snd (m w)).

(** The progress counters as the specification has them: within the
    total, and at the total exactly for a job that is done. *)
Definition progress_as_specified (w : worker) : Prop :=
  forall kbId jobId j, find_job jobId (db_of w kbId) = Some j ->
    0 <= progress_current j <= progress_total j
    /\ (progress_current j = progress_total j <-> job_status j = JobDone).

End Progress.

(* ------------------------------------------------------------------ *)
(** ** worker-client.ts: runs of the client                            *)
(* ------------------------------------------------------------------ *)

Module ClientRuns.
Import Js Kb Client.

(** The client after the events [evs], in order. *)
Definition client_run (evs : list client_event) (c : client) : client :=
  foldl (fun c ev => client_step ev c) c evs.

(** The id [crypto.randomUUID()] gave to a call. *)
Definition ev_call_id (ev : client_event) : option string :=
  match ev with Call id _ _ => Some id | _ => None end.

Definition call_ids (evs : list client_event) : list string := omap ev_call_id evs.

(** The ids of the promises settled so far. *)
Definition settled_ids (c : client) : list string := map fst (settled c).

(** The bookkeeping of the client is in order for the ids [used] so far. *)
Definition client_ok (used : list string) (c : client) : Prop :=
  NoDup (settled_ids c)
  /\ (forall id, id ∈ dom (pending c) -> id ∉ settled_ids c)
  /\ (forall id, id ∈ dom (pending c) \/ id ∈ settled_ids c -> id ∈ used).

End ClientRuns.

(* ------------------------------------------------------------------ *)
(** ** kb-worker.ts: what [resolveImportFileList] deduplicates         *)
(* ------------------------------------------------------------------ *)

Module Listing.
Import Kb Handlers.


End Listing.

(* ------------------------------------------------------------------ *)
(** ** kb-worker.ts: requests that are turned down, handles that stay  *)
(* ------------------------------------------------------------------ *)

Module Requests.
Import Js Kb Ingest Scheduler Handlers.

(** The message of the [Error] a handler throws before it does
    anything else, for a request that fails its checks, in the order of
    the checks. *)
Definition validation_error (req : request) : option string :=
  match req with
  | EnsureInitialized kbId | ListJobs kbId | GetStats kbId | Search kbId _ _ =>
      if String.eqb kbId "" then Some "kbId 不能为空" else None
  | ImportFiles kbId sources =>
      if String.eqb kbId "" then Some "kbId 不能为空"
      else if bool_decide (sources = []) then Some "sources 不能为空"
      else None
  | PauseJob kbId jobId | ResumeJob kbId jobId | CancelJob kbId jobId =>
      if String.eqb kbId "" || String.eqb jobId "" then Some "kbId/jobId 不能为空"
      else None
  | CreateNote kbId title _ =>
      if String.eqb kbId "" then Some "kbId 不能为空"
      else if bool_decide (Chunker.trim title = []) then Some "title 不能为空"
      else None
  end.

(** The handle of the knowledge base [kbId] is in [dbCache]. *)
Definition cached (kbId : string) (w : worker) : Prop := kbId ∈ dbCache w.

(** A property of the worker that does not depend on tables, blobs and
    transactions and is kept when [dbCache] does not shrink. *)
Definition cache_grows (P : worker -> Prop) : Prop :=
  forall w w', dbCache w ⊆ dbCache w' -> P w -> P w'.

(** The job [jobId] is in none of the states [pauseJob] acts on. *)
Definition not_pausable (jobId : string) (t : tables) : Prop :=
  Forall (fun j => job_id j = jobId ->
                   job_status j <> JobPending /\ job_status j <> JobProcessing) (jobs t).

End Requests.

(* ------------------------------------------------------------------ *)
(** ** kb-worker.ts: the directory inside the transaction of an import *)
(* ------------------------------------------------------------------ *)

Module Streaming.
Import Js Kb Ingest Scheduler Handlers.

(** The directory [kbId] while a file is copied to the blob [rel]
    inside a transaction whose [ROLLBACK] restores [s]: the other blobs
    and the other directories are those of [w0]. *)
Definition streaming (kbId rel : string) (s : tables) (w0 w : worker) : Prop :=
  tx (kb_of w kbId) = Some s
  /\ (forall p, p <> rel -> blobs (kb_of w kbId) !! p = blobs (kb_of w0 kbId) !! p)
  /\ (forall kb, kb <> kbId -> kb_of w kb = kb_of w0 kb).

(** Job ["A"] is cancelled while its only file is streaming, then the
    stream breaks. *)
Definition cancel_while_streaming : list event :=
  [ Request (JStr "r1") (ImportFiles "kb" (Sample.files ["/tmp/a.txt"])) (Sample.env_at 1 "A");
    StatSettled "kb" (StatFile 3) "d1" 2;
    Request (JStr "r2") (CancelJob "kb" "A") (Sample.env_at 3 "x") ].

Definition worker_streaming : worker :=
  Sample.sample_run cancel_while_streaming initial_worker.

Definition broken_stream : read_outcome :=
  {| buffers := [Sample.hi_newline]; stream_error := Some "EIO" |}.

End Streaming.

Module Guards.
Import Js Kb Ingest Scheduler Handlers Requests.

(** The requests whose handler opens a transaction of its own. *)
Definition begins_transaction (env : call_env) (req : request) : bool :=
  match req with
  | CreateNote _ _ _ => true
  | ImportFiles _ sources =>
      negb (bool_decide (resolveImportFileList (collect env) sources = []))
  | _ => false
  end.

(** The rows of [jobs] that a statement [WHERE id = jobId] leaves alone. *)
Definition other_jobs (jobId : string) (t : tables) : list job :=
  List.filter (fun j => negb (is_job jobId j)) (jobs t).

(** The rows of [job_items] that belong to other jobs. *)
Definition other_items (jobId : string) (t : tables) : list job_item :=
  List.filter (fun i => negb (String.eqb (item_job_id i) jobId)) (job_items t).

(** [status IN ('pending','processing')] on [job_items]. *)
Definition item_open (i : job_item) : bool :=
  item_has ItemPending i || item_has ItemProcessing i.

End Guards.

(* ------------------------------------------------------------------ *)
(** ** kb-worker.ts: what [kb.createNote] stores                       *)
(* ------------------------------------------------------------------ *)

Module Notes.
Import Js Kb Ingest Scheduler Handlers.

(** The row [handleCreateNote] inserts into [documents]. *)
Definition note_document (node : NodeApi) (env : call_env) (title content : jsstring)
    : document :=
  {| doc_id := uuid env 0; doc_kind := KindNote; doc_title := Chunker.trim title;
     doc_source_path := None; doc_blob_rel_path := None;
     doc_mime_type := Some "text/markdown";
     doc_size_bytes := byteLength node content; doc_sha256 := None;
     doc_created_at := now env; doc_updated_at := now env |}.

(** The UUID drawn for the chunk with the given index: the first draw
    of the request is the document id. *)
Definition note_chunk_ids (env : call_env) (i : Z) : string := uuid env (S (Z.to_nat i)).

End Notes.

(* ------------------------------------------------------------------ *)
(** ** kb-worker.ts: [collectFilesFromDirectory]                       *)
(* ------------------------------------------------------------------ *)

Module Walk.

(** What [fs.Dirent] tells about an entry: [isDirectory()], [isFile()],
    or neither (a symbolic link, a socket, ...). *)
Inductive entry_kind := EDirectory | EFile | EOther.

Record dirent := {
  d_name : string;
  d_kind : entry_kind
}.

Definition isDirectory (e : dirent) : bool :=
  match d_kind e with EDirectory => true | _ => false end.
Definition isFile (e : dirent) : bool :=
  match d_kind e with EFile => true | _ => false end.

(** [["node_modules", ".git", ".idea", ".vscode"].includes(name)] *)
Definition noise (name : string) : bool :=
  bool_decide (name ∈ ["node_modules"; ".git"; ".idea"; ".vscode"]).

Section WithFs.
(** [path.join]. *)
Variable join : string -> string -> string.
(** [fs.promises.readdir(dir, { withFileTypes: true })]; [None] is a
    rejected promise. *)
Variable readdir : string -> option (list dirent).

(** The [for (const entry of entries)] loop; [stack] and [out] are the
    arrays in index order, [push] appends. *)
Fixpoint scan (recursive : bool) (current : string) (entries : list dirent)
    (stack out : list string) : list string * list string :=
  match entries with
  | [] => (stack, out)
  | entry :: rest =>
      if isDirectory entry && noise (d_name entry) then
        scan recursive current rest stack out
      else
        let full := join current (d_name entry) in
        if isDirectory entry then
          scan recursive current rest (if recursive then stack ++ [full] else stack) out
        else if isFile entry then scan recursive current rest stack (out ++ [full])
        else scan recursive current rest stack out
  end.

(** The [while (stack.length > 0)] loop; [stack.pop()] takes the last
    element. [None]: the loop has not ended within [fuel] rounds. *)
Fixpoint walk (fuel : nat) (recursive : bool) (stack out : list string)
    : option (list string) :=
  match fuel with
  | O => None
  | S fuel' =>
      match last stack with
      | None => Some out
      | Some current =>
          let stack' := removelast stack in
          match readdir current with
          | None => walk fuel' recursive stack' out
          | Some entries =>
              let '(stack'', out') := scan recursive current entries stack' out in
              walk fuel' recursive stack'' out'
          end
      end
  end.

(** [collectFilesFromDirectory(dir, recursive)] *)
Definition collectFilesFromDirectory (fuel : nat) (dir : string) (recursive : bool)
    : option (list string) :=
  walk fuel recursive [dir] [].

(** The regular files directly in a directory, as full paths. *)
Definition files_in (d : string) : list string :=
  match readdir d with
  | Some entries => map (fun e => join d (d_name e)) (List.filter isFile entries)
  | None => []
  end.

(** The subdirectories of a directory that the walk descends into. *)
Definition subdirs_of (d : string) : list string :=
  match readdir d with
  | Some entries =>
      map (fun e => join d (d_name e))
        (List.filter (fun e => isDirectory e && negb (noise (d_name e))) entries)
  | None => []
  end.

(** [d'] is a directory the recursive walk from [d] reads: [d] itself,
    or a subdirectory, not named like a noise directory, of one. *)
Definition descends (d d' : string) : Prop :=
  rtc (fun a b => b ∈ subdirs_of a) d d'.

(** [p] is a regular file in a directory the walk from [d] reads. *)
Definition found (recursive : bool) (d p : string) : Prop :=
  if recursive then exists d', descends d d' /\ p ∈ files_in d'
  else p ∈ files_in d.

(** The directory tree below [d] is finite as far as the walk descends
    into it. *)
Inductive finite_below : string -> Prop :=
| finite_dir d :
    (forall d', d' ∈ subdirs_of d -> finite_below d') -> finite_below d.

End WithFs.

(** A tree for examples: [/src] holds [a.ts], a link, [.git] and [lib];
    [/src/lib] holds [b.ts]; [/src/.git] holds [config]. *)
Definition sample_join (a b : string) : string := a +:+ "/" +:+ b.

Definition sample_readdir (d : string) : option (list dirent) :=
  if String.eqb d "/src" then
    Some [ {| d_name := "a.ts"; d_kind := EFile |};
           {| d_name := "link"; d_kind := EOther |};
           {| d_name := ".git"; d_kind := EDirectory |};
           {| d_name := "lib"; d_kind := EDirectory |} ]
  else if String.eqb d "/src/lib" then Some [ {| d_name := "b.ts"; d_kind := EFile |} ]
  else if String.eqb d "/src/.git" then Some [ {| d_name := "config"; d_kind := EFile |} ]
  else None.

End Walk.

(* ------------------------------------------------------------------ *)
(** ** The knowledge-base service of the main process                  *)
(* ------------------------------------------------------------------ *)

(** [ensureKnowledgeBaseInitialized], [createKnowledgeBase],
    [listKnowledgeBases], [updateKnowledgeBaseManifest] and
    [deleteKnowledgeBaseDir], which keep one directory per knowledge
    base under [<userData>/knowledge-bases], with a manifest [kb.json]
    next to the [meta.sqlite] that the worker opens. *)
Module Bases.
Import Js Kb Scheduler.

(** [KnowledgeBaseManifest] *)
Record manifest := {
  m_id : string;
  m_name : jsstring;
  m_description : option jsstring;
  m_createdAt : Z;
  m_updatedAt : Z;
  m_schemaVersion : Z
}.

(** What [JSON.parse(fs.readFileSync(manifestPath))] makes of a
    [kb.json]: it throws, or gives back a manifest (the files are
    written by this module only). *)
Inductive manifest_file :=
| Unparsable
| Stored (m : manifest).

(** One directory under the root: its [kb.json], if there is one, and
    the contents of its [meta.sqlite]. *)
Record base_dir := {
  bd_manifest : option manifest_file;
  bd_meta : tables
}.

(** The directories under the root, by name. *)
Abbreviation bases := (gmap string base_dir).

(** [KnowledgeBaseSummary]: the manifest with [dir] and [metaDbPath]. *)
Record summary := {
  s_manifest : manifest;
  s_dir : string;
  s_metaDbPath : string
}.

Definition KNOWLEDGE_MANIFEST_SCHEMA_VERSION : Z := 1.

(** The code units of the default name, "未命名知识库". *)
Definition unnamed : jsstring := [26410; 21629; 21517; 30693; 35782; 24211].

Section WithNode.
Variable node : NodeApi.
(** [app.getPath("userData")] *)
Variable userData : string.

Definition getKnowledgeBaseDir (kbId : string) : string :=
  join node (join node userData "knowledge-bases") kbId.

Definition getKnowledgeMetaDbPath (kbId : string) : string :=
  join node (getKnowledgeBaseDir kbId) "meta.sqlite".

Definition summary_of (m : manifest) (kbId : string) : summary :=
  {| s_manifest := m; s_dir := getKnowledgeBaseDir kbId;
     s_metaDbPath := getKnowledgeMetaDbPath kbId |}.

(** [fs.mkdirSync(dir, { recursive: true })] and the three
    subdirectories: the directory is there afterwards. *)
Definition mkdirs (kbId : string) (b : bases) : bases :=
  match b !! kbId with
  | Some _ => b
  | None => <[kbId := {| bd_manifest := None; bd_meta := empty_tables |}]> b
  end.

(** [fs.writeFileSync(manifestPath, JSON.stringify(manifest, null, 2))]
    into a directory that exists. *)
Definition write_manifest (kbId : string) (m : manifest) (b : bases) : bases :=
  match b !! kbId with
  | Some d => <[kbId := {| bd_manifest := Some (Stored m); bd_meta := bd_meta d |}]> b
  | None => b
  end.

(** [closeKnowledgeMetaDb(openKnowledgeMetaDb(metaDbPath))] at the
    time [now]: [openKnowledgeMetaDb] makes the directory if it is not
    there, SQLite creates the file if it is not there, and the file is
    migrated. *)
Definition open_and_close (now : Z) (kbId : string) (b : bases) : res unit * bases :=
  let d := default {| bd_manifest := None; bd_meta := empty_tables |} (b !! kbId) in
  match migrate_tables now (bd_meta d) with
  | (Ok _, t') => (Ok (), <[kbId := {| bd_manifest := bd_manifest d; bd_meta := t' |}]> b)
  | (Throw msg, _) => (Throw msg, b)
  end.

(** [ensureKnowledgeBaseInitialized(kbId)]; [now] is the clock for a
    manifest that has to be written, [now_db] that of the migration. *)
Definition ensureKnowledgeBaseInitialized (now now_db : Z) (kbId : string) (b : bases)
    : res summary * bases :=
  let b1 := mkdirs kbId b in
  let stored :=
    match bd_manifest <$> b1 !! kbId with
    | Some (Some (Stored m)) => Some m
    | _ => None
    end in
  let '(manifest, b2) :=
    match stored with
    | Some m => (m, b1)
    | None =>
        let m := {| m_id := kbId; m_name := unnamed; m_description := None;
                    m_createdAt := now; m_updatedAt := now;
                    m_schemaVersion := KNOWLEDGE_MANIFEST_SCHEMA_VERSION |} in
        (m, write_manifest kbId m b1)
    end in
  match open_and_close now_db kbId b2 with
  | (Ok _, b3) => (Ok (summary_of manifest kbId), b3)
  | (Throw msg, b3) => (Throw msg, b3)
  end.

(** [s.trim() || null] for an optional string. *)
Definition trimmed_or_null (s : option jsstring) : option jsstring :=
  match s with
  | Some s => if bool_decide (Chunker.trim s = []) then None else Some (Chunker.trim s)
  | None => None
  end.

(** [createKnowledgeBase({ name, description })]; [id] is the UUID that
    is drawn, [now] the clock of the manifest, [now'] and [now_db] those
    of the nested [ensureKnowledgeBaseInitialized]. *)
Definition createKnowledgeBase (id : string) (now now' now_db : Z) (name : jsstring)
    (description : option jsstring) (b : bases) : res summary * bases :=
  let b1 := mkdirs id b in
  let manifest :=
    {| m_id := id;
       m_name := if bool_decide (Chunker.trim name = []) then unnamed else Chunker.trim name;
       m_description := trimmed_or_null description;
       m_createdAt := now; m_updatedAt := now;
       m_schemaVersion := KNOWLEDGE_MANIFEST_SCHEMA_VERSION |} in
  let b2 := write_manifest id manifest b1 in
  match ensureKnowledgeBaseInitialized now' now_db id b2 with
  | (Ok _, b3) => (Ok (summary_of manifest id), b3)
  | (Throw msg, b3) => (Throw msg, b3)
  end.

(** The order of [bases.sort((a, b) => b.updatedAt - a.updatedAt)]. *)
Definition later_first (a b : summary) : Prop :=
  m_updatedAt (s_manifest b) <= m_updatedAt (s_manifest a).
#[global] Instance later_first_dec : RelDecision later_first.
Proof. intros a b. unfold later_first. apply _. Defined.

(** The body of the loop over the entries of the root, for the
    directory [kbId]. *)
Definition list_entry (entry : string * base_dir) : option summary :=
  match bd_manifest (snd entry) with
  | Some (Stored m) =>
      if String.eqb (m_id m) "" || bool_decide (m_name m = []) then None
      else Some (summary_of m (fst entry))
  | _ => None
  end.

(** [listKnowledgeBases()] *)
Definition listKnowledgeBases (b : bases) : list summary :=
  merge_sort later_first (omap list_entry (map_to_list b)).

(** [updateKnowledgeBaseManifest(kbId, { name, description })]: a
    missing property is [None], [description: null] is [Some None]. *)
Definition updateKnowledgeBaseManifest (now' now_db now : Z) (kbId : string)
    (name : option jsstring) (description : option (option jsstring)) (b : bases)
    : res summary * bases :=
  match ensureKnowledgeBaseInitialized now' now_db kbId b with
  | (Throw msg, b1) => (Throw msg, b1)
  | (Ok current, b1) =>
      let c := s_manifest current in
      let next :=
        {| m_id := m_id c;
           m_name := match name with
                     | Some s => if bool_decide (s = []) then m_name c else Chunker.trim s
                     | None => m_name c
                     end;
           m_description := match description with
                            | None => m_description c
                            | Some d => trimmed_or_null d
                            end;
           m_createdAt := m_createdAt c;
           m_updatedAt := now;
           m_schemaVersion := KNOWLEDGE_MANIFEST_SCHEMA_VERSION |} in
      (Ok {| s_manifest := next; s_dir := s_dir current;
             s_metaDbPath := s_metaDbPath current |},
       write_manifest kbId next b1)
  end.

(** [deleteKnowledgeBaseDir({ kbId, confirmed })] *)
Definition deleteKnowledgeBaseDir (kbId : string) (confirmed : bool) (b : bases)
    : res unit * bases :=
  if negb confirmed then (Throw "危险操作：删除知识库需要 confirmed=true", b)
  else
    match b !! kbId with
    | None => (Ok (), b)
    | Some _ => (Ok (), delete kbId b)
    end.

End WithNode.

(** The manifest [ensureKnowledgeBaseInitialized] returns: the stored
    one, or the default it writes. *)
Definition ensured_manifest (now : Z) (kbId : string) (b : bases) : manifest :=
  match b !! kbId with
  | Some {| bd_manifest := Some (Stored m) |} => m
  | _ => {| m_id := kbId; m_name := unnamed; m_description := None;
            m_createdAt := now; m_updatedAt := now;
            m_schemaVersion := KNOWLEDGE_MANIFEST_SCHEMA_VERSION |}
  end.

Definition ensured_meta (now_db : Z) (kbId : string) (b : bases) : tables :=
  snd (migrate_tables now_db (match b !! kbId with
                              | Some d => bd_meta d
                              | None => empty_tables
                              end)).

End Bases.

(* ------------------------------------------------------------------ *)
(** ** kb-worker.ts: a job that is left to run                         *)
(* ------------------------------------------------------------------ *)

Module Completion.
Import Js Kb Ingest Scheduler Handlers.

(** What the statements of the run loop read and write of a row of
    [job_items]: its id, its job and its status. *)
Definition item_state (i : job_item) : string * string * JobItemStatus :=
  (item_id i, item_job_id i, item_status i).

(** [SELECT COUNT( * ) FROM job_items WHERE job_id = ? AND status = 'pending'] *)
Definition pending_items (jobId : string) (t : tables) : nat :=
  length (List.filter (fun i => String.eqb (item_job_id i) jobId && item_has ItemPending i)
            (job_items t)).

(** The module-level variables of the worker other than the files. *)
Definition process_state (w : worker)
    : gset string * gmap string string * gset string * gmap string suspended_loop :=
  (dbCache w, runningByKb w, inMemoryCanceledJobs w, suspended w).

(** From [w] to [w'] neither the rows of [jobs], nor id, job and status
    of the rows of [job_items], nor the variables of the process have
    changed. *)
Definition same_rows (kbId : string) (w w' : worker) : Prop :=
  jobs (db_of w' kbId) = jobs (db_of w kbId)
  /\ map item_state (job_items (db_of w' kbId)) = map item_state (job_items (db_of w kbId))
  /\ process_state w' = process_state w.

(** Code that leaves these alone, however it ends. *)
Definition keeps_rows {A} (kbId : string) (m : M A) : Prop :=
  forall w, same_rows kbId w (snd (m w)).

(** The run loop of [kbId] is working on the job [jobId], which has [n]
    items left to take: the database is open, the job is 'processing'
    and not cancelled, no job waits in the queue, the loop is suspended
    in [importOneFile] on the only item of the job that is
    'processing', and a transaction is open exactly while the file is
    streaming, with nothing but documents and chunks written in it. *)
Record looping (kbId jobId : string) (n : nat) (w : worker) : Prop := {
  lp_cached : kbId ∈ dbCache w;
  lp_not_canceled : jobId ∉ inMemoryCanceledJobs w;
  lp_processing : job_status <$> find_job jobId (db_of w kbId) = Some JobProcessing;
  lp_queue : Forall (fun j => job_status j <> JobPending) (jobs (db_of w kbId));
  lp_pending : pending_items jobId (db_of w kbId) = n;
  lp_loop :
    exists sl,
      suspended w !! kbId = Some sl
      /\ sl_job sl = jobId
      /\ Forall (fun i => item_job_id i = jobId -> item_status i = ItemProcessing ->
                          item_id i = sl_item sl) (job_items (db_of w kbId))
      /\ match sl_phase sl with
         | AwaitStream _ _ =>
             exists s, tx (kb_of w kbId) = Some s
                       /\ jobs s = jobs (db_of w kbId)
                       /\ job_items s = job_items (db_of w kbId)
         | _ => tx (kb_of w kbId) = None
         end
}.

(** The job [jobId] has run to its end: it is 'done', every item of it
    is done, failed or skipped, its progress counter is the number of
    its items, and the loop of the knowledge base is gone. *)
Definition finished (kbId jobId : string) (w : worker) : Prop :=
  (exists j, find_job jobId (db_of w kbId) = Some j
             /\ job_status j = JobDone
             /\ progress_current j = Progress.count_items jobId (db_of w kbId))
  /\ Forall (fun i => item_job_id i = jobId -> item_terminal i = true)
       (job_items (db_of w kbId))
  /\ tx (kb_of w kbId) = None
  /\ suspended w !! kbId = None
  /\ runningByKb w !! kbId = None.

(** An answer of the file system to the knowledge base [kbId]. *)
Definition fs_answer (kbId : string) (ev : event) : bool :=
  match ev with
  | StatSettled kb _ _ _ | StreamSettled kb _ _ _ | RmSettled kb _ _ => bool_decide (kb = kbId)
  | _ => false
  end.

(** The answer [ev] is the one the loop of [kbId] is waiting for. *)
Definition awaited (kbId : string) (w : worker) (ev : event) : bool :=
  match suspended w !! kbId with
  | Some sl =>
      match sl_phase sl, ev with
      | AwaitStat, StatSettled kb _ _ _ => bool_decide (kb = kbId)
      | AwaitStream _ _, StreamSettled kb _ _ _ => bool_decide (kb = kbId)
      | AwaitRm _ _, RmSettled kb _ _ => bool_decide (kb = kbId)
      | _, _ => false
      end
  | None => false
  end.

(** The waits of [importOneFile] that can still come for the current
    item. *)
Definition waits_left (w : worker) (kbId : string) : nat :=
  match sl_phase <$> suspended w !! kbId with
  | Some AwaitStat => 3
  | Some (AwaitStream _ _) => 2
  | Some (AwaitRm _ _) => 1
  | None => 0
  end.

Section WithNode.
Variable node : NodeApi.
Variable USER_DATA_PATH : string.

(** How many of the events are answers the loop was waiting for when
    they arrived. *)
Fixpoint answered (kbId : string) (evs : list event) (w : worker) : nat :=
  match evs with
  | [] => 0
  | ev :: rest =>
      (if awaited kbId w ev then 1 else 0)
      + answered kbId rest (step node USER_DATA_PATH ev w)
  end.

End WithNode.

(** Job ["A"] with two files, right after the request. *)
Definition worker_two_files : worker :=
  Sample.sample_run
    [ Request (JStr "r1") (ImportFiles "kb" (Sample.files ["/tmp/a.txt"; "/tmp/b.txt"]))
        (Sample.env_at 1 "A") ]
    initial_worker.

(** Both files are looked up; the first does not exist, the second is
    copied. *)
Definition two_files_answers : list event :=
  [ StatSettled "kb" StatError "d1" 2;
    StatSettled "kb" (StatFile 3) "d2" 3;
    StreamSettled "kb" (read_stream Sample.hi_newline) Sample.chunk_ids 4 ].

End Completion.

(* ------------------------------------------------------------------ *)
(** ** kb-worker.ts: the rows of an import request                     *)
(* ------------------------------------------------------------------ *)

Module Imported.
Import Js Kb Ingest Scheduler Handlers.

(** The columns of a row of [jobs] that no statement of the worker
    updates: [id], [type] and [progress_total]. *)
Definition job_key (j : job) : string * string * Z :=
  (job_id j, job_type j, progress_total j).

(** The same for [job_items]: [id], [job_id] and [source_path]. *)
Definition item_key (i : job_item) : string * string * string :=
  (item_id i, item_job_id i, item_source_path i).

Definition job_keys (t : tables) : list (string * string * Z) := map job_key (jobs t).

Definition item_keys (t : tables) : list (string * string * string) :=
  map item_key (job_items t).

(** The UUIDs [handleImportFiles] draws for [n] items, after the one of
    the job. *)
Definition item_uuids (env : call_env) (n : nat) : list string :=
  map (uuid env) (seq 1 n).

(** The items of the new job: one for each file, in the order of the
    files. *)
Definition imported_items (env : call_env) (files : list string)
    : list (string * string * string) :=
  zip_with (fun id f => (id, uuid env 0, f)) (item_uuids env (length files)) files.

(** The UUIDs of the request are new: that of the job is the id of no
    job, those of the items differ from each other and are the id of no
    item. *)
Definition fresh_ids (env : call_env) (n : nat) (t : tables) : Prop :=
  existsb (is_job (uuid env 0)) (jobs t) = false
  /\ NoDup (item_uuids env n)
  /\ Forall (fun id => existsb (is_item id) (job_items t) = false) (item_uuids env n).

(** A request for two files. *)
Definition two_files : list ImportSource := Sample.files ["/tmp/a.txt"; "/tmp/b.txt"].

End Imported.

(* ------------------------------------------------------------------ *)
(** ** kb-worker.ts: a job that is paused and resumed                  *)
(* ------------------------------------------------------------------ *)

Module Pausing.
Import Js Kb Ingest Scheduler Handlers Completion.






Definition resume_A : event := Request (JStr "r3") (ResumeJob "kb" "A") (Sample.env_at 4 "q").

End Pausing.

(* ------------------------------------------------------------------ *)
(** ** kb-worker.ts: the progress counter of a job                     *)
(* ------------------------------------------------------------------ *)

Module Counter.
Import Js Kb Ingest Scheduler Handlers.

(** The progress counter of the job [jobId] is the number of its items
    that are 'done', 'failed' or 'skipped'; item ids are unique. *)
Definition counted (jobId : string) (t : tables) : Prop :=
  NoDup (map item_id (job_items t))
  /\ forall j, find_job jobId t = Some j -> progress_current j = count_terminal jobId t.

Section WithNode.
Variable node : NodeApi.

(** The step of [importOneFile] that the answer [ev] resumes in the run
    loop [sl] of [kbId], if it is the answer that loop waits for. *)
Definition resumed_step (kbId : string) (sl : suspended_loop) (ev : event)
    : option (M import_step) :=
  match sl_phase sl, ev with
  | AwaitStat, StatSettled kb st documentId now =>
      if bool_decide (kb = kbId)
      then Some (importOneFile_on_stat node kbId (sl_item sl) (sl_source sl) st
                   documentId now)
      else None
  | AwaitStream documentId blobRelPath, StreamSettled kb out chunkIds now =>
      if bool_decide (kb = kbId)
      then Some (importOneFile_on_stream node kbId (sl_item sl) (sl_source sl)
                   documentId blobRelPath out chunkIds now)
      else None
  | AwaitRm blobRelPath message, RmSettled kb removed now =>
      if bool_decide (kb = kbId)
      then Some (importOneFile_on_rm kbId (sl_item sl) blobRelPath message removed now)
      else None
  | _, _ => None
  end.

(** With the answer [ev], [await importOneFile] returns in the run loop
    of [kbId], which is working on the job [jobId]: the loop goes on to
    record the result of the item and to count. *)
Definition finishes_item (kbId jobId : string) (ev : event) (w : worker) : bool :=
  match suspended w !! kbId with
  | Some sl =>
      String.eqb (sl_job sl) jobId
      && match resumed_step kbId sl ev with
         | Some m =>
             match fst (m (with_suspended (fun s => delete kbId s) w)) with
             | Ok (Returned _) => true
             | _ => false
             end
         | None => false
         end
  | None => false
  end.

End WithNode.

End Counter.

(* ================================================================== *)
(** * Part II: properties                                              *)
(* ================================================================== *)

Module MigrationFacts.
Import Migration.

Lemma insert_by_id_perm m l : insert_by_id m l ≡ₚ m :: l.
Proof.
  induction l as [|x l IH]; simpl; [done|].
  destruct (mig_id m <? mig_id x); [done|].
  rewrite IH. apply Permutation_swap.
Qed.

Lemma sort_by_id_perm l : sort_by_id l ≡ₚ l.
Proof.
  induction l as [|x l IH]; simpl; [done|].
  rewrite insert_by_id_perm. by rewrite IH.
Qed.

Lemma insert_by_id_sorted m l :
  StronglySorted id_le l -> StronglySorted id_le (insert_by_id m l).
Proof.
  induction 1 as [|x l Hs IH Hall]; simpl.
  - repeat constructor.
  - destruct (mig_id m <? mig_id x) eqn:E.
    + apply Z.ltb_lt in E. constructor; [by constructor|].
      constructor; [unfold id_le; lia|].
      eapply Forall_impl; [exact Hall|]. unfold id_le. intros; lia.
    + apply Z.ltb_ge in E. constructor; [done|].
      rewrite insert_by_id_perm. constructor; [exact E|done].
Qed.

Lemma sort_by_id_sorted l : StronglySorted id_le (sort_by_id l).
Proof.
  induction l; simpl; [constructor|]. by apply insert_by_id_sorted.
Qed.

Lemma fold_max_ge (rows : list migration_row) a :
  a <= fold_left (fun acc x => Z.max acc (row_id x)) rows a
  /\ Forall (fun r => row_id r
                      <= fold_left (fun acc x => Z.max acc (row_id x)) rows a) rows.
Proof.
  revert a. induction rows as [|r rows IH]; intros a; simpl; [split; [lia|constructor]|].
  destruct (IH (Z.max a (row_id r))) as [H1 H2].
  split; [lia|]. constructor; [lia|done].
Qed.

Lemma max_recorded_id_ge rows :
  Forall (fun r => row_id r <= max_recorded_id rows) rows.
Proof.
  destruct rows as [|r rows]; [constructor|]. simpl.
  destruct (fold_max_ge rows (row_id r)) as [H1 H2].
  constructor; done.
Qed.

Lemma not_recorded_above_max rows id :
  max_recorded_id rows < id ->
  existsb (fun r => row_id r =? id) rows = false.
Proof.
  intros H. pose proof (max_recorded_id_ge rows) as Hall.
  induction Hall as [|r l Hr Hl IH] in |- *; [done|]. simpl.
  rewrite IH. replace (row_id r =? id) with false; [done|].
  symmetry. apply Z.eqb_neq. lia.
Qed.

Section Run.
Context {content : Type}.
Variable exec : string -> content -> res content.

Lemma run_pending_rows now pending (db db' : metadb content) :
  run_pending exec now pending db = Ok db' ->
  schema_migrations db' = schema_migrations db ++ map (row_of now) pending.
Proof.
  revert db. induction pending as [|m rest IH]; simpl; intros db H.
  - inversion H. by rewrite app_nil_r.
  - destruct (exec (mig_sql m) (data db)) as [d|e]; [|done].
    unfold insert_migration_row in H.
    destruct (existsb _ _); [done|].
    apply IH in H. simpl in H. rewrite H. by rewrite <- app_assoc.
Qed.

(** What a run that succeeds leaves as data is what the scripts make of
    the data, one after the other. *)
Lemma run_pending_data now pending (db db' : metadb content) :
  run_pending exec now pending db = Ok db' ->
  run_scripts exec (map mig_sql pending) (data db) = Ok (data db').
Proof.
  revert db. induction pending as [|m rest IH]; simpl; intros db H.
  - by inversion H.
  - destruct (exec (mig_sql m) (data db)) as [d|e]; [|done].
    destruct (insert_migration_row now m (schema_migrations db)) as [rows|e]; [|done].
    by apply IH in H.
Qed.

(** With ids that are new and differ from each other no insert into
    [schema_migrations] fails: the run ends as the scripts do. *)
Lemma run_pending_scripts now pending (db : metadb content) :
  NoDup (map mig_id pending) ->
  Forall (fun m => existsb (fun r => row_id r =? mig_id m) (schema_migrations db) = false)
    pending ->
  run_pending exec now pending db
  = match run_scripts exec (map mig_sql pending) (data db) with
    | Ok d' => Ok {| data := d';
                     schema_migrations := schema_migrations db ++ map (row_of now) pending |}
    | Throw message => Throw message
    end.
Proof.
  revert db. induction pending as [|m rest IH]; simpl; intros db Hnd Hnew.
  - rewrite app_nil_r. by destruct db.
  - apply NoDup_cons in Hnd as [Hm Hnd]. apply Forall_cons in Hnew as [Hnm Hnew].
    destruct (exec (mig_sql m) (data db)) as [d|e]; [|done].
    unfold insert_migration_row. rewrite Hnm.
    rewrite IH; simpl.
    + destruct (run_scripts exec (map mig_sql rest) d); [|done].
      by rewrite <- app_assoc.
    + done.
    + apply Forall_forall. intros x Hx. rewrite existsb_app. simpl.
      rewrite Forall_forall in Hnew. rewrite (Hnew x Hx). simpl.
      rewrite orb_false_r. apply Z.eqb_neq. intros E. apply Hm.
      rewrite E. apply list_elem_of_fmap. by exists x.
Qed.

Lemma run_scripts_app sqls sqls' (d : content) :
  run_scripts exec (sqls ++ sqls') d
  = match run_scripts exec sqls d with
    | Ok d' => run_scripts exec sqls' d'
    | Throw message => Throw message
    end.
Proof.
  revert d. induction sqls as [|sql sqls IH]; intros d; simpl; [done|].
  destruct (exec sql d); [apply IH|done].
Qed.

Lemma pending_new migrations rows :
  Forall (fun m => existsb (fun r => row_id r =? mig_id m) rows = false)
    (pending_migrations migrations (max_recorded_id rows)).
Proof.
  apply Forall_forall. intros m Hm. apply not_recorded_above_max.
  unfold pending_migrations in Hm. rewrite sort_by_id_perm in Hm.
  apply list_elem_of_filter in Hm as [Hm _]. exact Hm.
Qed.

Lemma pending_NoDup migrations current :
  NoDup (map mig_id migrations) ->
  NoDup (map mig_id (pending_migrations migrations current)).
Proof.
  intros H. unfold pending_migrations. rewrite sort_by_id_perm.
  induction migrations as [|m l IH]; simpl; [constructor|].
  apply NoDup_cons in H as [Hm Hl]. rewrite filter_cons.
  destruct (decide (current < mig_id m)); simpl; [|by apply IH].
  apply NoDup_cons. split; [|by apply IH].
  intros Hin. apply Hm. apply list_elem_of_fmap in Hin as (x & -> & Hx).
  apply list_elem_of_filter in Hx as [_ Hx]. apply list_elem_of_fmap. by exists x.
Qed.

(** C8 (as amended): the pending migrations are exactly those whose id
    exceeds the recorded maximum, taken in ascending id order, and they
    run inside a single transaction. When the call returns, the data are
    what the scripts of all pending migrations, executed in that order,
    make of the data of before, and a row is recorded for each of them;
    when it throws, the database is exactly as it was. With migration
    ids that differ from each other the call returns if every script
    succeeds in its turn, and if one of them fails the call throws the
    error of that script, whatever the migrations before it did. *)
Theorem C8_migrate_single_transaction migrations now (db : metadb content) :
  let pending :=
    pending_migrations migrations (max_recorded_id (schema_migrations db)) in
  let result := migrateKnowledgeMetaDb exec migrations now db in
  StronglySorted id_le pending
  /\ pending ≡ₚ filter (fun m => max_recorded_id (schema_migrations db) < mig_id m) migrations
  /\ (forall db', result = (Ok (), db') ->
        run_scripts exec (map mig_sql pending) (data db) = Ok (data db')
        /\ schema_migrations db' = schema_migrations db ++ map (row_of now) pending)
  /\ (forall message db', result = (Throw message, db') -> db' = db)
  /\ (NoDup (map mig_id migrations) ->
      (forall d', run_scripts exec (map mig_sql pending) (data db) = Ok d' ->
         result = (Ok (), {| data := d';
                             schema_migrations :=
                               schema_migrations db ++ map (row_of now) pending |}))
      /\ (forall earlier m later d1 message,
            pending = earlier ++ m :: later ->
            run_scripts exec (map mig_sql earlier) (data db) = Ok d1 ->
            exec (mig_sql m) d1 = Throw message ->
            result = (Throw message, db))).
Proof.
  intros pending result. split; [apply sort_by_id_sorted|].
  split; [apply sort_by_id_perm|].
  assert (Hres : result = match pending with
                          | [] => (Ok (), db)
                          | _ => match run_pending exec now pending db with
                                 | Ok db' => (Ok (), db')
                                 | Throw message => (Throw message, db)
                                 end
                          end) by done.
  split; [|split].
  - intros db' H. rewrite Hres in H. destruct pending as [|m rest] eqn:Ep.
    + injection H as <-. simpl. by rewrite app_nil_r.
    + destruct (run_pending exec now (m :: rest) db) as [db1|e] eqn:Er; [|done].
      injection H as <-. split; [by eapply run_pending_data|by eapply run_pending_rows].
  - intros message db' H. rewrite Hres in H. destruct pending as [|m rest]; [done|].
    destruct (run_pending exec now (m :: rest) db) as [db1|e]; [done|]. by injection H.
  - intros Hnd.
    assert (Hrun : run_pending exec now pending db
                   = match run_scripts exec (map mig_sql pending) (data db) with
                     | Ok d' =>
                         Ok {| data := d';
                               schema_migrations :=
                                 schema_migrations db ++ map (row_of now) pending |}
                     | Throw message => Throw message
                     end).
    { apply run_pending_scripts; [by apply pending_NoDup|apply pending_new]. }
    split.
    + intros d' Hd. rewrite Hres, Hrun, Hd. destruct pending; [|done].
      simpl in Hd. injection Hd as <-. rewrite app_nil_r. by destruct db.
    + intros earlier m later d1 message Hp Hd He. rewrite Hres, Hrun, Hp.
      rewrite map_app, run_scripts_app, Hd. simpl. rewrite He.
      by destruct earlier.
Qed.

End Run.

Lemma C8_migrate_single_transaction_witness :
  migrateKnowledgeMetaDb sample_exec sample_migrations 7 empty_db
  = (Throw "incomplete input", empty_db).
Proof.
  destruct (C8_migrate_single_transaction sample_exec sample_migrations 7 empty_db)
    as (_ & _ & _ & _ & H).
  destruct H as [_ H]; [vm_compute; repeat constructor; set_solver|].
  apply (H [sample_first] sample_second [] ["first.sql"] "incomplete input"); reflexivity.
Defined.

(** C8, counterexample: with the pending migrations [1; 2] of which the
    second fails, migration 1 succeeds on its own, yet after the run it is
    not recorded: the single transaction took it back. *)
Lemma C8_later_failure_discards_earlier :
  ~ later_failure_keeps_earlier sample_exec sample_migrations 7 empty_db.
Proof.
  intros H.
  specialize (H [sample_first] sample_second []
                {| data := ["first.sql"]; schema_migrations := [row_of 7 sample_first] |}).
  specialize (H eq_refl eq_refl (ex_intro _ "incomplete input" eq_refl) sample_first
                (or_introl eq_refl)).
  vm_compute in H. exact H.
Qed.

(** On the same input the procedure described by the specification keeps
    migration 1, the code keeps nothing. *)
Example sample_run_code_vs_specification :
  recorded_ids (snd (migrateKnowledgeMetaDb sample_exec sample_migrations 7 empty_db)) = [] /\
  recorded_ids (snd (migrate_as_specified sample_exec sample_migrations 7 empty_db)) = [1].
Proof. by vm_compute. Qed.

End MigrationFacts.

(* ------------------------------------------------------------------ *)
(** ** The message listener and the pending calls                      *)
(* ------------------------------------------------------------------ *)

Module RpcFacts.
Import Js Kb Rpc Client.

Lemma on_message_malformed (invoke : handler_ref -> jsval -> M value) msg w :
  malformed msg = true -> on_message invoke msg w = (Ok (), w).
Proof.
  unfold malformed, on_message. intros H.
  destruct (negb (truthy msg) || negb (typeof_object msg)) eqn:E1; [done|].
  simpl in H. rewrite H. done.
Qed.

Lemma on_message_unknown (invoke : handler_ref -> jsval -> M value) msg key w :
  malformed msg = false ->
  ToString (get "method" msg) = Some key ->
  get_handler key = None ->
  on_message invoke msg w
    = (Ok (), with_sent (fun l => l ++ [MsgError (get "id" msg) ("未知方法: " +:+ key)]) w).
Proof.
  unfold malformed, on_message. intros H Hk Hh.
  apply orb_false_iff in H as [H H3]. apply orb_false_iff in H as [H H2].
  rewrite H. simpl. rewrite H2, H3. simpl. rewrite Hk, Hh. done.
Qed.

Lemma pending_call_other id c s :
  pending_call id c = Some s -> id = JStr s /\ is_Some (pending c !! s).
Proof.
  unfold pending_call. destruct id; try done.
  case_bool_decide as Hin; [|done]. intros [= <-].
  split; [done|]. by apply elem_of_dom.
Qed.

Lemma client_step_keeps_pending ev c id :
  is_Some (pending c !! id) ->
  responds_to id ev = false ->
  ev <> TimerFired id ->
  ev <> Dispose ->
  is_Some (pending (client_step ev c) !! id)
  /\ List.filter (fun p => String.eqb (fst p) id) (settled (client_step ev c))
     = List.filter (fun p => String.eqb (fst p) id) (settled c).
Proof.
  intros Hp Hr Ht Hd. destruct ev as [id' method params|msg|id'|]; simpl.
  - split; [|done]. destruct (decide (id' = id)) as [->|Hne].
    + rewrite lookup_insert_eq. eauto.
    + by rewrite lookup_insert_ne.
  - destruct msg as [rid result|rid message|]; [| |done].
    + destruct (pending_call rid c) as [s|] eqn:E; [|done].
      apply pending_call_other in E as [-> _]. simpl in Hr.
      apply String.eqb_neq in Hr. simpl. split.
      * by rewrite lookup_delete_ne.
      * rewrite List.filter_app. simpl.
        apply String.eqb_neq in Hr. rewrite Hr. by rewrite app_nil_r.
    + destruct (pending_call rid c) as [s|] eqn:E; [|done].
      apply pending_call_other in E as [-> _]. simpl in Hr.
      apply String.eqb_neq in Hr. simpl. split.
      * by rewrite lookup_delete_ne.
      * rewrite List.filter_app. simpl.
        apply String.eqb_neq in Hr. rewrite Hr. by rewrite app_nil_r.
  - destruct (pending c !! id') as [method|] eqn:E; [|done].
    assert (id' <> id) by congruence. simpl. split.
    + by rewrite lookup_delete_ne.
    + rewrite List.filter_app. simpl.
      apply String.eqb_neq in H. rewrite H. by rewrite app_nil_r.
  - done.
Qed.

(** C10 (as amended): a message that is not an object, or whose [id] or
    [method] is missing or empty, is dropped without any response and
    without any other effect; a well-formed request whose method names no
    property of the [handlers] object receives the one error response
    "unknown method"; and a pending call that gets no response stays
    pending, unsettled, through every event other than the firing of its
    own timer and the disposal of the client (worker exit included). *)
Theorem C10_dropped_message_and_pending_call
    (invoke : handler_ref -> jsval -> M value) (msg : jsval) (w : worker)
    (c : client) (id : string) (ev : client_event) :
  (malformed msg = true -> on_message invoke msg w = (Ok (), w))
  /\ (forall key,
        malformed msg = false ->
        ToString (get "method" msg) = Some key ->
        get_handler key = None ->
        on_message invoke msg w
          = (Ok (), with_sent (fun l => l ++ [MsgError (get "id" msg) ("未知方法: " +:+ key)]) w))
  /\ (is_Some (pending c !! id) ->
      responds_to id ev = false ->
      ev <> TimerFired id ->
      ev <> Dispose ->
      is_Some (pending (client_step ev c) !! id)
      /\ List.filter (fun p => String.eqb (fst p) id) (settled (client_step ev c))
         = List.filter (fun p => String.eqb (fst p) id) (settled c)).
Proof.
  split; [apply on_message_malformed|].
  split; [intros key; apply on_message_unknown|].
  apply client_step_keeps_pending.
Qed.

Lemma C10_dropped_message_and_pending_call_witness :
  on_message Sample.sample_invoke (request_message "c1" "" JNull) initial_worker
    = (Ok (), initial_worker)
  /\ on_message Sample.sample_invoke (request_message "c3" "kb.nope" JNull) initial_worker
    = (Ok (), with_sent (fun l => l ++ [MsgError (JStr "c3") ("未知方法: " +:+ "kb.nope")])
                initial_worker)
  /\ is_Some (pending (client_step (Message (MsgOk (JStr "c2") VSuccess))
                         Sample.client_after_empty_method) !! "c1").
Proof.
  split; [|split].
  - apply (proj1 (C10_dropped_message_and_pending_call Sample.sample_invoke
             (request_message "c1" "" JNull) initial_worker new_client "c1" Dispose)).
    reflexivity.
  - apply (proj1 (proj2 (C10_dropped_message_and_pending_call Sample.sample_invoke
             (request_message "c3" "kb.nope" JNull) initial_worker new_client "c1" Dispose))
             "kb.nope"); reflexivity.
  - apply (proj2 (proj2 (C10_dropped_message_and_pending_call Sample.sample_invoke
             JNull initial_worker Sample.client_after_empty_method "c1"
             (Message (MsgOk (JStr "c2") VSuccess))))).
    + vm_compute. eauto.
    + reflexivity.
    + discriminate.
    + discriminate.
Defined.

(** C10, counterexample: the request of [call("", null)] is dropped by
    the listener, and the pending call then ends when the client is
    disposed (as it is when the worker exits), not by its timer. *)
Lemma C10_dropped_call_ends_by_dispose :
  malformed (request_message "c1" "" JNull) = true
  /\ ~ ends_only_by_timeout Sample.client_after_empty_method "c1".
Proof.
  split; [reflexivity|].
  intros H. specialize (H Dispose).
  assert (Dispose = TimerFired "c1") as Habs; [|discriminate Habs].
  apply H; [vm_compute; eauto|reflexivity|reflexivity].
Qed.

(** A request for the method ["toString"] is well formed and the table
    has no such entry, yet the lookup finds the inherited function and
    the listener answers with what calling it gives. *)
Example inherited_key_is_served :
  handlers !! "toString" = None
  /\ get_handler "toString" = Some (Inherited "toString")
  /\ sent (snd (on_message Sample.sample_invoke
                  (request_message "c4" "toString" JNull) initial_worker))
     = [MsgOk (JStr "c4") VSuccess].
Proof. by vm_compute. Qed.

End RpcFacts.

(* ------------------------------------------------------------------ *)
(** ** Opening a database: migration and recovery                      *)
(* ------------------------------------------------------------------ *)

Module OpenFacts.
Import Js Kb Scheduler MigrationFacts.

Lemma kb_of_with_kb_eq kbId f w : kb_of (with_kb kbId f w) kbId = f (kb_of w kbId).
Proof. unfold kb_of, with_kb, with_disk. simpl. by rewrite lookup_insert_eq. Qed.

Lemma kb_of_with_kb_ne kbId kb' f w :
  kbId <> kb' -> kb_of (with_kb kbId f w) kb' = kb_of w kb'.
Proof. intros H. unfold kb_of, with_kb, with_disk. simpl. by rewrite lookup_insert_ne. Qed.

(** The two migrations of the schema always apply: they leave every row
    of every table but [schema_migrations] as it is. *)
Lemma migrate_tables_ok now t :
  fst (migrate_tables now t) = Ok ()
  /\ jobs (snd (migrate_tables now t)) = jobs t
  /\ job_items (snd (migrate_tables now t)) = job_items t
  /\ documents (snd (migrate_tables now t)) = documents t
  /\ chunks (snd (migrate_tables now t)) = chunks t
  /\ notes (snd (migrate_tables now t)) = notes t
  /\ 2 <= Migration.max_recorded_id (schema_migrations (snd (migrate_tables now t))).
Proof.
  unfold migrate_tables, Migration.migrateKnowledgeMetaDb, Migration.pending_migrations,
    Migration.KNOWLEDGE_META_MIGRATIONS.
  pose proof (not_recorded_above_max (schema_migrations t)) as Hnew.
  pose proof (max_recorded_id_ge (schema_migrations t)) as Hle.
  cbn [Migration.schema_migrations Migration.data].
  remember (Migration.max_recorded_id (schema_migrations t)) as m eqn:Hm.
  rewrite !filter_cons, filter_nil. simpl.
  destruct (decide (m < 1)) as [H1|H1]; destruct (decide (m < 2)) as [H2|H2];
    simpl; try lia.
  - unfold Migration.insert_migration_row. simpl.
    rewrite (Hnew 1) by lia. simpl.
    rewrite existsb_app, (Hnew 2) by lia. simpl.
    repeat split; try done.
    match goal with |- 2 <= Migration.max_recorded_id ?l =>
      pose proof (max_recorded_id_ge l) as Hall end.
    rewrite Forall_forall in Hall.
    apply (Hall {| Migration.row_id := 2; Migration.row_name := "job_items";
                   Migration.row_applied_at := now |}).
    set_solver.
  - unfold Migration.insert_migration_row. simpl.
    rewrite (Hnew 2) by lia. simpl.
    repeat split; try done.
    match goal with |- 2 <= Migration.max_recorded_id ?l =>
      pose proof (max_recorded_id_ge l) as Hall end.
    rewrite Forall_forall in Hall.
    apply (Hall {| Migration.row_id := 2; Migration.row_name := "job_items";
                   Migration.row_applied_at := now |}).
    set_solver.
  - repeat split; try done. rewrite <- Hm. lia.
Qed.

Lemma migrate_tables_again now t :
  2 <= Migration.max_recorded_id (schema_migrations t) ->
  migrate_tables now t = (Ok (), t).
Proof.
  intros H.
  unfold migrate_tables, Migration.migrateKnowledgeMetaDb, Migration.pending_migrations,
    Migration.KNOWLEDGE_META_MIGRATIONS.
  cbn [Migration.schema_migrations Migration.data].
  rewrite !filter_cons, filter_nil. simpl.
  destruct (decide (_ < 1)) as [H1|H1]; [lia|].
  destruct (decide (_ < 2)) as [H2|H2]; [lia|].
  simpl. by destruct t.
Qed.

Lemma recover_jobs_none_processing now t :
  Forall (fun j => job_status j <> JobProcessing) (jobs (recover_jobs now t)).
Proof.
  unfold recover_jobs, with_jobs, update_where. simpl.
  apply Forall_forall. intros j Hj. apply list_elem_of_fmap in Hj as (j0 & -> & _).
  unfold job_has. case_bool_decide; simpl; congruence.
Qed.

Lemma recover_items_none_processing now t :
  Forall (fun i => item_status i <> ItemProcessing) (job_items (recover_items now t)).
Proof.
  unfold recover_items, with_items, update_where. simpl.
  apply Forall_forall. intros i Hi. apply list_elem_of_fmap in Hi as (i0 & -> & _).
  unfold item_has. case_bool_decide; simpl; congruence.
Qed.

Lemma update_where_id {A} (cond : A -> bool) (set : A -> A) rows :
  Forall (fun r => cond r = false) rows -> update_where cond set rows = rows.
Proof.
  unfold update_where. induction 1 as [|r l Hr _ IH]; simpl; [done|].
  by rewrite Hr, IH.
Qed.

(** The recovery pass has nothing left to do on its own result. *)
Lemma recover_fixed_point now now' t :
  recover now' (recover now t) = recover now t.
Proof.
  unfold recover. simpl.
  assert (Hj : recover_jobs now' (recover_items now (recover_jobs now t))
               = recover_items now (recover_jobs now t)).
  { unfold recover_jobs at 1, with_jobs. simpl.
    rewrite update_where_id; [done|].
    eapply Forall_impl; [apply (recover_jobs_none_processing now t)|].
    intros j Hj. unfold job_has. by case_bool_decide. }
  rewrite Hj.
  unfold recover_items at 1, with_items.
  rewrite update_where_id; [done|].
  eapply Forall_impl; [apply (recover_items_none_processing now (recover_jobs now t))|].
  intros i Hi. unfold item_has. by case_bool_decide.
Qed.

Lemma with_kb_with_kb kbId f g w :
  with_kb kbId g (with_kb kbId f w) = with_kb kbId (fun k => g (f k)) w.
Proof.
  unfold with_kb at 1 3. unfold with_disk. rewrite kb_of_with_kb_eq. simpl.
  by rewrite insert_insert_eq.
Qed.

Lemma with_kb_ext kbId f g w :
  f (kb_of w kbId) = g (kb_of w kbId) -> with_kb kbId f w = with_kb kbId g w.
Proof. intros H. unfold with_kb. by rewrite H. Qed.

Lemma getDb_cached now kbId w :
  kbId ∈ dbCache w -> getDb now kbId w = (Ok (), w).
Proof.
  intros H. unfold getDb, mbind, M_bind, bind, gets. simpl.
  by rewrite bool_decide_eq_true_2.
Qed.

Lemma getDb_uncached now kbId w :
  kbId ∉ dbCache w ->
  getDb now kbId w
  = (Ok (), with_dbCache (fun c => {[kbId]} ∪ c) (with_kb kbId (opened now) w)).
Proof.
  intros H. unfold getDb, mbind, M_bind, bind, gets. simpl.
  rewrite bool_decide_eq_false_2 by done.
  unfold run_all, getDb_statements, ensureKbDirs, openKnowledgeMetaDb, db_run, modify,
    mbind, M_bind, bind, gets, ret. simpl.
  unfold db_of at 1. rewrite kb_of_with_kb_eq.
  destruct (migrate_tables_ok now (meta (kb_of w kbId))) as (Hok & _).
  destruct (migrate_tables now (meta (kb_of w kbId))) as [r t'] eqn:E. simpl in Hok.
  subst r. simpl. rewrite !with_kb_with_kb.
  do 2 f_equal. apply with_kb_ext. unfold opened. by rewrite E.
Qed.

Lemma update_where_Forall2 {A} (cond : A -> bool) (set : A -> A) rows :
  Forall2 (fun r r' => r' = if cond r then set r else r) rows (update_where cond set rows).
Proof. unfold update_where. induction rows; simpl; constructor; done. Qed.

(** C1 (as amended): opening the metadata store of a knowledge base
    whose handle is not cached runs, right after the migration, the
    recovery pass: every [jobs] row with status 'processing' becomes
    'paused', every [job_items] row with status 'processing' becomes
    'pending', no other row changes; afterwards no row is 'processing',
    running the pass again changes nothing, and so does opening the file
    again after a restart. The two statements are not inside a
    transaction: each is committed on its own. *)
Theorem C1_recovery_on_open (w : worker) (kbId : string) (now now' : Z) :
  kbId ∉ dbCache w ->
  tx (kb_of w kbId) = None ->
  let w1 := snd (getDb now kbId w) in
  fst (getDb now kbId w) = Ok ()
  /\ kbId ∈ dbCache w1
  /\ Forall2 (fun j j' => j' = if job_has JobProcessing j
                             then set_job j JobPaused (progress_current j)
                                    (job_error_message j) (job_started_at j)
                                    (job_finished_at j) now (job_heartbeat_at j)
                             else j)
       (jobs (db_of w kbId)) (jobs (db_of w1 kbId))
  /\ Forall2 (fun i i' => i' = if item_has ItemProcessing i
                             then set_item i ItemPending (item_error_message i) now
                                    (item_started_at i) (item_finished_at i)
                             else i)
       (job_items (db_of w kbId)) (job_items (db_of w1 kbId))
  /\ Forall (fun j => job_status j <> JobProcessing) (jobs (db_of w1 kbId))
  /\ Forall (fun i => item_status i <> ItemProcessing) (job_items (db_of w1 kbId))
  /\ committed (kb_of w1 kbId) = db_of w1 kbId
  /\ recover now' (db_of w1 kbId) = db_of w1 kbId
  /\ db_of (snd (getDb now' kbId (restart w1))) kbId = db_of w1 kbId.
Proof.
  intros Hc Htx w1. subst w1. rewrite getDb_uncached by done. cbn [fst snd].
  set (w1 := with_dbCache _ _).
  assert (Hk : kb_of w1 kbId = opened now (kb_of w kbId)).
  { unfold w1, kb_of, with_dbCache, with_kb, with_disk. simpl.
    by rewrite lookup_insert_eq. }
  assert (Hcache : kbId ∈ dbCache w1) by (unfold w1; simpl; set_solver).
  unfold db_of. rewrite Hk.
  set (k := kb_of w kbId) in *.
  destruct (migrate_tables_ok now (meta k)) as (_ & Hj & Hi & _ & _ & _ & Hmax).
  split; [done|]. split; [done|].
  split. { simpl. unfold recover. simpl. rewrite Hj. apply update_where_Forall2. }
  split. { simpl. unfold recover. simpl. rewrite Hi. apply update_where_Forall2. }
  split. { simpl. apply (recover_jobs_none_processing now). }
  split. { simpl. apply (recover_items_none_processing now). }
  split. { unfold committed, opened. simpl. by rewrite Htx. }
  split. { simpl. apply recover_fixed_point. }
  rewrite getDb_uncached by set_solver. cbn [fst snd].
  unfold kb_of at 1. simpl. rewrite lookup_insert_eq. simpl.
  unfold kb_of at 1. simpl. rewrite lookup_fmap.
  rewrite lookup_insert_eq. simpl. fold k. unfold committed. simpl. rewrite Htx.
  rewrite migrate_tables_again; [apply recover_fixed_point|].
  unfold recover. simpl. exact Hmax.
Qed.

Lemma C1_recovery_on_open_witness :
  Forall (fun j => job_status j <> JobProcessing)
    (jobs (db_of (snd (getDb 9 "kb" Sample.crashed_worker)) "kb"))
  /\ db_of (snd (getDb 12 "kb" (restart (snd (getDb 9 "kb" Sample.crashed_worker))))) "kb"
     = db_of (snd (getDb 9 "kb" Sample.crashed_worker)) "kb".
Proof.
  pose proof (C1_recovery_on_open Sample.crashed_worker "kb" 9 12) as H.
  simpl in H.
  assert (H1 : "kb" ∉ dbCache Sample.crashed_worker) by (vm_compute; set_solver).
  assert (H2 : tx (kb_of Sample.crashed_worker "kb") = None) by reflexivity.
  destruct (H H1 H2) as (_ & _ & _ & _ & Ha & _ & _ & _ & Hb).
  split; [exact Ha|exact Hb].
Defined.

(** C1, counterexample: a worker that died while a job was running is
    started again and dies once more after the first of the two recovery
    statements: the file then holds the job as 'paused' and its item
    still as 'processing', neither the state before the recovery nor the
    state after it. *)
Lemma C1_recovery_not_in_one_transaction :
  ~ recovery_is_atomic 9 "kb" Sample.crashed_worker.
Proof.
  intros H. specialize (H 3%nat ltac:(lia)).
  vm_compute in H. destruct H as [H|H]; discriminate H.
Qed.

End OpenFacts.

(* ------------------------------------------------------------------ *)
(** ** Runs of the scheduler that leave the job state machine          *)
(* ------------------------------------------------------------------ *)

Module SchedulerRuns.
Import Js Kb Ingest Scheduler Handlers Sample.

(** C3, the code at the failing inputs: job "A" has run to 'done';
    [cancelJob] then rewrites its status to 'canceled' (its [finished_at]
    and its items stay as they were), and [resumeJob] on the cancelled
    job rewrites the status to 'processing'. *)
Theorem C3_cancel_and_resume_leave_terminal_states :
  status_of worker_A_done "kb" "A" = Some JobDone
  /\ status_of (sample_step cancel_A worker_A_done) "kb" "A" = Some JobCanceled
  /\ (job_finished_at <$> job_row (sample_step cancel_A worker_A_done) "kb" "A")
     = (job_finished_at <$> job_row worker_A_done "kb" "A")
  /\ item_statuses (sample_step cancel_A worker_A_done) "kb"
     = item_statuses worker_A_done "kb"
  /\ status_of (sample_step resume_A (sample_step cancel_A worker_A_done)) "kb" "A"
     = Some JobProcessing.
Proof. by vm_compute. Qed.

(** C2, the code at the failing input: after job "A" finished, was
    cancelled and resumed, its row says 'processing' although no loop
    runs it; the next import starts job "B", and two jobs of the same
    knowledge base are 'processing'. *)
Theorem C2_two_jobs_processing :
  reachable posix_ascii "/data" worker_two_jobs
  /\ status_of worker_two_jobs "kb" "A" = Some JobProcessing
  /\ status_of worker_two_jobs "kb" "B" = Some JobProcessing
  /\ runningByKb worker_two_jobs !! "kb" = Some "B"
  /\ ~ at_most_one_processing worker_two_jobs.
Proof.
  split; [by exists two_jobs_trace|].
  split; [by vm_compute|]. split; [by vm_compute|]. split; [by vm_compute|].
  intros H. specialize (H "kb"). vm_compute in H. lia.
Qed.

End SchedulerRuns.

(* ------------------------------------------------------------------ *)
(** ** Reasoning about worker code: weakest preconditions              *)
(* ------------------------------------------------------------------ *)

Module WpFacts.
Import Js Kb.

Lemma wp_ret {A} (a : A) Q w : Q (Ok a) w -> wp (ret a) Q w.
Proof. done. Qed.

Lemma wp_mret {A} (a : A) Q w : Q (Ok a) w -> wp (mret a : M A) Q w.
Proof. done. Qed.

Lemma wp_throw {A} msg (Q : res A -> worker -> Prop) w :
  Q (Throw msg) w -> wp (throw msg) Q w.
Proof. done. Qed.

Lemma wp_gets {A} (f : worker -> A) Q w : Q (Ok (f w)) w -> wp (gets f) Q w.
Proof. done. Qed.

Lemma wp_modify f Q w : Q (Ok ()) (f w) -> wp (modify f) Q w.
Proof. done. Qed.

Lemma wp_bind {A B} (m : M A) (k : A -> M B) Q w :
  wp m (fun r w' => match r with
                    | Ok a => wp (k a) Q w'
                    | Throw e => Q (Throw e) w'
                    end) w ->
  wp (m ≫= k) Q w.
Proof.
  unfold wp, mbind, M_bind, bind. destruct (m w) as [[a|e] w']; simpl; done.
Qed.

Lemma wp_try_catch {A} (m : M A) h Q w :
  wp m (fun r w' => match r with
                    | Ok a => Q (Ok a) w'
                    | Throw e => wp (h e) Q w'
                    end) w ->
  wp (try_catch m h) Q w.
Proof.
  unfold wp, try_catch. destruct (m w) as [[a|e] w']; simpl; done.
Qed.

Lemma wp_ignore_errors {A} (m : M A) Q w :
  wp m (fun _ w' => Q (Ok ()) w') w -> wp (ignore_errors m) Q w.
Proof. unfold wp, ignore_errors. destruct (m w); done. Qed.

Lemma wp_mono {A} (m : M A) (Q Q' : res A -> worker -> Prop) w :
  wp m Q w -> (forall r w', Q r w' -> Q' r w') -> wp m Q' w.
Proof. unfold wp. destruct (m w). eauto. Qed.

Lemma wp_eq {A} (m : M A) Q w : wp m Q w <-> Q (fst (m w)) (snd (m w)).
Proof. unfold wp. by destruct (m w). Qed.

Lemma wp_send msg Q w :
  Q (Ok ()) (with_sent (fun l => l ++ [msg]) w) -> wp (send msg) Q w.
Proof. done. Qed.

Lemma wp_db_run kbId f Q w :
  Q (Ok ()) (with_kb kbId (fun k => {| meta := f (meta k); tx := tx k; blobs := blobs k |}) w) ->
  wp (db_run kbId f) Q w.
Proof. done. Qed.

End WpFacts.

(* ------------------------------------------------------------------ *)
(** ** [kb.importFiles] with nothing to import                         *)
(* ------------------------------------------------------------------ *)

Module ImportFacts.
Import Js Kb Scheduler Handlers OpenFacts.

Lemma getDb_ok now kbId w : fst (getDb now kbId w) = Ok ().
Proof.
  destruct (decide (kbId ∈ dbCache w)).
  - by rewrite getDb_cached.
  - by rewrite getDb_uncached.
Qed.

Lemma kb_of_ensureKbDirs kbId kb' w :
  kb_of (snd (ensureKbDirs kbId w)) kb' = kb_of w kb'.
Proof.
  unfold ensureKbDirs, modify. simpl.
  destruct (decide (kbId = kb')) as [->|Hne].
  - by rewrite kb_of_with_kb_eq.
  - by rewrite kb_of_with_kb_ne.
Qed.

(** What [getDb] does to the directories: the one that is opened gets
    its migration and recovery, unless its handle is cached. *)
Lemma kb_of_getDb now kbId kb' w :
  kb_of (snd (getDb now kbId w)) kb'
  = if bool_decide (kb' = kbId /\ kbId ∉ dbCache w) then opened now (kb_of w kbId)
    else kb_of w kb'.
Proof.
  destruct (decide (kbId ∈ dbCache w)) as [Hc|Hc].
  - rewrite getDb_cached by done. rewrite bool_decide_eq_false_2; [done|]. tauto.
  - rewrite getDb_uncached by done. cbn [snd].
    change (kb_of (with_dbCache _ ?x) kb') with (kb_of x kb').
    destruct (decide (kb' = kbId)) as [->|Hne].
    + rewrite kb_of_with_kb_eq. by rewrite bool_decide_eq_true_2.
    + rewrite kb_of_with_kb_ne by done. rewrite bool_decide_eq_false_2; [done|]. tauto.
Qed.

Lemma handleImportFiles_nothing_found env kbId sources w :
  resolveImportFileList (collect env) sources = [] ->
  handleImportFiles env kbId sources w
  = if String.eqb kbId "" then (Throw "kbId 不能为空", w)
    else if bool_decide (sources = []) then (Throw "sources 不能为空", w)
    else (Throw "未发现可导入的文件", snd (getDb (now env) kbId (snd (ensureKbDirs kbId w)))).
Proof.
  intros Hr. unfold handleImportFiles.
  destruct (String.eqb kbId ""); [done|].
  destruct (bool_decide (sources = [])); [done|].
  rewrite Hr. simpl.
  unfold mbind, M_bind, bind. simpl.
  pose proof (getDb_ok (now env) kbId (with_kb kbId (fun k => k) w)) as Hok.
  destruct (getDb (now env) kbId (with_kb kbId (fun k => k) w)) as [r2 w2].
  simpl in *. by subst r2.
Qed.

(** C7 (as amended): when the sources resolve to an empty file list the
    call fails (with the "no files found" error when the knowledge base
    id and the source list are not empty), no [jobs] row and no
    [job_items] row is created, no other knowledge base is touched, and
    the metadata store of the knowledge base changes at most by the
    migration and recovery of [getDb] when its handle was not cached; with
    a cached handle it does not change at all. *)
Theorem C7_nothing_found_creates_no_job (env : call_env) (kbId : string)
    (sources : list ImportSource) (w : worker) :
  resolveImportFileList (collect env) sources = [] ->
  let r := handleImportFiles env kbId sources w in
  is_ok (fst r) = false
  /\ (kbId <> "" -> sources <> [] -> fst r = Throw "未发现可导入的文件")
  /\ map job_id (jobs (db_of (snd r) kbId)) = map job_id (jobs (db_of w kbId))
  /\ map item_id (job_items (db_of (snd r) kbId)) = map item_id (job_items (db_of w kbId))
  /\ (forall kb', kb' <> kbId -> kb_of (snd r) kb' = kb_of w kb')
  /\ (kbId ∈ dbCache w -> kb_of (snd r) kbId = kb_of w kbId)
  /\ (kbId ∉ dbCache w ->
      kb_of (snd r) kbId = kb_of w kbId \/ kb_of (snd r) kbId = opened (now env) (kb_of w kbId))
  /\ runningByKb (snd r) = runningByKb w
  /\ suspended (snd r) = suspended w
  /\ sent (snd r) = sent w.
Proof.
  intros Hr r. subst r. rewrite (handleImportFiles_nothing_found _ _ _ _ Hr).
  destruct (String.eqb kbId "") eqn:Ek.
  { simpl. repeat split; try done; try tauto.
    apply String.eqb_eq in Ek. congruence. }
  destruct (bool_decide (sources = [])) eqn:Es.
  { simpl. apply bool_decide_eq_true in Es. repeat split; try done; tauto. }
  simpl.
  set (w1 := snd (ensureKbDirs kbId w)).
  assert (Hk : forall kb', kb_of (snd (getDb (now env) kbId w1)) kb'
            = if bool_decide (kb' = kbId /\ kbId ∉ dbCache w) then opened (now env) (kb_of w kbId)
              else kb_of w kb').
  { intros kb'. rewrite kb_of_getDb. unfold w1. by rewrite !kb_of_ensureKbDirs. }
  assert (Hrest : runningByKb (snd (getDb (now env) kbId w1)) = runningByKb w
                  /\ suspended (snd (getDb (now env) kbId w1)) = suspended w
                  /\ sent (snd (getDb (now env) kbId w1)) = sent w).
  { destruct (decide (kbId ∈ dbCache w1)) as [Hc|Hc].
    - by rewrite getDb_cached.
    - by rewrite getDb_uncached. }
  destruct Hrest as (Hr1 & Hr2 & Hr3).
  split; [done|]. split; [done|].
  assert (Hrows : map job_id (jobs (meta (opened (now env) (kb_of w kbId))))
                    = map job_id (jobs (db_of w kbId))
                  /\ map item_id (job_items (meta (opened (now env) (kb_of w kbId))))
                    = map item_id (job_items (db_of w kbId))).
  { unfold opened, recover, db_of. simpl.
    destruct (migrate_tables_ok (now env) (meta (kb_of w kbId))) as (_ & Hj & Hi & _).
    rewrite Hj, Hi. unfold update_where. rewrite !map_map. split.
    - apply map_ext. intros j. by destruct (job_has JobProcessing j).
    - apply map_ext. intros i. by destruct (item_has ItemProcessing i). }
  destruct Hrows as [Hj Hi].
  assert (Hother : forall kb', kb' <> kbId ->
            kb_of (snd (getDb (now env) kbId w1)) kb' = kb_of w kb').
  { intros kb' Hne. rewrite Hk. rewrite bool_decide_eq_false_2; [done|]. tauto. }
  unfold db_of at 1 3. rewrite !Hk.
  destruct (decide (kbId ∈ dbCache w)) as [Hc|Hc].
  - rewrite bool_decide_eq_false_2 by tauto.
    repeat split; try done; by left.
  - rewrite bool_decide_eq_true_2 by tauto.
    repeat split; try done; by right.
Qed.

Lemma C7_nothing_found_creates_no_job_witness :
  is_ok (fst (handleImportFiles (Sample.env_at 7 "J") "kb"
                [SrcDirectory ["/empty"] None] Sample.worker_A_done)) = false
  /\ map job_id (jobs (db_of (snd (handleImportFiles (Sample.env_at 7 "J") "kb"
                                     [SrcDirectory ["/empty"] None] Sample.worker_A_done)) "kb"))
     = map job_id (jobs (db_of Sample.worker_A_done "kb")).
Proof.
  assert (Hr : resolveImportFileList (collect (Sample.env_at 7 "J"))
                 [SrcDirectory ["/empty"] None] = []) by (by vm_compute).
  pose proof (C7_nothing_found_creates_no_job (Sample.env_at 7 "J") "kb"
                [SrcDirectory ["/empty"] None] Sample.worker_A_done Hr) as H.
  cbv zeta in H. destruct H as (H1 & _ & H2 & _). split; [exact H1|exact H2].
Defined.

(** C7, counterexample: the worker process was started again after it
    died during a job; the first request to the knowledge base is an
    import from an empty directory. The call fails and creates no rows,
    but it opened the database on the way: the job that was 'processing'
    is now 'paused', so the metadata store has changed. *)
Lemma C7_failed_import_changes_store :
  ~ failed_import_leaves_store (Sample.env_at 7 "J") "kb"
      [SrcDirectory ["/empty"] None] Sample.crashed_worker.
Proof.
  intros H.
  assert (Hr : resolveImportFileList (collect (Sample.env_at 7 "J"))
                 [SrcDirectory ["/empty"] None] = []) by (by vm_compute).
  specialize (H Hr). vm_compute in H. discriminate H.
Qed.

End ImportFacts.

(* ------------------------------------------------------------------ *)
(** ** The chunker                                                     *)
(* ------------------------------------------------------------------ *)

Module ChunkerFacts.
Import Chunker.

Section Windows.
Variables chunkSize overlap : nat.

Lemma push_loop_pushes fuel s chunks carry :
  push_loop fuel chunkSize overlap s = Some (chunks, carry) ->
  pushes chunkSize overlap s chunks carry.
Proof.
  revert s chunks carry. induction fuel as [|fuel IH]; intros s chunks carry; simpl.
  - destruct (length s <? chunkSize)%nat eqn:E; [|done].
    intros [= <- <-]. apply Nat.ltb_lt in E. by constructor.
  - destruct (length s <? chunkSize)%nat eqn:E.
    + intros [= <- <-]. apply Nat.ltb_lt in E. by constructor.
    + apply Nat.ltb_ge in E.
      destruct (push_loop fuel chunkSize overlap (drop (chunkSize - overlap) s))
        as [[cs c]|] eqn:E2; [|done].
      intros [= <- <-]. constructor; [done|]. by apply IH.
Qed.

Lemma pushes_push_loop fuel s chunks carry :
  pushes chunkSize overlap s chunks carry ->
  (overlap < chunkSize)%nat ->
  (length s <= fuel)%nat ->
  push_loop fuel chunkSize overlap s = Some (chunks, carry).
Proof.
  intros H Hlt. revert fuel. induction H as [s Hs|s chunks carry Hs H IH]; intros fuel Hf.
  - destruct fuel; simpl; apply Nat.ltb_lt in Hs; by rewrite Hs.
  - destruct fuel as [|fuel]; [lia|]. simpl.
    pose proof Hs as Hs'. apply Nat.ltb_ge in Hs'. rewrite Hs'.
    rewrite IH; [done|]. rewrite length_drop. lia.
Qed.

(** With an overlap smaller than the chunk size the loop of [push]
    ends: one unit of fuel per code unit is enough. *)
Lemma push_loop_terminates fuel s :
  (overlap < chunkSize)%nat -> (length s <= fuel)%nat ->
  exists chunks carry, push_loop fuel chunkSize overlap s = Some (chunks, carry).
Proof.
  intros Hlt. revert s. induction fuel as [|fuel IH]; intros s Hf; simpl.
  - destruct (length s <? chunkSize)%nat eqn:E; [eauto|].
    apply Nat.ltb_ge in E. lia.
  - destruct (length s <? chunkSize)%nat eqn:E; [eauto|].
    apply Nat.ltb_ge in E.
    destruct (IH (drop (chunkSize - overlap) s)) as (cs & c & ->); [|eauto].
    rewrite length_drop. lia.
Qed.

Lemma pushes_deterministic s c1 r1 c2 r2 :
  pushes chunkSize overlap s c1 r1 -> pushes chunkSize overlap s c2 r2 ->
  c1 = c2 /\ r1 = r2.
Proof.
  intros H. revert c2 r2. induction H as [s Hs|s chunks carry Hs H IH]; intros c2 r2 H2.
  - inversion H2; subst; [done|lia].
  - inversion H2; subst; [lia|].
    destruct (IH _ _ H1) as [-> ->]. done.
Qed.

(** Feeding the text in pieces gives the chunks of the whole text. *)
Lemma pushes_app s c1 r1 t c2 r2 :
  pushes chunkSize overlap s c1 r1 ->
  pushes chunkSize overlap (r1 ++ t) c2 r2 ->
  pushes chunkSize overlap (s ++ t) (c1 ++ c2) r2.
Proof.
  intros H. revert c2 r2. induction H as [s Hs|s chunks carry Hs H IH]; intros c2 r2 H2.
  - done.
  - simpl. replace (take chunkSize s) with (take chunkSize (s ++ t)).
    + constructor; [rewrite length_app; lia|].
      rewrite drop_app_le by lia. by apply IH.
    + by rewrite take_app_le.
Qed.

Lemma pushes_lengths s chunks carry :
  pushes chunkSize overlap s chunks carry ->
  Forall (fun c => length c = chunkSize) chunks /\ (length carry < chunkSize)%nat.
Proof.
  induction 1 as [s Hs|s chunks carry Hs H [IH1 IH2]]; [split; [constructor|done]|].
  split; [|done]. constructor; [|done]. rewrite length_take. lia.
Qed.

(** The [i]-th full chunk is the window of the text at [i] strides. *)
Lemma pushes_windows s chunks carry :
  pushes chunkSize overlap s chunks carry ->
  (forall i c, chunks !! i = Some c ->
     c = take chunkSize (drop (i * (chunkSize - overlap)) s))
  /\ carry = drop (length chunks * (chunkSize - overlap)) s.
Proof.
  induction 1 as [s Hs|s chunks carry Hs H [IH1 IH2]].
  - split; [done|]. by rewrite drop_0.
  - split.
    + intros [|i] c Hc; simpl in Hc.
      * inversion Hc. by rewrite drop_0.
      * rewrite (IH1 i c Hc), drop_drop. done.
    + rewrite IH2, drop_drop. done.
Qed.

(** Reading the text back from the full chunks and the carry that has
    not been trimmed. *)
Lemma pushes_reassemble s chunks carry :
  pushes chunkSize overlap s chunks carry ->
  (overlap <= chunkSize)%nat ->
  reassemble overlap (chunks ++ [carry]) = s.
Proof.
  intros H Hle. induction H as [s Hs|s chunks carry Hs H IH].
  - simpl. by rewrite app_nil_r.
  - simpl. simpl in IH.
    assert (Hd : drop overlap (drop (chunkSize - overlap) s) = drop chunkSize s).
    { rewrite drop_drop. f_equal. lia. }
    destruct chunks as [|x xs]; simpl in *.
    + rewrite app_nil_r in IH. subst carry. rewrite app_nil_r, Hd.
      apply take_drop.
    + apply pushes_lengths in H as [Hall _].
      apply Forall_cons_1 in Hall as [Hx _].
      transitivity (take chunkSize s ++ drop chunkSize s); [|apply take_drop].
      f_equal. rewrite <- Hd, <- IH. rewrite drop_app_le by lia. done.
Qed.

End Windows.
End ChunkerFacts.


(* ------------------------------------------------------------------ *)
(** ** The ingestion engine                                            *)
(* ------------------------------------------------------------------ *)

Module IngestFacts.
Import Js Kb Ingest Chunker WpFacts ChunkerFacts OpenFacts.

Lemma wp_db_try kbId f Q w :
  match f (db_of w kbId) with
  | Ok t' =>
      Q (Ok ()) (with_kb kbId (fun k => {| meta := t'; tx := tx k; blobs := blobs k |}) w)
  | Throw message => Q (Throw message) w
  end ->
  wp (db_try kbId f) Q w.
Proof.
  unfold wp, db_try, mbind, M_bind, bind, gets. simpl.
  destruct (f (db_of w kbId)); done.
Qed.

Lemma wp_db_begin kbId Q w :
  match tx (kb_of w kbId) with
  | Some _ => Q (Throw "cannot start a transaction within a transaction") w
  | None =>
      Q (Ok ()) (with_kb kbId (fun k =>
                   {| meta := meta k; tx := Some (meta k); blobs := blobs k |}) w)
  end ->
  wp (db_begin kbId) Q w.
Proof.
  unfold wp, db_begin, mbind, M_bind, bind, gets. simpl.
  destruct (tx (kb_of w kbId)); done.
Qed.

Lemma wp_db_commit kbId Q w :
  match tx (kb_of w kbId) with
  | None => Q (Throw "cannot commit - no transaction is active") w
  | Some _ =>
      Q (Ok ()) (with_kb kbId (fun k => {| meta := meta k; tx := None; blobs := blobs k |}) w)
  end ->
  wp (db_commit kbId) Q w.
Proof.
  unfold wp, db_commit, mbind, M_bind, bind, gets. simpl.
  destruct (tx (kb_of w kbId)); done.
Qed.

Lemma wp_db_rollback kbId Q w :
  match tx (kb_of w kbId) with
  | None => Q (Throw "cannot rollback - no transaction is active") w
  | Some s =>
      Q (Ok ()) (with_kb kbId (fun k => {| meta := s; tx := None; blobs := blobs k |}) w)
  end ->
  wp (db_rollback kbId) Q w.
Proof.
  unfold wp, db_rollback, mbind, M_bind, bind, gets. simpl.
  destruct (tx (kb_of w kbId)); done.
Qed.

Lemma streamed_refl kbId rel w : streamed kbId rel [] [] w w.
Proof.
  split; try done.
  - by rewrite app_nil_r.
  - intros old H. by rewrite app_nil_r.
Qed.

Lemma streamed_trans kbId rel r1 b1 r2 b2 w1 w2 w3 :
  streamed kbId rel r1 b1 w1 w2 -> streamed kbId rel r2 b2 w2 w3 ->
  streamed kbId rel (r1 ++ r2) (b1 ++ b2) w1 w3.
Proof.
  intros [] []. split; try congruence.
  - rewrite st_chunks1, st_chunks0. by rewrite app_assoc.
  - intros old H. rewrite app_assoc. auto.
Qed.

Lemma streamed_write kbId rel buf w :
  streamed kbId rel [] buf w
    (with_kb kbId (fun k =>
       {| meta := meta k; tx := tx k;
          blobs := <[rel := default [] (blobs k !! rel) ++ buf]> (blobs k) |}) w).
Proof.
  split; unfold db_of; rewrite ?kb_of_with_kb_eq; simpl; try done.
  - by rewrite app_nil_r.
  - intros old' H'. rewrite lookup_insert_eq. rewrite H' . done.
Qed.

Lemma streamed_insert kbId rel c w t' :
  insert_chunk c (db_of w kbId) = Ok t' ->
  streamed kbId rel [c] [] w
    (with_kb kbId (fun k => {| meta := t'; tx := tx k; blobs := blobs k |}) w).
Proof.
  unfold insert_chunk. intros H.
  destruct (existsb _ _); [done|]. destruct (negb _); [done|].
  injection H as <-.
  split; unfold db_of; rewrite ?kb_of_with_kb_eq; simpl; try done.
  intros old H'. by rewrite app_nil_r.
Qed.

Lemma find_none_existsb {A} (p : A -> bool) l :
  existsb p l = false -> List.find p l = None.
Proof.
  induction l as [|x l IH]; simpl; [done|].
  destruct (p x); [done|]. exact IH.
Qed.

Section WithNode.
Variable node : NodeApi.

(** [insert_parts] either throws or appends exactly the rows of the
    parts. *)
Lemma insert_parts_wp kbId rel documentId chunkIds now parts index w :
  wp (insert_parts kbId documentId chunkIds now parts index)
     (fun r w' =>
        match r with
        | Ok index' =>
            index' = index + Z.of_nat (length parts)
            /\ streamed kbId rel (chunk_rows documentId chunkIds now index parts) [] w w'
        | Throw _ => True
        end) w.
Proof.
  revert index w. induction parts as [|part rest IH]; intros index w; simpl.
  - apply wp_ret. split; [lia|]. apply streamed_refl.
  - apply wp_bind. apply wp_db_try.
    destruct (insert_chunk _ (db_of w kbId)) as [t'|] eqn:E; [|done].
    eapply wp_mono; [apply IH|].
    intros [index'|] w'; [|done]. intros [-> Hs]. split; [lia|].
    pose proof (streamed_trans _ _ _ _ _ _ _ _ _ (streamed_insert kbId rel _ _ _ E) Hs) as H.
    exact H.
Qed.

Lemma chunk_rows_app documentId chunkIds now index p1 p2 :
  chunk_rows documentId chunkIds now index (p1 ++ p2)
  = chunk_rows documentId chunkIds now index p1
    ++ chunk_rows documentId chunkIds now (index + Z.of_nat (length p1)) p2.
Proof.
  revert index. induction p1 as [|p p1 IH]; intros index; simpl.
  - by rewrite Z.add_0_r.
  - rewrite IH. do 3 f_equal. lia.
Qed.

Lemma push_and_insert_wp kbId rel documentId chunkIds now text (st : stream_state node) w :
  wp (push_and_insert node kbId documentId chunkIds now text st)
     (fun r w' =>
        match r with
        | Ok st' =>
            exists parts,
              pushes CHUNK_SIZE OVERLAP (carry node st ++ text) parts (carry node st')
              /\ chunkIndex node st' = chunkIndex node st + Z.of_nat (length parts)
              /\ streamed kbId rel
                   (chunk_rows documentId chunkIds now (chunkIndex node st) parts) [] w w'
              /\ hashed node st' = hashed node st
              /\ decoder node st' = decoder node st
              /\ decidedBinary node st' = decidedBinary node st
              /\ canIndex node st' = canIndex node st
        | Throw _ => True
        end) w.
Proof.
  unfold push_and_insert, push.
  destruct (push_loop _ _ _ _) as [[parts carry']|] eqn:E; [|done].
  apply push_loop_pushes in E.
  apply wp_bind. eapply wp_mono; [apply (insert_parts_wp kbId rel)|].
  intros [index'|] w'; [|done]. intros [-> Hs]. apply wp_ret.
  exists parts. simpl. split_and!; done.
Qed.

Lemma stream_loop_wp kbId rel documentId chunkIds now bufs :
  forall (st : stream_state node) w,
  (length (carry node st) < CHUNK_SIZE)%nat ->
  wp (stream_loop node kbId documentId rel chunkIds now bufs st)
     (fun r w' =>
        match r with
        | Ok st' =>
            hashed node st' = hashed node st ++ concat bufs
            /\ canIndex node st'
               = canIndex node st && (decidedBinary node st || first_clean bufs)
            /\ (length (carry node st') < CHUNK_SIZE)%nat
            /\ if canIndex node st' then
                 exists parts,
                   pushes CHUNK_SIZE OVERLAP
                     (carry node st ++ concat (fst (decode_run node (decoder node st) bufs)))
                     parts (carry node st')
                   /\ decoder node st' = snd (decode_run node (decoder node st) bufs)
                   /\ chunkIndex node st' = chunkIndex node st + Z.of_nat (length parts)
                   /\ streamed kbId rel
                        (chunk_rows documentId chunkIds now (chunkIndex node st) parts)
                        (concat bufs) w w'
               else streamed kbId rel [] (concat bufs) w w'
        | Throw _ => True
        end) w.
Proof.
  induction bufs as [|buf rest IH]; intros st w Hcarry.
  - simpl. apply wp_ret. split; [by rewrite app_nil_r|].
    split; [by rewrite orb_true_r, andb_true_r|]. split; [done|].
    destruct (canIndex node st).
    + exists []. simpl. rewrite app_nil_r.
      split_and!; [by constructor|done|lia|apply streamed_refl].
    + apply streamed_refl.
  - simpl. apply wp_bind. unfold write_blob. apply wp_modify.
    set (w1 := with_kb kbId _ w).
    assert (Hw : streamed kbId rel [] buf w w1) by apply streamed_write.
    destruct (canIndex node st) eqn:Ec; simpl.
    2:{ eapply wp_mono; [apply IH; done|].
        intros [st'|] w'; [|done]. simpl.
        intros (Hh & Hc & Hl & Hs). rewrite Hc in Hs.
        split; [by rewrite Hh, <- app_assoc|]. split; [done|]. split; [done|].
        rewrite Hc. apply (streamed_trans _ _ _ _ _ _ _ _ _ Hw Hs). }
    destruct (decidedBinary node st) eqn:Ed; simpl.
    + destruct (decoder_write node (decoder node st) buf) as [text dec] eqn:Ew.
      apply wp_bind. eapply wp_mono; [apply (push_and_insert_wp kbId rel)|].
      intros [st2|] w2; [|done]. simpl.
      intros (parts1 & Hp1 & Hi1 & Hs1 & Hh1 & Hd1 & Hb1 & Hc1).
      eapply wp_mono; [apply IH|].
      { apply pushes_lengths in Hp1. tauto. }
      intros [st'|] w'; [|done].
      rewrite Hh1, Hc1, Hb1, Hd1, Hi1. simpl.
      intros (Hh & Hc & Hl & Hs). rewrite Hc in Hs. rewrite Hc.
      split; [by rewrite Hh, <- app_assoc|]. split; [done|]. split; [done|].
      destruct Hs as (parts2 & Hp2 & Hd2 & Hi2 & Hs2).
      exists (parts1 ++ parts2).
      destruct (decode_run node dec rest) as [texts dec''] eqn:Er. simpl in *.
      split_and!.
      * rewrite app_assoc. by apply (pushes_app _ _ _ _ (carry node st2)).
      * done.
      * rewrite length_app. lia.
      * rewrite chunk_rows_app.
        pose proof (streamed_trans _ _ _ _ _ _ _ _ _ Hw Hs1) as H1.
        pose proof (streamed_trans _ _ _ _ _ _ _ _ _ H1 Hs2) as H2.
        rewrite app_nil_r in H2. simpl in H2. exact H2.
    + destruct (bufferLooksBinary buf) eqn:Eb; simpl.
      * eapply wp_mono; [apply IH; done|].
        intros [st'|] w'; [|done]. simpl.
        intros (Hh & Hc & Hl & Hs). rewrite Hc in Hs.
        split; [by rewrite Hh, <- app_assoc|]. split; [done|]. split; [done|].
        rewrite Hc. apply (streamed_trans _ _ _ _ _ _ _ _ _ Hw Hs).
      * destruct (decoder_write node (decoder node st) buf) as [text dec] eqn:Ew.
        apply wp_bind. eapply wp_mono; [apply (push_and_insert_wp kbId rel)|].
        intros [st2|] w2; [|done]. simpl.
        intros (parts1 & Hp1 & Hi1 & Hs1 & Hh1 & Hd1 & Hb1 & Hc1).
        eapply wp_mono; [apply IH|].
        { apply pushes_lengths in Hp1. tauto. }
        intros [st'|] w'; [|done].
        rewrite Hh1, Hc1, Hb1, Hd1, Hi1. simpl.
        intros (Hh & Hc & Hl & Hs). rewrite Hc in Hs. rewrite Hc.
        split; [by rewrite Hh, <- app_assoc|]. split; [done|]. split; [done|].
        destruct Hs as (parts2 & Hp2 & Hd2 & Hi2 & Hs2).
        exists (parts1 ++ parts2).
        destruct (decode_run node dec rest) as [texts dec''] eqn:Er. simpl in *.
        split_and!.
        -- rewrite app_assoc. by apply (pushes_app _ _ _ _ (carry node st2)).
        -- done.
        -- rewrite length_app. lia.
        -- rewrite chunk_rows_app.
           pose proof (streamed_trans _ _ _ _ _ _ _ _ _ Hw Hs1) as H1.
           pose proof (streamed_trans _ _ _ _ _ _ _ _ _ H1 Hs2) as H2.
           rewrite app_nil_r in H2. simpl in H2. exact H2.
Qed.

Lemma decode_buffers_run dec bufs :
  decode_buffers node dec bufs
  = fst (decode_run node dec bufs) ++ [decoder_end node (snd (decode_run node dec bufs))].
Proof.
  revert dec. induction bufs as [|buf rest IH]; intros dec; simpl; [done|].
  destruct (decoder_write node dec buf) as [text dec'].
  rewrite IH. by destruct (decode_run node dec' rest).
Qed.

Lemma import_catch_wp kbId rel message w :
  wp (import_catch kbId rel message)
     (fun r w' => r = Ok (Awaiting (AwaitRm rel message)) /\ tx (kb_of w' kbId) = None) w.
Proof.
  unfold import_catch. apply wp_bind. apply wp_ignore_errors. apply wp_db_rollback.
  destruct (tx (kb_of w kbId)) eqn:E.
  - apply wp_ret. split; [done|]. by rewrite kb_of_with_kb_eq.
  - apply wp_ret. done.
Qed.

Lemma stream_finish_wp kbId rel documentId chunkIds now (st : stream_state node) w :
  (length (carry node st) < CHUNK_SIZE)%nat ->
  wp (stream_finish node kbId documentId chunkIds now st)
     (fun r w' =>
        match r with
        | Ok res =>
            res = {| r_status := if canIndex node st then ItemDone else ItemSkipped;
                     r_documentId := Some documentId; r_error := None |}
            /\ tx (kb_of w kbId) <> None
            /\ tx (kb_of w' kbId) = None
            /\ (forall old, blobs (kb_of w kbId) !! rel = Some old ->
                           blobs (kb_of w' kbId) !! rel = Some old)
            /\ jobs (db_of w' kbId) = jobs (db_of w kbId)
            /\ documents (db_of w' kbId)
               = documents (update_sha documentId (Sha256Of (hashed node st)) now (db_of w kbId))
            /\ exists parts,
                 chunks (db_of w' kbId)
                 = chunks (db_of w kbId)
                   ++ chunk_rows documentId chunkIds now (chunkIndex node st) parts
                 /\ if canIndex node st then
                      exists full carry',
                        pushes CHUNK_SIZE OVERLAP
                          (carry node st ++ decoder_end node (decoder node st)) full carry'
                        /\ parts = stored_parts full carry'
                    else parts = []
        | Throw _ => True
        end) w.
Proof.
  intros Hcarry. unfold stream_finish.
  apply wp_bind.
  assert (Hfirst :
    wp (if canIndex node st
        then push_and_insert node kbId documentId chunkIds now
               (decoder_end node (decoder node st)) st
             ≫= (fun st' =>
                   match (flush (carry node st')).1 with
                   | Some rest =>
                       insert_parts kbId documentId chunkIds now [rest]
                         (chunkIndex node st') ≫= (fun _ => ret ())
                   | None => ret ()
                   end)
        else ret ())
       (fun r w1 =>
          match r with
          | Ok _ =>
              exists parts,
                streamed kbId rel
                  (chunk_rows documentId chunkIds now (chunkIndex node st) parts) [] w w1
                /\ if canIndex node st then
                     exists full carry',
                       pushes CHUNK_SIZE OVERLAP
                         (carry node st ++ decoder_end node (decoder node st)) full carry'
                       /\ parts = stored_parts full carry'
                   else parts = []
          | Throw _ => True
          end) w).
  { destruct (canIndex node st).
    - apply wp_bind. eapply wp_mono; [apply (push_and_insert_wp kbId rel)|].
      intros [st'|] w1; [|done]. intros (full & Hp & Hi & Hs & _).
      destruct (fst (flush (carry node st'))) as [rest|] eqn:Ef.
      + apply wp_bind. eapply wp_mono; [apply (insert_parts_wp kbId rel)|].
        intros [idx|] w2; [|done]. intros [_ Hs2]. apply wp_ret.
        exists (full ++ [rest]). split.
        * rewrite chunk_rows_app, <- Hi.
          apply (streamed_trans _ _ _ _ _ _ _ _ _ Hs Hs2).
        * exists full, (carry node st'). split; [done|].
          unfold stored_parts. by rewrite Ef.
      + apply wp_ret. exists full. split; [done|].
        exists full, (carry node st'). split; [done|].
        unfold stored_parts. rewrite Ef. by rewrite app_nil_r.
    - apply wp_ret. exists []. split; [apply streamed_refl|done]. }
  eapply wp_mono; [exact Hfirst|]. clear Hfirst.
  intros [[]|] w1; [|done]. intros (parts & Hs & Hparts).
  apply wp_bind. apply wp_db_run. apply wp_bind. apply wp_db_commit.
  rewrite kb_of_with_kb_eq. simpl.
  destruct (tx (kb_of w1 kbId)) as [s|] eqn:Etx; [|done].
  apply wp_ret. destruct Hs.
  split; [done|]. split; [congruence|].
  unfold db_of in *. rewrite !kb_of_with_kb_eq. simpl.
  split; [done|]. split.
  { intros old Ho. rewrite (st_blob0 old Ho). by rewrite app_nil_r. }
  split; [done|]. split; [by rewrite st_documents0|].
  exists parts. split; [done|]. done.
Qed.

Lemma indexed_first_clean sourcePath bufs :
  indexed node sourcePath bufs = isSupportedTextExtension node sourcePath && first_clean bufs.
Proof. done. Qed.

Lemma importOneFile_on_stream_wp kbId jobItemId sourcePath documentId rel out chunkIds now w :
  wp (importOneFile_on_stream node kbId jobItemId sourcePath documentId rel out chunkIds now)
     (fun r w' =>
        match r with
        | Ok (Returned res) =>
            stream_error out = None
            /\ stream_done node kbId sourcePath documentId rel chunkIds now (buffers out) w w' res
        | Ok (Awaiting p) =>
            (exists message, p = AwaitRm rel message) /\ tx (kb_of w' kbId) = None
        | Throw _ => False
        end) w.
Proof.
  unfold importOneFile_on_stream.
  assert (Hcatch : forall e w1,
    wp (import_catch kbId rel e)
       (fun r w' =>
          match r with
          | Ok (Returned res) =>
              stream_error out = None
              /\ stream_done node kbId sourcePath documentId rel chunkIds now (buffers out) w w' res
          | Ok (Awaiting p) =>
              (exists message, p = AwaitRm rel message) /\ tx (kb_of w' kbId) = None
          | Throw _ => False
          end) w1).
  { intros e w1. eapply wp_mono; [apply import_catch_wp|].
    intros r w' [-> Htx]. split; [eauto|done]. }
  apply wp_try_catch. apply wp_bind.
  eapply wp_mono; [apply (stream_loop_wp kbId rel)|].
  { simpl. unfold CHUNK_SIZE. lia. }
  intros [st'|e] w1; [|intros _; apply Hcatch].
  simpl. intros (Hh & Hc & Hl & Hs).
  destruct (stream_error out) as [e|] eqn:Ee; [apply wp_throw, Hcatch|].
  apply wp_bind. eapply wp_mono; [apply (stream_finish_wp kbId rel); done|].
  intros [res|e] w2; [|intros _; apply Hcatch].
  intros (-> & Hopen & Htx & Hblob & Hjobs & Hdocs & parts2 & Hchunks & Hparts).
  apply wp_bind. apply wp_db_run. apply wp_ret.
  split; [done|].
  rewrite <- indexed_first_clean in Hc.
  rewrite Hc in Hs, Hparts |- *.
  assert (Hs' : exists rows1, streamed kbId rel rows1 (concat (buffers out)) w w1).
  { destruct (indexed node sourcePath (buffers out)); [|eauto].
    destruct Hs as (parts & _ & _ & _ & Hs). eauto. }
  destruct Hs' as (rows1 & Hs1). destruct Hs1.
  split; unfold db_of in *; rewrite ?kb_of_with_kb_eq; simpl.
  - reflexivity.
  - reflexivity.
  - reflexivity.
  - congruence.
  - done.
  - intros old Ho. apply Hblob. auto.
  - rewrite Hdocs. simpl. rewrite st_documents0, Hh. done.
  - congruence.
  - destruct (indexed node sourcePath (buffers out)).
    + destruct Hs as (parts1 & Hp1 & Hd1 & Hi1 & Hs1).
      destruct Hparts as (full2 & carry' & Hp2 & ->).
      exists (parts1 ++ full2), carry'. split.
      * unfold decoded_text. rewrite decode_buffers_run, concat_app. simpl.
        rewrite app_nil_r. rewrite <- Hd1.
        simpl in Hp1. by apply (pushes_app _ _ _ _ (carry node st')).
      * rewrite Hchunks. destruct Hs1. unfold db_of in *. rewrite st_chunks1.
        rewrite Hi1. unfold stored_parts.
        rewrite <- (app_assoc parts1), (chunk_rows_app _ _ _ 0 parts1).
        by rewrite app_assoc.
    + subst parts2. simpl in Hchunks. rewrite Hchunks, app_nil_r.
      destruct Hs. unfold db_of in *. rewrite st_chunks1. by rewrite app_nil_r.
Qed.

Lemma importOneFile_on_stat_wp kbId jobItemId sourcePath size documentId now w :
  wp (importOneFile_on_stat node kbId jobItemId sourcePath (StatFile size) documentId now)
     (fun r w' =>
        match r with
        | Ok (Awaiting (AwaitStream d rel)) =>
            d = documentId /\ rel = getBlobRelPath node documentId sourcePath
            /\ tx (kb_of w kbId) = None
            /\ tx (kb_of w' kbId) = Some (db_of w kbId)
            /\ document_of documentId (db_of w kbId) = None
            /\ documents (db_of w' kbId)
               = documents (db_of w kbId) ++ [file_document node sourcePath documentId size now]
            /\ chunks (db_of w' kbId) = chunks (db_of w kbId)
            /\ jobs (db_of w' kbId) = jobs (db_of w kbId)
            /\ job_items (db_of w' kbId) = job_items (db_of w kbId)
            /\ blobs (kb_of w' kbId) !! rel = Some []
        | Ok (Awaiting (AwaitRm rel message)) =>
            tx (kb_of w kbId) = None /\ tx (kb_of w' kbId) = None
            /\ db_of w' kbId = db_of w kbId
        | Ok (Awaiting AwaitStat) | Ok (Returned _) => False
        | Throw _ => tx (kb_of w kbId) <> None /\ w' = w
        end) w.
Proof.
  unfold importOneFile_on_stat. apply wp_bind. apply wp_db_begin.
  destruct (tx (kb_of w kbId)) eqn:Etx; [done|].
  apply wp_try_catch. apply wp_bind. apply wp_db_try.
  unfold db_of at 1. rewrite kb_of_with_kb_eq. simpl.
  unfold insert_document.
  destruct (existsb _ (documents (meta (kb_of w kbId)))) eqn:Ex.
  - unfold import_catch. apply wp_bind. apply wp_ignore_errors. apply wp_db_rollback.
    rewrite kb_of_with_kb_eq. simpl. apply wp_ret. simpl.
    unfold db_of. rewrite !kb_of_with_kb_eq. done.
  - apply wp_bind. unfold create_blob. apply wp_modify. apply wp_ret.
    unfold db_of. rewrite !kb_of_with_kb_eq. simpl.
    split_and!; try done.
    + unfold document_of. apply find_none_existsb. exact Ex.
    + by rewrite lookup_insert_eq.
Qed.

Lemma wp_conj {A} (m : M A) (Q1 Q2 : res A -> worker -> Prop) w :
  wp m Q1 w -> wp m Q2 w -> wp m (fun r w' => Q1 r w' /\ Q2 r w') w.
Proof. unfold wp. done. Qed.

(** Without indexing the loop has no statement that can throw. *)
Lemma stream_loop_unindexed_ok kbId rel documentId chunkIds now bufs :
  forall (st : stream_state node) w,
  canIndex node st && (decidedBinary node st || first_clean bufs) = false ->
  wp (stream_loop node kbId documentId rel chunkIds now bufs st)
     (fun r _ => is_ok r = true) w.
Proof.
  induction bufs as [|buf rest IH]; intros st w Hc; [done|].
  simpl. apply wp_bind. unfold write_blob. apply wp_modify.
  destruct (canIndex node st) eqn:Ec; simpl in *.
  - destruct (decidedBinary node st) eqn:Ed; simpl in *; [done|].
    apply negb_false_iff in Hc. rewrite Hc. apply IH. done.
  - apply IH. done.
Qed.

Lemma importOneFile_on_stream_unindexed_ok
    kbId jobItemId sourcePath documentId rel out chunkIds now w :
  tx (kb_of w kbId) <> None ->
  stream_error out = None ->
  indexed node sourcePath (buffers out) = false ->
  wp (importOneFile_on_stream node kbId jobItemId sourcePath documentId rel out chunkIds now)
     (fun r _ => exists res, r = Ok (Returned res)) w.
Proof.
  intros Htx He Hi. unfold importOneFile_on_stream.
  apply wp_try_catch. apply wp_bind.
  eapply wp_mono.
  { apply wp_conj.
    - apply (stream_loop_unindexed_ok kbId rel). simpl. exact Hi.
    - apply (stream_loop_wp kbId rel). simpl. unfold CHUNK_SIZE. lia. }
  intros [st'|e] w1; [|by intros [? _]]. simpl.
  intros (_ & Hh & Hc & Hl & Hs).
  rewrite <- indexed_first_clean, Hi in Hc. rewrite Hc in Hs.
  rewrite He. apply wp_bind. unfold stream_finish. rewrite Hc.
  apply wp_bind. apply wp_ret. apply wp_bind. apply wp_db_run.
  apply wp_bind. apply wp_db_commit. rewrite kb_of_with_kb_eq. simpl.
  destruct Hs. rewrite st_tx0.
  destruct (tx (kb_of w kbId)); [|done].
  apply wp_ret. apply wp_bind. apply wp_db_run. apply wp_ret. eauto.
Qed.

Lemma find_update_sha documentId sha now docs d :
  List.find (fun x => String.eqb (doc_id x) documentId) docs = None ->
  doc_id d = documentId ->
  exists d',
    List.find (fun x => String.eqb (doc_id x) documentId)
      (documents (update_sha documentId sha now
         {| jobs := []; job_items := []; documents := docs ++ [d]; chunks := [];
            notes := []; schema_migrations := [] |})) = Some d'
    /\ doc_sha256 d' = Some sha /\ doc_kind d' = doc_kind d
    /\ doc_blob_rel_path d' = doc_blob_rel_path d
    /\ doc_source_path d' = doc_source_path d.
Proof.
  intros Hf <-. simpl. induction docs as [|x docs IH]; simpl in *.
  - rewrite String.eqb_refl. simpl. rewrite String.eqb_refl. eauto 10.
  - destruct (String.eqb (doc_id x) (doc_id d)) eqn:E; [done|].
    simpl. rewrite E. by apply IH.
Qed.

(** [importOneFile] run from its call to its result. *)
Lemma importOneFile_wp kbId jobItemId sourcePath size out removed documentId chunkIds now w :
  wp (importOneFile node kbId jobItemId sourcePath (StatFile size) out removed documentId chunkIds now)
     (fun r w' =>
        match r with
        | Ok res =>
            r_status res <> ItemFailed ->
            stream_error out = None
            /\ r_status res = (if indexed node sourcePath (buffers out)
                               then ItemDone else ItemSkipped)
            /\ r_documentId res = Some documentId
            /\ file_imported node kbId sourcePath documentId chunkIds now (buffers out) w w'
        | Throw _ => True
        end) w.
Proof.
  unfold importOneFile. apply wp_bind.
  eapply wp_mono; [apply importOneFile_on_stat_wp|].
  intros [[res|[|d rel|rel message]]|e] w1; try done.
  (* the stream runs *)
  - intros (-> & -> & Htx0 & Htx1 & Hfresh & Hdocs & Hchunks & Hjobs & Hitems & Hblob).
    apply wp_bind. eapply wp_mono; [apply importOneFile_on_stream_wp|].
    intros [[res|p]|e] w2; [| |done].
    + intros [He Hd]. apply wp_bind. apply wp_ret. apply wp_ret. intros _.
      destruct Hd. split; [done|]. split; [done|]. split; [done|].
      split.
      * done.
      * done.
      * done.
      * rewrite (sd_blob0 [] Hblob). done.
      * unfold document_of. rewrite sd_documents0. simpl. rewrite Hdocs.
        destruct (find_update_sha documentId (Sha256Of (concat (buffers out))) now
                    (documents (db_of w kbId)) (file_document node sourcePath documentId size now))
          as (d' & Hf & H1 & H2 & H3 & H4); [exact Hfresh|done|].
        simpl in Hf. exists d'. split; [exact Hf|].
        split; [exact H1|]. split; [by rewrite H2|]. split; [by rewrite H3|by rewrite H4].
      * destruct (indexed node sourcePath (buffers out)).
        -- destruct sd_chunks0 as (full & carry & Hp & Hc).
           exists full, carry. split; [done|]. by rewrite Hc, Hchunks.
        -- by rewrite sd_chunks0, Hchunks.
    + intros [[message ->] Htx]. apply wp_bind.
      unfold importOneFile_on_rm. apply wp_bind.
      destruct removed; [unfold remove_blob; apply wp_modify|apply wp_ret];
        apply wp_bind; apply wp_db_run; apply wp_ret; apply wp_ret; done.
  (* the document row was rejected *)
  - intros _. apply wp_bind, wp_ret. apply wp_bind.
    unfold importOneFile_on_rm. apply wp_bind.
    destruct removed; [unfold remove_blob; apply wp_modify|apply wp_ret];
      apply wp_bind; apply wp_db_run; apply wp_ret; apply wp_ret; done.
Qed.

Lemma importOneFile_on_stat_ok kbId jobItemId sourcePath size documentId now w :
  tx (kb_of w kbId) = None ->
  document_of documentId (db_of w kbId) = None ->
  exists w1,
    importOneFile_on_stat node kbId jobItemId sourcePath (StatFile size) documentId now w
    = (Ok (Awaiting (AwaitStream documentId (getBlobRelPath node documentId sourcePath))), w1)
    /\ tx (kb_of w1 kbId) <> None.
Proof.
  intros Htx Hfresh.
  pose proof (importOneFile_on_stat_wp kbId jobItemId sourcePath size documentId now w) as H.
  unfold wp in H.
  assert (Hins : forall e,
            insert_document (file_document node sourcePath documentId size now) (db_of w kbId)
            <> Throw e).
  { intros e. unfold insert_document. simpl. unfold document_of in Hfresh.
    destruct (existsb _ _) eqn:Ex; [|done].
    apply existsb_exists in Ex as (d & Hin & Hd).
    eapply find_none in Hfresh; [|exact Hin]. simpl in Hfresh. congruence. }
  unfold importOneFile_on_stat, mbind, M_bind, bind, try_catch in *.
  unfold db_begin, mbind, M_bind, bind, gets, modify in *. simpl in *.
  rewrite Htx in *. simpl in *.
  unfold db_try, mbind, M_bind, bind, gets in *. simpl in *.
  unfold db_of in *. rewrite kb_of_with_kb_eq in *. simpl in *.
  fold (file_document node sourcePath documentId size now) in *.
  destruct (insert_document _ (meta (kb_of w kbId))) as [t'|e]; [|by specialize (Hins e)].
  simpl in *. eexists. split; [done|].
  destruct H as (_ & _ & _ & H & _). rewrite H. done.
Qed.


(** C6 (as amended): importing a regular file whose first read buffer
    contains a NUL byte, into a knowledge base with no open transaction
    and under a new document id, succeeds when the stream does: the
    result is 'skipped' with the document id, the document row carries
    the digest of all bytes of the file, the blob holds exactly these
    bytes, the transaction is committed, and no chunk row is added. *)
Theorem C6_nul_in_first_buffer
    (kbId jobItemId sourcePath : string) (size : Z) (out : read_outcome) (removed : bool)
    (documentId : string) (chunkIds : Z -> string) (now : Z) (w : worker)
    (first : buffer) (rest : list buffer) :
  tx (kb_of w kbId) = None ->
  document_of documentId (db_of w kbId) = None ->
  stream_error out = None ->
  buffers out = first :: rest ->
  bufferLooksBinary first = true ->
  exists w',
    importOneFile node kbId jobItemId sourcePath (StatFile size) out removed documentId chunkIds now w
    = (Ok {| r_status := ItemSkipped; r_documentId := Some documentId; r_error := None |}, w')
    /\ chunks (db_of w' kbId) = chunks (db_of w kbId)
    /\ tx (kb_of w' kbId) = None
    /\ blobs (kb_of w' kbId) !! getBlobRelPath node documentId sourcePath
       = Some (concat (buffers out))
    /\ exists d, document_of documentId (db_of w' kbId) = Some d
                 /\ doc_sha256 d = Some (Sha256Of (concat (buffers out)))
                 /\ doc_kind d = KindFile
                 /\ doc_blob_rel_path d = Some (getBlobRelPath node documentId sourcePath)
                 /\ doc_source_path d = Some sourcePath.
Proof.
  intros Htx Hfresh He Hb Hnul.
  assert (Hi : indexed node sourcePath (buffers out) = false).
  { rewrite indexed_first_clean, Hb. simpl. rewrite Hnul. by rewrite andb_false_r. }
  destruct (importOneFile_on_stat_ok kbId jobItemId sourcePath size documentId now w Htx Hfresh)
    as (w1 & Hstat & Htx1).
  pose proof (importOneFile_on_stream_unindexed_ok kbId jobItemId sourcePath documentId
                (getBlobRelPath node documentId sourcePath) out chunkIds now w1 Htx1 He Hi)
    as Hstream.
  unfold wp in Hstream. destruct Hstream as [res Hres].
  destruct (importOneFile_on_stream node kbId jobItemId sourcePath documentId
              (getBlobRelPath node documentId sourcePath) out chunkIds now w1)
    as [r2 w2] eqn:E2. simpl in Hres. subst r2.
  assert (Hrun : importOneFile node kbId jobItemId sourcePath (StatFile size) out removed
                   documentId chunkIds now w = (Ok res, w2)).
  { unfold importOneFile, mbind, M_bind, bind. rewrite Hstat. rewrite E2. done. }
  pose proof (importOneFile_on_stream_wp kbId jobItemId sourcePath documentId
                (getBlobRelPath node documentId sourcePath) out chunkIds now w1) as Hsd.
  unfold wp in Hsd. rewrite E2 in Hsd. simpl in Hsd. destruct Hsd as [_ Hsd].
  assert (Hstatus : r_status res = ItemSkipped).
  { destruct Hsd. by rewrite Hi in sd_status0. }
  pose proof (importOneFile_wp kbId jobItemId sourcePath size out removed documentId chunkIds
                now w)
    as H.
  unfold wp in H. rewrite Hrun in H. simpl in H.
  destruct H as (_ & _ & Hdoc & Hfi); [congruence|].
  exists w2. split.
  { rewrite Hrun. destruct Hsd as [_ _ Herr _ _ _ _ _ _].
    destruct res as [s0 d0 e0]. simpl in *. by subst s0 d0 e0. }
  destruct Hfi. rewrite Hi in fi_chunks0.
  split; [exact fi_chunks0|]. split; [exact fi_tx0|].
  split; [exact fi_blob0|exact fi_document0].
Qed.

Lemma chunk_rows_content documentId chunkIds now index parts :
  map chunk_content (chunk_rows documentId chunkIds now index parts) = parts.
Proof.
  revert index. induction parts as [|p parts IH]; intros index; simpl; [done|].
  by rewrite IH.
Qed.

Lemma chunk_rows_index documentId chunkIds now index parts :
  map chunk_index (chunk_rows documentId chunkIds now index parts)
  = map (fun k => index + Z.of_nat k) (List.seq 0 (length parts)).
Proof.
  revert index. induction parts as [|p parts IH]; intros index; simpl; [done|].
  rewrite Z.add_0_r. f_equal. rewrite IH, <- seq_shift, map_map.
  apply map_ext. intros k. lia.
Qed.

Lemma chunk_rows_document documentId chunkIds now index parts :
  Forall (fun c => chunk_document_id c = documentId)
    (chunk_rows documentId chunkIds now index parts).
Proof.
  revert index. induction parts as [|p parts IH]; intros index; simpl; constructor; auto.
Qed.

Lemma stored_parts_trim full carry :
  stored_parts full carry
  = full ++ match trim carry with [] => [] | _ :: _ => [trim carry] end.
Proof.
  unfold stored_parts, flush. simpl. by destruct (trim carry).
Qed.

(** The stored rows read back: the windows, then what is left of the
    trimmed remainder after the overlap. *)
Lemma reassemble_stored_parts full carry :
  reassemble OVERLAP (stored_parts full carry)
  = match full with
    | [] => trim carry
    | x :: xs => x ++ concat (map (drop OVERLAP) xs) ++ drop OVERLAP (trim carry)
    end.
Proof.
  rewrite stored_parts_trim. destruct full as [|x xs]; simpl.
  - destruct (trim carry); simpl; [done|by rewrite app_nil_r].
  - rewrite map_app, concat_app. f_equal. f_equal.
    destruct (trim carry); simpl; [done|by rewrite app_nil_r].
Qed.

Lemma reassemble_stored_iff text full carry :
  pushes CHUNK_SIZE OVERLAP text full carry ->
  reassemble OVERLAP (stored_parts full carry) = text <-> trim_keeps_text full carry.
Proof.
  intros Hp.
  assert (Hle : (OVERLAP <= CHUNK_SIZE)%nat) by (unfold OVERLAP, CHUNK_SIZE; lia).
  pose proof (pushes_reassemble _ _ _ _ _ Hp Hle) as Hr.
  rewrite reassemble_stored_parts. rewrite <- Hr. unfold trim_keeps_text.
  destruct full as [|x xs]; simpl.
  - by rewrite app_nil_r.
  - rewrite map_app, concat_app. simpl. rewrite app_nil_r.
    split.
    + intros H. apply app_inv_head in H. by apply app_inv_head in H.
    + by intros ->.
Qed.

Lemma reassemble_stored chunkSize overlap text full carry :
  pushes chunkSize overlap text full carry ->
  (overlap <= chunkSize)%nat ->
  trim carry = carry ->
  reassemble overlap (stored_parts full carry) = text.
Proof.
  intros Hp Hle Ht. rewrite stored_parts_trim, Ht.
  pose proof (pushes_reassemble _ _ _ _ _ Hp Hle) as Hr.
  destruct carry as [|c carry]; [|done].
  rewrite app_nil_r. rewrite <- Hr.
  destruct full as [|x xs]; simpl; [done|].
  rewrite map_app, concat_app. simpl. rewrite drop_nil. by rewrite !app_nil_r.
Qed.

(** C5 (as amended): the chunk rows added for a text file that was
    imported and indexed carry the indexes 0, 1, 2, ... without gaps; the
    rows before the last are the windows of 2000 code units of the decoded
    text taken every 1800 code units, so consecutive ones overlap by 200;
    the last row is the rest of the text from the next window start on,
    with white space trimmed at both ends, and is left out when nothing
    remains after trimming. Joining the full windows and the untrimmed rest
    with the overlap taken out gives back the decoded text. The stored
    rows give it back if and only if trimming changes nothing that the
    joining uses: when no window precedes the rest, the rest is the whole
    text and trimming must leave it unchanged; when a window precedes
    it, the first 200 code units of the last piece are dropped (they
    repeat the end of that window), and the trimmed rest must agree with
    the rest after their first 200 code units. In particular the rows
    give the text back when trimming leaves the rest unchanged. *)
Theorem C5_chunk_rows_of_imported_text
    (kbId jobItemId sourcePath : string) (size : Z) (out : read_outcome) (removed : bool)
    (documentId : string) (chunkIds : Z -> string) (now : Z)
    (w w' : worker) (res : ImportResult) :
  importOneFile node kbId jobItemId sourcePath (StatFile size) out removed documentId chunkIds now w
    = (Ok res, w') ->
  r_status res = ItemDone ->
  exists (full : list jsstring) (carry : jsstring) (rows : list chunk),
    chunks (db_of w' kbId) = chunks (db_of w kbId) ++ rows
    /\ Forall (fun c => chunk_document_id c = documentId) rows
    /\ map chunk_index rows = map Z.of_nat (List.seq 0 (length rows))
    /\ map chunk_content rows
       = full ++ match trim carry with [] => [] | _ :: _ => [trim carry] end
    /\ Forall (fun c => length c = CHUNK_SIZE) full
    /\ (forall i c, full !! i = Some c ->
          c = take CHUNK_SIZE (drop (i * (CHUNK_SIZE - OVERLAP))
                                 (decoded_text node (buffers out))))
    /\ carry = drop (length full * (CHUNK_SIZE - OVERLAP)) (decoded_text node (buffers out))
    /\ (length carry < CHUNK_SIZE)%nat
    /\ reassemble OVERLAP (full ++ [carry]) = decoded_text node (buffers out)
    /\ (trim carry = carry ->
        reassemble OVERLAP (map chunk_content rows) = decoded_text node (buffers out))
    /\ (reassemble OVERLAP (map chunk_content rows) = decoded_text node (buffers out)
        <-> trim_keeps_text full carry).
Proof.
  intros Hrun Hdone.
  pose proof (importOneFile_wp kbId jobItemId sourcePath size out removed documentId chunkIds
                now w)
    as H.
  unfold wp in H. rewrite Hrun in H. simpl in H.
  destruct H as (_ & Hst & _ & Hfi); [congruence|].
  destruct Hfi as [_ _ _ _ _ Hchunks].
  destruct (indexed node sourcePath (buffers out)); [|congruence].
  destruct Hchunks as (full & carry & Hp & Hc).
  assert (Hle : (OVERLAP <= CHUNK_SIZE)%nat) by (unfold OVERLAP, CHUNK_SIZE; lia).
  exists full, carry, (chunk_rows documentId chunkIds now 0 (stored_parts full carry)).
  split; [done|]. split; [apply chunk_rows_document|].
  split.
  { rewrite chunk_rows_index.
    rewrite <- (length_map chunk_content (chunk_rows _ _ _ _ _)), chunk_rows_content.
    apply map_ext_in. intros k Hk. apply in_seq in Hk. lia. }
  rewrite chunk_rows_content.
  split; [apply stored_parts_trim|].
  destruct (pushes_lengths _ _ _ _ _ Hp) as [Hlen Hcarry].
  destruct (pushes_windows _ _ _ _ _ Hp) as [Hwin Hrest].
  split; [done|]. split; [done|]. split; [done|]. split; [done|].
  split; [by apply (pushes_reassemble CHUNK_SIZE)|].
  split; [intros Ht; by apply (reassemble_stored CHUNK_SIZE)|].
  by apply reassemble_stored_iff.
Qed.

End WithNode.

Lemma C5_chunk_rows_of_imported_text_witness :
  exists (full : list jsstring) (carry : jsstring) (rows : list chunk),
    chunks (db_of (snd (importOneFile Sample.posix_ascii "kb" "i1" "/tmp/long.txt"
                          (StatFile 4000) (read_stream Sample.long_text_file) true "d1"
                          Sample.chunk_ids 5 initial_worker)) "kb") = [] ++ rows
    /\ length rows = 3%nat
    /\ map chunk_content rows
       = full ++ match trim carry with [] => [] | _ :: _ => [trim carry] end
    /\ Forall (fun c => length c = CHUNK_SIZE) full
    /\ reassemble OVERLAP (full ++ [carry])
       = decoded_text Sample.posix_ascii (buffers (read_stream Sample.long_text_file))
    /\ (reassemble OVERLAP (map chunk_content rows)
        = decoded_text Sample.posix_ascii (buffers (read_stream Sample.long_text_file))
        <-> trim_keeps_text full carry).
Proof.
  destruct (importOneFile Sample.posix_ascii "kb" "i1" "/tmp/long.txt" (StatFile 4000)
              (read_stream Sample.long_text_file) true "d1" Sample.chunk_ids 5 initial_worker)
    as [r w'] eqn:E.
  assert (Hr : r = Ok {| r_status := ItemDone; r_documentId := Some "d1"; r_error := None |}).
  { apply (f_equal fst) in E. simpl in E. rewrite <- E. by vm_compute. }
  assert (Hn : length (chunks (db_of w' "kb")) = 3%nat).
  { apply (f_equal snd) in E. simpl in E. rewrite <- E. by vm_compute. }
  subst r.
  destruct (C5_chunk_rows_of_imported_text Sample.posix_ascii "kb" "i1" "/tmp/long.txt" 4000
              (read_stream Sample.long_text_file) true "d1" Sample.chunk_ids 5
              initial_worker w' _ E eq_refl)
    as (full & carry & rows & H1 & _ & _ & H4 & H5 & _ & _ & _ & H9 & _ & H11).
  exists full, carry, rows. simpl. split; [exact H1|].
  split; [by rewrite <- Hn, H1|].
  split; [exact H4|]. split; [exact H5|]. split; [exact H9|exact H11].
Defined.

(** A text of 1800 letters and 200 blanks is one window; what remains
    after it is white space that trimming removes entirely, and the
    rows still give back the text. *)
Example blank_tail_is_read_back :
  let w' := snd (importOneFile Sample.posix_ascii "kb" "i1" "/tmp/tail.txt" (StatFile 2000)
                   (read_stream Sample.blank_tail_file) true "d1" Sample.chunk_ids 5
                   initial_worker) in
  length (chunks_of "d1" (db_of w' "kb")) = 1%nat
  /\ reassemble OVERLAP (map chunk_content (chunks_of "d1" (db_of w' "kb")))
     = decoded_text Sample.posix_ascii (buffers (read_stream Sample.blank_tail_file))
  /\ trim (drop (CHUNK_SIZE - OVERLAP)
             (decoded_text Sample.posix_ascii (buffers (read_stream Sample.blank_tail_file))))
     = [].
Proof. by vm_compute. Qed.

(** C5, counterexample: the text file "hi\n" is imported and indexed;
    its only chunk row holds "hi", the final line break is trimmed away,
    and the rows do not give back the text of the file. *)
Lemma C5_trailing_newline_is_lost :
  ~ chunks_reconstruct_text Sample.posix_ascii "kb" "i1" "/tmp/a.txt" Sample.hi_newline
      "d1" Sample.chunk_ids 5 initial_worker.
Proof.
  unfold chunks_reconstruct_text. vm_compute. discriminate.
Qed.

Lemma C6_nul_in_first_buffer_witness :
  exists w',
    importOneFile Sample.posix_ascii "kb" "i1" "/tmp/e.txt" (StatFile 3)
      (read_stream Sample.early_nul_file) true "d1" Sample.chunk_ids 5 initial_worker
    = (Ok {| r_status := ItemSkipped; r_documentId := Some "d1"; r_error := None |}, w')
    /\ chunks (db_of w' "kb") = chunks (db_of initial_worker "kb")
    /\ tx (kb_of w' "kb") = None
    /\ blobs (kb_of w' "kb") !! getBlobRelPath Sample.posix_ascii "d1" "/tmp/e.txt"
       = Some (concat (buffers (read_stream Sample.early_nul_file)))
    /\ exists d, document_of "d1" (db_of w' "kb") = Some d
                 /\ doc_sha256 d
                    = Some (Sha256Of (concat (buffers (read_stream Sample.early_nul_file))))
                 /\ doc_kind d = KindFile
                 /\ doc_blob_rel_path d
                    = Some (getBlobRelPath Sample.posix_ascii "d1" "/tmp/e.txt")
                 /\ doc_source_path d = Some "/tmp/e.txt".
Proof.
  apply (C6_nul_in_first_buffer Sample.posix_ascii "kb" "i1" "/tmp/e.txt" 3
           (read_stream Sample.early_nul_file) true "d1" Sample.chunk_ids 5 initial_worker
           Sample.early_nul_file []); reflexivity.
Defined.

(** C6, counterexample: a text file of 65537 bytes whose only NUL byte is
    the last one. The read stream delivers it in two buffers; the first
    has no NUL, so the file is indexed and gets chunk rows (37 of them). *)
Lemma C6_late_nul_is_indexed :
  ~ nul_means_no_chunks Sample.posix_ascii "kb" "i1" "/tmp/big.txt" Sample.late_nul_file
      "d1" Sample.chunk_ids 5 initial_worker.
Proof.
  intros H.
  assert (Hin : In 0 Sample.late_nul_file).
  { unfold Sample.late_nul_file. apply in_or_app. right. by left. }
  specialize (H Hin). apply (f_equal length) in H.
  vm_compute in H. discriminate H.
Qed.



End IngestFacts.

(* ------------------------------------------------------------------ *)
(** ** Progress is monotone and bounded                                *)
(* ------------------------------------------------------------------ *)

Module ProgressFacts.
Import Js Kb Ingest Scheduler Handlers Progress WpFacts OpenFacts.

(** *** Counting rows *)

Lemma filter_length_map_le {A} (p : A -> bool) (f : A -> A) (l : list A) :
  (forall x, In x l -> p x = true -> p (f x) = true) ->
  (length (List.filter p l) <= length (List.filter p (map f l)))%nat.
Proof.
  induction l as [|x l IH]; intros H; simpl; [lia|].
  assert (IH' := IH (fun y Hy => H y (or_intror Hy))).
  pose proof (H x (or_introl eq_refl)) as Hx.
  destruct (p x); [rewrite Hx by done; simpl; lia|].
  destruct (p (f x)); simpl; lia.
Qed.

Lemma filter_length_map_eq {A} (p : A -> bool) (f : A -> A) (l : list A) :
  (forall x, In x l -> p (f x) = p x) ->
  length (List.filter p (map f l)) = length (List.filter p l).
Proof.
  induction l as [|x l IH]; intros H; simpl; [done|].
  rewrite (H x (or_introl eq_refl)).
  assert (IH' := IH (fun y Hy => H y (or_intror Hy))).
  destruct (p x); simpl; lia.
Qed.

Lemma find_job_map (f : job -> job) (l : list job) jobId :
  (forall j, job_id (f j) = job_id j) ->
  List.find (is_job jobId) (map f l) = f <$> List.find (is_job jobId) l.
Proof.
  intros H. induction l as [|j l IH]; simpl; [done|].
  unfold is_job at 1 3. rewrite H. destruct (String.eqb (job_id j) jobId); [done|apply IH].
Qed.

Lemma existsb_is_job_map (f : job -> job) (l : list job) jobId :
  (forall j, job_id (f j) = job_id j) ->
  existsb (is_job jobId) (map f l) = existsb (is_job jobId) l.
Proof.
  intros H. induction l as [|j l IH]; simpl; [done|].
  unfold is_job at 1 3. by rewrite H, IH.
Qed.

Lemma find_job_In jobId t j : find_job jobId t = Some j -> In j (jobs t) /\ job_id j = jobId.
Proof.
  unfold find_job. intros H. apply find_some in H as [H1 H2].
  split; [done|]. by apply String.eqb_eq.
Qed.

(** *** The order on progress *)

Lemma progress_le_refl t : progress_le t t.
Proof. intros jobId j H. exists j. split; [done|]. split; [done|lia]. Qed.

Lemma progress_le_trans t1 t2 t3 :
  progress_le t1 t2 -> progress_le t2 t3 -> progress_le t1 t3.
Proof.
  intros H12 H23 jobId j H.
  destruct (H12 _ _ H) as (j2 & H2 & Ht2 & Hp2).
  destruct (H23 _ _ H2) as (j3 & H3 & Ht3 & Hp3).
  exists j3. split; [done|]. split; [congruence|lia].
Qed.

Lemma jobs_frame_refl t : jobs_frame t t.
Proof. done. Qed.

Lemma jobs_frame_sym t t' : jobs_frame t t' -> jobs_frame t' t.
Proof. done. Qed.

Lemma jobs_frame_trans t1 t2 t3 : jobs_frame t1 t2 -> jobs_frame t2 t3 -> jobs_frame t1 t3.
Proof. unfold jobs_frame. congruence. Qed.

Lemma find_progress_row (l l' : list job) jobId j :
  map progress_row l = map progress_row l' ->
  List.find (is_job jobId) l = Some j ->
  exists j', List.find (is_job jobId) l' = Some j' /\ progress_row j' = progress_row j.
Proof.
  revert l'. induction l as [|x l IH]; intros [|x' l'] Hm Hf; simpl in *; try done.
  unfold progress_row at 1 3 in Hm. injection Hm as H1 H2 H3 Hl.
  unfold is_job in *. rewrite <- H1.
  destruct (String.eqb (job_id x) jobId).
  - injection Hf as <-. exists x'. split; [done|]. unfold progress_row. congruence.
  - by apply IH.
Qed.

Lemma jobs_frame_progress_le t t' : jobs_frame t t' -> progress_le t t'.
Proof.
  intros H jobId j Hf. destruct (find_progress_row _ _ _ _ H Hf) as (j' & Hf' & Hr).
  exists j'. split; [done|]. unfold progress_row in Hr. injection Hr as _ Hc Ht.
  split; [done|lia].
Qed.

(** *** Statements that keep the tables in order *)

Lemma tables_ok_same_rows t t' :
  jobs t' = jobs t -> job_items t' = job_items t -> tables_ok t -> tables_ok t'.
Proof.
  intros Hj Hi [H1 H2 H3].
  split; unfold count_terminal, count_items in *; rewrite ?Hj, ?Hi; done.
Qed.

Lemma stmt_ok_same_rows f t :
  jobs (f t) = jobs t -> job_items (f t) = job_items t -> stmt_ok f t.
Proof.
  intros Hj Hi Hok. split; [by apply (tables_ok_same_rows t)|].
  unfold jobs_frame. by rewrite Hj.
Qed.

Lemma stmt_ok_jobs (f : job -> job) t :
  (forall j, progress_row (f j) = progress_row j) ->
  stmt_ok (with_jobs (map f)) t.
Proof.
  intros H [H1 H2 H3].
  assert (Hid : forall j, job_id (f j) = job_id j).
  { intros j. specialize (H j). unfold progress_row in H. congruence. }
  split; [split|]; simpl.
  - done.
  - eapply Forall_impl; [exact H2|]. intros i Hi. simpl in Hi.
    by rewrite existsb_is_job_map.
  - apply Forall_forall. intros j Hj. apply list_elem_of_fmap in Hj as (j0 & -> & Hj0).
    rewrite Forall_forall in H3. specialize (H3 _ Hj0).
    specialize (H j0). unfold progress_row in H. injection H as -> -> ->.
    exact H3.
  - unfold jobs_frame. simpl. rewrite map_map. apply map_ext. intros j. by rewrite H.
Qed.

Lemma stmt_ok_update_jobs cond (set : job -> job) t :
  (forall j, progress_row (set j) = progress_row j) ->
  stmt_ok (with_jobs (update_where cond set)) t.
Proof.
  intros H. apply (stmt_ok_jobs (fun r => if cond r then set r else r)).
  intros j. by destruct (cond j).
Qed.

Lemma stmt_ok_items (f : job_item -> job_item) t :
  (forall i, In i (job_items t) ->
     item_id (f i) = item_id i /\ item_job_id (f i) = item_job_id i
     /\ (item_terminal i = true -> item_terminal (f i) = true)) ->
  stmt_ok (with_items (map f)) t.
Proof.
  intros H [H1 H2 H3].
  split; [split|]; simpl.
  - rewrite map_map. erewrite map_ext_in; [exact H1|].
    intros i Hi. by destruct (H i Hi).
  - apply Forall_forall. intros i Hi. apply list_elem_of_fmap in Hi as (i0 & -> & Hi0).
    rewrite Forall_forall in H2. specialize (H2 _ Hi0).
    apply list_elem_of_In in Hi0. destruct (H i0 Hi0) as (_ & -> & _). exact H2.
  - eapply Forall_impl; [exact H3|]. intros j [Hp Hc]. simpl in *.
    unfold count_terminal, count_items in *. simpl. split.
    + split; [lia|].
      pose proof (filter_length_map_le
        (fun i => String.eqb (item_job_id i) (job_id j) && item_terminal i) f (job_items t)) as Hle.
      assert (length (List.filter (fun i => String.eqb (item_job_id i) (job_id j) && item_terminal i)
                        (job_items t))
              <= length (List.filter (fun i => String.eqb (item_job_id i) (job_id j) && item_terminal i)
                        (map f (job_items t))))%nat; [|lia].
      apply Hle. intros i Hi Hpi. destruct (H i Hi) as (_ & -> & Ht).
      apply andb_true_iff in Hpi as [-> Hti]. by rewrite Ht.
    + rewrite filter_length_map_eq; [done|].
      intros i Hi. by destruct (H i Hi) as (_ & -> & _).
  - done.
Qed.

Lemma stmt_ok_update_items cond (set : job_item -> job_item) t :
  (forall i, In i (job_items t) -> cond i = true ->
     item_id (set i) = item_id i /\ item_job_id (set i) = item_job_id i
     /\ (item_terminal i = true -> item_terminal (set i) = true)) ->
  stmt_ok (with_items (update_where cond set)) t.
Proof.
  intros H. apply (stmt_ok_items (fun r => if cond r then set r else r)).
  intros i Hi. destruct (cond i) eqn:E; [by apply H|done].
Qed.

Lemma stmt_ok_comp f g t : stmt_ok f t -> stmt_ok g (f t) -> stmt_ok (fun x => g (f x)) t.
Proof.
  intros Hf Hg Hok. destruct (Hf Hok) as [H1 H2]. destruct (Hg H1) as [H3 H4].
  split; [done|]. by eapply jobs_frame_trans.
Qed.

Lemma stmt_ok_recover_jobs now t : stmt_ok (recover_jobs now) t.
Proof. by apply stmt_ok_update_jobs. Qed.

Lemma stmt_ok_mark_processing jobId now t : stmt_ok (mark_processing jobId now) t.
Proof. by apply stmt_ok_update_jobs. Qed.

Lemma stmt_ok_mark_done jobId now t : stmt_ok (mark_done jobId now) t.
Proof. by apply stmt_ok_update_jobs. Qed.

Lemma stmt_ok_mark_failed jobId msg now t : stmt_ok (mark_failed jobId msg now) t.
Proof. by apply stmt_ok_update_jobs. Qed.

Lemma stmt_ok_pause_job jobId now t : stmt_ok (pause_job jobId now) t.
Proof. by apply stmt_ok_update_jobs. Qed.

Lemma stmt_ok_resume_job jobId now t : stmt_ok (resume_job jobId now) t.
Proof. by apply stmt_ok_update_jobs. Qed.

Lemma stmt_ok_cancel_job jobId now t : stmt_ok (cancel_job jobId now) t.
Proof. by apply stmt_ok_update_jobs. Qed.

Lemma stmt_ok_recover_items now t : stmt_ok (recover_items now) t.
Proof.
  apply stmt_ok_update_items. intros i _ Hc. split; [done|]. split; [done|].
  unfold item_has in Hc. apply bool_decide_eq_true in Hc.
  unfold item_terminal, item_has. rewrite Hc. done.
Qed.

Lemma stmt_ok_skip_open_items jobId now t : stmt_ok (skip_open_items jobId now) t.
Proof. apply stmt_ok_update_items. intros i _ _. done. Qed.

Lemma stmt_ok_record_item_result itemId r now t :
  result_terminal (r_status r) = true -> stmt_ok (record_item_result itemId r now) t.
Proof.
  intros Hr. apply stmt_ok_update_items. intros i _ _. split; [done|]. split; [done|].
  intros _. unfold item_terminal, item_has. simpl. by destruct (r_status r).
Qed.

Lemma stmt_ok_touch_item itemId now t : stmt_ok (touch_item itemId now) t.
Proof.
  apply (stmt_ok_items (fun i => if String.eqb (item_id i) itemId then _ else i)).
  intros i _. by destruct (String.eqb (item_id i) itemId).
Qed.

Lemma stmt_ok_update_sha documentId h now t : stmt_ok (update_sha documentId h now) t.
Proof. by apply stmt_ok_same_rows. Qed.

Lemma stmt_ok_migrate now t : stmt_ok (fun t => snd (migrate_tables now t)) t.
Proof.
  destruct (migrate_tables_ok now t) as (_ & Hj & Hi & _). by apply stmt_ok_same_rows.
Qed.

Lemma stmt_ok_id t : stmt_ok (fun t => t) t.
Proof. by apply stmt_ok_same_rows. Qed.

Lemma oldest_In {A} (f : A -> Z) (l : list A) (x : A) : oldest f l = Some x -> In x l.
Proof.
  unfold oldest.
  assert (H : forall acc, foldl (fun acc x => match acc with
                                              | None => Some x
                                              | Some y => if f x <? f y then Some x else Some y
                                              end) acc l = Some x ->
                          acc = Some x \/ In x l).
  { induction l as [|a l IH]; intros acc Hf; simpl in Hf; [by left|].
    destruct (IH _ Hf) as [Ha|Hin]; [|right; by right].
    destruct acc as [y|]; [|injection Ha as ->; right; by left].
    destruct (f a <? f y); [injection Ha as ->; right; by left|by left]. }
  intros Hf. by destruct (H None Hf).
Qed.

Lemma NoDup_map_eq {A B} (f : A -> B) (l : list A) (x y : A) :
  NoDup (map f l) -> In x l -> In y l -> f x = f y -> x = y.
Proof.
  induction l as [|a l IH]; simpl; [done|].
  intros Hnd Hx Hy Hf. apply NoDup_cons in Hnd as [Hnot Hnd].
  destruct Hx as [->|Hx]; destruct Hy as [->|Hy]; try done.
  - exfalso. apply Hnot. rewrite Hf. apply list_elem_of_In. by apply in_map.
  - exfalso. apply Hnot. rewrite <- Hf. apply list_elem_of_In. by apply in_map.
  - by apply IH.
Qed.

Lemma next_pending_item_pending jobId t next :
  next_pending_item jobId t = Some next ->
  In next (job_items t) /\ item_status next = ItemPending.
Proof.
  unfold next_pending_item. intros H. apply oldest_In in H.
  apply filter_In in H as [H1 H2]. split; [done|].
  apply andb_true_iff in H2 as [_ H2]. unfold item_has in H2.
  by apply bool_decide_eq_true in H2.
Qed.

(** The item the loop takes next is pending, and it is the only row
    with its id: marking it does not touch a finished item. *)
Lemma stmt_ok_mark_item_processing jobId t next now :
  next_pending_item jobId t = Some next ->
  stmt_ok (mark_item_processing (item_id next) now) t.
Proof.
  intros Hn Hok. apply next_pending_item_pending in Hn as [Hin Hst].
  apply stmt_ok_update_items; [|done]. intros i Hi Hc.
  split; [done|]. split; [done|]. intros Ht.
  assert (i = next) as ->.
  { eapply NoDup_map_eq; [apply (ok_item_ids _ Hok)|done|done|].
    unfold is_item in Hc. by apply String.eqb_eq in Hc. }
  unfold item_terminal, item_has in Ht. rewrite Hst in Ht. done.
Qed.

Lemma count_terminal_nonneg jobId t : 0 <= count_terminal jobId t.
Proof. unfold count_terminal. lia. Qed.

(** The counter is set to the number of finished items of the job. *)
Lemma set_progress_ok jobId now t :
  tables_ok t ->
  tables_ok (set_progress jobId (count_terminal jobId t) now t)
  /\ progress_le t (set_progress jobId (count_terminal jobId t) now t).
Proof.
  intros [H1 H2 H3]. split; [split|]; simpl.
  - done.
  - eapply Forall_impl; [exact H2|]. intros i Hi. simpl in Hi.
    unfold update_where. rewrite existsb_is_job_map; [done|].
    intros j. by destruct (is_job jobId j).
  - unfold update_where. apply Forall_forall. intros j Hj.
    apply list_elem_of_fmap in Hj as (j0 & -> & Hj0).
    rewrite Forall_forall in H3. specialize (H3 _ Hj0).
    change (count_terminal ?a (set_progress _ _ _ t)) with (count_terminal a t).
    change (count_items ?a (set_progress _ _ _ t)) with (count_items a t).
    destruct (is_job jobId j0) eqn:E; [|done]. simpl.
    unfold is_job in E. apply String.eqb_eq in E. rewrite E.
    pose proof (count_terminal_nonneg jobId t). rewrite E in H3. lia.
  - intros id j Hf. unfold find_job, set_progress, with_jobs, update_where. simpl.
    rewrite find_job_map by (intros j0; by destruct (is_job jobId j0)).
    unfold find_job in Hf. rewrite Hf. simpl. eexists. split; [done|].
    pose proof (find_job_In id t j Hf) as [Hin Hid].
    rewrite Forall_forall in H3. apply list_elem_of_In in Hin. specialize (H3 _ Hin).
    destruct (is_job jobId j) eqn:E; simpl; [|lia].
    unfold is_job in E. apply String.eqb_eq in E. rewrite E in H3. lia.
Qed.

(** *** The worker: statements on one knowledge base *)

Lemma kb_inv_empty : kb_inv empty_kbdir.
Proof. split; [|done]. split; simpl; constructor. Qed.

Lemma W_refl w : W w w.
Proof. intros kb. apply progress_le_refl. Qed.

Lemma W_trans w1 w2 w3 : W w1 w2 -> W w2 w3 -> W w1 w3.
Proof. intros H1 H2 kb. eapply progress_le_trans; [apply H1|apply H2]. Qed.

Lemma at_kb_start kbId w : Data w -> at_kb kbId w (ctl w kbId) w.
Proof. intros H. split; [done|]. split; [apply W_refl|]. done. Qed.

Lemma at_kb_ctl kbId w0 b s r w :
  at_kb kbId w0 (b, s, r) w ->
  bool_decide (is_Some (tx (kb_of w kbId))) = b
  /\ suspended w !! kbId = s /\ runningByKb w !! kbId = r.
Proof. intros (_ & _ & _ & H). unfold ctl in H. by injection H. Qed.

(** A change of the directory [kb] that leaves its transaction open or
    closed as it was. *)
Lemma at_with_kb kbId w0 c w kb (g : kbdir -> kbdir) :
  at_kb kbId w0 c w ->
  (kb_inv (kb_of w kb) ->
   kb_inv (g (kb_of w kb)) /\ progress_le (meta (kb_of w kb)) (meta (g (kb_of w kb)))) ->
  bool_decide (is_Some (tx (g (kb_of w kb)))) = bool_decide (is_Some (tx (kb_of w kb))) ->
  at_kb kbId w0 c (with_kb kb g w).
Proof.
  intros (HD & HW & Ho & Hc) Hg Htx.
  destruct (Hg (HD kb)) as [Hg1 Hg2].
  assert (Hctl : forall kb', ctl (with_kb kb g w) kb' = ctl w kb').
  { intros kb'. unfold ctl.
    change (suspended (with_kb kb g w)) with (suspended w).
    change (runningByKb (with_kb kb g w)) with (runningByKb w).
    destruct (decide (kb = kb')) as [<-|Hne].
    - by rewrite kb_of_with_kb_eq, Htx.
    - by rewrite kb_of_with_kb_ne. }
  split; [|split; [|split]].
  - intros kb'. destruct (decide (kb = kb')) as [<-|Hne].
    + by rewrite kb_of_with_kb_eq.
    + by rewrite kb_of_with_kb_ne.
  - intros kb'. unfold db_of. destruct (decide (kb = kb')) as [<-|Hne].
    + rewrite kb_of_with_kb_eq. eapply progress_le_trans; [apply HW|done].
    + rewrite kb_of_with_kb_ne by done. apply HW.
  - intros kb' Hne. rewrite Hctl. by apply Ho.
  - by rewrite Hctl.
Qed.

(** A change of the directory in focus that also opens or closes its
    transaction. *)
Lemma at_with_kb_tx kbId w0 b s r w (g : kbdir -> kbdir) :
  at_kb kbId w0 (b, s, r) w ->
  (kb_inv (kb_of w kbId) ->
   kb_inv (g (kb_of w kbId)) /\ progress_le (meta (kb_of w kbId)) (meta (g (kb_of w kbId)))) ->
  at_kb kbId w0 (bool_decide (is_Some (tx (g (kb_of w kbId)))), s, r) (with_kb kbId g w).
Proof.
  intros Hat Hg. pose proof (at_kb_ctl _ _ _ _ _ _ Hat) as (Hb & Hs & Hr).
  destruct Hat as (HD & HW & Ho & Hc).
  destruct (Hg (HD kbId)) as [Hg1 Hg2].
  split; [|split; [|split]].
  - intros kb'. destruct (decide (kbId = kb')) as [<-|Hne].
    + by rewrite kb_of_with_kb_eq.
    + by rewrite kb_of_with_kb_ne.
  - intros kb'. unfold db_of. destruct (decide (kbId = kb')) as [<-|Hne].
    + rewrite kb_of_with_kb_eq. eapply progress_le_trans; [apply HW|done].
    + rewrite kb_of_with_kb_ne by done. apply HW.
  - intros kb' Hne. rewrite <- (Ho kb' Hne). unfold ctl.
    change (suspended (with_kb kbId g w)) with (suspended w).
    change (runningByKb (with_kb kbId g w)) with (runningByKb w).
    by rewrite kb_of_with_kb_ne.
  - unfold ctl.
    change (suspended (with_kb kbId g w)) with (suspended w).
    change (runningByKb (with_kb kbId g w)) with (runningByKb w).
    by rewrite kb_of_with_kb_eq, Hs, Hr.
Qed.

(** A change of the worker outside the directories and the loops. *)
Lemma at_kb_ext kbId w0 c w w' :
  disk w' = disk w -> suspended w' = suspended w -> runningByKb w' = runningByKb w ->
  at_kb kbId w0 c w -> at_kb kbId w0 c w'.
Proof.
  intros Hd Hs Hr (HD & HW & Ho & Hc).
  assert (Hk : forall kb, kb_of w' kb = kb_of w kb) by (intros kb; unfold kb_of; by rewrite Hd).
  assert (Hctl : forall kb, ctl w' kb = ctl w kb).
  { intros kb. unfold ctl. by rewrite Hk, Hs, Hr. }
  split; [|split; [|split]].
  - intros kb. rewrite Hk. apply HD.
  - intros kb. unfold db_of. rewrite Hk. apply HW.
  - intros kb Hne. rewrite Hctl. by apply Ho.
  - by rewrite Hctl.
Qed.

Lemma at_with_suspended kbId w0 b s r w (f : gmap string suspended_loop -> gmap string suspended_loop) :
  (forall m kb, kb <> kbId -> f m !! kb = m !! kb) ->
  at_kb kbId w0 (b, s, r) w ->
  at_kb kbId w0 (b, f (suspended w) !! kbId, r) (with_suspended f w).
Proof.
  intros Hf Hat. pose proof (at_kb_ctl _ _ _ _ _ _ Hat) as (Hb & Hs & Hr).
  destruct Hat as (HD & HW & Ho & Hc).
  split; [done|]. split; [done|]. split.
  - intros kb Hne. rewrite <- (Ho kb Hne). unfold ctl. simpl. by rewrite Hf.
  - unfold ctl. simpl. change (kb_of (with_suspended f w) kbId) with (kb_of w kbId).
    by rewrite Hb, Hr.
Qed.

Lemma at_with_running kbId w0 b s r w (f : gmap string string -> gmap string string) :
  (forall m kb, kb <> kbId -> f m !! kb = m !! kb) ->
  at_kb kbId w0 (b, s, r) w ->
  at_kb kbId w0 (b, s, f (runningByKb w) !! kbId) (with_running f w).
Proof.
  intros Hf Hat. pose proof (at_kb_ctl _ _ _ _ _ _ Hat) as (Hb & Hs & Hr).
  destruct Hat as (HD & HW & Ho & Hc).
  split; [done|]. split; [done|]. split.
  - intros kb Hne. rewrite <- (Ho kb Hne). unfold ctl. simpl. by rewrite Hf.
  - unfold ctl. simpl. change (kb_of (with_running f w) kbId) with (kb_of w kbId).
    by rewrite Hb, Hs.
Qed.

(** *** Quiet code *)

Lemma wp_quiet {A} (m : M A) kbId w0 c w (Q : res A -> worker -> Prop) :
  quiet m -> at_kb kbId w0 c w ->
  (forall r w', at_kb kbId w0 c w' -> Q r w') ->
  wp m Q w.
Proof. intros Hq Hat HQ. unfold wp. apply HQ. by apply Hq. Qed.

Lemma quiet_ret {A} (a : A) : quiet (ret a).
Proof. by intros kbId w0 c w H. Qed.

Lemma quiet_mret {A} (a : A) : quiet (mret a : M A).
Proof. by intros kbId w0 c w H. Qed.

Lemma quiet_throw {A} msg : quiet (throw msg : M A).
Proof. by intros kbId w0 c w H. Qed.

Lemma quiet_gets {A} (f : worker -> A) : quiet (gets f).
Proof. by intros kbId w0 c w H. Qed.

Lemma quiet_bind {A B} (m : M A) (k : A -> M B) :
  quiet m -> (forall a, quiet (k a)) -> quiet (m ≫= k).
Proof.
  intros Hm Hk kbId w0 c w H. specialize (Hm kbId w0 c w H).
  unfold mbind, M_bind, bind. destruct (m w) as [[a|e] w']; simpl in *; [|done].
  by apply Hk.
Qed.

Lemma quiet_try_catch {A} (m : M A) h :
  quiet m -> (forall e, quiet (h e)) -> quiet (try_catch m h).
Proof.
  intros Hm Hh kbId w0 c w H. specialize (Hm kbId w0 c w H).
  unfold try_catch. destruct (m w) as [[a|e] w']; simpl in *; [done|].
  by apply Hh.
Qed.

Lemma quiet_ignore_errors {A} (m : M A) : quiet m -> quiet (ignore_errors m).
Proof. intros Hm kbId w0 c w H. unfold ignore_errors. simpl. by apply Hm. Qed.

Lemma quiet_send msg : quiet (send msg).
Proof. intros kbId w0 c w H. simpl. by eapply at_kb_ext; [..|exact H]. Qed.

Lemma quiet_with_canceled f : quiet (modify (with_canceled f)).
Proof. intros kbId w0 c w H. simpl. by eapply at_kb_ext; [..|exact H]. Qed.

Lemma quiet_with_dbCache f : quiet (modify (with_dbCache f)).
Proof. intros kbId w0 c w H. simpl. by eapply at_kb_ext; [..|exact H]. Qed.

Lemma at_db_run kbId w0 c w kb f :
  at_kb kbId w0 c w -> stmt_ok f (db_of w kb) ->
  at_kb kbId w0 c (snd (db_run kb f w)).
Proof.
  intros Hat Hf. unfold db_run, modify. simpl. apply at_with_kb; [done| |done].
  intros [Hm Hs]. destruct (Hf Hm) as [Hf1 Hf2]. simpl. split.
  - split; [done|]. simpl. intros s Htx. destruct (Hs s Htx) as [Hs1 Hs2].
    split; [done|]. by eapply jobs_frame_trans.
  - by apply jobs_frame_progress_le.
Qed.

Lemma quiet_db_run kb f : (forall t, stmt_ok f t) -> quiet (db_run kb f).
Proof. intros Hf kbId w0 c w H. by apply at_db_run. Qed.

Lemma quiet_db_try kb (f : tables -> res tables) :
  (forall t t', f t = Ok t' -> stmt_ok (fun _ => t') t) -> quiet (db_try kb f).
Proof.
  intros Hf kbId w0 c w H. unfold db_try, mbind, M_bind, bind, gets. simpl.
  destruct (f (db_of w kb)) as [t'|] eqn:E; [|done].
  apply at_db_run; [done|]. by apply Hf.
Qed.

Lemma quiet_sendJobUpdate kbId jobId : quiet (sendJobUpdate kbId jobId).
Proof. apply quiet_bind; [apply quiet_gets|]. intros t. apply quiet_send. Qed.

Lemma quiet_getDb now kb : quiet (getDb now kb).
Proof.
  intros kbId w0 c w H. destruct (decide (kb ∈ dbCache w)) as [Hc|Hc].
  - by rewrite getDb_cached.
  - rewrite getDb_uncached by done. simpl.
    eapply at_kb_ext; [done..|].
    apply at_with_kb; [done| |done].
    intros [Hm Hs].
    assert (Hst : stmt_ok (fun t => recover now (snd (migrate_tables now t))) (meta (kb_of w kb))).
    { unfold recover. simpl.
      apply (stmt_ok_comp (fun t => snd (migrate_tables now t))
               (fun t => recover_items now (recover_jobs now t))); [apply stmt_ok_migrate|].
      apply (stmt_ok_comp (recover_jobs now) (recover_items now));
        [apply stmt_ok_recover_jobs|apply stmt_ok_recover_items]. }
    destruct (Hst Hm) as [Hf1 Hf2]. unfold opened. simpl. split.
    + split; [done|]. simpl. intros s Htx. destruct (Hs s Htx) as [Hs1 Hs2].
      split; [done|]. by eapply jobs_frame_trans.
    + by apply jobs_frame_progress_le.
Qed.

Lemma quiet_ensureKbDirs kb : quiet (ensureKbDirs kb).
Proof.
  intros kbId w0 c w H. unfold ensureKbDirs, modify. simpl.
  apply at_with_kb; [done| |done]. intros Hk. split; [done|apply progress_le_refl].
Qed.

(** *** Transactions *)

Lemma at_db_begin kbId w0 s r w :
  at_kb kbId w0 (false, s, r) w ->
  fst (db_begin kbId w) = Ok ()
  /\ at_kb kbId w0 (true, s, r) (snd (db_begin kbId w)).
Proof.
  intros Hat. pose proof (at_kb_ctl _ _ _ _ _ _ Hat) as (Hb & _).
  unfold db_begin, mbind, M_bind, bind, gets. simpl.
  destruct (tx (kb_of w kbId)) as [s0|] eqn:E; [done|]. simpl. split; [done|].
  apply (at_with_kb_tx kbId w0 false s r w
           (fun k => {| meta := meta k; tx := Some (meta k); blobs := blobs k |})); [done|].
  intros [Hm Hs]. simpl. split; [|apply progress_le_refl].
  split; [done|]. simpl. intros s1 [= <-]. done.
Qed.

Lemma db_begin_open kbId w :
  is_Some (tx (kb_of w kbId)) ->
  db_begin kbId w = (Throw "cannot start a transaction within a transaction", w).
Proof.
  intros [s0 H]. unfold db_begin, mbind, M_bind, bind, gets. simpl. by rewrite H.
Qed.

Lemma db_begin_closed kbId w :
  tx (kb_of w kbId) = None ->
  db_begin kbId w
  = (Ok (), with_kb kbId (fun k => {| meta := meta k; tx := Some (meta k);
                                      blobs := blobs k |}) w).
Proof.
  intros H. unfold db_begin, mbind, M_bind, bind, gets. simpl. by rewrite H.
Qed.

Lemma at_db_commit kbId w0 b s r w :
  at_kb kbId w0 (b, s, r) w -> at_kb kbId w0 (false, s, r) (snd (db_commit kbId w)).
Proof.
  intros Hat. pose proof (at_kb_ctl _ _ _ _ _ _ Hat) as (Hb & _).
  unfold db_commit, mbind, M_bind, bind, gets. simpl.
  destruct (tx (kb_of w kbId)) as [s0|] eqn:E; simpl.
  - apply (at_with_kb_tx kbId w0 b s r w
             (fun k => {| meta := meta k; tx := None; blobs := blobs k |})); [done|].
    intros [Hm Hs]. simpl. split; [|apply progress_le_refl]. split; done.
  - revert Hat. rewrite <- Hb. by intros Hat.
Qed.

Lemma at_db_rollback kbId w0 b s r w :
  at_kb kbId w0 (b, s, r) w -> at_kb kbId w0 (false, s, r) (snd (db_rollback kbId w)).
Proof.
  intros Hat. pose proof (at_kb_ctl _ _ _ _ _ _ Hat) as (Hb & _).
  unfold db_rollback, mbind, M_bind, bind, gets. simpl.
  destruct (tx (kb_of w kbId)) as [s0|] eqn:E; simpl.
  - apply (at_with_kb_tx kbId w0 b s r w
             (fun k => {| meta := s0; tx := None; blobs := blobs k |})); [done|].
    intros [Hm Hs]. simpl. destruct (Hs s0 E) as [Hs1 Hs2]. split; [by split|].
    by apply jobs_frame_progress_le, jobs_frame_sym.
  - revert Hat. rewrite <- Hb. by intros Hat.
Qed.

(** *** The statements of [importOneFile] *)

Lemma at_blobs kbId w0 c w kb (f : gmap string buffer -> gmap string buffer) :
  at_kb kbId w0 c w ->
  at_kb kbId w0 c
    (with_kb kb (fun k => {| meta := meta k; tx := tx k; blobs := f (blobs k) |}) w).
Proof.
  intros H. apply at_with_kb; [done| |done]. intros Hk. split; [done|apply progress_le_refl].
Qed.

Lemma quiet_write_blob kb rel bytes : quiet (write_blob kb rel bytes).
Proof.
  intros kbId w0 c w H. unfold write_blob, modify. simpl.
  apply at_with_kb; [done| |done]. intros Hk. split; [done|apply progress_le_refl].
Qed.

Lemma quiet_create_blob kb rel : quiet (create_blob kb rel).
Proof.
  intros kbId w0 c w H. unfold create_blob, modify. simpl.
  apply at_with_kb; [done| |done]. intros Hk. split; [done|apply progress_le_refl].
Qed.

Lemma quiet_remove_blob kb rel : quiet (remove_blob kb rel).
Proof.
  intros kbId w0 c w H. unfold remove_blob, modify. simpl.
  apply at_with_kb; [done| |done]. intros Hk. split; [done|apply progress_le_refl].
Qed.

Lemma quiet_insert_document kb d : quiet (db_try kb (insert_document d)).
Proof.
  apply quiet_db_try. intros t t' H. unfold insert_document in H.
  destruct (existsb _ _); [done|]. injection H as <-. by apply stmt_ok_same_rows.
Qed.

Lemma quiet_insert_chunk kb c : quiet (db_try kb (insert_chunk c)).
Proof.
  apply quiet_db_try. intros t t' H. unfold insert_chunk in H.
  destruct (existsb _ _); [done|]. destruct (negb _); [done|].
  injection H as <-. by apply stmt_ok_same_rows.
Qed.

Lemma quiet_insert_note kb documentId content :
  quiet (db_try kb (insert_note documentId content)).
Proof.
  apply quiet_db_try. intros t t' H. unfold insert_note in H.
  destruct (existsb _ _); [done|]. destruct (negb _); [done|].
  injection H as <-. by apply stmt_ok_same_rows.
Qed.

Lemma quiet_insert_parts kb documentId chunkIds now parts index :
  quiet (insert_parts kb documentId chunkIds now parts index).
Proof.
  revert index. induction parts as [|p parts IH]; intros index; simpl.
  - apply quiet_ret.
  - apply quiet_bind; [apply quiet_insert_chunk|]. intros _. apply IH.
Qed.

Section WithNode.
Variable node : NodeApi.

Lemma quiet_push_and_insert kb documentId chunkIds now text (st : stream_state node) :
  quiet (push_and_insert node kb documentId chunkIds now text st).
Proof.
  unfold push_and_insert. destruct (Chunker.push _ _ _ _) as [[parts carry']|].
  - apply quiet_bind; [apply quiet_insert_parts|]. intros idx. apply quiet_ret.
  - apply quiet_throw.
Qed.

Lemma quiet_stream_loop kb documentId rel chunkIds now bufs (st : stream_state node) :
  quiet (stream_loop node kb documentId rel chunkIds now bufs st).
Proof.
  revert st. induction bufs as [|buf bufs IH]; intros st; simpl.
  - apply quiet_ret.
  - apply quiet_bind; [apply quiet_write_blob|]. intros _.
    destruct (negb (canIndex node st)); [apply IH|].
    destruct (negb (decidedBinary node st) && bufferLooksBinary buf); [apply IH|].
    destruct (decoder_write node (decoder node st) buf) as [text dec].
    apply quiet_bind; [apply quiet_push_and_insert|]. intros st2. apply IH.
Qed.

Lemma import_catch_at kbId w0 b s r w rel msg :
  at_kb kbId w0 (b, s, r) w ->
  wp (import_catch kbId rel msg) (step_post kbId w0 s r) w.
Proof.
  intros Hat. unfold import_catch. apply wp_bind, wp_ignore_errors.
  unfold wp. simpl. by apply (at_db_rollback _ _ b).
Qed.

Lemma importOneFile_on_stat_at kbId w0 s r w itemId sourcePath st documentId now :
  at_kb kbId w0 (false, s, r) w ->
  wp (importOneFile_on_stat node kbId itemId sourcePath st documentId now)
     (step_post kbId w0 s r) w.
Proof.
  intros Hat. destruct st as [| |size]; simpl; [done|done|].
  apply wp_bind. destruct (at_db_begin _ _ _ _ _ Hat) as [Hok Hat1].
  unfold wp at 1. rewrite Hok.
  apply wp_try_catch, wp_bind.
  apply (wp_quiet _ kbId w0 (true, s, r)); [apply quiet_insert_document|done|].
  intros [[]|e] w1 Hat2; [|by apply (import_catch_at _ _ true)].
  apply wp_bind.
  apply (wp_quiet _ kbId w0 (true, s, r)); [apply quiet_create_blob|done|].
  intros [[]|e] w2 Hat3; [|by apply (import_catch_at _ _ true)].
  done.
Qed.

Lemma stream_finish_at kbId w0 b s r w documentId chunkIds now (st : stream_state node) :
  at_kb kbId w0 (b, s, r) w ->
  wp (stream_finish node kbId documentId chunkIds now st)
     (fun res w' => match res with
                    | Ok x => result_terminal (r_status x) = true
                              /\ at_kb kbId w0 (false, s, r) w'
                    | Throw _ => exists b', at_kb kbId w0 (b', s, r) w'
                    end) w.
Proof.
  intros Hat. unfold stream_finish. apply wp_bind.
  apply (wp_quiet _ kbId w0 (b, s, r)); [|done|].
  { destruct (canIndex node st); [|apply quiet_mret].
    apply quiet_bind; [apply quiet_push_and_insert|]. intros st'.
    destruct (fst (Chunker.flush _)); [|apply quiet_mret].
    apply quiet_bind; [apply quiet_insert_parts|]. intros _. apply quiet_mret. }
  intros [[]|e] w1 Hat1; [|by exists b].
  apply wp_bind.
  apply (wp_quiet _ kbId w0 (b, s, r));
    [apply quiet_db_run; intros t; apply stmt_ok_update_sha|done|].
  intros [[]|e] w2 Hat2; [|by exists b].
  apply wp_bind. unfold wp at 1.
  pose proof (at_db_commit _ _ _ _ _ _ Hat2) as Hat3.
  destruct (db_commit kbId w2) as [[[]|e] w3]; simpl in *; [|by exists false].
  split; [|done]. by destruct (canIndex node st).
Qed.

Lemma importOneFile_on_stream_at kbId w0 b s r w itemId sourcePath documentId rel
    out chunkIds now :
  at_kb kbId w0 (b, s, r) w ->
  wp (importOneFile_on_stream node kbId itemId sourcePath documentId rel out chunkIds now)
     (step_post kbId w0 s r) w.
Proof.
  intros Hat. unfold importOneFile_on_stream. apply wp_try_catch, wp_bind.
  apply (wp_quiet _ kbId w0 (b, s, r)); [apply quiet_stream_loop|done|].
  intros [st|e] w1 Hat1; [|by apply (import_catch_at _ _ b)].
  destruct (stream_error out) as [e|]; [by apply (import_catch_at _ _ b)|].
  apply wp_bind.
  eapply wp_mono; [apply (stream_finish_at kbId w0 b s r); exact Hat1|].
  intros [x|e] w2; simpl.
  - intros [Hx Hat2]. apply wp_bind.
    apply (wp_quiet _ kbId w0 (false, s, r));
      [apply quiet_db_run; intros t; apply stmt_ok_touch_item|done|].
    intros [[]|e] w3 Hat3; [done|by apply (import_catch_at _ _ false)].
  - intros [b' Hat2]. by apply (import_catch_at _ _ b').
Qed.

Lemma importOneFile_on_rm_at kbId w0 s r w itemId rel msg removed now :
  at_kb kbId w0 (false, s, r) w ->
  wp (importOneFile_on_rm kbId itemId rel msg removed now) (step_post kbId w0 s r) w.
Proof.
  intros Hat. unfold importOneFile_on_rm. apply wp_bind.
  apply (wp_quiet _ kbId w0 (false, s, r));
    [destruct removed; [apply quiet_remove_blob|apply quiet_ret]|done|].
  intros [[]|e] w1 Hat1; [|done].
  apply wp_bind.
  apply (wp_quiet _ kbId w0 (false, s, r));
    [apply quiet_db_run; intros t; apply stmt_ok_touch_item|done|].
  intros [[]|e] w2 Hat2; done.
Qed.

End WithNode.

(** *** The run loop *)

Lemma tx_closed kbId w0 s r w : at_kb kbId w0 (false, s, r) w -> tx (kb_of w kbId) = None.
Proof.
  intros Hat. pose proof (at_kb_ctl _ _ _ _ _ _ Hat) as (Hb & _).
  destruct (tx (kb_of w kbId)); [done|done].
Qed.

Lemma settled_idle kbId w0 r w : at_kb kbId w0 (false, None, r) w -> settled kbId w0 w.
Proof.
  intros H. exists (false, None, r). split; [done|]. split; simpl; [done|].
  intros [? Hn]. done.
Qed.

(** The progress counter is written with no transaction open. *)
Lemma at_set_progress kbId w0 s r w jobId now :
  at_kb kbId w0 (false, s, r) w ->
  at_kb kbId w0 (false, s, r)
    (snd (db_run kbId (set_progress jobId (count_terminal jobId (db_of w kbId)) now) w)).
Proof.
  intros Hat. pose proof (tx_closed _ _ _ _ _ Hat) as Htx.
  unfold db_run, modify. simpl. apply at_with_kb; [done| |done].
  intros [Hm Hs]. destruct (set_progress_ok jobId now _ Hm) as [H1 H2]. simpl.
  split; [|done]. split; [done|]. simpl. rewrite Htx. done.
Qed.

Lemma after_import_at kbId w0 s r w x now jobId itemId :
  result_terminal (r_status x) = true ->
  at_kb kbId w0 (false, s, r) w ->
  at_kb kbId w0 (false, s, r) (snd (after_import x now kbId jobId itemId w)).
Proof.
  intros Hx Hat. unfold after_import.
  change (at_kb kbId w0 (false, s, r) (snd ?m))
    with (wp (after_import x now kbId jobId itemId)
            (fun _ w' => at_kb kbId w0 (false, s, r) w') w).
  unfold after_import. apply wp_bind.
  apply (wp_quiet _ kbId w0 (false, s, r)); [|done|].
  { apply quiet_db_run. intros t. by apply stmt_ok_record_item_result. }
  intros [[]|e] w1 Hat1; [|done].
  apply wp_bind, wp_gets, wp_bind. unfold wp at 1.
  pose proof (at_set_progress _ _ _ _ _ jobId now Hat1) as Hat2.
  destruct (db_run kbId _ w1) as [[[]|e] w2]; simpl in *; [|done].
  by apply (wp_quiet _ kbId w0 (false, s, r)); [apply quiet_sendJobUpdate|done|].
Qed.

Lemma loop_take_item_at kbId w0 r w now jobId :
  at_kb kbId w0 (false, None, r) w ->
  wp (match next_pending_item jobId (db_of w kbId) with
      | None =>
          db_run kbId (mark_done jobId now);;
          sendJobUpdate kbId jobId;;
          ret Exited
      | Some next =>
          db_run kbId (mark_item_processing (item_id next) now);;
          getDb now kbId;;
          modify (with_suspended (fun s =>
            <[kbId := {| sl_job := jobId; sl_item := item_id next;
                         sl_source := item_source_path next;
                         sl_phase := AwaitStat |}]> s));;
          ret Suspended
      end) (loop_post kbId w0 r) w.
Proof.
  intros Hat. destruct (next_pending_item jobId (db_of w kbId)) as [next|] eqn:En.
  - apply wp_bind. unfold wp at 1.
    pose proof (at_db_run _ _ _ _ kbId _ Hat
                  (stmt_ok_mark_item_processing _ _ _ now En)) as Hat1.
    destruct (db_run kbId _ w) as [[[]|e] w1]; simpl in *; [|done].
    apply wp_bind.
    apply (wp_quiet _ kbId w0 (false, None, r)); [apply quiet_getDb|done|].
    intros [[]|e] w2 Hat2; [|done].
    apply wp_bind, wp_modify. simpl.
    eexists false, _. split; [|done].
    pose proof (at_with_suspended kbId w0 false None r w2
      (fun s => <[kbId := {| sl_job := jobId; sl_item := item_id next;
                             sl_source := item_source_path next;
                             sl_phase := AwaitStat |}]> s)) as H.
    simpl in H. rewrite lookup_insert_eq in H. apply H; [|done].
    intros m kb Hne. by rewrite lookup_insert_ne.
  - apply wp_bind.
    apply (wp_quiet _ kbId w0 (false, None, r));
      [apply quiet_db_run; intros t; apply stmt_ok_mark_done|done|].
    intros [[]|e] w1 Hat1; [|done].
    apply wp_bind.
    apply (wp_quiet _ kbId w0 (false, None, r)); [apply quiet_sendJobUpdate|done|].
    intros [[]|e] w2 Hat2; done.
Qed.

Lemma loop_top_at kbId w0 r w now jobId :
  at_kb kbId w0 (false, None, r) w ->
  wp (loop_top now kbId jobId) (loop_post kbId w0 r) w.
Proof.
  intros Hat. unfold loop_top. apply wp_bind, wp_gets.
  destruct (bool_decide (jobId ∈ inMemoryCanceledJobs w)); [done|].
  apply wp_bind, wp_gets.
  destruct (job_status <$> find_job jobId (db_of w kbId)) as [[]|]; try done;
    by apply loop_take_item_at.
Qed.

Lemma finally_at (start : string -> M unit) kbId w0 r w :
  (forall j w1, at_kb kbId w0 (false, None, None) w1 -> settled kbId w0 (snd (start j w1))) ->
  at_kb kbId w0 (false, None, r) w ->
  settled kbId w0
    (snd ((modify (with_running (fun r => delete kbId r));;
           scheduleNextPendingJob start kbId) w)).
Proof.
  intros Hstart Hat.
  change (settled kbId w0 (snd ?m))
    with (wp (modify (with_running (fun r => delete kbId r));;
              scheduleNextPendingJob start kbId)
            (fun _ w' => settled kbId w0 w') w).
  apply wp_bind, wp_modify.
  pose proof (at_with_running kbId w0 false None r w (fun r => delete kbId r)) as H.
  simpl in H. rewrite lookup_delete_eq in H.
  assert (Hat1 : at_kb kbId w0 (false, None, None)
                   (with_running (fun r => delete kbId r) w)).
  { apply H; [|done]. intros m kb Hne. by rewrite lookup_delete_ne. }
  clear H. revert Hat1. generalize (with_running (fun r => delete kbId r) w). intros w1 Hat1.
  assert (Hset : settled kbId w0 w1) by (by apply (settled_idle _ _ None)).
  unfold scheduleNextPendingJob. apply wp_bind, wp_gets.
  destruct (has_paused (db_of w1 kbId)); [done|].
  destruct (next_pending_job (db_of w1 kbId)) as [next|]; [|done].
  destruct (String.eqb (job_id next) ""); [done|].
  apply wp_ignore_errors. unfold wp. by apply Hstart.
Qed.

Lemma loop_segment_at (start : string -> M unit) now kbId jobId (body : M loop_exit)
    w0 r w :
  is_Some r ->
  (forall j w1, at_kb kbId w0 (false, None, None) w1 -> settled kbId w0 (snd (start j w1))) ->
  wp body (loop_post kbId w0 r) w ->
  settled kbId w0 (snd (loop_segment start now kbId jobId body w)).
Proof.
  intros Hr Hstart Hbody. unfold loop_segment. unfold wp in Hbody.
  destruct (body w) as [[[]|e] w1]; simpl in Hbody.
  - simpl. destruct Hbody as (b & sl & Hat & Hb).
    exists (b, Some sl, r). split; [done|]. split; simpl; [|done].
    intros ->. destruct (Hb eq_refl) as (d & bl & Hp). by exists sl, d, bl.
  - by apply (finally_at start kbId w0 r).
  - change (settled kbId w0 (snd ?m))
      with (wp (db_run kbId (mark_failed jobId e now);;
                sendJobUpdate kbId jobId;;
                modify (with_running (fun r => delete kbId r));;
                scheduleNextPendingJob start kbId)
              (fun _ w' => settled kbId w0 w') w1).
    assert (Hset : forall w2, at_kb kbId w0 (false, None, r) w2 -> settled kbId w0 w2)
      by (intros w2; apply settled_idle).
    apply wp_bind.
    apply (wp_quiet _ kbId w0 (false, None, r));
      [apply quiet_db_run; intros t; apply stmt_ok_mark_failed|done|].
    intros [[]|e'] w2 Hat2; [|by apply Hset].
    apply wp_bind.
    apply (wp_quiet _ kbId w0 (false, None, r)); [apply quiet_sendJobUpdate|done|].
    intros [[]|e'] w3 Hat3; [|by apply Hset].
    unfold wp. by apply (finally_at start kbId w0 r).
Qed.

Lemma processImportJob_at fuel now kbId jobId w0 r w :
  at_kb kbId w0 (false, None, r) w ->
  settled kbId w0 (snd (processImportJob fuel now kbId jobId w)).
Proof.
  revert jobId r w. induction fuel as [|fuel IH]; intros jobId r w Hat.
  - simpl. by apply (settled_idle _ _ r).
  - assert (Hset : forall w2 r2, at_kb kbId w0 (false, None, r2) w2 -> settled kbId w0 w2)
      by (intros w2 r2; apply settled_idle).
    change (settled kbId w0 (snd ?m))
      with (wp (processImportJob (S fuel) now kbId jobId)
              (fun _ w' => settled kbId w0 w') w).
    simpl. apply wp_bind.
    apply (wp_quiet _ kbId w0 (false, None, r)); [apply quiet_getDb|done|].
    intros [[]|e] w1 Hat1; [|by apply (Hset _ r)].
    apply wp_bind, wp_gets.
    destruct (other_job_running (runningByKb w1 !! kbId) jobId); [by apply (Hset _ r)|].
    apply wp_bind, wp_modify.
    pose proof (at_with_running kbId w0 false None r w1 (fun r => <[kbId := jobId]> r)) as H.
    simpl in H. rewrite lookup_insert_eq in H.
    assert (Hat2 : at_kb kbId w0 (false, None, Some jobId)
                     (with_running (fun r => <[kbId := jobId]> r) w1)).
    { apply H; [|done]. intros m kb Hne. by rewrite lookup_insert_ne. }
    clear H. revert Hat2. generalize (with_running (fun r => <[kbId := jobId]> r) w1).
    intros w2 Hat2.
    apply wp_bind.
    apply (wp_quiet _ kbId w0 (false, None, Some jobId));
      [apply quiet_db_run; intros t; apply stmt_ok_mark_processing|done|].
    intros [[]|e] w3 Hat3; [|by apply (Hset _ (Some jobId))].
    apply wp_bind.
    apply (wp_quiet _ kbId w0 (false, None, Some jobId)); [apply quiet_sendJobUpdate|done|].
    intros [[]|e] w4 Hat4; [|by apply (Hset _ (Some jobId))].
    unfold wp. apply (loop_segment_at _ _ _ _ _ w0 (Some jobId)); [done| |].
    + intros j w5 Hat5. by apply (IH j None).
    + by apply loop_top_at.
Qed.

Lemma start_job_at now kbId jobId w0 r w :
  at_kb kbId w0 (false, None, r) w ->
  settled kbId w0 (snd (start_job now kbId jobId w)).
Proof.
  intros Hat.
  change (wp (start_job now kbId jobId) (fun _ w' => settled kbId w0 w') w).
  unfold start_job. apply wp_bind, wp_gets, wp_ignore_errors. unfold wp.
  by apply (processImportJob_at _ _ _ _ _ r).
Qed.

Lemma continue_loop_at now kbId (sl : suspended_loop) (step : M import_step) w0 b s r w :
  is_Some r ->
  at_kb kbId w0 (b, s, r) w ->
  (forall w1, at_kb kbId w0 (b, None, r) w1 -> wp step (step_post kbId w0 None r) w1) ->
  settled kbId w0 (snd (continue_loop now kbId sl step w)).
Proof.
  intros Hr Hat Hstep.
  change (wp (continue_loop now kbId sl step) (fun _ w' => settled kbId w0 w') w).
  unfold continue_loop. apply wp_bind, wp_modify, wp_ignore_errors.
  unfold wp at 1.
  pose proof (at_with_suspended kbId w0 b s r w (fun s => delete kbId s)) as H.
  simpl in H. rewrite lookup_delete_eq in H.
  assert (Hat1 : at_kb kbId w0 (b, None, r) (with_suspended (fun s => delete kbId s) w)).
  { apply H; [|done]. intros m kb Hne. by rewrite lookup_delete_ne. }
  clear H. revert Hat1. generalize (with_suspended (fun s => delete kbId s) w).
  intros w1 Hat1.
  apply (loop_segment_at _ _ _ _ _ w0 r); [done| |].
  - intros j w2 Hat2. by apply (start_job_at _ _ _ _ None).
  - apply wp_bind. eapply wp_mono; [by apply Hstep|].
    intros [[x|p]|e] w2; simpl.
    + intros [Hx Hat2]. apply wp_bind. unfold wp at 1.
      pose proof (after_import_at _ _ _ _ _ x now (sl_job sl) (sl_item sl) Hx Hat2) as Hat3.
      destruct (after_import x now kbId (sl_job sl) (sl_item sl) w2) as [[[]|e] w3];
        simpl in *; [|done].
      by apply loop_top_at.
    + intros Hat2. apply wp_bind, wp_modify. simpl.
      pose proof (at_with_suspended kbId w0 (awaits_stream p) None r w2
        (fun m => <[kbId := {| sl_job := sl_job sl; sl_item := sl_item sl;
                               sl_source := sl_source sl; sl_phase := p |}]> m)) as H.
      simpl in H. rewrite lookup_insert_eq in H.
      eexists (awaits_stream p), _. split.
      * apply H; [|done]. intros m kb Hne. by rewrite lookup_insert_ne.
      * simpl. destruct p; try done. eauto.
    + done.
Qed.

(** *** [kb.importFiles]: the rows of a new job *)

Lemma mid_tables_ok jobId total t0 t : mid jobId total total t0 t -> tables_ok t.
Proof.
  intros (H1 & H2 & H3 & H4 & H5). split; [done|done|].
  eapply Forall_impl; [exact H5|]. intros j [Hp Hc]. simpl in *. split; [done|].
  destruct (is_job jobId j) eqn:E; [|done].
  unfold is_job in E. apply String.eqb_eq in E. rewrite E, H4. lia.
Qed.

Lemma find_app_l {A} (p : A -> bool) (l l' : list A) x :
  List.find p l = Some x -> List.find p (l ++ l') = Some x.
Proof.
  induction l as [|a l IH]; simpl; [done|]. destruct (p a); [done|apply IH].
Qed.

Lemma existsb_false_Forall {A} (p : A -> bool) (l : list A) :
  existsb p l = false -> Forall (fun x => p x = false) l.
Proof.
  induction l as [|a l IH]; simpl; [constructor|].
  intros H. apply orb_false_iff in H as [H1 H2]. constructor; [done|by apply IH].
Qed.

Lemma filter_none {A} (p : A -> bool) (l : list A) :
  Forall (fun x => p x = false) l -> List.filter p l = [].
Proof. induction 1 as [|a l Ha _ IH]; simpl; [done|]. by rewrite Ha. Qed.

Lemma insert_job_mid jobId sources total now t0 t1 :
  tables_ok t0 ->
  insert_job jobId sources total now t0 = Ok t1 ->
  mid jobId total 0 t0 t1.
Proof.
  intros [H1 H2 H3] Hi. unfold insert_job in Hi.
  destruct (existsb (is_job jobId) (jobs t0)) eqn:Ex; [done|]. injection Hi as <-.
  pose proof (existsb_false_Forall _ _ Ex) as Hnew.
  assert (Hnone : Forall (fun i => String.eqb (item_job_id i) jobId = false) (job_items t0)).
  { eapply Forall_impl; [exact H2|]. intros i Hi. simpl in Hi.
    destruct (String.eqb (item_job_id i) jobId) eqn:E; [|done].
    apply String.eqb_eq in E. rewrite E in Hi. congruence. }
  split; [done|]. split; [|split; [|split]]; simpl.
  - eapply Forall_impl; [exact H2|]. intros i Hi. simpl in Hi.
    rewrite existsb_app, Hi. done.
  - intros id j Hf. exists j. unfold find_job in *. simpl.
    split; [by apply find_app_l|]. split; [done|lia].
  - unfold count_items. simpl. by rewrite filter_none.
  - apply Forall_app. split.
    + rewrite Forall_forall in H3, Hnew. apply Forall_forall. intros j Hj.
      destruct (H3 j Hj) as [Hp Hc]. rewrite (Hnew j Hj). done.
    + constructor; [|constructor]. simpl. unfold is_job. simpl.
      rewrite String.eqb_refl. split; [|done].
      pose proof (count_terminal_nonneg jobId t0). unfold count_terminal in *. simpl. lia.
Qed.

Lemma insert_item_mid jobId total k t0 t t' itemId path now :
  mid jobId total k t0 t ->
  insert_item itemId jobId path now t = Ok t' ->
  mid jobId total (k + 1) t0 t'.
Proof.
  intros (H1 & H2 & H3 & H4 & H5) Hi. unfold insert_item in Hi.
  destruct (existsb (fun i => _ && _) (job_items t)); [done|].
  destruct (existsb (is_item itemId) (job_items t)) eqn:Ex; [done|].
  destruct (negb (existsb (is_job jobId) (jobs t))) eqn:Ej; [done|]. injection Hi as <-.
  apply negb_false_iff in Ej.
  split; [|split; [|split; [|split]]]; simpl.
  - rewrite map_app. simpl. apply NoDup_app. split; [done|]. split.
    + intros x Hx Hx'. apply list_elem_of_singleton in Hx'. subst x.
      apply list_elem_of_fmap in Hx as (i & Hid & Hin).
      pose proof (existsb_false_Forall _ _ Ex) as Hall.
      rewrite Forall_forall in Hall. specialize (Hall _ Hin).
      unfold is_item in Hall. rewrite <- Hid, String.eqb_refl in Hall. done.
    + apply NoDup_singleton.
  - apply Forall_app. split; [done|]. constructor; [done|constructor].
  - done.
  - unfold count_items in *. simpl. rewrite List.filter_app, length_app. simpl.
    rewrite String.eqb_refl. simpl. lia.
  - eapply Forall_impl; [exact H5|]. intros j [Hp Hc]. simpl in *.
    unfold count_terminal, count_items in *. simpl.
    rewrite !List.filter_app, !length_app. simpl.
    rewrite andb_false_r. simpl. split; [lia|].
    destruct (is_job jobId j) eqn:E; [done|].
    unfold is_job in E. rewrite String.eqb_sym in E. rewrite E. simpl. lia.
Qed.

Lemma at_kb_replace kbId w0 b s r w w' :
  at_kb kbId w0 (b, s, r) w ->
  (forall kb, kb <> kbId -> kb_of w' kb = kb_of w kb) ->
  suspended w' = suspended w ->
  runningByKb w' = runningByKb w ->
  kb_inv (kb_of w' kbId) ->
  progress_le (db_of w kbId) (db_of w' kbId) ->
  at_kb kbId w0 (bool_decide (is_Some (tx (kb_of w' kbId))), s, r) w'.
Proof.
  intros Hat Hk Hs Hr Hinv Hle.
  pose proof (at_kb_ctl _ _ _ _ _ _ Hat) as (Hb & Hs' & Hr').
  destruct Hat as (HD & HW & Ho & Hc).
  split; [|split; [|split]].
  - intros kb. destruct (decide (kb = kbId)) as [->|Hne]; [done|].
    rewrite Hk by done. apply HD.
  - intros kb. destruct (decide (kb = kbId)) as [->|Hne].
    + eapply progress_le_trans; [apply HW|done].
    + unfold db_of. rewrite Hk by done. apply HW.
  - intros kb Hne. rewrite <- (Ho kb Hne). unfold ctl. by rewrite Hk, Hs, Hr.
  - unfold ctl. by rewrite Hs, Hr, Hs', Hr'.
Qed.

Lemma in_block_begin kbId w :
  in_block kbId w
    (with_kb kbId (fun k => {| meta := meta k; tx := Some (meta k); blobs := blobs k |}) w).
Proof.
  split; [|split; [|split]].
  - intros kb Hne. by rewrite kb_of_with_kb_ne.
  - by rewrite kb_of_with_kb_eq.
  - by rewrite kb_of_with_kb_eq.
  - done.
Qed.

Lemma in_block_db_run kbId w w1 f :
  in_block kbId w w1 ->
  in_block kbId w (snd (db_run kbId f w1))
  /\ db_of (snd (db_run kbId f w1)) kbId = f (db_of w1 kbId).
Proof.
  intros (H1 & H2 & H3 & H4 & H5). unfold db_run, modify, db_of. simpl.
  rewrite kb_of_with_kb_eq. simpl. split; [|done].
  split; [|split; [|split]].
  - intros kb Hne. rewrite kb_of_with_kb_ne by done. by apply H1.
  - by rewrite kb_of_with_kb_eq.
  - by rewrite kb_of_with_kb_eq.
  - done.
Qed.

Lemma block_rollback kbId w0 s r w w1 :
  at_kb kbId w0 (false, s, r) w -> in_block kbId w w1 ->
  at_kb kbId w0 (false, s, r) (snd (db_rollback kbId w1)).
Proof.
  intros Hat (H1 & H2 & H3 & H4 & H5).
  unfold db_rollback, mbind, M_bind, bind, gets. simpl. rewrite H2. simpl.
  pose proof (at_kb_replace kbId w0 false s r w
    (with_kb kbId (fun k => {| meta := db_of w kbId; tx := None; blobs := blobs k |}) w1)
    Hat) as H.
  rewrite kb_of_with_kb_eq in H. simpl in H. apply H; try done.
  - intros kb Hne. rewrite kb_of_with_kb_ne by done. by apply H1.
  - destruct Hat as (HD & _). destruct (HD kbId) as [Hm _]. split; done.
  - unfold db_of. rewrite kb_of_with_kb_eq. simpl. apply progress_le_refl.
Qed.

Lemma block_commit kbId w0 s r w w1 jobId total :
  at_kb kbId w0 (false, s, r) w -> in_block kbId w w1 ->
  mid jobId total total (db_of w kbId) (db_of w1 kbId) ->
  at_kb kbId w0 (false, s, r) (snd (db_commit kbId w1)).
Proof.
  intros Hat (H1 & H2 & H3 & H4 & H5) Hmid.
  unfold db_commit, mbind, M_bind, bind, gets. simpl. rewrite H2. simpl.
  pose proof (at_kb_replace kbId w0 false s r w
    (with_kb kbId (fun k => {| meta := meta k; tx := None; blobs := blobs k |}) w1)
    Hat) as H.
  rewrite kb_of_with_kb_eq in H. simpl in H. apply H; try done.
  - intros kb Hne. rewrite kb_of_with_kb_ne by done. by apply H1.
  - split; [|done]. simpl. by apply (mid_tables_ok jobId total (db_of w kbId)).
  - unfold db_of. rewrite kb_of_with_kb_eq. simpl. by destruct Hmid as (_ & _ & Hle & _).
Qed.

Lemma insert_items_block env kbId jobId total files :
  forall n k w w1,
  in_block kbId w w1 ->
  mid jobId total k (db_of w kbId) (db_of w1 kbId) ->
  wp (insert_items env kbId jobId n files)
     (fun res w2 => in_block kbId w w2
                    /\ (res = Ok () ->
                        mid jobId total (k + Z.of_nat (length files))
                          (db_of w kbId) (db_of w2 kbId))) w1.
Proof.
  induction files as [|f files IH]; intros n k w w1 Hb Hm; simpl.
  - split; [done|]. intros _. by rewrite Z.add_0_r.
  - apply wp_bind. unfold db_try. apply wp_bind, wp_gets.
    destruct (insert_item (uuid env n) jobId f (now env) (db_of w1 kbId)) as [t'|] eqn:E;
      [|by split].
    destruct (in_block_db_run kbId w w1 (fun _ => t') Hb) as [Hb' Hdb].
    unfold wp at 1. destruct (db_run kbId (fun _ => t') w1) as [[[]|e] w2] eqn:E2;
      simpl in *; [|by split].
    eapply wp_mono; [apply (IH (S n) (k + 1) w w2 Hb')|].
    + rewrite Hdb. by eapply insert_item_mid.
    + intros res w3 [H1 H2]. split; [done|]. intros Hres.
      assert (Heq : k + 1 + Z.of_nat (length files) = k + Z.of_nat (S (length files)))
        by lia.
      rewrite Heq in H2. by apply H2.
Qed.

(** The transaction of [kb.importFiles]: the job and its items, or
    nothing. *)
Lemma import_block_at env kbId jobId sources files w0 b s r w :
  at_kb kbId w0 (b, s, r) w ->
  wp (db_begin kbId;;
      try_catch
        (db_try kbId (insert_job jobId sources (Z.of_nat (length files)) (now env));;
         insert_items env kbId jobId 1 files;;
         db_commit kbId)
        (fun e => ignore_errors (db_rollback kbId);; throw e))
     (fun _ w' => at_kb kbId w0 (b, s, r) w') w.
Proof.
  intros Hat. pose proof (at_kb_ctl _ _ _ _ _ _ Hat) as (Hb & _).
  apply wp_bind. destruct (tx (kb_of w kbId)) as [s0|] eqn:Etx.
  { unfold wp at 1. rewrite db_begin_open by (by rewrite Etx). done. }
  simpl in Hb. subst b.
  unfold wp at 1. rewrite db_begin_closed by done. cbn [fst snd].
  pose proof (in_block_begin kbId w) as Hblock.
  assert (Hmeta : db_of (with_kb kbId (fun k => {| meta := meta k; tx := Some (meta k);
                                                  blobs := blobs k |}) w) kbId
                  = db_of w kbId).
  { unfold db_of. by rewrite kb_of_with_kb_eq. }
  revert Hblock Hmeta.
  generalize (with_kb kbId (fun k => {| meta := meta k; tx := Some (meta k);
                                       blobs := blobs k |}) w).
  intros w1 Hblock Hmeta.
  assert (Hcatch : forall e w2, in_block kbId w w2 ->
            wp (ignore_errors (db_rollback kbId);; throw e)
               (fun (_ : res unit) w' => at_kb kbId w0 (false, s, r) w') w2).
  { intros e w2 Hb2. apply wp_bind, wp_ignore_errors. unfold wp. simpl.
    by apply (block_rollback _ _ _ _ w). }
  apply wp_try_catch, wp_bind. unfold db_try. apply wp_bind, wp_gets.
  destruct (insert_job jobId sources (Z.of_nat (length files)) (now env) (db_of w1 kbId))
    as [t1|] eqn:Ej; [|apply wp_throw; cbn beta iota; by apply Hcatch].
  destruct (in_block_db_run kbId w w1 (fun _ => t1) Hblock) as [Hb1 Hdb1].
  unfold wp at 1. destruct (db_run kbId (fun _ => t1) w1) as [[[]|e] w2] eqn:E2;
    simpl in *; [|by apply Hcatch].
  apply wp_bind.
  eapply wp_mono; [apply (insert_items_block env kbId jobId (Z.of_nat (length files)) files
                            1%nat 0 w w2 Hb1)|].
  - rewrite Hdb1. rewrite Hmeta in Ej.
    apply (insert_job_mid jobId sources _ (now env)); [|done].
    destruct Hat as (HD & _). by destruct (HD kbId).
  - intros [[]|e] w3 [Hb3 Hm3]; [|by apply Hcatch].
    specialize (Hm3 eq_refl). simpl in Hm3.
    unfold wp. pose proof (block_commit kbId w0 s r w w3 jobId _ Hat Hb3 Hm3) as Hc.
    destruct (db_commit kbId w3) as [[[]|e] w4] eqn:E4; simpl in *; [done|].
    (* COMMIT fails only without a transaction; there is one *)
    exfalso. destruct Hb3 as (_ & Htx3 & _).
    unfold db_commit, mbind, M_bind, bind, gets in E4. simpl in E4.
    rewrite Htx3 in E4. done.
Qed.

(** *** The handlers *)

Lemma wp_bind_assoc {A B C} (m : M A) (f : A -> M B) (g : B -> M C) Q w :
  wp ((m ≫= f) ≫= g) Q w -> wp (m ≫= (fun x => f x ≫= g)) Q w.
Proof.
  unfold wp, mbind, M_bind, bind. destruct (m w) as [[a|e] w']; [|done].
  by destruct (f a w') as [[b|e] w''].
Qed.

Lemma settled_quiet {A} (m : M A) kbId w0 w :
  quiet m -> settled kbId w0 w -> settled kbId w0 (snd (m w)).
Proof. intros Hq (c & Hat & Hc). exists c. split; [by apply Hq|done]. Qed.

Lemma settled_at kbId w0 c w : at_kb kbId w0 c w -> ctl_ok c -> settled kbId w0 w.
Proof. intros. by exists c. Qed.

(** With no job recorded as running, no loop is suspended and no
    transaction is open. *)
Lemma ctl_ok_not_running b s : ctl_ok (b, s, None) -> b = false /\ s = None.
Proof.
  intros [H1 H2]. simpl in *.
  assert (s = None) as ->.
  { destruct s as [sl|]; [|done]. destruct H2 as [? Hn]; [by eexists|done]. }
  split; [|done]. destruct b; [|done].
  destruct (H1 eq_refl) as (sl & d & bl & Hs & _). done.
Qed.

Lemma maybe_start_job_at now kbId jobId w0 b s r w :
  at_kb kbId w0 (b, s, r) w -> ctl_ok (b, s, r) ->
  wp (running ← gets (fun w => runningByKb w !! kbId);
      (if running is None then start_job now kbId jobId else ret ());;
      sendJobUpdate kbId jobId)
     (fun _ w' => settled kbId w0 w') w.
Proof.
  intros Hat Hc. pose proof (at_kb_ctl _ _ _ _ _ _ Hat) as (_ & _ & Hr).
  apply wp_bind, wp_gets. rewrite Hr. apply wp_bind.
  assert (Hrest : forall (res : res unit) w1, settled kbId w0 w1 ->
            match res with
            | Ok _ => wp (sendJobUpdate kbId jobId) (fun _ w' => settled kbId w0 w') w1
            | Throw e => settled kbId w0 w1
            end).
  { intros [[]|e] w1 Hs; [|done]. unfold wp.
    by apply settled_quiet; [apply quiet_sendJobUpdate|]. }
  destruct r as [j|].
  - apply wp_ret. apply (Hrest (Ok ())). by apply (settled_at _ _ (b, s, Some j)).
  - destruct (ctl_ok_not_running _ _ Hc) as [-> ->].
    unfold wp at 1.
    pose proof (start_job_at now kbId jobId w0 None w Hat) as Hs.
    destruct (start_job now kbId jobId w) as [res w1]. by apply Hrest.
Qed.

Lemma handleImportFiles_at env kbId sources w0 c w :
  at_kb kbId w0 c w -> ctl_ok c ->
  settled kbId w0 (snd (handleImportFiles env kbId sources w)).
Proof.
  intros Hat Hc. destruct c as [[b s] r].
  change (wp (handleImportFiles env kbId sources) (fun _ w' => settled kbId w0 w') w).
  unfold handleImportFiles.
  destruct (String.eqb kbId ""); [by apply (settled_at _ _ (b, s, r))|].
  destruct (bool_decide (sources = [])); [by apply (settled_at _ _ (b, s, r))|].
  apply wp_bind.
  apply (wp_quiet _ kbId w0 (b, s, r)); [apply quiet_ensureKbDirs|done|].
  intros [[]|e] w1 Hat1; [|by apply (settled_at _ _ (b, s, r))].
  apply wp_bind.
  apply (wp_quiet _ kbId w0 (b, s, r)); [apply quiet_getDb|done|].
  intros [[]|e] w2 Hat2; [|by apply (settled_at _ _ (b, s, r))].
  cbv zeta.
  destruct (bool_decide (resolveImportFileList (collect env) sources = []));
    [by apply (settled_at _ _ (b, s, r))|].
  apply wp_bind_assoc, wp_bind.
  eapply wp_mono; [by apply (import_block_at env kbId _ sources _ w0 b s r)|].
  intros [[]|e] w3 Hat3; [|by apply (settled_at _ _ (b, s, r))].
  apply wp_bind_assoc, wp_bind_assoc, wp_bind.
  eapply wp_mono; [by apply (maybe_start_job_at _ _ _ w0 b s r)|].
  intros [[]|e] w4 Hs4; done.
Qed.

Lemma handleResumeJob_at env kbId jobId w0 c w :
  at_kb kbId w0 c w -> ctl_ok c ->
  settled kbId w0 (snd (handleResumeJob env kbId jobId w)).
Proof.
  intros Hat Hc. destruct c as [[b s] r].
  change (wp (handleResumeJob env kbId jobId) (fun _ w' => settled kbId w0 w') w).
  unfold handleResumeJob.
  destruct (String.eqb kbId "" || String.eqb jobId "");
    [by apply (settled_at _ _ (b, s, r))|].
  apply wp_bind.
  apply (wp_quiet _ kbId w0 (b, s, r)); [apply quiet_getDb|done|].
  intros [[]|e] w1 Hat1; [|by apply (settled_at _ _ (b, s, r))].
  apply wp_bind.
  apply (wp_quiet _ kbId w0 (b, s, r));
    [apply quiet_db_run; intros t; apply stmt_ok_resume_job|done|].
  intros [[]|e] w2 Hat2; [|by apply (settled_at _ _ (b, s, r))].
  apply wp_bind_assoc, wp_bind_assoc, wp_bind.
  eapply wp_mono; [by apply (maybe_start_job_at _ _ _ w0 b s r)|].
  intros [[]|e] w4 Hs4; done.
Qed.

Lemma quiet_handleListJobs env kbId : quiet (handleListJobs env kbId).
Proof.
  unfold handleListJobs. destruct (String.eqb kbId ""); [apply quiet_throw|].
  apply quiet_bind; [apply quiet_getDb|]. intros _.
  apply quiet_bind; [apply quiet_gets|]. intros t. apply quiet_ret.
Qed.

Lemma quiet_handlePauseJob env kbId jobId : quiet (handlePauseJob env kbId jobId).
Proof.
  unfold handlePauseJob. destruct (_ || _); [apply quiet_throw|].
  apply quiet_bind; [apply quiet_getDb|]. intros _.
  apply quiet_bind; [apply quiet_db_run; intros t; apply stmt_ok_pause_job|]. intros _.
  apply quiet_bind; [apply quiet_sendJobUpdate|]. intros _. apply quiet_ret.
Qed.

Lemma quiet_handleCancelJob env kbId jobId : quiet (handleCancelJob env kbId jobId).
Proof.
  unfold handleCancelJob. destruct (_ || _); [apply quiet_throw|].
  apply quiet_bind; [apply quiet_with_canceled|]. intros _.
  apply quiet_bind; [apply quiet_getDb|]. intros _.
  apply quiet_bind; [apply quiet_db_run; intros t; apply stmt_ok_cancel_job|]. intros _.
  apply quiet_bind; [apply quiet_db_run; intros t; apply stmt_ok_skip_open_items|].
  intros _.
  apply quiet_bind; [apply quiet_sendJobUpdate|]. intros _. apply quiet_ret.
Qed.

Lemma quiet_handleSearch env kbId query limit : quiet (handleSearch env kbId query limit).
Proof.
  unfold handleSearch. cbv zeta. destruct (String.eqb kbId ""); [apply quiet_throw|].
  destruct (bool_decide _); [apply quiet_ret|].
  apply quiet_bind; [apply quiet_getDb|]. intros _.
  apply quiet_bind; [apply quiet_gets|]. intros t. apply quiet_ret.
Qed.

Lemma quiet_handleGetStats env kbId : quiet (handleGetStats env kbId).
Proof.
  unfold handleGetStats. destruct (String.eqb kbId ""); [apply quiet_throw|].
  apply quiet_bind; [apply quiet_getDb|]. intros _.
  apply quiet_bind; [apply quiet_gets|]. intros t. apply quiet_ret.
Qed.

Section WithNode.
Variable node : NodeApi.
Variable USER_DATA_PATH : string.

Lemma quiet_handleEnsureInitialized env kbId :
  quiet (handleEnsureInitialized node USER_DATA_PATH env kbId).
Proof.
  unfold handleEnsureInitialized. destruct (String.eqb kbId ""); [apply quiet_throw|].
  apply quiet_bind; [apply quiet_ensureKbDirs|]. intros _.
  apply quiet_bind; [apply quiet_getDb|]. intros _. apply quiet_ret.
Qed.

(** The transaction of [kb.createNote] is closed again when the handler
    returns; it adds no job and no item. *)
Lemma handleCreateNote_at env kbId title content w0 c w :
  at_kb kbId w0 c w -> ctl_ok c ->
  settled kbId w0 (snd (handleCreateNote node env kbId title content w)).
Proof.
  intros Hat Hc. destruct c as [[b s] r].
  change (wp (handleCreateNote node env kbId title content)
            (fun _ w' => settled kbId w0 w') w).
  unfold handleCreateNote. cbv zeta.
  destruct (String.eqb kbId ""); [by apply (settled_at _ _ (b, s, r))|].
  destruct (bool_decide _); [by apply (settled_at _ _ (b, s, r))|].
  apply wp_bind.
  apply (wp_quiet _ kbId w0 (b, s, r)); [apply quiet_getDb|done|].
  intros [[]|e] w1 Hat1; [|by apply (settled_at _ _ (b, s, r))].
  apply wp_bind. unfold wp at 1.
  destruct b.
  { pose proof (at_kb_ctl _ _ _ _ _ _ Hat1) as (Hb & _).
    apply bool_decide_eq_true in Hb. rewrite db_begin_open by done. simpl.
    by apply (settled_at _ _ (true, s, r)). }
  destruct (at_db_begin _ _ _ _ _ Hat1) as [Hok Hat2].
  destruct (db_begin kbId w1) as [res w2]. simpl in Hok, Hat2. subst res.
  cbn [fst snd].
  assert (Hcatch : forall b' e w3, at_kb kbId w0 (b', s, r) w3 ->
            wp (ignore_errors (db_rollback kbId);; throw e)
               (fun (res : res unit) w' =>
                  match res with
                  | Ok _ => wp (ret (VDocumentId (uuid env 0)))
                              (fun _ w'' => settled kbId w0 w'') w'
                  | Throw _ => settled kbId w0 w'
                  end) w3).
  { intros b' e w3 H3. apply wp_bind, wp_ignore_errors. unfold wp. simpl.
    apply (settled_at _ _ (false, s, r)); [by apply (at_db_rollback _ _ b')|].
    destruct Hc as [_ Hc2]. split; [done|exact Hc2]. }
  apply wp_bind, wp_try_catch, wp_bind.
  apply (wp_quiet _ kbId w0 (true, s, r)); [apply quiet_insert_document|done|].
  intros [[]|e] w3 Hat3; [|by apply (Hcatch true)].
  apply wp_bind.
  apply (wp_quiet _ kbId w0 (true, s, r)); [apply quiet_insert_note|done|].
  intros [[]|e] w4 Hat4; [|by apply (Hcatch true)].
  apply wp_bind.
  apply (wp_quiet _ kbId w0 (true, s, r)); [|done|].
  { destruct (Chunker.push _ _ _ _) as [[parts carry]|]; [|apply quiet_throw].
    apply quiet_bind; [apply quiet_insert_parts|]. intros idx.
    destruct (fst (Chunker.flush carry)); [|apply quiet_ret].
    apply quiet_bind; [apply quiet_insert_parts|]. intros _. apply quiet_ret. }
  intros [[]|e] w5 Hat5; [|by apply (Hcatch true)].
  unfold wp at 1. pose proof (at_db_commit _ _ _ _ _ _ Hat5) as Hat6.
  destruct (db_commit kbId w5) as [[[]|e] w6]; simpl in *.
  - apply (settled_at _ _ (false, s, r)); [done|].
    destruct Hc as [_ Hc2]. split; [done|exact Hc2].
  - by apply (Hcatch false).
Qed.

Lemma handle_at env req w0 c w :
  at_kb (request_kb req) w0 c w -> ctl_ok c ->
  settled (request_kb req) w0 (snd (handle node USER_DATA_PATH env req w)).
Proof.
  intros Hat Hc. destruct req; simpl in *.
  - apply settled_quiet; [apply quiet_handleEnsureInitialized|by exists c].
  - by apply (handleImportFiles_at _ _ _ _ c).
  - apply settled_quiet; [apply quiet_handleListJobs|by exists c].
  - apply settled_quiet; [apply quiet_handlePauseJob|by exists c].
  - by apply (handleResumeJob_at _ _ _ _ c).
  - apply settled_quiet; [apply quiet_handleCancelJob|by exists c].
  - apply settled_quiet; [apply quiet_handleSearch|by exists c].
  - by apply (handleCreateNote_at _ _ _ _ _ c).
  - apply settled_quiet; [apply quiet_handleGetStats|by exists c].
Qed.

Lemma serve_at id env req w0 c w :
  at_kb (request_kb req) w0 c w -> ctl_ok c ->
  settled (request_kb req) w0 (snd (serve node USER_DATA_PATH id env req w)).
Proof.
  intros Hat Hc. unfold serve. pose proof (handle_at env req w0 c w Hat Hc) as H.
  destruct (handle node USER_DATA_PATH env req w) as [[v|e] w1]; simpl in H;
    by apply settled_quiet; [apply quiet_send|].
Qed.

(** *** The worker as a machine *)

Lemma settled_Inv kbId w w' : Inv w -> settled kbId w w' -> Inv w' /\ W w w'.
Proof.
  intros [HD Hctl] (c & (HD' & HW & Ho & Hc) & Hok). split; [|done].
  split; [done|]. intros kb. destruct (decide (kb = kbId)) as [->|Hne].
  - by rewrite Hc.
  - rewrite Ho by done. apply Hctl.
Qed.

Lemma kb_of_restart w kb :
  kb_of (restart w) kb
  = {| meta := committed (kb_of w kb); tx := None; blobs := blobs (kb_of w kb) |}.
Proof.
  unfold kb_of, restart. simpl. rewrite lookup_fmap.
  by destruct (disk w !! kb).
Qed.

Lemma restart_Inv w : Inv w -> Inv (restart w) /\ W w (restart w).
Proof.
  intros [HD Hctl]. split; [split|].
  - intros kb. rewrite kb_of_restart. destruct (HD kb) as [Hm Hs].
    split; [|done]. simpl. unfold committed.
    destruct (tx (kb_of w kb)) as [s|] eqn:E; [by destruct (Hs s)|done].
  - intros kb. unfold ctl. rewrite kb_of_restart. simpl. rewrite !lookup_empty.
    split; simpl; [done|]. intros [? Hn]. done.
  - intros kb. unfold db_of. rewrite kb_of_restart. simpl. destruct (HD kb) as [Hm Hs].
    unfold committed. destruct (tx (kb_of w kb)) as [s|] eqn:E; [|apply progress_le_refl].
    destruct (Hs s eq_refl) as [_ Hf]. by apply jobs_frame_progress_le, jobs_frame_sym.
Qed.

Lemma Inv_suspended w kbId sl :
  Inv w -> suspended w !! kbId = Some sl ->
  exists b r, at_kb kbId w (b, Some sl, r) w /\ is_Some r
              /\ (b = true -> exists d bl, sl_phase sl = AwaitStream d bl).
Proof.
  intros [HD Hctl] Hs. specialize (Hctl kbId).
  pose proof (at_kb_start kbId w HD) as Hat.
  unfold ctl in Hat, Hctl. rewrite Hs in Hat, Hctl.
  destruct Hctl as [H1 H2]. simpl in H1, H2.
  eexists _, _. split; [exact Hat|]. split; [apply H2; by eexists|].
  intros Hb. destruct (H1 Hb) as (sl' & d & bl & [= <-] & Hp). eauto.
Qed.

Lemma step_Inv ev w :
  Inv w -> Inv (step node USER_DATA_PATH ev w) /\ W w (step node USER_DATA_PATH ev w).
Proof.
  intros HI. pose proof HI as [HD Hctl].
  assert (Hsame : Inv w /\ W w w) by (split; [done|apply W_refl]).
  destruct ev as [id req env|kbId st documentId now|kbId out chunkIds now|kbId now|]; simpl.
  - apply (settled_Inv (request_kb req)); [done|].
    apply (serve_at _ _ _ _ (ctl w (request_kb req))); [by apply at_kb_start|apply Hctl].
  - destruct (suspended w !! kbId) as [sl|] eqn:Es; [|done].
    destruct (sl_phase sl) eqn:Ep; try done.
    destruct (Inv_suspended w kbId sl HI Es) as (b & r & Hat & Hr & Hb).
    assert (b = false) as ->.
    { destruct b; [|done]. destruct (Hb eq_refl) as (d & bl & Hp). congruence. }
    apply (settled_Inv kbId); [done|].
    apply (continue_loop_at _ _ _ _ _ false (Some sl) r); [done|done|].
    intros w1 Hat1. by apply importOneFile_on_stat_at.
  - destruct (suspended w !! kbId) as [sl|] eqn:Es; [|done].
    destruct (sl_phase sl) eqn:Ep; try done.
    destruct (Inv_suspended w kbId sl HI Es) as (b & r & Hat & Hr & Hb).
    apply (settled_Inv kbId); [done|].
    apply (continue_loop_at _ _ _ _ _ b (Some sl) r); [done|done|].
    intros w1 Hat1. by apply (importOneFile_on_stream_at _ _ _ b).
  - destruct (suspended w !! kbId) as [sl|] eqn:Es; [|done].
    destruct (sl_phase sl) eqn:Ep; try done.
    destruct (Inv_suspended w kbId sl HI Es) as (b & r & Hat & Hr & Hb).
    assert (b = false) as ->.
    { destruct b; [|done]. destruct (Hb eq_refl) as (d & bl & Hp). congruence. }
    apply (settled_Inv kbId); [done|].
    apply (continue_loop_at _ _ _ _ _ false (Some sl) r); [done|done|].
    intros w1 Hat1. by apply importOneFile_on_rm_at.
  - by apply restart_Inv.
Qed.

Lemma Inv_initial : Inv initial_worker.
Proof.
  split.
  - intros kb. unfold kb_of, initial_worker. simpl. rewrite lookup_empty. simpl.
    apply kb_inv_empty.
  - intros kb. unfold ctl, kb_of, initial_worker. simpl. rewrite !lookup_empty. simpl.
    split; simpl; [done|]. intros [? Hn]. done.
Qed.

Lemma run_Inv evs w :
  Inv w -> Inv (run node USER_DATA_PATH evs w) /\ W w (run node USER_DATA_PATH evs w).
Proof.
  revert w. induction evs as [|ev evs IH]; intros w HI; simpl.
  - split; [done|apply W_refl].
  - destruct (step_Inv ev w HI) as [H1 H2].
    destruct (IH _ H1) as [H3 H4]. split; [done|]. by eapply W_trans.
Qed.

Lemma reachable_Inv w : reachable node USER_DATA_PATH w -> Inv w.
Proof. intros [evs ->]. apply run_Inv, Inv_initial. Qed.

Lemma count_terminal_le_items jobId t : count_terminal jobId t <= count_items jobId t.
Proof.
  unfold count_terminal, count_items.
  induction (job_items t) as [|i l IH]; simpl; [lia|].
  destruct (String.eqb (item_job_id i) jobId); simpl; [|lia].
  destruct (item_terminal i); simpl; lia.
Qed.

Lemma tables_ok_bounded t jobId j :
  tables_ok t -> find_job jobId t = Some j ->
  0 <= progress_current j <= progress_total j.
Proof.
  intros [_ _ H3] Hf. apply find_job_In in Hf as [Hin _].
  rewrite Forall_forall in H3. apply list_elem_of_In in Hin.
  destruct (H3 _ Hin) as [Hp Hc].
  pose proof (count_terminal_le_items (job_id j) t). lia.
Qed.

End WithNode.

(** C4, counterexample: job "A" is cancelled while its only file is
    being looked up; the lookup then fails, the loop records the item
    as failed and counts 1 finished item of 1. The job is 'canceled', not
    'done', and its progress counter equals its total. *)
Lemma C4_canceled_job_with_full_progress :
  reachable Sample.posix_ascii "/data" Sample.worker_canceled_in_flight
  /\ ~ progress_as_specified Sample.worker_canceled_in_flight.
Proof.
  split; [by exists Sample.cancel_in_flight_trace|].
  intros H.
  destruct (find_job "A" (db_of Sample.worker_canceled_in_flight "kb")) as [j|] eqn:E;
    [|vm_compute in E; discriminate E].
  destruct (H "kb" "A" j E) as [_ [Hd _]].
  assert (Hj : Some (job_status j, progress_current j, progress_total j)
               = Some (JobCanceled, 1, 1)).
  { change (Some (job_status j, progress_current j, progress_total j))
      with ((fun j => (job_status j, progress_current j, progress_total j)) <$> Some j).
    rewrite <- E. by vm_compute. }
  injection Hj as Hs Hc Ht. rewrite Hs in Hd. rewrite Hc, Ht in Hd.
  specialize (Hd eq_refl). discriminate Hd.
Qed.

(** The other direction fails as well: a job cancelled with its item
    still open, whose worker process is started again and which is then
    resumed, is marked 'done' with no item counted. *)
Example done_job_without_progress :
  (fun j => (job_status j, progress_current j, progress_total j))
    <$> find_job "A" (db_of Sample.worker_done_unfinished "kb")
  = Some (JobDone, 0, 1).
Proof. by vm_compute. Qed.

End ProgressFacts.

(* ------------------------------------------------------------------ *)
(** ** The nesting of [processImportJob] is bounded                    *)
(* ------------------------------------------------------------------ *)

Module FuelFacts.
Import Js Kb Ingest Scheduler Handlers Progress WpFacts OpenFacts ImportFacts.

Lemma filter_length_map_bound {A} (p q : A -> bool) (f : A -> A) (l : list A) :
  (forall x, p (f x) = true -> q x = true) ->
  (length (List.filter p (map f l)) <= length (List.filter q l))%nat.
Proof.
  intros H. induction l as [|x l IH]; simpl; [lia|].
  specialize (H x). destruct (p (f x)); simpl.
  - rewrite H by done. simpl. lia.
  - destruct (q x); simpl; lia.
Qed.

Lemma filter_length_lt {A} (p q : A -> bool) (l : list A) (x : A) :
  In x l -> p x = true -> q x = false ->
  (length (List.filter (fun y => p y && q y) l) < length (List.filter p l))%nat.
Proof.
  intros Hin Hp Hq.
  assert (Hle : forall l', (length (List.filter (fun y => p y && q y) l')
                            <= length (List.filter p l'))%nat).
  { induction l' as [|a l' IH]; simpl; [lia|].
    destruct (p a); simpl; [|lia]. destruct (q a); simpl; lia. }
  induction l as [|a l IH]; simpl; [done|].
  destruct Hin as [->|Hin].
  - rewrite Hp, Hq. simpl. specialize (Hle l). lia.
  - specialize (IH Hin). destruct (p a); simpl; [|lia]. destruct (q a); simpl; lia.
Qed.

Lemma pending_count_update cond (set : job -> job) t :
  (forall j, cond j = true -> job_has JobPending (set j) = true ->
             job_has JobPending j = true) ->
  (pending_count (with_jobs (update_where cond set) t) <= pending_count t)%nat.
Proof.
  intros H. unfold pending_count, with_jobs, update_where. simpl.
  apply filter_length_map_bound. intros j. destruct (cond j) eqn:E; [by apply H|done].
Qed.

Lemma pending_count_mark_processing jobId now t :
  (pending_count (mark_processing jobId now t) <= pending_others jobId t)%nat.
Proof.
  unfold pending_count, pending_others, mark_processing, with_jobs, update_where. simpl.
  apply filter_length_map_bound. intros j. destruct (is_job jobId j); [done|].
  intros ->. done.
Qed.

Lemma pending_count_mark_done jobId now t :
  (pending_count (mark_done jobId now t) <= pending_count t)%nat.
Proof. apply pending_count_update. intros j _. done. Qed.

Lemma pending_count_mark_failed jobId msg now t :
  (pending_count (mark_failed jobId msg now t) <= pending_count t)%nat.
Proof. apply pending_count_update. intros j _. done. Qed.

Lemma pending_count_recover now t :
  (pending_count (recover now (snd (migrate_tables now t))) <= pending_count t)%nat.
Proof.
  destruct (migrate_tables_ok now t) as (_ & Hj & _).
  unfold recover. simpl.
  change (pending_count (recover_items now ?x)) with (pending_count x).
  etrans; [apply pending_count_update|].
  - intros j _. done.
  - unfold pending_count. by rewrite Hj.
Qed.

Lemma pending_others_recover jobId now t :
  (pending_others jobId (recover now (snd (migrate_tables now t)))
   <= pending_others jobId t)%nat.
Proof.
  destruct (migrate_tables_ok now t) as (_ & Hj & _).
  unfold recover. simpl.
  change (pending_others jobId (recover_items now ?x)) with (pending_others jobId x).
  unfold pending_others, recover_jobs, with_jobs, update_where. simpl. rewrite Hj.
  apply filter_length_map_bound. intros j.
  destruct (job_has JobProcessing j) eqn:E; [done|done].
Qed.

Lemma pending_others_le jobId t : (pending_others jobId t <= length (jobs t))%nat.
Proof.
  unfold pending_others. induction (jobs t) as [|j l IH]; simpl; [lia|].
  destruct (_ && _); simpl; lia.
Qed.

(** The job that is scheduled next is pending: without it there are
    fewer pending jobs. *)
Lemma next_pending_job_others t next :
  next_pending_job t = Some next ->
  (pending_others (job_id next) t < pending_count t)%nat.
Proof.
  unfold next_pending_job. intros H. apply ProgressFacts.oldest_In in H.
  apply filter_In in H as [Hin Hp]. apply andb_true_iff in Hp as [_ Hp].
  unfold pending_others, pending_count.
  apply (filter_length_lt (job_has JobPending) (fun j => negb (is_job (job_id next) j))
           (jobs t) next); [done|done|].
  unfold is_job. by rewrite String.eqb_refl.
Qed.

(** *** Code that adds no pending job *)

Lemma preserves_ret {A} P (a : A) : preserves P (ret a).
Proof. by intros w H. Qed.

Lemma preserves_gets {A} P (f : worker -> A) : preserves P (gets f).
Proof. by intros w H. Qed.

Lemma preserves_bind {A B} P (m : M A) (k : A -> M B) :
  preserves P m -> (forall a, preserves P (k a)) -> preserves P (m ≫= k).
Proof.
  intros Hm Hk w H. specialize (Hm w H). unfold mbind, M_bind, bind.
  destruct (m w) as [[a|e] w']; simpl in *; [by apply Hk|done].
Qed.

Lemma db_of_db_run kbId f w : db_of (snd (db_run kbId f w)) kbId = f (db_of w kbId).
Proof. unfold db_run, modify, db_of. simpl. by rewrite kb_of_with_kb_eq. Qed.

Lemma db_of_getDb now kbId w :
  db_of (snd (getDb now kbId w)) kbId = db_of w kbId
  \/ db_of (snd (getDb now kbId w)) kbId
     = recover now (snd (migrate_tables now (db_of w kbId))).
Proof.
  unfold db_of. rewrite kb_of_getDb. case_bool_decide; [by right|by left].
Qed.

Lemma preserves_db_run kbId n f :
  (forall t, (pending_count (f t) <= pending_count t)%nat) ->
  preserves (pending_le kbId n) (db_run kbId f).
Proof.
  intros Hf w H. unfold pending_le in *. rewrite db_of_db_run. specialize (Hf (db_of w kbId)).
  lia.
Qed.

Lemma preserves_getDb kbId n now : preserves (pending_le kbId n) (getDb now kbId).
Proof.
  intros w H. unfold pending_le in *.
  destruct (db_of_getDb now kbId w) as [-> | ->]; [done|].
  pose proof (pending_count_recover now (db_of w kbId)). lia.
Qed.

Lemma preserves_sendJobUpdate kbId n jobId :
  preserves (pending_le kbId n) (sendJobUpdate kbId jobId).
Proof. by intros w H. Qed.

Lemma preserves_loop_top kbId n now jobId :
  preserves (pending_le kbId n) (loop_top now kbId jobId).
Proof.
  unfold loop_top. apply preserves_bind; [apply preserves_gets|]. intros canceled.
  destruct canceled; [apply preserves_ret|].
  apply preserves_bind; [apply preserves_gets|]. intros t.
  assert (Htake : preserves (pending_le kbId n)
            (match next_pending_item jobId t with
             | None =>
                 db_run kbId (mark_done jobId now);;
                 sendJobUpdate kbId jobId;;
                 ret Exited
             | Some next =>
                 db_run kbId (mark_item_processing (item_id next) now);;
                 getDb now kbId;;
                 modify (with_suspended (fun s =>
                   <[kbId := {| sl_job := jobId; sl_item := item_id next;
                                sl_source := item_source_path next;
                                sl_phase := AwaitStat |}]> s));;
                 ret Suspended
             end)).
  { destruct (next_pending_item jobId t) as [next|].
    - apply preserves_bind; [by apply preserves_db_run|]. intros _.
      apply preserves_bind; [apply preserves_getDb|]. intros _.
      apply preserves_bind; [by intros w H|]. intros _. apply preserves_ret.
    - apply preserves_bind;
        [apply preserves_db_run; intros t'; apply pending_count_mark_done|]. intros _.
      apply preserves_bind; [apply preserves_sendJobUpdate|]. intros _.
      apply preserves_ret. }
  destruct (job_status <$> find_job jobId t) as [[]|]; try apply preserves_ret; exact Htake.
Qed.

(** *** More fuel changes nothing *)

Lemma bind_ext_at {A B} (m : M A) (k k' : A -> M B) w :
  (forall a, k a (snd (m w)) = k' a (snd (m w))) -> (m ≫= k) w = (m ≫= k') w.
Proof.
  intros H. unfold mbind, M_bind, bind. destruct (m w) as [[a|e] w']; [apply H|done].
Qed.

Lemma schedule_ext (start start' : string -> M unit) kbId w :
  (forall next, next_pending_job (db_of w kbId) = Some next ->
     start (job_id next) w = start' (job_id next) w) ->
  scheduleNextPendingJob start kbId w = scheduleNextPendingJob start' kbId w.
Proof.
  intros H. unfold scheduleNextPendingJob, mbind, M_bind, bind, gets. simpl.
  destruct (has_paused (db_of w kbId)); [done|].
  destruct (next_pending_job (db_of w kbId)) as [next|] eqn:E; [|done].
  destruct (String.eqb (job_id next) ""); [done|].
  unfold ignore_errors. by rewrite H.
Qed.

Lemma loop_segment_ext (start start' : string -> M unit) now kbId jobId body n w :
  preserves (pending_le kbId n) body ->
  pending_le kbId n w ->
  (forall w' next, pending_le kbId n w' ->
     next_pending_job (db_of w' kbId) = Some next ->
     start (job_id next) w' = start' (job_id next) w') ->
  loop_segment start now kbId jobId body w = loop_segment start' now kbId jobId body w.
Proof.
  intros Hbody Hw H. unfold loop_segment. specialize (Hbody w Hw).
  destruct (body w) as [[[]|e] w1]; simpl in Hbody; [done| |].
  - apply bind_ext_at. intros []. apply schedule_ext. intros next. by apply H.
  - apply bind_ext_at. intros []. apply bind_ext_at. intros [].
    apply bind_ext_at. intros []. apply schedule_ext. intros next. apply H.
    unfold pending_le in *.
    change (db_of (snd (modify (with_running ?f) ?x)) kbId) with (db_of x kbId).
    change (db_of (snd (sendJobUpdate kbId jobId ?x)) kbId) with (db_of x kbId).
    rewrite db_of_db_run.
    pose proof (pending_count_mark_failed jobId e now (db_of w1 kbId)). lia.
Qed.

(** Fuel beyond the number of pending jobs is never used: with any two
    such amounts [processImportJob] does the same. *)
Lemma processImportJob_fuel fuel :
  forall fuel' now kbId jobId w,
  (pending_others jobId (db_of w kbId) < fuel)%nat ->
  (pending_others jobId (db_of w kbId) < fuel')%nat ->
  processImportJob fuel now kbId jobId w = processImportJob fuel' now kbId jobId w.
Proof.
  induction fuel as [|fuel IH]; intros fuel' now kbId jobId w Hf Hf'; [lia|].
  destruct fuel' as [|fuel']; [lia|]. cbn [processImportJob].
  apply bind_ext_at. intros []. apply bind_ext_at. intros running.
  destruct (other_job_running running jobId); [done|].
  apply bind_ext_at. intros []. apply bind_ext_at. intros []. apply bind_ext_at. intros [].
  set (n := pending_others jobId (db_of w kbId)) in *.
  apply (loop_segment_ext _ _ _ _ _ _ n).
  - apply preserves_loop_top.
  - unfold pending_le.
    change (db_of (snd (sendJobUpdate kbId jobId ?x)) kbId) with (db_of x kbId).
    rewrite db_of_db_run.
    change (db_of (snd (modify (with_running ?f) ?x)) kbId) with (db_of x kbId).
    change (snd (gets ?f ?x)) with x.
    etrans; [apply pending_count_mark_processing|].
    destruct (db_of_getDb now kbId w) as [-> | ->]; [done|].
    apply pending_others_recover.
  - intros w' next Hle Hnext. unfold pending_le in Hle.
    pose proof (next_pending_job_others _ _ Hnext).
    apply IH; lia.
Qed.

(** [void processImportJob(kbId, jobId)] never runs out of fuel: any
    larger amount gives the same worker. *)
Theorem start_job_enough_fuel now kbId jobId w (more : nat) :
  start_job now kbId jobId w
  = ignore_errors (processImportJob (fuel_for w kbId + more) now kbId jobId) w.
Proof.
  unfold start_job, mbind, M_bind, bind, gets, ignore_errors. cbn [fst snd].
  pose proof (pending_others_le jobId (db_of w kbId)).
  rewrite (processImportJob_fuel (fuel_for w kbId) (fuel_for w kbId + more));
    unfold fuel_for; [done|lia|lia].
Qed.

End FuelFacts.

(* ------------------------------------------------------------------ *)
(** ** The chunker beyond the sizes of its two call sites              *)
(* ------------------------------------------------------------------ *)

Module ChunkerMore.
Import Chunker ChunkerFacts.

Lemma pushes_count chunkSize overlap s chunks carry :
  (overlap < chunkSize)%nat ->
  pushes chunkSize overlap s chunks carry ->
  length chunks
  = if (length s <? chunkSize)%nat then 0%nat
    else S ((length s - chunkSize) / (chunkSize - overlap)).
Proof.
  intros Hlt H. induction H as [s Hs|s chunks carry Hs H IH].
  - apply Nat.ltb_lt in Hs. by rewrite Hs.
  - pose proof Hs as Hs'. apply Nat.ltb_ge in Hs'. rewrite Hs'. simpl. f_equal.
    rewrite IH, length_drop.
    destruct (length s - (chunkSize - overlap) <? chunkSize)%nat eqn:E.
    + apply Nat.ltb_lt in E. symmetry. apply Nat.div_small. lia.
    + apply Nat.ltb_ge in E.
      replace (length s - chunkSize)%nat
        with ((length s - (chunkSize - overlap) - chunkSize) + 1 * (chunkSize - overlap))%nat
        by lia.
      rewrite Nat.div_add by lia. lia.
Qed.

Lemma push_pushes chunkSize overlap carry text :
  (overlap < chunkSize)%nat ->
  exists chunks carry',
    push chunkSize overlap carry text = Some (chunks, carry')
    /\ pushes chunkSize overlap (carry ++ text) chunks carry'.
Proof.
  intros Hlt. unfold push.
  destruct (push_loop_terminates chunkSize overlap (length (carry ++ text)) (carry ++ text))
    as (chunks & carry' & E); [done|lia|].
  exists chunks, carry'. split; [done|]. by eapply push_loop_pushes.
Qed.

(** X1: with an overlap smaller than the chunk size, [push] returns, and
    it returns as many chunks as windows of [chunkSize] code units fit
    into the carried and the new text at a stride of [chunkSize - overlap]:
    none when there are fewer than [chunkSize] code units, else
    1 + (length - chunkSize) / (chunkSize - overlap); what it keeps as
    carry is the text from the next window start on. *)
Theorem X1_push_chunk_count (chunkSize overlap : nat) (carry text : jsstring) :
  (overlap < chunkSize)%nat ->
  exists chunks carry',
    push chunkSize overlap carry text = Some (chunks, carry')
    /\ length chunks
       = (if (length (carry ++ text) <? chunkSize)%nat then 0
          else S ((length (carry ++ text) - chunkSize) / (chunkSize - overlap)))%nat
    /\ carry' = drop (length chunks * (chunkSize - overlap)) (carry ++ text)
    /\ (length carry' < chunkSize)%nat.
Proof.
  intros Hlt. destruct (push_pushes chunkSize overlap carry text Hlt) as (chunks & carry' & E & H).
  destruct (pushes_windows _ _ _ _ _ H) as [_ Hw].
  destruct (pushes_lengths _ _ _ _ _ H) as [_ Hl].
  exists chunks, carry'. split; [done|]. split; [by apply (pushes_count _ _ _ _ carry')|]. done.
Qed.

Lemma X1_push_chunk_count_witness :
  exists chunks carry',
    push 4 1 (js "ab") (js "cdefghij") = Some (chunks, carry')
    /\ length chunks
       = (if (length (js "ab" ++ js "cdefghij") <? 4)%nat then 0
          else S ((length (js "ab" ++ js "cdefghij") - 4) / (4 - 1)))%nat
    /\ carry' = drop (length chunks * (4 - 1)) (js "ab" ++ js "cdefghij")
    /\ (length carry' < 4)%nat.
Proof. apply (X1_push_chunk_count 4 1 (js "ab") (js "cdefghij")). lia. Defined.

Lemma push_all_pushes chunkSize overlap pieces :
  (overlap < chunkSize)%nat ->
  forall carry, (length carry < chunkSize)%nat ->
  exists chunks carry',
    push_all chunkSize overlap carry pieces = Some (chunks, carry')
    /\ pushes chunkSize overlap (carry ++ concat pieces) chunks carry'.
Proof.
  intros Hlt. induction pieces as [|text pieces IH]; intros carry Hc; simpl.
  - exists [], carry. split; [done|]. rewrite app_nil_r. by constructor.
  - destruct (push_pushes chunkSize overlap carry text Hlt) as (c1 & r1 & -> & H1).
    destruct (IH r1) as (c2 & r2 & -> & H2); [by destruct (pushes_lengths _ _ _ _ _ H1)|].
    exists (c1 ++ c2), r2. split; [done|]. rewrite app_assoc.
    by eapply pushes_app.
Qed.

(** X2: the chunks of a text do not depend on how the text arrives: a
    fresh chunker that is pushed the pieces one after the other and then
    flushed returns the same chunks as one that is pushed the whole text
    at once. *)
Theorem X2_chunks_independent_of_pieces (chunkSize overlap : nat)
    (pieces : list jsstring) :
  (overlap < chunkSize)%nat ->
  chunk_pieces chunkSize overlap pieces = chunk_pieces chunkSize overlap [concat pieces].
Proof.
  intros Hlt. unfold chunk_pieces.
  destruct (push_all_pushes chunkSize overlap pieces Hlt []) as (c1 & r1 & -> & H1);
    [simpl; lia|].
  destruct (push_all_pushes chunkSize overlap [concat pieces] Hlt []) as (c2 & r2 & -> & H2);
    [simpl; lia|].
  simpl in H2. rewrite app_nil_r in H2.
  by destruct (pushes_deterministic _ _ _ _ _ _ _ H1 H2) as [-> ->].
Qed.

Lemma X2_chunks_independent_of_pieces_witness :
  chunk_pieces 4 1 [js "ab"; js "cdefg"; js "hij "]
  = chunk_pieces 4 1 [concat [js "ab"; js "cdefg"; js "hij "]].
Proof. apply (X2_chunks_independent_of_pieces 4 1). lia. Defined.

(** X3: with an overlap that is not smaller than the chunk size the
    loop of [push] never ends once the carry holds [chunkSize] code
    units: [Math.max(0, chunkSize - overlap)] is 0, so every turn emits a
    chunk and keeps the whole carry. No amount of fuel lets the model
    return. (Both call sites pass 2000 and 200.) *)
Theorem X3_push_hangs_without_stride (fuel chunkSize overlap : nat) (carry : jsstring) :
  (chunkSize <= overlap)%nat ->
  (chunkSize <= length carry)%nat ->
  push_loop fuel chunkSize overlap carry = None.
Proof.
  intros Ho H. induction fuel as [|fuel IH]; simpl.
  - apply Nat.ltb_ge in H. by rewrite H.
  - pose proof H as H'. apply Nat.ltb_ge in H'. rewrite H'.
    replace (chunkSize - overlap)%nat with 0%nat by lia.
    rewrite drop_0, IH. done.
Qed.

Lemma X3_push_hangs_without_stride_witness :
  push_loop 1000 3 5 (js "abcd") = None.
Proof. apply X3_push_hangs_without_stride; simpl; lia. Defined.

End ChunkerMore.

(* ------------------------------------------------------------------ *)
(** ** The file list of an import                                      *)
(* ------------------------------------------------------------------ *)

Module ListingFacts.
Import Kb Handlers Listing.

Lemma dedupe_elem seen files x :
  x ∈ dedupe seen files <-> x ∈ files /\ x ∉ seen.
Proof.
  revert seen. induction files as [|f files IH]; intros seen; simpl.
  - set_solver.
  - case_bool_decide as Hf.
    + rewrite IH. set_solver.
    + rewrite elem_of_cons, IH. destruct (decide (x = f)) as [->|Hne]; set_solver.
Qed.

Lemma dedupe_NoDup seen files : NoDup (dedupe seen files).
Proof.
  revert seen. induction files as [|f files IH]; intros seen; simpl; [constructor|].
  case_bool_decide as Hf; [apply IH|].
  constructor; [|apply IH]. rewrite dedupe_elem. set_solver.
Qed.




End ListingFacts.

(* ------------------------------------------------------------------ *)
(** ** Migration run twice                                             *)
(* ------------------------------------------------------------------ *)

Module MigrationMore.
Import Migration MigrationFacts OpenFacts.

Lemma fold_max_app (rows more : list migration_row) a :
  fold_left (fun acc x => Z.max acc (row_id x)) (rows ++ more) a
  = fold_left (fun acc x => Z.max acc (row_id x)) more
      (fold_left (fun acc x => Z.max acc (row_id x)) rows a).
Proof. apply fold_left_app. Qed.

Lemma max_recorded_id_app_ge (rows more : list migration_row) :
  rows <> [] -> max_recorded_id rows <= max_recorded_id (rows ++ more).
Proof.
  destruct rows as [|r rows]; [done|]. intros _. simpl. rewrite fold_max_app.
  apply fold_max_ge.
Qed.

Lemma filter_nil_Forall {A} (P : A -> Prop) `{!forall x, Decision (P x)} (l : list A) :
  Forall (fun x => ~ P x) l -> filter P l = [].
Proof.
  induction 1 as [|x l Hx _ IH]; [done|]. rewrite filter_cons. by rewrite decide_False.
Qed.

Lemma sort_by_id_nil l : sort_by_id l = [] -> l = [].
Proof.
  intros H. pose proof (sort_by_id_perm l) as Hp. rewrite H in Hp.
  by apply Permutation_nil_l in Hp.
Qed.

(** X5: migration is idempotent. After a run that succeeded, a second
    run (at any later time, with the same list of migrations) finds
    nothing pending: it succeeds and leaves the database as it is. *)
Theorem X5_migrate_twice {content} (exec : string -> content -> res content)
    (migrations : list KnowledgeMetaMigration) (now now' : Z)
    (db db' : metadb content) :
  migrateKnowledgeMetaDb exec migrations now db = (Ok (), db') ->
  migrateKnowledgeMetaDb exec migrations now' db' = (Ok (), db').
Proof.
  intros H. unfold migrateKnowledgeMetaDb in *. cbv zeta in *.
  set (mx := max_recorded_id (schema_migrations db)) in *.
  destruct (pending_migrations migrations mx) as [|p pending] eqn:Ep.
  { injection H as <-. fold mx. by rewrite Ep. }
  destruct (run_pending exec now (p :: pending) db) as [db1|e] eqn:Er; [|done].
  injection H as <-.
  pose proof (run_pending_rows exec now _ _ _ Er) as Hrows.
  set (mx' := max_recorded_id (schema_migrations db1)).
  assert (Hin : forall m, In m migrations -> mx < mig_id m -> mig_id m <= mx').
  { intros m Hm Hgt. pose proof (max_recorded_id_ge (schema_migrations db1)) as Hall.
    rewrite Forall_forall in Hall.
    apply (Hall (row_of now m)). rewrite Hrows. apply elem_of_app. right.
    apply list_elem_of_fmap. exists m. split; [done|].
    rewrite <- Ep. unfold pending_migrations. rewrite sort_by_id_perm.
    apply list_elem_of_filter. split; [done|]. by apply list_elem_of_In. }
  assert (Hp : In p migrations /\ mx < mig_id p).
  { assert (p ∈ pending_migrations migrations mx) as Hp by (rewrite Ep; left).
    unfold pending_migrations in Hp. rewrite sort_by_id_perm in Hp.
    apply list_elem_of_filter in Hp as [Hp1 Hp2]. by apply list_elem_of_In in Hp2. }
  assert (Hle : mx <= mx').
  { destruct (decide (schema_migrations db = [])) as [Hnil|Hnil].
    - destruct Hp as [Hp1 Hp2]. specialize (Hin p Hp1 Hp2).
      assert (mx = 0) by (unfold mx; by rewrite Hnil). lia.
    - unfold mx, mx'. rewrite Hrows. by apply max_recorded_id_app_ge. }
  assert (Hnone : pending_migrations migrations mx' = []).
  { unfold pending_migrations. rewrite filter_nil_Forall; [done|].
    apply Forall_forall. intros m Hm. apply list_elem_of_In in Hm.
    destruct (decide (mx < mig_id m)) as [Hgt|Hng]; [specialize (Hin m Hm Hgt)|]; lia. }
  by rewrite Hnone.
Qed.

Lemma X5_migrate_twice_witness :
  migrateKnowledgeMetaDb sample_exec [sample_first] 9
    (snd (migrateKnowledgeMetaDb sample_exec [sample_first] 7 empty_db))
  = (Ok (), snd (migrateKnowledgeMetaDb sample_exec [sample_first] 7 empty_db)).
Proof. apply (X5_migrate_twice sample_exec [sample_first] 7 9 empty_db). reflexivity. Defined.

End MigrationMore.

(* ------------------------------------------------------------------ *)
(** ** The pending calls of the client                                 *)
(* ------------------------------------------------------------------ *)

Module ClientFacts.
Import Js Kb Client ClientRuns.

Lemma settled_ids_settle id s c : settled_ids (settle id s c) = settled_ids c ++ [id].
Proof. unfold settled_ids, settle. simpl. by rewrite map_app. Qed.

Lemma client_ok_settle used id s c :
  client_ok used c -> id ∈ dom (pending c) -> client_ok used (settle id s c).
Proof.
  intros (H1 & H2 & H3) Hid. split; [|split].
  - rewrite settled_ids_settle. apply NoDup_app. split; [done|]. split; [|apply NoDup_singleton].
    intros x Hx Hx'. apply list_elem_of_singleton in Hx'. subst x. by apply (H2 id).
  - intros x Hx. rewrite settled_ids_settle. simpl in Hx.
    rewrite dom_delete_L in Hx. apply elem_of_difference in Hx as [Hx Hne].
    rewrite elem_of_app, list_elem_of_singleton. intros [Hs| ->]; [by apply (H2 x)|].
    apply Hne. by apply elem_of_singleton.
  - intros x. rewrite settled_ids_settle. simpl. rewrite dom_delete_L.
    rewrite elem_of_app, list_elem_of_singleton, elem_of_difference.
    intros [[Hx _]|[Hx| ->]]; apply H3; auto.
Qed.

Lemma pending_call_dom id c s : pending_call id c = Some s -> s ∈ dom (pending c).
Proof.
  unfold pending_call. destruct id; try done. case_bool_decide; [|done]. by intros [= <-].
Qed.

Lemma client_ok_step used ev c :
  client_ok used c ->
  (forall id, ev_call_id ev = Some id -> id ∉ used) ->
  client_ok (used ++ call_ids [ev]) (client_step ev c).
Proof.
  intros Hok Hfresh.
  assert (Hweak : forall c', client_ok used c' -> client_ok (used ++ call_ids [ev]) c').
  { intros c' (H1 & H2 & H3). split; [done|]. split; [done|].
    intros id Hid. apply elem_of_app. left. by apply H3. }
  destruct ev as [id method params|msg|id|]; simpl.
  - destruct Hok as (H1 & H2 & H3). specialize (Hfresh id eq_refl).
    split; [done|]. split.
    + simpl. intros x Hx. rewrite dom_insert_L in Hx.
      apply elem_of_union in Hx as [Hx|Hx]; [|by apply H2].
      apply elem_of_singleton in Hx. subst x. intros Hs. apply Hfresh, H3. by right.
    + simpl. intros x. rewrite dom_insert_L, elem_of_union, elem_of_singleton.
      unfold call_ids. simpl. rewrite elem_of_app, list_elem_of_singleton.
      intros [[->|Hx]|Hx]; [by right|left; apply H3; by left|left; apply H3; by right].
  - apply Hweak. destruct msg as [jid result|jid message|e k j]; [| |done].
    + destruct (pending_call jid c) as [s|] eqn:E; [|done].
      apply client_ok_settle; [done|by eapply pending_call_dom].
    + destruct (pending_call jid c) as [s|] eqn:E; [|done].
      apply client_ok_settle; [done|by eapply pending_call_dom].
  - apply Hweak. destruct (pending c !! id) as [method|] eqn:E; [|done].
    apply client_ok_settle; [done|]. apply elem_of_dom. by eexists.
  - apply Hweak. destruct Hok as (H1 & H2 & H3). split; [|split]; simpl.
    + unfold settled_ids. simpl. rewrite map_app, map_map. simpl.
      rewrite map_id. apply NoDup_app. split; [done|]. split; [|apply NoDup_elements].
      intros x Hx Hx'. apply elem_of_elements in Hx'. by apply (H2 x).
    + intros x Hx. rewrite dom_empty_L in Hx. set_solver.
    + intros x. unfold settled_ids. simpl. rewrite map_app, map_map. simpl.
      rewrite map_id, dom_empty_L, elem_of_app, elem_of_elements.
      intros [Hx|[Hx|Hx]]; [set_solver|apply H3; by right|apply H3; by left].
Qed.

Lemma client_ok_run evs : forall used c,
  client_ok used c ->
  NoDup (used ++ call_ids evs) ->
  client_ok (used ++ call_ids evs) (client_run evs c).
Proof.
  induction evs as [|ev evs IH]; intros used c Hok Hnd.
  - unfold call_ids. simpl. by rewrite app_nil_r.
  - assert (Hsplit : call_ids (ev :: evs) = call_ids [ev] ++ call_ids evs).
    { unfold call_ids. simpl. by destruct (ev_call_id ev). }
    rewrite Hsplit, app_assoc in *.
    change (client_run (ev :: evs) c) with (client_run evs (client_step ev c)).
    apply IH; [|done].
    apply client_ok_step; [done|]. intros id Hid Hused.
    apply NoDup_app in Hnd as (Hnd & _ & _). apply NoDup_app in Hnd as (_ & Hd & _).
    apply (Hd id Hused). unfold call_ids. simpl. rewrite Hid. by left.
Qed.

(** X6: when the ids drawn for the calls are distinct, the promise of
    every call is settled at most once, whatever responses, timer
    firings and disposals occur and in whatever order: a late response
    after a timeout, a timer after a response, a second disposal add no
    settlement. A call that is settled is no longer pending, and only
    ids of calls that were made are ever settled. *)
Theorem X6_call_settles_at_most_once (evs : list client_event) :
  NoDup (call_ids evs) ->
  NoDup (settled_ids (client_run evs new_client))
  /\ (forall id, id ∈ dom (pending (client_run evs new_client)) ->
        id ∉ settled_ids (client_run evs new_client))
  /\ (forall id, id ∈ settled_ids (client_run evs new_client) -> id ∈ call_ids evs).
Proof.
  intros Hnd.
  destruct (client_ok_run evs [] new_client) as (H1 & H2 & H3); [|done|].
  { split; [constructor|]. split; [set_solver|]. simpl. set_solver. }
  split; [done|]. split; [done|]. intros id Hid. apply (H3 id). by right.
Qed.

Lemma X6_call_settles_at_most_once_witness :
  NoDup (settled_ids (client_run
    [Call "a" "kb.search" JNull; TimerFired "a"; Message (MsgOk (JStr "a") VSuccess);
     Call "b" "kb.getStats" JNull; Dispose; Dispose] new_client)).
Proof.
  apply (X6_call_settles_at_most_once
    [Call "a" "kb.search" JNull; TimerFired "a"; Message (MsgOk (JStr "a") VSuccess);
     Call "b" "kb.getStats" JNull; Dispose; Dispose]).
  vm_compute. repeat constructor; set_solver.
Defined.

End ClientFacts.

(* ------------------------------------------------------------------ *)
(** ** Handles stay open; requests that are turned down                *)
(* ------------------------------------------------------------------ *)

Module RequestFacts.
Import Js Kb Ingest Scheduler Handlers Progress Requests WpFacts OpenFacts ImportFacts.

(** *** Code that keeps a property of the worker *)

Lemma keeps_ret {A} P (a : A) : preserves P (ret a).
Proof. by intros w H. Qed.

Lemma keeps_mret {A} P (a : A) : preserves P (mret a : M A).
Proof. by intros w H. Qed.

Lemma keeps_throw {A} P msg : preserves P (throw msg : M A).
Proof. by intros w H. Qed.

Lemma keeps_gets {A} P (f : worker -> A) : preserves P (gets f).
Proof. by intros w H. Qed.

Lemma keeps_bind {A B} P (m : M A) (k : A -> M B) :
  preserves P m -> (forall a, preserves P (k a)) -> preserves P (m ≫= k).
Proof.
  intros Hm Hk w H. specialize (Hm w H). unfold mbind, M_bind, bind.
  destruct (m w) as [[a|e] w']; simpl in *; [by apply Hk|done].
Qed.

Lemma keeps_try_catch {A} P (m : M A) h :
  preserves P m -> (forall e, preserves P (h e)) -> preserves P (try_catch m h).
Proof.
  intros Hm Hh w H. specialize (Hm w H). unfold try_catch.
  destruct (m w) as [[a|e] w']; simpl in *; [done|by apply Hh].
Qed.

Lemma keeps_ignore_errors {A} P (m : M A) : preserves P m -> preserves P (ignore_errors m).
Proof. intros Hm w H. unfold ignore_errors. simpl. by apply Hm. Qed.

Lemma keeps_modify P (f : worker -> worker) :
  (forall w, P w -> P (f w)) -> preserves P (modify f).
Proof. intros Hf w H. by apply Hf. Qed.

Section Keeps.
Variable P : worker -> Prop.
Hypothesis HP : cache_grows P.

Lemma keeps_same_cache (f : worker -> worker) :
  (forall w, dbCache (f w) = dbCache w) -> preserves P (modify f).
Proof. intros Hf. apply keeps_modify. intros w. apply HP. by rewrite Hf. Qed.

Lemma keeps_db_run kbId f : preserves P (db_run kbId f).
Proof. by apply keeps_same_cache. Qed.

Lemma keeps_db_try kbId f : preserves P (db_try kbId f).
Proof.
  unfold db_try. apply keeps_bind; [apply keeps_gets|]. intros t.
  destruct (f t); [apply keeps_db_run|apply keeps_throw].
Qed.

Lemma keeps_db_begin kbId : preserves P (db_begin kbId).
Proof.
  unfold db_begin. apply keeps_bind; [apply keeps_gets|]. intros k.
  destruct (tx k); [apply keeps_throw|by apply keeps_same_cache].
Qed.

Lemma keeps_db_commit kbId : preserves P (db_commit kbId).
Proof.
  unfold db_commit. apply keeps_bind; [apply keeps_gets|]. intros k.
  destruct (tx k); [by apply keeps_same_cache|apply keeps_throw].
Qed.

Lemma keeps_db_rollback kbId : preserves P (db_rollback kbId).
Proof.
  unfold db_rollback. apply keeps_bind; [apply keeps_gets|]. intros k.
  destruct (tx k); [by apply keeps_same_cache|apply keeps_throw].
Qed.

Lemma keeps_send msg : preserves P (send msg).
Proof. by apply keeps_same_cache. Qed.

Lemma keeps_sendJobUpdate kbId jobId : preserves P (sendJobUpdate kbId jobId).
Proof.
  unfold sendJobUpdate. apply keeps_bind; [apply keeps_gets|]. intros t. apply keeps_send.
Qed.

Lemma keeps_getDb now kbId : preserves P (getDb now kbId).
Proof.
  intros w H. destruct (decide (kbId ∈ dbCache w)) as [Hc|Hc].
  - by rewrite getDb_cached.
  - rewrite getDb_uncached by done. simpl. revert H. apply HP. simpl. set_solver.
Qed.

Lemma keeps_ensureKbDirs kbId : preserves P (ensureKbDirs kbId).
Proof. by apply keeps_same_cache. Qed.

Lemma keeps_insert_parts kbId documentId chunkIds now parts index :
  preserves P (insert_parts kbId documentId chunkIds now parts index).
Proof.
  revert index. induction parts as [|p parts IH]; intros index; simpl; [apply keeps_ret|].
  apply keeps_bind; [apply keeps_db_try|]. intros _. apply IH.
Qed.

Lemma keeps_insert_items env kbId jobId n files :
  preserves P (insert_items env kbId jobId n files).
Proof.
  revert n. induction files as [|f files IH]; intros n; simpl; [apply keeps_ret|].
  apply keeps_bind; [apply keeps_db_try|]. intros _. apply IH.
Qed.

Lemma keeps_loop_top now kbId jobId : preserves P (loop_top now kbId jobId).
Proof.
  unfold loop_top. apply keeps_bind; [apply keeps_gets|]. intros c.
  destruct c; [apply keeps_ret|].
  apply keeps_bind; [apply keeps_gets|]. intros t.
  assert (Htake : preserves P
            (match next_pending_item jobId t with
             | None =>
                 db_run kbId (mark_done jobId now);;
                 sendJobUpdate kbId jobId;;
                 ret Exited
             | Some next =>
                 db_run kbId (mark_item_processing (item_id next) now);;
                 getDb now kbId;;
                 modify (with_suspended (fun s =>
                   <[kbId := {| sl_job := jobId; sl_item := item_id next;
                                sl_source := item_source_path next;
                                sl_phase := AwaitStat |}]> s));;
                 ret Suspended
             end)).
  { destruct (next_pending_item jobId t) as [next|].
    - apply keeps_bind; [apply keeps_db_run|]. intros _.
      apply keeps_bind; [apply keeps_getDb|]. intros _.
      apply keeps_bind; [by apply keeps_same_cache|]. intros _. apply keeps_ret.
    - apply keeps_bind; [apply keeps_db_run|]. intros _.
      apply keeps_bind; [apply keeps_sendJobUpdate|]. intros _. apply keeps_ret. }
  destruct (job_status <$> find_job jobId t) as [[]|]; try apply keeps_ret; exact Htake.
Qed.

Lemma keeps_schedule (start : string -> M unit) kbId :
  (forall j, preserves P (start j)) -> preserves P (scheduleNextPendingJob start kbId).
Proof.
  intros Hs. unfold scheduleNextPendingJob. apply keeps_bind; [apply keeps_gets|]. intros t.
  destruct (has_paused t); [apply keeps_ret|].
  destruct (next_pending_job t) as [next|]; [|apply keeps_ret].
  destruct (String.eqb (job_id next) ""); [apply keeps_ret|].
  apply keeps_ignore_errors, Hs.
Qed.

Lemma keeps_loop_segment (start : string -> M unit) now kbId jobId (body : M loop_exit) :
  (forall j, preserves P (start j)) -> preserves P body ->
  preserves P (loop_segment start now kbId jobId body).
Proof.
  intros Hs Hb w H. specialize (Hb w H). unfold loop_segment.
  assert (Hfin : preserves P (modify (with_running (fun r => delete kbId r));;
                              scheduleNextPendingJob start kbId)).
  { apply keeps_bind; [by apply keeps_same_cache|]. intros _. by apply keeps_schedule. }
  destruct (body w) as [[[]|e] w1]; simpl in Hb; [done|by apply Hfin|].
  revert Hb. generalize w1.
  change (preserves P (db_run kbId (mark_failed jobId e now);;
                       sendJobUpdate kbId jobId;;
                       modify (with_running (fun r => delete kbId r));;
                       scheduleNextPendingJob start kbId)).
  apply keeps_bind; [apply keeps_db_run|]. intros _.
  apply keeps_bind; [apply keeps_sendJobUpdate|]. intros _. exact Hfin.
Qed.

Lemma keeps_processImportJob fuel now kbId :
  forall jobId, preserves P (processImportJob fuel now kbId jobId).
Proof.
  induction fuel as [|fuel IH]; intros jobId; simpl; [apply keeps_ret|].
  apply keeps_bind; [apply keeps_getDb|]. intros _.
  apply keeps_bind; [apply keeps_gets|]. intros running.
  destruct (other_job_running running jobId); [apply keeps_ret|].
  apply keeps_bind; [by apply keeps_same_cache|]. intros _.
  apply keeps_bind; [apply keeps_db_run|]. intros _.
  apply keeps_bind; [apply keeps_sendJobUpdate|]. intros _.
  apply keeps_loop_segment; [exact IH|apply keeps_loop_top].
Qed.

Lemma keeps_start_job now kbId jobId : preserves P (start_job now kbId jobId).
Proof.
  unfold start_job. apply keeps_bind; [apply keeps_gets|]. intros fuel.
  apply keeps_ignore_errors, keeps_processImportJob.
Qed.

Lemma keeps_after_import r now kbId jobId itemId :
  preserves P (after_import r now kbId jobId itemId).
Proof.
  unfold after_import. apply keeps_bind; [apply keeps_db_run|]. intros _.
  apply keeps_bind; [apply keeps_gets|]. intros t.
  apply keeps_bind; [apply keeps_db_run|]. intros _. apply keeps_sendJobUpdate.
Qed.

Lemma keeps_continue_loop now kbId sl (step : M import_step) :
  preserves P step -> preserves P (continue_loop now kbId sl step).
Proof.
  intros Hstep. unfold continue_loop.
  apply keeps_bind; [by apply keeps_same_cache|]. intros _.
  apply keeps_ignore_errors, keeps_loop_segment; [intros j; apply keeps_start_job|].
  apply keeps_bind; [done|]. intros [r|p].
  - apply keeps_bind; [apply keeps_after_import|]. intros _. apply keeps_loop_top.
  - apply keeps_bind; [by apply keeps_same_cache|]. intros _. apply keeps_ret.
Qed.

Lemma keeps_import_catch kbId rel msg : preserves P (import_catch kbId rel msg).
Proof.
  unfold import_catch. apply keeps_bind; [apply keeps_ignore_errors, keeps_db_rollback|].
  intros _. apply keeps_ret.
Qed.

Lemma keeps_handleImportFiles env kbId sources :
  preserves P (handleImportFiles env kbId sources).
Proof.
  unfold handleImportFiles. destruct (String.eqb kbId ""); [apply keeps_throw|].
  destruct (bool_decide (sources = [])); [apply keeps_throw|].
  apply keeps_bind; [apply keeps_ensureKbDirs|]. intros _.
  apply keeps_bind; [apply keeps_getDb|]. intros _. cbv zeta.
  destruct (bool_decide _); [apply keeps_throw|].
  apply keeps_bind; [apply keeps_db_begin|]. intros _.
  apply keeps_bind.
  { apply keeps_try_catch.
    - apply keeps_bind; [apply keeps_db_try|]. intros _.
      apply keeps_bind; [apply keeps_insert_items|]. intros _. apply keeps_db_commit.
    - intros e. apply keeps_bind; [apply keeps_ignore_errors, keeps_db_rollback|].
      intros _. apply keeps_throw. }
  intros _. apply keeps_bind; [apply keeps_gets|]. intros running.
  apply keeps_bind; [destruct running; [apply keeps_ret|apply keeps_start_job]|].
  intros _. apply keeps_bind; [apply keeps_sendJobUpdate|]. intros _. apply keeps_ret.
Qed.

Lemma keeps_handleResumeJob env kbId jobId : preserves P (handleResumeJob env kbId jobId).
Proof.
  unfold handleResumeJob. destruct (_ || _); [apply keeps_throw|].
  apply keeps_bind; [apply keeps_getDb|]. intros _.
  apply keeps_bind; [apply keeps_db_run|]. intros _.
  apply keeps_bind; [apply keeps_gets|]. intros running.
  apply keeps_bind; [destruct running; [apply keeps_ret|apply keeps_start_job]|].
  intros _. apply keeps_bind; [apply keeps_sendJobUpdate|]. intros _. apply keeps_ret.
Qed.

Lemma keeps_handlePauseJob env kbId jobId : preserves P (handlePauseJob env kbId jobId).
Proof.
  unfold handlePauseJob. destruct (_ || _); [apply keeps_throw|].
  apply keeps_bind; [apply keeps_getDb|]. intros _.
  apply keeps_bind; [apply keeps_db_run|]. intros _.
  apply keeps_bind; [apply keeps_sendJobUpdate|]. intros _. apply keeps_ret.
Qed.

Lemma keeps_handleCancelJob env kbId jobId : preserves P (handleCancelJob env kbId jobId).
Proof.
  unfold handleCancelJob. destruct (_ || _); [apply keeps_throw|].
  apply keeps_bind; [by apply keeps_same_cache|]. intros _.
  apply keeps_bind; [apply keeps_getDb|]. intros _.
  apply keeps_bind; [apply keeps_db_run|]. intros _.
  apply keeps_bind; [apply keeps_db_run|]. intros _.
  apply keeps_bind; [apply keeps_sendJobUpdate|]. intros _. apply keeps_ret.
Qed.

Lemma keeps_reader env kbId (k : tables -> value) :
  preserves P (getDb (now env) kbId;; t ← gets (fun w => db_of w kbId); ret (k t)).
Proof.
  apply keeps_bind; [apply keeps_getDb|]. intros _.
  apply keeps_bind; [apply keeps_gets|]. intros t. apply keeps_ret.
Qed.

Section WithNode.
Variable node : NodeApi.
Variable USER_DATA_PATH : string.

Lemma keeps_push_and_insert kbId documentId chunkIds now text (st : stream_state node) :
  preserves P (push_and_insert node kbId documentId chunkIds now text st).
Proof.
  unfold push_and_insert. destruct (Chunker.push _ _ _ _) as [[parts carry']|];
    [|apply keeps_throw].
  apply keeps_bind; [apply keeps_insert_parts|]. intros idx. apply keeps_ret.
Qed.

Lemma keeps_stream_loop kbId documentId rel chunkIds now bufs (st : stream_state node) :
  preserves P (stream_loop node kbId documentId rel chunkIds now bufs st).
Proof.
  revert st. induction bufs as [|buf bufs IH]; intros st; simpl; [apply keeps_ret|].
  apply keeps_bind; [by apply keeps_same_cache|]. intros _.
  destruct (negb (canIndex node st)); [apply IH|].
  destruct (negb (decidedBinary node st) && bufferLooksBinary buf); [apply IH|].
  destruct (decoder_write node (decoder node st) buf) as [text dec].
  apply keeps_bind; [apply keeps_push_and_insert|]. intros st2. apply IH.
Qed.

Lemma keeps_stream_finish kbId documentId chunkIds now (st : stream_state node) :
  preserves P (stream_finish node kbId documentId chunkIds now st).
Proof.
  unfold stream_finish. apply keeps_bind.
  { destruct (canIndex node st); [|apply keeps_mret].
    apply keeps_bind; [apply keeps_push_and_insert|]. intros st'.
    destruct (fst (Chunker.flush _)); [|apply keeps_mret].
    apply keeps_bind; [apply keeps_insert_parts|]. intros _. apply keeps_mret. }
  intros _. apply keeps_bind; [apply keeps_db_run|]. intros _.
  apply keeps_bind; [apply keeps_db_commit|]. intros _. apply keeps_ret.
Qed.

Lemma keeps_on_stat kbId itemId sourcePath st documentId now :
  preserves P (importOneFile_on_stat node kbId itemId sourcePath st documentId now).
Proof.
  destruct st; simpl; [apply keeps_ret|apply keeps_ret|].
  apply keeps_bind; [apply keeps_db_begin|]. intros _.
  apply keeps_try_catch; [|intros e; apply keeps_import_catch].
  apply keeps_bind; [apply keeps_db_try|]. intros _.
  apply keeps_bind; [by apply keeps_same_cache|]. intros _. apply keeps_ret.
Qed.

Lemma keeps_on_stream kbId itemId sourcePath documentId rel out chunkIds now :
  preserves P (importOneFile_on_stream node kbId itemId sourcePath documentId rel out
                 chunkIds now).
Proof.
  unfold importOneFile_on_stream.
  apply keeps_try_catch; [|intros e; apply keeps_import_catch].
  apply keeps_bind; [apply keeps_stream_loop|]. intros st.
  destruct (stream_error out); [apply keeps_throw|].
  apply keeps_bind; [apply keeps_stream_finish|]. intros r.
  apply keeps_bind; [apply keeps_db_run|]. intros _. apply keeps_ret.
Qed.

Lemma keeps_on_rm kbId itemId rel msg removed now :
  preserves P (importOneFile_on_rm kbId itemId rel msg removed now).
Proof.
  unfold importOneFile_on_rm.
  apply keeps_bind; [destruct removed; [by apply keeps_same_cache|apply keeps_ret]|].
  intros _.
  apply keeps_bind; [apply keeps_db_run|]. intros _. apply keeps_ret.
Qed.

Lemma keeps_handleCreateNote env kbId title content :
  preserves P (handleCreateNote node env kbId title content).
Proof.
  unfold handleCreateNote. cbv zeta. destruct (String.eqb kbId ""); [apply keeps_throw|].
  destruct (bool_decide _); [apply keeps_throw|].
  apply keeps_bind; [apply keeps_getDb|]. intros _.
  apply keeps_bind; [apply keeps_db_begin|]. intros _.
  apply keeps_bind; [|intros _; apply keeps_ret].
  apply keeps_try_catch.
  - apply keeps_bind; [apply keeps_db_try|]. intros _.
    apply keeps_bind; [apply keeps_db_try|]. intros _.
    apply keeps_bind; [|intros _; apply keeps_db_commit].
    destruct (Chunker.push _ _ _ _) as [[parts carry]|]; [|apply keeps_throw].
    apply keeps_bind; [apply keeps_insert_parts|]. intros idx.
    destruct (fst (Chunker.flush carry)); [|apply keeps_ret].
    apply keeps_bind; [apply keeps_insert_parts|]. intros _. apply keeps_ret.
  - intros e. apply keeps_bind; [apply keeps_ignore_errors, keeps_db_rollback|].
    intros _. apply keeps_throw.
Qed.

Lemma keeps_handle env req : preserves P (handle node USER_DATA_PATH env req).
Proof.
  destruct req; simpl.
  - unfold handleEnsureInitialized. destruct (String.eqb kbId ""); [apply keeps_throw|].
    apply keeps_bind; [apply keeps_ensureKbDirs|]. intros _.
    apply keeps_bind; [apply keeps_getDb|]. intros _. apply keeps_ret.
  - apply keeps_handleImportFiles.
  - unfold handleListJobs. destruct (String.eqb kbId ""); [apply keeps_throw|].
    apply keeps_reader.
  - apply keeps_handlePauseJob.
  - apply keeps_handleResumeJob.
  - apply keeps_handleCancelJob.
  - unfold handleSearch. cbv zeta. destruct (String.eqb kbId ""); [apply keeps_throw|].
    destruct (bool_decide _); [apply keeps_ret|]. apply keeps_reader.
  - apply keeps_handleCreateNote.
  - unfold handleGetStats. destruct (String.eqb kbId ""); [apply keeps_throw|].
    apply keeps_reader.
Qed.

Lemma keeps_step ev w :
  ev <> Restart -> P w -> P (step node USER_DATA_PATH ev w).
Proof.
  intros Hev H. destruct ev as [id req env|kbId st documentId now|kbId out chunkIds now
                               |kbId removed now|]; simpl; [| | | |done].
  - unfold serve. pose proof (keeps_handle env req w H) as H1.
    destruct (handle node USER_DATA_PATH env req w) as [[v|e] w1]; simpl in H1;
      by apply keeps_send.
  - destruct (suspended w !! kbId) as [sl|]; [|done].
    destruct (sl_phase sl); try done.
    by apply keeps_continue_loop; [apply keeps_on_stat|].
  - destruct (suspended w !! kbId) as [sl|]; [|done].
    destruct (sl_phase sl); try done.
    by apply keeps_continue_loop; [apply keeps_on_stream|].
  - destruct (suspended w !! kbId) as [sl|]; [|done].
    destruct (sl_phase sl); try done.
    by apply keeps_continue_loop; [apply keeps_on_rm|].
Qed.

End WithNode.
End Keeps.

(** X7: a handle that is in [dbCache] stays there for as long as the
    worker process lives, whatever requests and file-system answers
    follow; so [getDb] on this knowledge base returns at once, and the
    recovery pass that pauses 'processing' jobs is not run a second
    time on a database the process has open. *)
Theorem X7_opened_once (node : NodeApi) (USER_DATA_PATH : string)
    (evs : list event) (w : worker) (kbId : string) (now : Z) :
  cached kbId w ->
  Forall (fun ev => ev <> Restart) evs ->
  cached kbId (run node USER_DATA_PATH evs w)
  /\ getDb now kbId (run node USER_DATA_PATH evs w)
     = (Ok (), run node USER_DATA_PATH evs w).
Proof.
  intros Hc Hevs.
  assert (H : cached kbId (run node USER_DATA_PATH evs w)).
  { revert w Hc. induction Hevs as [|ev evs Hev _ IH]; intros w Hc; simpl; [done|].
    apply IH. apply (keeps_step (cached kbId)); [|done|done].
    intros w1 w2 Hsub. unfold cached. set_solver. }
  split; [done|]. by apply getDb_cached.
Qed.

Lemma X7_opened_once_witness :
  cached "kb" (run Sample.posix_ascii "/data" [Sample.cancel_A; Sample.resume_A]
                 Sample.worker_A_done)
  /\ getDb 9 "kb" (run Sample.posix_ascii "/data" [Sample.cancel_A; Sample.resume_A]
                     Sample.worker_A_done)
     = (Ok (), run Sample.posix_ascii "/data" [Sample.cancel_A; Sample.resume_A]
                 Sample.worker_A_done).
Proof.
  apply (X7_opened_once Sample.posix_ascii "/data" [Sample.cancel_A; Sample.resume_A]
           Sample.worker_A_done "kb" 9).
  - unfold cached. vm_compute. set_solver.
  - repeat constructor; discriminate.
Defined.

End RequestFacts.

(* ------------------------------------------------------------------ *)
(** ** An import that fails                                            *)
(* ------------------------------------------------------------------ *)

Module ImportFailure.
Import Js Kb Ingest Scheduler Handlers Progress Streaming WpFacts OpenFacts IngestFacts.

Lemma streaming_with_kb kbId rel s w0 w (g : kbdir -> kbdir) :
  (forall k, tx (g k) = tx k) ->
  (forall k p, p <> rel -> blobs (g k) !! p = blobs k !! p) ->
  streaming kbId rel s w0 w -> streaming kbId rel s w0 (with_kb kbId g w).
Proof.
  intros Htx Hb (H1 & H2 & H3). unfold streaming. rewrite kb_of_with_kb_eq.
  split; [by rewrite Htx|]. split.
  - intros p Hp. rewrite Hb by done. by apply H2.
  - intros kb Hkb. rewrite kb_of_with_kb_ne by done. by apply H3.
Qed.

Lemma streaming_db_run kbId rel s w0 f :
  preserves (streaming kbId rel s w0) (db_run kbId f).
Proof. intros w H. apply streaming_with_kb; done. Qed.

Lemma streaming_db_try kbId rel s w0 f :
  preserves (streaming kbId rel s w0) (db_try kbId f).
Proof.
  intros w H. unfold db_try, mbind, M_bind, bind, gets. simpl.
  destruct (f (db_of w kbId)); [|done]. by apply streaming_db_run.
Qed.

Lemma streaming_write_blob kbId rel s w0 buf :
  preserves (streaming kbId rel s w0) (write_blob kbId rel buf).
Proof.
  intros w H. apply streaming_with_kb; [done| |done].
  intros k p Hp. simpl. by rewrite lookup_insert_ne.
Qed.

Lemma preserves_bind' {A B} P (m : M A) (k : A -> M B) :
  preserves P m -> (forall a, preserves P (k a)) -> preserves P (m ≫= k).
Proof.
  intros Hm Hk w H. specialize (Hm w H). unfold mbind, M_bind, bind.
  destruct (m w) as [[a|e] w']; simpl in *; [by apply Hk|done].
Qed.

Lemma streaming_insert_parts kbId rel s w0 documentId chunkIds now parts index :
  preserves (streaming kbId rel s w0) (insert_parts kbId documentId chunkIds now parts index).
Proof.
  revert index. induction parts as [|p parts IH]; intros index; simpl; [by intros w|].
  apply preserves_bind'; [apply streaming_db_try|]. intros _. apply IH.
Qed.

Section WithNode.
Variable node : NodeApi.
Variable USER_DATA_PATH : string.

Lemma streaming_push_and_insert kbId rel s w0 documentId chunkIds now text
    (st : stream_state node) :
  preserves (streaming kbId rel s w0)
    (push_and_insert node kbId documentId chunkIds now text st).
Proof.
  unfold push_and_insert. destruct (Chunker.push _ _ _ _) as [[parts carry']|];
    [|by intros w].
  apply preserves_bind'; [apply streaming_insert_parts|]. intros idx. by intros w.
Qed.

Lemma streaming_stream_loop kbId rel s w0 documentId chunkIds now bufs
    (st : stream_state node) :
  preserves (streaming kbId rel s w0)
    (stream_loop node kbId documentId rel chunkIds now bufs st).
Proof.
  revert st. induction bufs as [|buf bufs IH]; intros st; simpl; [by intros w|].
  apply preserves_bind'; [apply streaming_write_blob|]. intros _.
  destruct (negb (canIndex node st)); [apply IH|].
  destruct (negb (decidedBinary node st) && bufferLooksBinary buf); [apply IH|].
  destruct (decoder_write node (decoder node st) buf) as [text dec].
  apply preserves_bind'; [apply streaming_push_and_insert|]. intros st2. apply IH.
Qed.

(** Where the [try] block of the stream throws, the transaction is
    still the one that was begun. *)
Lemma stream_throws_inside kbId rel s w0 jobItemId sourcePath documentId out chunkIds now w :
  streaming kbId rel s w0 w ->
  wp (st ← stream_loop node kbId documentId rel chunkIds now (buffers out)
            {| hashed := []; decoder := decoder_new node; carry := [];
               chunkIndex := 0; decidedBinary := false;
               canIndex := isSupportedTextExtension node sourcePath |};
      match stream_error out with
      | Some e => throw e
      | None =>
          r ← stream_finish node kbId documentId chunkIds now st;
          db_run kbId (touch_item jobItemId now);;
          ret (Returned r)
      end)
     (fun r w' =>
        match r with
        | Ok (Returned _) => True
        | Ok (Awaiting _) => False
        | Throw _ => streaming kbId rel s w0 w'
        end) w.
Proof.
  intros H. apply wp_bind.
  pose proof (streaming_stream_loop kbId rel s w0 documentId chunkIds now (buffers out)
                {| hashed := []; decoder := decoder_new node; carry := [];
                   chunkIndex := 0; decidedBinary := false;
                   canIndex := isSupportedTextExtension node sourcePath |} w H) as H1.
  unfold wp. destruct (stream_loop _ _ _ _ _ _ _ _ w) as [[st|e] w1]; simpl in *; [|done].
  change (wp (match stream_error out with
              | Some e => throw e
              | None =>
                  r ← stream_finish node kbId documentId chunkIds now st;
                  db_run kbId (touch_item jobItemId now);;
                  ret (Returned r)
              end)
             (fun r w' =>
                match r with
                | Ok (Returned _) => True
                | Ok (Awaiting _) => False
                | Throw _ => streaming kbId rel s w0 w'
                end) w1).
  destruct (stream_error out) as [e|]; [by apply wp_throw|].
  apply wp_bind. unfold stream_finish. apply wp_bind.
  assert (Hfirst : preserves (streaming kbId rel s w0)
            (if canIndex node st
             then st' ← push_and_insert node kbId documentId chunkIds now
                          (decoder_end node (decoder node st)) st;
                  match fst (Chunker.flush (carry node st')) with
                  | Some rest =>
                      _ ← insert_parts kbId documentId chunkIds now [rest]
                            (chunkIndex node st'); ret ()
                  | None => ret ()
                  end
             else ret ())).
  { destruct (canIndex node st); [|by intros ?].
    apply preserves_bind'; [apply streaming_push_and_insert|]. intros st'.
    destruct (fst (Chunker.flush _)); [|by intros ?].
    apply preserves_bind'; [apply streaming_insert_parts|]. by intros _ ?. }
  specialize (Hfirst w1 H1). unfold wp at 1.
  set (first := if canIndex node st then _ else _) in *.
  destruct (first w1) as [[[]|e] w2]; simpl in *; [|done].
  apply wp_bind. apply wp_db_run. apply wp_bind. apply wp_db_commit.
  rewrite kb_of_with_kb_eq. simpl. destruct Hfirst as [-> _].
  apply wp_ret. apply wp_bind. apply wp_db_run. by apply wp_ret.
Qed.

(** A stream that does not complete hands over to the [rm] with the
    tables that were there at [BEGIN]. *)
Lemma on_stream_rolls_back kbId rel s w0 jobItemId sourcePath documentId out chunkIds now w :
  streaming kbId rel s w0 w ->
  wp (importOneFile_on_stream node kbId jobItemId sourcePath documentId rel out chunkIds now)
     (fun r w' =>
        match r with
        | Ok (Returned _) => True
        | Ok (Awaiting p) =>
            (exists message, p = AwaitRm rel message)
            /\ db_of w' kbId = s /\ tx (kb_of w' kbId) = None
            /\ (forall p, p <> rel -> blobs (kb_of w' kbId) !! p = blobs (kb_of w0 kbId) !! p)
            /\ (forall kb, kb <> kbId -> kb_of w' kb = kb_of w0 kb)
        | Throw _ => False
        end) w.
Proof.
  intros H. unfold importOneFile_on_stream. apply wp_try_catch.
  eapply wp_mono; [apply (stream_throws_inside kbId rel s w0 jobItemId sourcePath); exact H|].
  intros [[r|p]|e] w1; [done|done|]. intros (Htx & Hb & Hk).
  unfold import_catch. apply wp_bind. apply wp_ignore_errors. apply wp_db_rollback.
  rewrite Htx. apply wp_ret. unfold db_of. rewrite kb_of_with_kb_eq. simpl.
  split; [eauto|]. split; [done|]. split; [done|]. split; [done|].
  intros kb Hkb. rewrite kb_of_with_kb_ne by done. by apply Hk.
Qed.

Lemma on_rm_result kbId jobItemId rel message removed now w :
  importOneFile_on_rm kbId jobItemId rel message removed now w
  = (Ok (Returned {| r_status := ItemFailed; r_documentId := None;
                     r_error := Some message |}),
     with_kb kbId (fun k => {| meta := touch_item jobItemId now (meta k); tx := tx k;
                               blobs := blobs k |})
       (if removed
        then with_kb kbId (fun k => {| meta := meta k; tx := tx k;
                                       blobs := delete rel (blobs k) |}) w
        else w)).
Proof. by destruct removed. Qed.

Lemma failed_import_wp kbId jobItemId sourcePath size out removed documentId chunkIds now w :
  tx (kb_of w kbId) = None ->
  wp (importOneFile node kbId jobItemId sourcePath (StatFile size) out removed documentId
        chunkIds now)
     (fun r w' =>
        match r with
        | Ok res =>
            r_status res = ItemFailed ->
            db_of w' kbId = touch_item jobItemId now (db_of w kbId)
            /\ tx (kb_of w' kbId) = None
            /\ (forall p, p <> getBlobRelPath node documentId sourcePath ->
                  blobs (kb_of w' kbId) !! p = blobs (kb_of w kbId) !! p)
            /\ (removed = true ->
                blobs (kb_of w' kbId)
                = delete (getBlobRelPath node documentId sourcePath) (blobs (kb_of w kbId)))
            /\ (forall kb, kb <> kbId -> kb_of w' kb = kb_of w kb)
        | Throw _ => False
        end) w.
Proof.
  intros Htx. unfold importOneFile. apply wp_bind.
  set (rel := getBlobRelPath node documentId sourcePath).
  set (Q := fun (r : res ImportResult) (w' : worker) =>
        match r with
        | Ok res =>
            r_status res = ItemFailed ->
            db_of w' kbId = touch_item jobItemId now (db_of w kbId)
            /\ tx (kb_of w' kbId) = None
            /\ (forall p, p <> rel ->
                  blobs (kb_of w' kbId) !! p = blobs (kb_of w kbId) !! p)
            /\ (removed = true ->
                blobs (kb_of w' kbId) = delete rel (blobs (kb_of w kbId)))
            /\ (forall kb, kb <> kbId -> kb_of w' kb = kb_of w kb)
        | Throw _ => False
        end).
  (* what the [rm] and the [finally] make of a rolled-back directory *)
  assert (Hrm : forall message w3,
    db_of w3 kbId = db_of w kbId -> tx (kb_of w3 kbId) = None ->
    (forall p, p <> rel -> blobs (kb_of w3 kbId) !! p = blobs (kb_of w kbId) !! p) ->
    (forall kb, kb <> kbId -> kb_of w3 kb = kb_of w kb) ->
    wp (s3 ← importOneFile_on_rm kbId jobItemId rel message removed now;
        match s3 with
        | Returned r => ret r
        | Awaiting _ => throw "importOneFile is still waiting"
        end) Q w3).
  { intros message w3 Hdb Htx3 Hb Hk. apply wp_bind. unfold wp at 1.
    rewrite on_rm_result. simpl. apply wp_ret. intros _.
    unfold db_of in *. rewrite !kb_of_with_kb_eq. simpl.
    destruct removed; rewrite ?kb_of_with_kb_eq; simpl.
    - split; [by rewrite Hdb|]. split; [done|]. split; [|split].
      + intros p Hp. rewrite lookup_delete_ne by done. by apply Hb.
      + intros _. apply map_eq. intros p. destruct (decide (p = rel)) as [->|Hp].
        * by rewrite !lookup_delete_eq.
        * rewrite !lookup_delete_ne by done. by apply Hb.
      + intros kb Hkb. rewrite !kb_of_with_kb_ne by done. by apply Hk.
    - split; [by rewrite Hdb|]. split; [done|]. split; [done|]. split; [done|].
      intros kb Hkb. rewrite !kb_of_with_kb_ne by done. by apply Hk. }
  unfold importOneFile_on_stat. fold rel.
  apply wp_bind. apply wp_db_begin. rewrite Htx.
  apply wp_try_catch. apply wp_bind. apply wp_db_try.
  unfold db_of at 1. rewrite kb_of_with_kb_eq. simpl.
  destruct (insert_document _ (meta (kb_of w kbId))) as [t'|] eqn:Eins.
  - apply wp_bind. unfold create_blob. apply wp_modify. apply wp_ret.
    apply wp_bind.
    match goal with |- wp _ _ ?x => set (w2 := x) end.
    assert (H2 : streaming kbId rel (db_of w kbId) w w2).
    { unfold w2, streaming. rewrite !kb_of_with_kb_eq. simpl. split; [done|]. split.
      - intros p Hp. by rewrite lookup_insert_ne.
      - intros kb Hkb. by rewrite !kb_of_with_kb_ne. }
    eapply wp_mono.
    { apply wp_conj.
      - apply (on_stream_rolls_back kbId rel (db_of w kbId) w jobItemId sourcePath). exact H2.
      - apply importOneFile_on_stream_wp. }
    intros [[r|p]|e] w3; [| |by intros []].
    + intros [_ [_ Hd]]. apply wp_bind. apply wp_ret. apply wp_ret.
      unfold Q. intros Hf. destruct Hd. rewrite Hf in sd_status0.
      by destruct (indexed _ _ _).
    + intros [((message & ->) & Hdb & Htx3 & Hb & Hk) _]. by apply Hrm.
  - unfold import_catch. apply wp_bind. apply wp_ignore_errors. apply wp_db_rollback.
    rewrite kb_of_with_kb_eq. simpl. apply wp_ret. apply wp_bind. apply wp_ret.
    apply Hrm.
    + unfold db_of. by rewrite !kb_of_with_kb_eq.
    + by rewrite !kb_of_with_kb_eq.
    + intros p Hp. by rewrite !kb_of_with_kb_eq.
    + intros kb Hkb. by rewrite !kb_of_with_kb_ne.
Qed.

(** X8: outside a transaction [importOneFile] always returns a result,
    and a regular file whose import failed leaves no row behind: the
    tables are those from before the call but for [updated_at] of the
    job item, no transaction is open, and the other blobs and knowledge
    bases are untouched. The blob of the document is gone when
    [fs.promises.rm] succeeded; when it failed the error is ignored, and
    what was written of the blob can stay. *)
Theorem X8_failed_import_leaves_nothing
    (kbId jobItemId sourcePath : string) (size : Z) (out : read_outcome) (removed : bool)
    (documentId : string) (chunkIds : Z -> string) (now : Z) (w : worker) :
  tx (kb_of w kbId) = None ->
  exists res w',
    importOneFile node kbId jobItemId sourcePath (StatFile size) out removed documentId
      chunkIds now w
    = (Ok res, w')
    /\ (r_status res = ItemFailed ->
        db_of w' kbId = touch_item jobItemId now (db_of w kbId)
        /\ tx (kb_of w' kbId) = None
        /\ (forall p, p <> getBlobRelPath node documentId sourcePath ->
              blobs (kb_of w' kbId) !! p = blobs (kb_of w kbId) !! p)
        /\ (removed = true ->
            blobs (kb_of w' kbId)
            = delete (getBlobRelPath node documentId sourcePath) (blobs (kb_of w kbId)))
        /\ (forall kb, kb <> kbId -> kb_of w' kb = kb_of w kb)).
Proof.
  intros Htx.
  pose proof (failed_import_wp kbId jobItemId sourcePath size out removed documentId chunkIds
                now w Htx) as H.
  unfold wp in H.
  destruct (importOneFile _ _ _ _ _ _ _ _ _ _ w) as [[res|e] w']; simpl in H; [|done].
  by exists res, w'.
Qed.

(** X9: when the stream of a file breaks, the step that handles it puts
    the tables back to what they were at the [BEGIN] of the import, so
    the statements of the requests that were served while the file was
    streaming (a pause, a resume, a cancel, a new job) are undone with
    it; the loop then waits for the removal of the blob. *)
Theorem X9_broken_stream_undoes_requests
    (kbId : string) (out : read_outcome) (chunkIds : Z -> string) (now : Z)
    (w : worker) (sl : suspended_loop) (documentId rel e : string) (s : tables) :
  suspended w !! kbId = Some sl ->
  sl_phase sl = AwaitStream documentId rel ->
  tx (kb_of w kbId) = Some s ->
  stream_error out = Some e ->
  let w' := step node USER_DATA_PATH (StreamSettled kbId out chunkIds now) w in
  db_of w' kbId = s
  /\ tx (kb_of w' kbId) = None
  /\ exists message,
       suspended w' !! kbId
       = Some {| sl_job := sl_job sl; sl_item := sl_item sl; sl_source := sl_source sl;
                 sl_phase := AwaitRm rel message |}.
Proof.
  intros Hsl Hph Htx He. simpl. rewrite Hsl, Hph.
  unfold continue_loop.
  set (w1 := with_suspended (fun m => delete kbId m) w).
  assert (H1 : streaming kbId rel s w1 w1) by (by split).
  pose proof (wp_conj _ _ _ _
    (on_stream_rolls_back kbId rel s w1 (sl_item sl) (sl_source sl) documentId out chunkIds
       now w1 H1)
    (importOneFile_on_stream_wp node kbId (sl_item sl) (sl_source sl) documentId rel out
       chunkIds now w1)) as H.
  unfold wp in H.
  change ((modify (with_suspended (fun m => delete kbId m));;
           ignore_errors
             (loop_segment (start_job now kbId) now kbId (sl_job sl)
                (s0 ← importOneFile_on_stream node kbId (sl_item sl) (sl_source sl)
                        documentId rel out chunkIds now;
                 match s0 with
                 | Awaiting p =>
                     modify (with_suspended (fun m =>
                       <[kbId := {| sl_job := sl_job sl; sl_item := sl_item sl;
                                    sl_source := sl_source sl; sl_phase := p |}]> m));;
                     ret Suspended
                 | Returned r =>
                     after_import r now kbId (sl_job sl) (sl_item sl);;
                     loop_top now kbId (sl_job sl)
                 end))) w)
    with (ignore_errors
            (loop_segment (start_job now kbId) now kbId (sl_job sl)
               (s0 ← importOneFile_on_stream node kbId (sl_item sl) (sl_source sl)
                       documentId rel out chunkIds now;
                match s0 with
                | Awaiting p =>
                    modify (with_suspended (fun m =>
                      <[kbId := {| sl_job := sl_job sl; sl_item := sl_item sl;
                                   sl_source := sl_source sl; sl_phase := p |}]> m));;
                    ret Suspended
                | Returned r =>
                    after_import r now kbId (sl_job sl) (sl_item sl);;
                    loop_top now kbId (sl_job sl)
                end)) w1).
  unfold ignore_errors, loop_segment, mbind, M_bind, bind. simpl.
  destruct (importOneFile_on_stream _ _ _ _ _ _ _ _ _ w1) as [[[r|p]|e'] w2];
    simpl in H; [| |by destruct H].
  - destruct H as [_ [Hnone _]]. congruence.
  - destruct H as [((message & ->) & Hdb & Htx2 & _) _]. simpl.
    split; [done|]. split; [done|]. exists message. by rewrite lookup_insert_eq.
Qed.

End WithNode.

Lemma X8_failed_import_leaves_nothing_witness :
  tx (kb_of initial_worker "kb") = None
  /\ exists res w',
       importOneFile Sample.posix_ascii "kb" "i1" "/tmp/a.txt" (StatFile 3) broken_stream
         true "d1" Sample.chunk_ids 5 initial_worker = (Ok res, w')
       /\ (r_status res = ItemFailed ->
           db_of w' "kb" = touch_item "i1" 5 (db_of initial_worker "kb")
           /\ tx (kb_of w' "kb") = None
           /\ (forall p, p <> getBlobRelPath Sample.posix_ascii "d1" "/tmp/a.txt" ->
                 blobs (kb_of w' "kb") !! p = blobs (kb_of initial_worker "kb") !! p)
           /\ (true = true ->
               blobs (kb_of w' "kb")
               = delete (getBlobRelPath Sample.posix_ascii "d1" "/tmp/a.txt")
                   (blobs (kb_of initial_worker "kb")))
           /\ (forall kb, kb <> "kb" -> kb_of w' kb = kb_of initial_worker kb)).
Proof.
  split; [reflexivity|].
  apply (X8_failed_import_leaves_nothing Sample.posix_ascii "kb" "i1" "/tmp/a.txt" 3
           broken_stream true "d1" Sample.chunk_ids 5 initial_worker).
  reflexivity.
Defined.

(** When the removal fails, the bytes that were copied before the
    stream broke stay in the blob of the document that was rolled
    back. *)
Example failed_import_can_leave_the_blob :
  let run := importOneFile Sample.posix_ascii "kb" "i1" "/tmp/a.txt" (StatFile 3)
               broken_stream false "d1" Sample.chunk_ids 5 initial_worker in
  r_status <$> (match fst run with Ok res => Some res | Throw _ => None end) = Some ItemFailed
  /\ documents (db_of (snd run) "kb") = []
  /\ blobs (kb_of (snd run) "kb") !! "blobs/d1.txt" = Some Sample.hi_newline.
Proof. by vm_compute. Qed.

Lemma X9_broken_stream_undoes_requests_witness :
  Sample.status_of worker_streaming "kb" "A" = Some JobCanceled
  /\ Sample.status_of
       (step Sample.posix_ascii "/data" (StreamSettled "kb" broken_stream Sample.chunk_ids 4)
          worker_streaming) "kb" "A" = Some JobProcessing.
Proof.
  split; [vm_compute; reflexivity|].
  destruct (X9_broken_stream_undoes_requests Sample.posix_ascii "/data" "kb" broken_stream
              Sample.chunk_ids 4 worker_streaming
              {| sl_job := "A"; sl_item := "A'"; sl_source := "/tmp/a.txt";
                 sl_phase := AwaitStream "d1" "blobs/d1.txt" |}
              "d1" "blobs/d1.txt" "EIO"
              (db_of (Sample.sample_run (take 1 cancel_while_streaming) initial_worker) "kb"))
    as (Hdb & _).
  - vm_compute. reflexivity.
  - reflexivity.
  - vm_compute. reflexivity.
  - reflexivity.
  - unfold Sample.status_of. rewrite Hdb. vm_compute. reflexivity.
Defined.

End ImportFailure.

(* ------------------------------------------------------------------ *)
(** ** What the handlers check, and what they do to the rows           *)
(* ------------------------------------------------------------------ *)

Module HandlerFacts.
Import Js Kb Ingest Scheduler Handlers Progress Requests Guards Streaming.
Import WpFacts OpenFacts ImportFacts.

Section WithNode.
Variable node : NodeApi.
Variable USER_DATA_PATH : string.

(** X10: a request that fails the checks of its handler is answered
    with the error of the first failed check and has no effect at all:
    no directory is created, no database opened, and [kb.cancelJob]
    does not put the job id into [inMemoryCanceledJobs]. *)
Theorem X10_rejected_request_has_no_effect
    (env : call_env) (req : request) (msg : string) (w : worker) :
  validation_error req = Some msg ->
  handle node USER_DATA_PATH env req w = (Throw msg, w)
  /\ forall id, step node USER_DATA_PATH (Request id req env) w
                = with_sent (fun l => l ++ [MsgError id msg]) w.
Proof.
  intros Hv.
  assert (H : handle node USER_DATA_PATH env req w = (Throw msg, w)); cycle 1.
  { split; [done|]. intros id. simpl. unfold serve. by rewrite H. }
  revert Hv.
  destruct req; simpl; unfold handleEnsureInitialized, handleImportFiles, handleListJobs,
    handlePauseJob, handleResumeJob, handleCancelJob, handleSearch, handleCreateNote,
    handleGetStats; cbv zeta.
  all: repeat match goal with
       | |- context [String.eqb ?a ""] => destruct (String.eqb a "")
       | |- context [bool_decide ?P] => destruct (bool_decide P)
       end; simpl; intros H; try discriminate; by injection H as <-.
Qed.

(** X11: while a transaction is open on the database of a knowledge
    base (a file is streaming into it), [kb.createNote] and a
    [kb.importFiles] that found files fail on their [BEGIN]: the reply
    is the SQLite error, and no row, blob or job is added. *)
Theorem X11_no_transaction_inside_import
    (env : call_env) (req : request) (w : worker) :
  validation_error req = None ->
  begins_transaction env req = true ->
  cached (request_kb req) w ->
  tx (kb_of w (request_kb req)) <> None ->
  let r := handle node USER_DATA_PATH env req w in
  fst r = Throw "cannot start a transaction within a transaction"
  /\ (forall kb, kb_of (snd r) kb = kb_of w kb)
  /\ runningByKb (snd r) = runningByKb w
  /\ suspended (snd r) = suspended w
  /\ sent (snd r) = sent w.
Proof.
  intros Hv Hb Hc Htx.
  assert (Hbegin : forall w1,
    (forall kb, kb_of w1 kb = kb_of w kb) ->
    db_begin (request_kb req) w1
    = (Throw "cannot start a transaction within a transaction", w1)).
  { intros w1 Hk. unfold db_begin, mbind, M_bind, bind, gets. simpl. rewrite Hk.
    by destruct (tx (kb_of w (request_kb req))). }
  assert (H : exists w1,
    handle node USER_DATA_PATH env req w
    = (Throw "cannot start a transaction within a transaction", w1)
    /\ (forall kb, kb_of w1 kb = kb_of w kb)
    /\ runningByKb w1 = runningByKb w /\ suspended w1 = suspended w /\ sent w1 = sent w);
    cycle 1.
  { destruct H as (w1 & -> & H). exact (conj eq_refl H). }
  destruct req; try discriminate; simpl in *.
  - (* kb.importFiles *)
    unfold handleImportFiles.
    destruct (String.eqb kbId ""); [done|].
    destruct (bool_decide (sources = [])); [done|].
    apply negb_true_iff in Hb. cbv zeta.
    unfold mbind at 1, M_bind at 1, bind at 1. unfold ensureKbDirs at 1, modify at 1.
    set (w1 := with_kb kbId (fun k => k) w).
    assert (Hk1 : forall kb, kb_of w1 kb = kb_of w kb).
    { intros kb. unfold w1. destruct (decide (kb = kbId)) as [->|Hne].
      - by rewrite kb_of_with_kb_eq.
      - by rewrite kb_of_with_kb_ne. }
    unfold mbind at 1, M_bind at 1, bind at 1.
    rewrite (getDb_cached _ _ w1) by done.
    rewrite Hb.
    unfold mbind at 1, M_bind at 1, bind at 1. rewrite (Hbegin w1 Hk1).
    by exists w1.
  - (* kb.createNote *)
    unfold handleCreateNote. cbv zeta.
    destruct (String.eqb kbId ""); [done|].
    destruct (bool_decide (Chunker.trim title = [])); [done|].
    unfold mbind at 1, M_bind at 1, bind at 1.
    rewrite (getDb_cached _ _ w) by done.
    unfold mbind at 1, M_bind at 1, bind at 1. rewrite (Hbegin w) by done.
    by exists w.
Qed.

Lemma cancel_job_rows jobId now t :
  Forall (fun j => job_id j = jobId -> job_status j = JobCanceled)
    (jobs (cancel_job jobId now t))
  /\ other_jobs jobId (cancel_job jobId now t) = other_jobs jobId t
  /\ map progress_row (jobs (cancel_job jobId now t)) = map progress_row (jobs t).
Proof.
  unfold other_jobs, cancel_job, with_jobs, update_where. simpl.
  induction (jobs t) as [|j l (IH1 & IH2 & IH3)]; simpl; [done|].
  destruct (is_job jobId j) eqn:E; simpl.
  - unfold is_job at 2. simpl. fold (is_job jobId j). rewrite E. simpl.
    split; [by constructor|]. split; [done|]. by rewrite IH3.
  - rewrite E. simpl. split; [|split; [by rewrite IH2|by rewrite IH3]].
    constructor; [|done]. intros Hj. unfold is_job in E. apply String.eqb_neq in E. done.
Qed.

Lemma skip_open_items_rows jobId now t :
  Forall (fun i => item_job_id i = jobId -> item_open i = false)
    (job_items (skip_open_items jobId now t))
  /\ other_items jobId (skip_open_items jobId now t) = other_items jobId t.
Proof.
  unfold other_items, skip_open_items, with_items, update_where. simpl.
  induction (job_items t) as [|i l (IH1 & IH2)]; simpl; [done|].
  destruct (String.eqb (item_job_id i) jobId) eqn:E; simpl.
  - fold (item_open i). destruct (item_open i) eqn:Eo; simpl; rewrite ?E; simpl.
    + split; [by constructor|done].
    + split; [by constructor|done].
  - rewrite E. simpl. split; [|by rewrite IH2].
    constructor; [|done]. intros Hj. apply String.eqb_neq in E. done.
Qed.

(** X12: [kb.cancelJob] with non-empty ids always succeeds, whatever
    the state of the job (a job that is done or failed is turned into
    'canceled' as well): afterwards the job id is in
    [inMemoryCanceledJobs], every row of the job has status 'canceled',
    and no item of the job is pending or processing. On a database that
    is open already nothing else changes: the rows of the other jobs
    and their items, the progress counters of all jobs, the documents
    and the chunks are as before. *)
Theorem X12_cancel_postcondition
    (env : call_env) (kbId jobId : string) (w : worker) :
  kbId <> "" -> jobId <> "" ->
  exists w',
    handleCancelJob env kbId jobId w = (Ok VSuccess, w')
    /\ jobId ∈ inMemoryCanceledJobs w'
    /\ Forall (fun j => job_id j = jobId -> job_status j = JobCanceled) (jobs (db_of w' kbId))
    /\ Forall (fun i => item_job_id i = jobId -> item_open i = false)
         (job_items (db_of w' kbId))
    /\ (cached kbId w ->
        other_jobs jobId (db_of w' kbId) = other_jobs jobId (db_of w kbId)
        /\ other_items jobId (db_of w' kbId) = other_items jobId (db_of w kbId)
        /\ map progress_row (jobs (db_of w' kbId)) = map progress_row (jobs (db_of w kbId))
        /\ documents (db_of w' kbId) = documents (db_of w kbId)
        /\ chunks (db_of w' kbId) = chunks (db_of w kbId)).
Proof.
  intros Hkb Hjob. unfold handleCancelJob.
  apply String.eqb_neq in Hkb, Hjob. rewrite Hkb, Hjob. simpl.
  unfold mbind at 1, M_bind at 1, bind at 1. unfold modify at 1.
  set (w1 := with_canceled (fun c => {[jobId]} ∪ c) w).
  unfold mbind at 1, M_bind at 1, bind at 1.
  pose proof (getDb_ok (now env) kbId w1) as Hok.
  assert (Hcan : forall w2, w2 = snd (getDb (now env) kbId w1) ->
                 jobId ∈ inMemoryCanceledJobs w2).
  { intros w2 ->. destruct (decide (kbId ∈ dbCache w1)) as [Hc|Hc].
    - rewrite getDb_cached by done. simpl. set_solver.
    - rewrite getDb_uncached by done. simpl. set_solver. }
  assert (Hcached : cached kbId w -> snd (getDb (now env) kbId w1) = w1).
  { intros Hc. by rewrite getDb_cached. }
  destruct (getDb (now env) kbId w1) as [r w2]. simpl in *. subst r.
  eexists. split; [reflexivity|]. simpl.
  unfold db_of.
  change (kb_of (with_sent ?f ?x) kbId) with (kb_of x kbId).
  rewrite !kb_of_with_kb_eq. simpl.
  destruct (cancel_job_rows jobId (now env) (meta (kb_of w2 kbId))) as (Hc1 & Hc2 & Hc3).
  destruct (skip_open_items_rows jobId (now env)
              (cancel_job jobId (now env) (meta (kb_of w2 kbId)))) as (Hs1 & Hs2).
  split; [by apply Hcan|]. split; [exact Hc1|]. split; [exact Hs1|].
  intros Hc. rewrite Hs2. specialize (Hcached Hc). subst w2.
  change (kb_of w1 kbId) with (kb_of w kbId) in *.
  split; [exact Hc2|]. split; [done|]. split; [exact Hc3|]. done.
Qed.

End WithNode.

Lemma X10_rejected_request_has_no_effect_witness :
  handle Sample.posix_ascii "/data" (Sample.env_at 1 "u") (CancelJob "kb" "") initial_worker
  = (Throw "kbId/jobId 不能为空", initial_worker)
  /\ forall id, step Sample.posix_ascii "/data"
                  (Request id (CancelJob "kb" "") (Sample.env_at 1 "u")) initial_worker
                = with_sent (fun l => l ++ [MsgError id "kbId/jobId 不能为空"]) initial_worker.
Proof.
  apply (X10_rejected_request_has_no_effect Sample.posix_ascii "/data" (Sample.env_at 1 "u")
           (CancelJob "kb" "") "kbId/jobId 不能为空" initial_worker).
  reflexivity.
Defined.

Lemma X11_no_transaction_inside_import_witness :
  fst (handle Sample.posix_ascii "/data" (Sample.env_at 4 "n")
         (CreateNote "kb" (js "todo") (js "text")) worker_streaming)
  = Throw "cannot start a transaction within a transaction".
Proof.
  apply (X11_no_transaction_inside_import Sample.posix_ascii "/data" (Sample.env_at 4 "n")
           (CreateNote "kb" (js "todo") (js "text")) worker_streaming).
  - reflexivity.
  - reflexivity.
  - unfold cached. vm_compute. set_solver.
  - vm_compute. discriminate.
Defined.

Lemma X12_cancel_postcondition_witness :
  exists w',
    handleCancelJob (Sample.env_at 4 "x") "kb" "A" Sample.worker_A_done = (Ok VSuccess, w')
    /\ "A" ∈ inMemoryCanceledJobs w'
    /\ Forall (fun j => job_id j = "A" -> job_status j = JobCanceled) (jobs (db_of w' "kb"))
    /\ Forall (fun i => item_job_id i = "A" -> item_open i = false)
         (job_items (db_of w' "kb"))
    /\ (cached "kb" Sample.worker_A_done ->
        other_jobs "A" (db_of w' "kb") = other_jobs "A" (db_of Sample.worker_A_done "kb")
        /\ other_items "A" (db_of w' "kb") = other_items "A" (db_of Sample.worker_A_done "kb")
        /\ map progress_row (jobs (db_of w' "kb"))
           = map progress_row (jobs (db_of Sample.worker_A_done "kb"))
        /\ documents (db_of w' "kb") = documents (db_of Sample.worker_A_done "kb")
        /\ chunks (db_of w' "kb") = chunks (db_of Sample.worker_A_done "kb")).
Proof.
  apply (X12_cancel_postcondition (Sample.env_at 4 "x") "kb" "A" Sample.worker_A_done);
    discriminate.
Defined.

End HandlerFacts.

(* ------------------------------------------------------------------ *)
(** ** The queue: which job is started next                            *)
(* ------------------------------------------------------------------ *)

Module QueueFacts.
Import Js Kb Ingest Scheduler Handlers Progress WpFacts OpenFacts ProgressFacts.

Lemma oldest_fold {A} (f : A -> Z) (l : list A) (acc : option A) :
  exists x,
    foldl (fun acc x => match acc with
                        | None => Some x
                        | Some y => if f x <? f y then Some x else Some y
                        end) acc l = x
    /\ (acc = None -> l = [] -> x = None)
    /\ (forall a, acc = Some a -> exists y, x = Some y /\ f y <= f a)
    /\ (forall y, x = Some y -> Forall (fun z => f y <= f z) l)
    /\ (l <> [] -> x <> None).
Proof.
  revert acc. induction l as [|a l IH]; intros acc; simpl.
  - exists acc. split; [done|]. split; [by intros ->|]. split.
    + intros b ->. exists b. split; [done|lia].
    + split; [by constructor|done].
  - destruct (IH (match acc with
                  | None => Some a
                  | Some y => if f a <? f y then Some a else Some y
                  end)) as (x & Hx & _ & Hle & Hall & _).
    exists x. split; [done|]. split; [done|]. split; [|split].
    + intros b ->. destruct (Z.ltb_spec (f a) (f b)).
      * destruct (Hle a eq_refl) as (y & -> & Hy). exists y. split; [done|lia].
      * destruct (Hle b eq_refl) as (y & -> & Hy). by exists y.
    + intros y ->. constructor; [|by apply Hall].
      destruct acc as [b|].
      * destruct (Z.ltb_spec (f a) (f b)).
        -- destruct (Hle a eq_refl) as (y' & [= <-] & Hy). done.
        -- destruct (Hle b eq_refl) as (y' & [= <-] & Hy). lia.
      * destruct (Hle a eq_refl) as (y' & [= <-] & Hy). done.
    + intros _ ->. destruct acc as [b|].
      * destruct (f a <? f b); by destruct (Hle _ eq_refl) as (? & ? & _).
      * by destruct (Hle _ eq_refl) as (? & ? & _).
Qed.

(** [ORDER BY created_at ASC LIMIT 1] returns a row with the least
    [created_at], and no row only if there is none. *)
Lemma oldest_least {A} (f : A -> Z) (l : list A) :
  match oldest f l with
  | Some x => In x l /\ Forall (fun z => f x <= f z) l
  | None => l = []
  end.
Proof.
  destruct (oldest f l) as [x|] eqn:E.
  - split; [by apply oldest_In in E|].
    destruct (oldest_fold f l None) as (x' & Hx & _ & _ & Hall & _).
    unfold oldest in E. rewrite E in Hx. subst x'. by apply Hall.
  - destruct (oldest_fold f l None) as (x' & Hx & _ & _ & _ & Hne).
    unfold oldest in E. rewrite E in Hx. subst x'.
    destruct l; [done|]. by destruct Hne.
Qed.

(** X13: [scheduleNextPendingJob] never throws; it starts nothing while
    some job of the knowledge base is paused, and otherwise it starts
    a pending import job that no other pending import job precedes in
    [created_at], or nothing if there is no pending import job. *)
Theorem X13_schedule_oldest_pending
    (start : string -> M unit) (kbId : string) (w : worker) :
  fst (scheduleNextPendingJob start kbId w) = Ok ()
  /\ (existsb (job_has JobPaused) (jobs (db_of w kbId)) = true ->
      scheduleNextPendingJob start kbId w = (Ok (), w))
  /\ (existsb (job_has JobPaused) (jobs (db_of w kbId)) = false ->
      match next_pending_job (db_of w kbId) with
      | Some next =>
          In next (jobs (db_of w kbId))
          /\ job_status next = JobPending
          /\ job_type next = "import_files"
          /\ (forall j, In j (jobs (db_of w kbId)) ->
                job_status j = JobPending -> job_type j = "import_files" ->
                job_created_at next <= job_created_at j)
          /\ (job_id next <> "" ->
              snd (scheduleNextPendingJob start kbId w) = snd (start (job_id next) w))
      | None =>
          scheduleNextPendingJob start kbId w = (Ok (), w)
          /\ forall j, In j (jobs (db_of w kbId)) ->
               job_status j = JobPending -> job_type j <> "import_files"
      end).
Proof.
  unfold scheduleNextPendingJob, mbind, M_bind, bind, gets, has_paused. simpl.
  split.
  { destruct (existsb _ _); [done|].
    destruct (next_pending_job _) as [next|]; [|done].
    by destruct (String.eqb (job_id next) ""). }
  split; [by intros ->|]. intros ->.
  unfold next_pending_job.
  pose proof (oldest_least job_created_at
    (List.filter (fun j => String.eqb (job_type j) "import_files" && job_has JobPending j)
       (jobs (db_of w kbId)))) as H.
  destruct (oldest _ _) as [next|].
  - destruct H as [Hin Hall]. apply filter_In in Hin as [Hin Hc].
    apply andb_true_iff in Hc as [Ht Hs].
    apply String.eqb_eq in Ht. apply bool_decide_eq_true in Hs.
    split; [done|]. split; [done|]. split; [done|]. split.
    + intros j Hj Hjs Hjt. rewrite Forall_forall in Hall. apply Hall.
      apply list_elem_of_In. apply filter_In. split; [done|].
      apply andb_true_iff. split; [by apply String.eqb_eq|by apply bool_decide_eq_true].
    + intros Hid. apply String.eqb_neq in Hid. by rewrite Hid.
  - split; [done|]. intros j Hj Hjs Hjt.
    assert (Hin : In j (List.filter
              (fun j => String.eqb (job_type j) "import_files" && job_has JobPending j)
              (jobs (db_of w kbId)))).
    { apply filter_In. split; [done|].
      apply andb_true_iff. split; [by apply String.eqb_eq|by apply bool_decide_eq_true]. }
    rewrite H in Hin. done.
Qed.

End QueueFacts.

(* ------------------------------------------------------------------ *)
(** ** What holds in every state the worker can reach                  *)
(* ------------------------------------------------------------------ *)

Module ReachableFacts.
Import Js Kb Ingest Scheduler Handlers Progress WpFacts OpenFacts ProgressFacts.

Section WithNode.
Variable node : NodeApi.
Variable USER_DATA_PATH : string.

(** X14: in every state the worker can reach, across requests, answers
    of the file system and restarts of the process, a manual
    transaction is open on a database only while the run loop of that
    knowledge base waits for the stream of a file, and a knowledge base
    whose loop is suspended in [importOneFile] has its job recorded in
    [runningByKb]. *)
Theorem X14_transaction_only_while_streaming (w : worker) (kbId : string) :
  reachable node USER_DATA_PATH w ->
  (tx (kb_of w kbId) <> None ->
   exists sl documentId blobRelPath,
     suspended w !! kbId = Some sl /\ sl_phase sl = AwaitStream documentId blobRelPath)
  /\ (suspended w !! kbId <> None -> runningByKb w !! kbId <> None).
Proof.
  intros Hr. destruct (reachable_Inv node USER_DATA_PATH w Hr) as [_ Hctl].
  destruct (Hctl kbId) as [H1 H2]. unfold ctl in *. simpl in *. split.
  - intros Htx. apply H1. apply bool_decide_eq_true.
    destruct (tx (kb_of w kbId)); [by eexists|done].
  - intros Hs. destruct (suspended w !! kbId) as [sl|] eqn:E; [|done].
    destruct H2 as [r Hr']; [by eexists|]. by rewrite Hr'.
Qed.

(** X15: in every state the worker can reach, the rows of [job_items]
    have pairwise different ids and each belongs to a row of [jobs];
    a job has no more items than its [progress_total], and its
    [progress_current] never runs ahead of the number of its items
    that are done, failed or skipped. *)
Theorem X15_rows_consistent (w : worker) (kbId : string) :
  reachable node USER_DATA_PATH w ->
  NoDup (map item_id (job_items (db_of w kbId)))
  /\ (forall i, In i (job_items (db_of w kbId)) ->
        exists j, In j (jobs (db_of w kbId)) /\ job_id j = item_job_id i)
  /\ (forall j, In j (jobs (db_of w kbId)) ->
        0 <= progress_current j <= count_terminal (job_id j) (db_of w kbId)
        /\ count_terminal (job_id j) (db_of w kbId) <= count_items (job_id j) (db_of w kbId)
        /\ count_items (job_id j) (db_of w kbId) <= progress_total j).
Proof.
  intros Hr. destruct (reachable_Inv node USER_DATA_PATH w Hr) as [HD _].
  destruct (HD kbId) as [[H1 H2 H3] _]. split; [done|]. split.
  - intros i Hi. rewrite Forall_forall in H2. apply list_elem_of_In in Hi.
    specialize (H2 i Hi). apply existsb_exists in H2 as (j & Hj & Hid).
    exists j. split; [done|]. by apply String.eqb_eq in Hid.
  - intros j Hj. rewrite Forall_forall in H3. apply list_elem_of_In in Hj.
    destruct (H3 j Hj) as [Hp Hc]. split; [done|]. split; [|done].
    apply count_terminal_le_items.
Qed.

End WithNode.

Lemma X14_transaction_only_while_streaming_witness :
  (tx (kb_of Streaming.worker_streaming "kb") <> None ->
   exists sl documentId blobRelPath,
     suspended Streaming.worker_streaming !! "kb" = Some sl
     /\ sl_phase sl = AwaitStream documentId blobRelPath)
  /\ (suspended Streaming.worker_streaming !! "kb" <> None ->
      runningByKb Streaming.worker_streaming !! "kb" <> None).
Proof.
  apply (X14_transaction_only_while_streaming Sample.posix_ascii "/data").
  by exists Streaming.cancel_while_streaming.
Defined.

Lemma X15_rows_consistent_witness :
  NoDup (map item_id (job_items (db_of Sample.worker_two_jobs "kb"))).
Proof.
  apply (X15_rows_consistent Sample.posix_ascii "/data" Sample.worker_two_jobs "kb").
  by exists Sample.two_jobs_trace.
Defined.

End ReachableFacts.

(* ------------------------------------------------------------------ *)
(** ** [kb.createNote]: all of the note or nothing                     *)
(* ------------------------------------------------------------------ *)

Module NoteFacts.
Import Js Kb Ingest Scheduler Handlers Progress Requests Streaming Notes.
Import WpFacts OpenFacts ImportFacts ChunkerFacts IngestFacts ImportFailure.

Section WithNode.
Variable node : NodeApi.
Variable USER_DATA_PATH : string.

Lemma insert_parts_notes kbId n documentId chunkIds now parts index :
  preserves (fun w => notes (db_of w kbId) = n)
    (insert_parts kbId documentId chunkIds now parts index).
Proof.
  revert index. induction parts as [|p parts IH]; intros index; simpl; [by intros w|].
  apply preserves_bind'; [|intros _; apply IH].
  intros w H. unfold db_try, mbind, M_bind, bind, gets. simpl.
  unfold insert_chunk. destruct (existsb _ _); [done|]. destruct (negb _); [done|].
  simpl. unfold db_of. by rewrite kb_of_with_kb_eq.
Qed.

Lemma insert_parts_inside kbId s w0 documentId chunkIds now parts index w :
  streaming kbId "" s w0 w ->
  wp (insert_parts kbId documentId chunkIds now parts index)
     (fun r w' =>
        streaming kbId "" s w0 w'
        /\ notes (db_of w' kbId) = notes (db_of w kbId)
        /\ match r with
           | Ok index' =>
               index' = index + Z.of_nat (length parts)
               /\ streamed kbId "" (chunk_rows documentId chunkIds now index parts) [] w w'
           | Throw _ => True
           end) w.
Proof.
  intros H. apply wp_conj; [|apply wp_conj].
  - by apply (streaming_insert_parts kbId "" s w0).
  - by apply (insert_parts_notes kbId (notes (db_of w kbId))).
  - apply insert_parts_wp.
Qed.

(** X16: [kb.createNote] on an open database with no transaction in
    progress stores all of the note or nothing. When it succeeds, the
    reply carries the new document id, and exactly one document row of
    kind 'note', one note row with the content, and the chunk rows of
    the content (its full windows, then the trimmed remainder) have
    been appended and committed. When it fails, the tables are those
    from before the request. *)
Theorem X16_createNote_all_or_nothing
    (env : call_env) (kbId : string) (title content : jsstring) (w : worker) :
  validation_error (CreateNote kbId title content) = None ->
  cached kbId w ->
  tx (kb_of w kbId) = None ->
  let t := db_of w kbId in
  match handleCreateNote node env kbId title content w with
  | (Ok v, w') =>
      v = VDocumentId (uuid env 0)
      /\ tx (kb_of w' kbId) = None
      /\ documents (db_of w' kbId) = documents t ++ [note_document node env title content]
      /\ notes (db_of w' kbId)
         = notes t ++ [{| note_document_id := uuid env 0; note_content := content |}]
      /\ (exists full carry,
            Chunker.pushes Chunker.CHUNK_SIZE Chunker.OVERLAP content full carry
            /\ chunks (db_of w' kbId)
               = chunks t ++ chunk_rows (uuid env 0) (note_chunk_ids env) (now env) 0
                               (stored_parts full carry))
      /\ jobs (db_of w' kbId) = jobs t
      /\ job_items (db_of w' kbId) = job_items t
  | (Throw _, w') => db_of w' kbId = t /\ tx (kb_of w' kbId) = None
  end.
Proof.
  intros Hv Hc Htx t. simpl in Hv.
  set (Q := fun (r : res value) (w' : worker) =>
    match r with
    | Ok v =>
        v = VDocumentId (uuid env 0)
        /\ tx (kb_of w' kbId) = None
        /\ documents (db_of w' kbId) = documents t ++ [note_document node env title content]
        /\ notes (db_of w' kbId)
           = notes t ++ [{| note_document_id := uuid env 0; note_content := content |}]
        /\ (exists full carry,
              Chunker.pushes Chunker.CHUNK_SIZE Chunker.OVERLAP content full carry
              /\ chunks (db_of w' kbId)
                 = chunks t ++ chunk_rows (uuid env 0) (note_chunk_ids env) (now env) 0
                                 (stored_parts full carry))
        /\ jobs (db_of w' kbId) = jobs t
        /\ job_items (db_of w' kbId) = job_items t
    | Throw _ => db_of w' kbId = t /\ tx (kb_of w' kbId) = None
    end).
  assert (H : wp (handleCreateNote node env kbId title content) Q w); cycle 1.
  { unfold wp in H. by destruct (handleCreateNote node env kbId title content w) as [[v|e] w']. }
  unfold handleCreateNote. cbv zeta.
  destruct (String.eqb kbId ""); [done|].
  destruct (bool_decide (Chunker.trim title = [])); [done|].
  apply wp_bind. unfold wp at 1. rewrite getDb_cached by done. simpl.
  apply wp_bind. apply wp_db_begin. rewrite Htx.
  set (w1 := with_kb kbId _ w).
  assert (H1 : streaming kbId "" t w w1).
  { unfold w1, streaming. rewrite kb_of_with_kb_eq. simpl. split; [done|]. split; [done|].
    intros kb Hkb. by rewrite kb_of_with_kb_ne. }
  (* the [catch] block from inside the transaction *)
  set (Q1 := fun (r : res unit) (w' : worker) =>
    match r with
    | Ok _ => wp (ret (VDocumentId (uuid env 0))) Q w'
    | Throw e => Q (Throw e) w'
    end).
  assert (Hcatch : forall e w2, streaming kbId "" t w w2 ->
    wp (ignore_errors (db_rollback kbId);; throw e) Q1 w2).
  { intros e w2 (H2 & _). apply wp_bind. apply wp_ignore_errors.
    apply wp_db_rollback. rewrite H2. apply wp_throw.
    unfold Q1, Q, db_of. by rewrite kb_of_with_kb_eq. }
  apply wp_bind. fold Q1. apply wp_try_catch.
  (* INSERT INTO documents *)
  apply wp_bind. apply wp_db_try.
  assert (Hdb1 : db_of w1 kbId = t) by (unfold w1, db_of; by rewrite kb_of_with_kb_eq).
  rewrite Hdb1. fold (note_document node env title content).
  unfold insert_document.
  destruct (existsb _ (documents t)); [by apply Hcatch|].
  set (w2 := with_kb kbId _ w1).
  assert (H2 : streaming kbId "" t w w2) by (by apply streaming_with_kb).
  (* INSERT INTO notes *)
  apply wp_bind. apply wp_db_try.
  assert (Hdb2 : db_of w2 kbId
                 = {| jobs := jobs t; job_items := job_items t;
                      documents := documents t ++ [note_document node env title content];
                      chunks := chunks t; notes := notes t;
                      schema_migrations := schema_migrations t |}).
  { unfold w2, db_of. by rewrite kb_of_with_kb_eq. }
  rewrite Hdb2. unfold insert_note. simpl.
  destruct (existsb _ (notes t)); [by apply Hcatch|].
  destruct (negb _); [by apply Hcatch|].
  set (w3 := with_kb kbId _ w2).
  assert (H3 : streaming kbId "" t w w3) by (by apply streaming_with_kb).
  assert (Hdb3 : db_of w3 kbId
                 = {| jobs := jobs t; job_items := job_items t;
                      documents := documents t ++ [note_document node env title content];
                      chunks := chunks t;
                      notes := notes t ++ [{| note_document_id := uuid env 0;
                                              note_content := content |}];
                      schema_migrations := schema_migrations t |}).
  { unfold w3, db_of. by rewrite kb_of_with_kb_eq. }
  clearbody w3. clear w2 H2 Hdb2.
  (* the chunks *)
  apply wp_bind. unfold Chunker.push.
  destruct (Chunker.push_loop _ _ _ _) as [[parts carry]|] eqn:Ep; [|by apply wp_throw, Hcatch].
  apply push_loop_pushes in Ep. simpl in Ep.
  apply wp_bind. fold (note_chunk_ids env).
  eapply wp_mono; [apply (insert_parts_inside kbId t w); exact H3|].
  intros [idx|e] w4 (H4 & Hn4 & Hs4); [|by apply Hcatch].
  destruct Hs4 as [-> Hs4].
  assert (Hlast : forall w5 rows,
    streaming kbId "" t w w5 ->
    notes (db_of w5 kbId) = notes (db_of w3 kbId) ->
    streamed kbId "" rows [] w3 w5 ->
    rows = chunk_rows (uuid env 0) (note_chunk_ids env) (now env) 0 (stored_parts parts carry) ->
    wp (db_commit kbId)
       (fun r w' =>
          match r with
          | Ok _ => wp (ret (VDocumentId (uuid env 0))) Q w'
          | Throw e => wp (ignore_errors (db_rollback kbId);; throw e) Q1 w'
          end) w5).
  { intros w5 rows (H5 & _) Hn5 Hs5 ->. apply wp_db_commit. rewrite H5.
    apply wp_ret. unfold Q. destruct Hs5.
    unfold db_of in *. rewrite !kb_of_with_kb_eq. simpl.
    rewrite st_jobs0, st_items0, st_documents0, st_chunks0, Hn5, Hdb3. simpl.
    split; [done|]. split; [done|]. split; [done|]. split; [done|].
    split; [eauto|done]. }
  unfold stored_parts in Hlast.
  change (if (0 <? length (Chunker.trim carry))%nat then Some (Chunker.trim carry) else None)
    with (fst (Chunker.flush carry)).
  destruct (fst (Chunker.flush carry)) as [rest|].
  - apply wp_bind.
    refine (wp_mono _ _ _ _
              (insert_parts_inside kbId t w (uuid env 0) (note_chunk_ids env) (now env)
                 [rest] (0 + Z.of_nat (length parts)) w4 H4) _).
    intros [idx|e] w5 (H5 & Hn5 & Hs5); [|by apply Hcatch].
    destruct Hs5 as [_ Hs5]. apply wp_ret.
    pose proof (streamed_trans _ _ _ _ _ _ _ _ _ Hs4 Hs5) as Hs45.
    eapply Hlast; [exact H5|congruence|exact Hs45|].
    by rewrite chunk_rows_app.
  - apply wp_ret. eapply Hlast; [exact H4|exact Hn4|exact Hs4|]. by rewrite app_nil_r.
Qed.

End WithNode.

Lemma X16_createNote_all_or_nothing_witness :
  let t := db_of Sample.worker_A_done "kb" in
  match handleCreateNote Sample.posix_ascii (Sample.env_at 9 "n") "kb" (js " todo ")
          (js "buy milk") Sample.worker_A_done with
  | (Ok v, w') =>
      v = VDocumentId "n"
      /\ tx (kb_of w' "kb") = None
      /\ documents (db_of w' "kb")
         = documents t ++ [note_document Sample.posix_ascii (Sample.env_at 9 "n")
                             (js " todo ") (js "buy milk")]
      /\ notes (db_of w' "kb")
         = notes t ++ [{| note_document_id := "n"; note_content := js "buy milk" |}]
      /\ (exists full carry,
            Chunker.pushes Chunker.CHUNK_SIZE Chunker.OVERLAP (js "buy milk") full carry
            /\ chunks (db_of w' "kb")
               = chunks t ++ chunk_rows "n" (note_chunk_ids (Sample.env_at 9 "n")) 9 0
                               (stored_parts full carry))
      /\ jobs (db_of w' "kb") = jobs t
      /\ job_items (db_of w' "kb") = job_items t
  | (Throw _, w') => db_of w' "kb" = t /\ tx (kb_of w' "kb") = None
  end.
Proof.
  apply (X16_createNote_all_or_nothing Sample.posix_ascii (Sample.env_at 9 "n") "kb"
           (js " todo ") (js "buy milk") Sample.worker_A_done).
  - reflexivity.
  - unfold cached. vm_compute. set_solver.
  - reflexivity.
Defined.

End NoteFacts.

(* ------------------------------------------------------------------ *)
(** ** [collectFilesFromDirectory]: what the walk returns              *)
(* ------------------------------------------------------------------ *)

Module WalkFacts.
Import Walk.

Section WithFs.
Variable join : string -> string -> string.
Variable readdir : string -> option (list dirent).

Local Abbreviation scan := (Walk.scan join).
Local Abbreviation walk := (Walk.walk join readdir).
Local Abbreviation files_in := (Walk.files_in join readdir).
Local Abbreviation subdirs_of := (Walk.subdirs_of join readdir).
Local Abbreviation descends := (Walk.descends join readdir).
Local Abbreviation found := (Walk.found join readdir).

(** The loop over the entries appends the subdirectories to the stack
    (when recursive) and the regular files to the output, in the order
    of the entries. *)
Lemma scan_spec recursive current entries stack out :
  scan recursive current entries stack out
  = (stack ++ (if recursive
               then map (fun e => join current (d_name e))
                      (List.filter (fun e => isDirectory e && negb (noise (d_name e))) entries)
               else []),
     out ++ map (fun e => join current (d_name e)) (List.filter isFile entries)).
Proof.
  revert stack out. induction entries as [|e entries IH]; intros stack out; simpl.
  - destruct recursive; by rewrite !app_nil_r.
  - unfold isDirectory at 1 2 3, isFile at 1 2. destruct (d_kind e); simpl.
    + destruct (noise (d_name e)); simpl; [apply IH|].
      rewrite IH. destruct recursive; [|done]. by rewrite <- app_assoc.
    + rewrite IH. by rewrite <- app_assoc.
    + apply IH.
Qed.

(** One round of the loop on a stack with [d] on top. *)
Lemma walk_round fuel recursive stack d out :
  walk (S fuel) recursive (stack ++ [d]) out
  = walk fuel recursive (stack ++ (if recursive then subdirs_of d else []))
      (out ++ files_in d).
Proof.
  simpl. rewrite last_snoc, removelast_last.
  unfold Walk.files_in, Walk.subdirs_of. destruct (readdir d) as [entries|].
  - by rewrite scan_spec.
  - destruct recursive; by rewrite !app_nil_r.
Qed.

Lemma found_unfold d p :
  found true d p <-> p ∈ files_in d \/ exists d', d' ∈ subdirs_of d /\ found true d' p.
Proof.
  unfold Walk.found, Walk.descends. split.
  - intros (d' & Hd & Hp). apply rtc_inv in Hd as [<-|(d1 & H1 & Hd)]; [by left|].
    right. exists d1. split; [done|]. by exists d'.
  - intros [Hp|(d1 & H1 & d' & Hd & Hp)].
    + exists d. split; [done|done].
    + exists d'. split; [|done]. by eapply rtc_l.
Qed.

(** What has been found and what is still to be found make up the
    files below the start directory. *)
Lemma walk_found fuel dir stack out files :
  walk fuel true stack out = Some files ->
  (forall p, found true dir p <-> p ∈ out \/ exists d, d ∈ stack /\ found true d p) ->
  forall p, found true dir p <-> p ∈ files.
Proof.
  revert stack out. induction fuel as [|fuel IH]; intros stack out Hw Hinv; [done|].
  destruct stack as [|d stack _] using rev_ind.
  - simpl in Hw. injection Hw as <-. intros p. rewrite Hinv. split; [|by left].
    intros [Hp|(d & Hd & _)]; [done|]. by apply elem_of_nil in Hd.
  - rewrite walk_round in Hw. apply (IH _ _ Hw). intros p. rewrite Hinv.
    rewrite elem_of_app. split.
    + intros [Hp|(d1 & Hd1 & Hf)]; [by left; left|].
      apply elem_of_app in Hd1 as [Hd1|Hd1].
      * right. exists d1. split; [|done]. apply elem_of_app. by left.
      * apply list_elem_of_singleton in Hd1 as ->.
        apply found_unfold in Hf as [Hf|(d2 & Hd2 & Hf)]; [by left; right|].
        right. exists d2. split; [|done]. apply elem_of_app. by right.
    + intros [[Hp|Hp]|(d1 & Hd1 & Hf)].
      * by left.
      * right. exists d. split; [apply elem_of_app; right; by apply list_elem_of_singleton|].
        apply found_unfold. by left.
      * apply elem_of_app in Hd1 as [Hd1|Hd1].
        -- right. exists d1. split; [|done]. apply elem_of_app. by left.
        -- right. exists d. split; [apply elem_of_app; right; by apply list_elem_of_singleton|].
           apply found_unfold. right. by exists d1.
Qed.

(** The stack empties when the trees below its directories are finite. *)
Lemma walk_ends recursive stack :
  Forall (finite_below join readdir) stack ->
  forall out, exists fuel files, walk fuel recursive stack out = Some files.
Proof.
  intros Hall. induction stack as [|d stack IHstack] using rev_ind.
  - intros out. by exists 1%nat, out.
  - apply Forall_app in Hall as [Hstack Hd]. apply Forall_inv in Hd.
    specialize (IHstack Hstack). clear Hstack.
    revert stack IHstack. induction Hd as [d Hsub IHd]. intros stack IHstack out.
    assert (Hsubs : forall subs, (forall d', d' ∈ subs -> d' ∈ subdirs_of d) ->
              forall out', exists fuel files,
                walk fuel recursive (stack ++ subs) out' = Some files).
    { intros subs. induction subs as [|s subs IHsubs] using rev_ind; intros Hin out'.
      - rewrite app_nil_r. apply IHstack.
      - rewrite app_assoc. apply IHd.
        + apply Hin. apply elem_of_app. right. by apply list_elem_of_singleton.
        + apply IHsubs. intros d' Hd'. apply Hin. apply elem_of_app. by left. }
    destruct recursive.
    + destruct (Hsubs (subdirs_of d) (fun _ H => H) (out ++ files_in d)) as (fuel & files & Hw).
      exists (S fuel), files. by rewrite walk_round.
    + destruct (IHstack (out ++ files_in d)) as (fuel & files & Hw).
      exists (S fuel), files. rewrite walk_round. by rewrite app_nil_r.
Qed.

(** More rounds than the loop needs change nothing. *)
Lemma walk_more_fuel fuel fuel' recursive stack out files :
  walk fuel recursive stack out = Some files -> (fuel <= fuel')%nat ->
  walk fuel' recursive stack out = Some files.
Proof.
  revert fuel' stack out. induction fuel as [|fuel IH]; intros fuel' stack out Hw Hle; [done|].
  destruct fuel' as [|fuel']; [lia|].
  destruct stack as [|d stack _] using rev_ind; [done|].
  rewrite walk_round in *. apply (IH fuel'); [done|lia].
Qed.

(** X17: when the directory tree below [dir] is finite (as far as the
    walk descends into it), [collectFilesFromDirectory(dir, true)]
    ends, and it returns exactly the regular files of [dir] and of the
    directories reached from it through subdirectories that are not
    named node_modules, .git, .idea or .vscode: nothing inside such a
    directory, nothing that is neither a regular file nor inside a
    directory (a symbolic link is not followed), and directories that
    cannot be read are passed over. *)
Theorem X17_collect_recursive (dir : string) :
  finite_below join readdir dir ->
  exists fuel files,
    (forall fuel', (fuel <= fuel')%nat ->
       collectFilesFromDirectory join readdir fuel' dir true = Some files)
    /\ forall p, p ∈ files <-> found true dir p.
Proof.
  intros Hfin.
  destruct (walk_ends true [dir] (Forall_cons_2 _ _ _ Hfin (Forall_nil_2 _)) [])
    as (fuel & files & Hw).
  exists fuel, files. split.
  - intros fuel' Hle. by apply (walk_more_fuel fuel).
  - intros p. symmetry. apply (walk_found fuel dir [dir] [] files Hw).
    intros q. split.
    + intros Hq. right. exists dir. split; [by apply list_elem_of_singleton|done].
    + intros [Hq|(d & Hd & Hq)]; [by apply elem_of_nil in Hq|].
      by apply list_elem_of_singleton in Hd as ->.
Qed.

(** X18: [collectFilesFromDirectory(dir, false)] reads [dir] only: it
    returns, in the order of the directory listing, the full paths of
    the entries that are regular files, and the empty list when [dir]
    cannot be read. *)
Theorem X18_collect_flat (dir : string) (fuel : nat) :
  collectFilesFromDirectory join readdir (S (S fuel)) dir false
  = Some (match readdir dir with
          | Some entries => map (fun e => join dir (d_name e)) (List.filter isFile entries)
          | None => []
          end).
Proof.
  unfold collectFilesFromDirectory.
  change [dir] with ([] ++ [dir]). rewrite walk_round. done.
Qed.

End WithFs.

Lemma sample_finite : finite_below sample_join sample_readdir "/src".
Proof.
  constructor. intros d Hd. vm_compute in Hd.
  apply list_elem_of_singleton in Hd as ->.
  constructor. intros d Hd. vm_compute in Hd. by apply elem_of_nil in Hd.
Qed.

Lemma X17_collect_recursive_witness :
  exists fuel files,
    (forall fuel', (fuel <= fuel')%nat ->
       collectFilesFromDirectory sample_join sample_readdir fuel' "/src" true = Some files)
    /\ forall p, p ∈ files <-> found sample_join sample_readdir true "/src" p.
Proof. apply (X17_collect_recursive sample_join sample_readdir "/src"), sample_finite. Defined.

End WalkFacts.

(* ------------------------------------------------------------------ *)
(** ** The knowledge-base service: listing, renaming, deleting         *)
(* ------------------------------------------------------------------ *)

Module BasesFacts.
Import Js Kb Scheduler Bases OpenFacts.



Section WithNode.
Variable node : NodeApi.
Variable userData : string.

Local Abbreviation summary_of := (Bases.summary_of node userData).
Local Abbreviation ensureKnowledgeBaseInitialized :=
  (Bases.ensureKnowledgeBaseInitialized node userData).
Local Abbreviation createKnowledgeBase := (Bases.createKnowledgeBase node userData).
Local Abbreviation listKnowledgeBases := (Bases.listKnowledgeBases node userData).
Local Abbreviation updateKnowledgeBaseManifest :=
  (Bases.updateKnowledgeBaseManifest node userData).

Lemma list_entry_Some entry s :
  list_entry node userData entry = Some s <->
  exists m, bd_manifest (snd entry) = Some (Stored m)
            /\ m_id m <> "" /\ m_name m <> [] /\ s = summary_of m (fst entry).
Proof.
  unfold list_entry. destruct (bd_manifest (snd entry)) as [[|m]|].
  - split; [done|]. by intros (m & ? & _).
  - destruct (String.eqb (m_id m) "") eqn:Eid; simpl.
    + apply String.eqb_eq in Eid. split; [done|]. intros (m' & [= <-] & Hid & _). done.
    + apply String.eqb_neq in Eid. case_bool_decide as Hn.
      * split; [done|]. intros (m' & [= <-] & _ & Hn' & _). done.
      * split.
        -- intros [= <-]. by exists m.
        -- intros (m' & [= <-] & _ & _ & ->). done.
  - split; [done|]. by intros (m & ? & _).
Qed.

Lemma list_elem (b : bases) s :
  s ∈ listKnowledgeBases b <->
  exists kbId d m,
    b !! kbId = Some d /\ bd_manifest d = Some (Stored m)
    /\ m_id m <> "" /\ m_name m <> [] /\ s = summary_of m kbId.
Proof.
  unfold Bases.listKnowledgeBases.
  rewrite merge_sort_Permutation. rewrite list_elem_of_omap. split.
  - intros ([kbId d] & Hin & Hs). apply elem_of_map_to_list in Hin.
    apply list_entry_Some in Hs as (m & Hm & Hid & Hn & ->). by exists kbId, d, m.
  - intros (kbId & d & m & Hb & Hm & Hid & Hn & ->). exists (kbId, d).
    split; [by apply elem_of_map_to_list|]. apply list_entry_Some. by exists m.
Qed.

Lemma ensure_spec now now_db kbId b :
  ensureKnowledgeBaseInitialized now now_db kbId b
  = (Ok (summary_of (ensured_manifest now kbId b) kbId),
     <[kbId := {| bd_manifest := Some (Stored (ensured_manifest now kbId b));
                  bd_meta := ensured_meta now_db kbId b |}]> b).
Proof.
  unfold Bases.ensureKnowledgeBaseInitialized, ensured_manifest, ensured_meta, mkdirs.
  destruct (b !! kbId) as [[mf t]|] eqn:Eb.
  - rewrite Eb. simpl.
    pose proof (migrate_tables_ok now_db t) as (Hok & _).
    destruct mf as [[|m]|]; unfold open_and_close, write_manifest; rewrite ?Eb;
      rewrite ?lookup_insert_eq; simpl.
    all: destruct (migrate_tables now_db t) as [[[]|e] t']; simpl in *; try done.
    all: by rewrite ?insert_insert_eq.
  - rewrite lookup_insert_eq. simpl. unfold open_and_close, write_manifest.
    rewrite !lookup_insert_eq. simpl. by rewrite !insert_insert_eq.
Qed.

Lemma ensured_manifest_insert now kbId m t (b : bases) :
  ensured_manifest now kbId (<[kbId := {| bd_manifest := Some (Stored m); bd_meta := t |}]> b)
  = m.
Proof. unfold ensured_manifest. by rewrite lookup_insert_eq. Qed.

Lemma ensured_meta_again now_db now_db2 kbId mf (b : bases) :
  ensured_meta now_db2 kbId
    (<[kbId := {| bd_manifest := mf; bd_meta := ensured_meta now_db kbId b |}]> b)
  = ensured_meta now_db kbId b.
Proof.
  unfold ensured_meta at 1. rewrite lookup_insert_eq. cbn [bd_meta]. unfold ensured_meta.
  pose proof (migrate_tables_ok now_db
                (match b !! kbId with Some d => bd_meta d | None => empty_tables end))
    as (_ & _ & _ & _ & _ & _ & Hmax).
  by rewrite (migrate_tables_again now_db2 _ Hmax).
Qed.


(** X20: renaming a knowledge base to a name of white space only
    makes it disappear from the list. [updateKnowledgeBaseManifest]
    takes the non-empty name, trims it to the empty string and writes
    it; [listKnowledgeBases] then passes the directory over as if it
    were not there, although the directory and its database remain. *)
Theorem X20_blank_rename_hides
    (now' now_db now : Z) (kbId : string) (name : jsstring)
    (description : option (option jsstring)) (b : bases) :
  name <> [] -> Chunker.trim name = [] ->
  exists cur b',
    updateKnowledgeBaseManifest now' now_db now kbId (Some name) description b = (Ok cur, b')
    /\ m_name (s_manifest cur) = []
    /\ is_Some (b' !! kbId)
    /\ forall s, s ∈ listKnowledgeBases b' <-> s ∈ listKnowledgeBases (delete kbId b').
Proof.
  intros Hne Htrim. unfold Bases.updateKnowledgeBaseManifest.
  rewrite ensure_spec. cbn [s_manifest summary_of Bases.summary_of].
  rewrite bool_decide_eq_false_2 by done. rewrite Htrim.
  eexists _, _. split; [reflexivity|]. split; [done|].
  unfold write_manifest. rewrite lookup_insert_eq. rewrite insert_insert_eq. simpl.
  split; [by rewrite lookup_insert_eq|].
  intros s. rewrite !list_elem. rewrite delete_insert_eq. split.
  - intros (kb & d & m & Hb & Hm & Hid & Hn & ->).
    destruct (decide (kb = kbId)) as [->|Hkb].
    + rewrite lookup_insert_eq in Hb. injection Hb as <-. simpl in Hm.
      injection Hm as <-. done.
    + rewrite lookup_insert_ne in Hb by done.
      exists kb, d, m. split; [|done]. by rewrite lookup_delete_ne.
  - intros (kb & d & m & Hb & Hm & Hid & Hn & ->).
    destruct (decide (kb = kbId)) as [->|Hkb]; [by rewrite lookup_delete_eq in Hb|].
    rewrite lookup_delete_ne in Hb by done.
    exists kb, d, m. split; [|done]. by rewrite lookup_insert_ne.
Qed.

(** X21: [ensureKnowledgeBaseInitialized] is idempotent: a second call
    returns the summary of the first and changes nothing, whatever the
    clock shows; in particular the manifest that the first call found
    or wrote is never rewritten. *)
Theorem X21_ensure_idempotent
    (now now_db now2 now_db2 : Z) (kbId : string) (b : bases) :
  let r := ensureKnowledgeBaseInitialized now now_db kbId b in
  fst r = Ok (summary_of (ensured_manifest now kbId b) kbId)
  /\ ensureKnowledgeBaseInitialized now2 now_db2 kbId (snd r) = r.
Proof.
  cbv zeta. rewrite ensure_spec. cbn [fst snd]. split; [done|].
  rewrite ensure_spec, ensured_manifest_insert, ensured_meta_again.
  by rewrite insert_insert_eq.
Qed.

(** X22: a knowledge base that was created is in the list, under the
    trimmed name or, if that is empty, the default name, with
    [createdAt = updatedAt]; the knowledge bases listed before are
    still listed; and deleting it again with [confirmed] puts the
    directories back as they were, while a delete that is not
    confirmed throws and removes nothing. *)
Theorem X22_create_list_delete
    (id : string) (now now' now_db : Z) (name : jsstring) (description : option jsstring)
    (b : bases) :
  id <> "" -> b !! id = None ->
  exists s b',
    createKnowledgeBase id now now' now_db name description b = (Ok s, b')
    /\ s ∈ listKnowledgeBases b'
    /\ m_id (s_manifest s) = id
    /\ m_name (s_manifest s)
       = (if bool_decide (Chunker.trim name = []) then unnamed else Chunker.trim name)
    /\ m_createdAt (s_manifest s) = now /\ m_updatedAt (s_manifest s) = now
    /\ (forall x, x ∈ listKnowledgeBases b -> x ∈ listKnowledgeBases b')
    /\ deleteKnowledgeBaseDir id false b'
       = (Throw "危险操作：删除知识库需要 confirmed=true", b')
    /\ deleteKnowledgeBaseDir id true b' = (Ok (), b).
Proof.
  intros Hid Hfresh. unfold Bases.createKnowledgeBase.
  rewrite ensure_spec. unfold mkdirs, write_manifest. rewrite Hfresh.
  rewrite !lookup_insert_eq. cbn [bd_meta]. rewrite insert_insert_eq.
  unfold ensured_manifest. rewrite lookup_insert_eq. rewrite insert_insert_eq.
  eexists _, _. split; [reflexivity|]. simpl.
  assert (Hname : (if bool_decide (Chunker.trim name = []) then unnamed else Chunker.trim name)
                  <> []).
  { case_bool_decide; done. }
  split.
  { apply list_elem. eexists id, _, _. rewrite lookup_insert_eq.
    split; [reflexivity|]. simpl. split; [reflexivity|]. simpl. done. }
  split; [done|]. split; [done|]. split; [done|]. split; [done|]. split.
  { intros x. rewrite !list_elem. intros (kb & d & m & Hb & Hm & Hi & Hn & ->).
    exists kb, d, m. split; [|done]. rewrite lookup_insert_ne; [done|]. congruence. }
  unfold deleteKnowledgeBaseDir. simpl. split; [done|].
  rewrite lookup_insert_eq. by rewrite delete_insert_id.
Qed.


End WithNode.

Lemma X20_blank_rename_hides_witness :
  exists cur b',
    Bases.updateKnowledgeBaseManifest Sample.posix_ascii "/data" 1 2 3 "kb" (Some (js " "))
      None ∅ = (Ok cur, b')
    /\ m_name (s_manifest cur) = []
    /\ is_Some (b' !! "kb")
    /\ forall s, s ∈ Bases.listKnowledgeBases Sample.posix_ascii "/data" b'
                 <-> s ∈ Bases.listKnowledgeBases Sample.posix_ascii "/data" (delete "kb" b').
Proof.
  apply (X20_blank_rename_hides Sample.posix_ascii "/data" 1 2 3 "kb" (js " ") None ∅);
    [discriminate|reflexivity].
Defined.

Lemma X22_create_list_delete_witness :
  exists s b',
    Bases.createKnowledgeBase Sample.posix_ascii "/data" "u1" 1 2 3 (js " notes ") None ∅
    = (Ok s, b')
    /\ s ∈ Bases.listKnowledgeBases Sample.posix_ascii "/data" b'
    /\ m_id (s_manifest s) = "u1"
    /\ m_name (s_manifest s)
       = (if bool_decide (Chunker.trim (js " notes ") = []) then unnamed
          else Chunker.trim (js " notes "))
    /\ m_createdAt (s_manifest s) = 1 /\ m_updatedAt (s_manifest s) = 1
    /\ (forall x, x ∈ Bases.listKnowledgeBases Sample.posix_ascii "/data" ∅ ->
                  x ∈ Bases.listKnowledgeBases Sample.posix_ascii "/data" b')
    /\ deleteKnowledgeBaseDir "u1" false b'
       = (Throw "危险操作：删除知识库需要 confirmed=true", b')
    /\ deleteKnowledgeBaseDir "u1" true b' = (Ok (), ∅).
Proof.
  apply (X22_create_list_delete Sample.posix_ascii "/data" "u1" 1 2 3 (js " notes ") None ∅);
    [discriminate|reflexivity].
Defined.

End BasesFacts.

(* ------------------------------------------------------------------ *)
(** ** A job that is left to run ends as 'done'                        *)
(* ------------------------------------------------------------------ *)

Module CompletionFacts.
Import Js Kb Ingest Scheduler Handlers Progress Completion Streaming.
Import WpFacts OpenFacts ImportFacts IngestFacts ProgressFacts QueueFacts ImportFailure.

(** *** The import of a file leaves the rows of the loop alone *)

Lemma same_rows_refl kbId w : same_rows kbId w w.
Proof. done. Qed.

Lemma same_rows_trans kbId w1 w2 w3 :
  same_rows kbId w1 w2 -> same_rows kbId w2 w3 -> same_rows kbId w1 w3.
Proof. intros (H1 & H2 & H3) (H4 & H5 & H6). split_and!; congruence. Qed.

Lemma same_rows_with_kb kbId (g : kbdir -> kbdir) w :
  jobs (meta (g (kb_of w kbId))) = jobs (db_of w kbId) ->
  map item_state (job_items (meta (g (kb_of w kbId))))
  = map item_state (job_items (db_of w kbId)) ->
  same_rows kbId w (with_kb kbId g w).
Proof.
  intros H1 H2. unfold same_rows, db_of. rewrite kb_of_with_kb_eq. done.
Qed.

Lemma wp_keeps_rows {A} kbId (m : M A) w :
  keeps_rows kbId m -> wp m (fun _ w' => same_rows kbId w w') w.
Proof. intros H. apply H. Qed.

Lemma keeps_rows_ret {A} kbId (a : A) : keeps_rows kbId (ret a).
Proof. intros w. apply same_rows_refl. Qed.

Lemma keeps_rows_throw {A} kbId msg : keeps_rows kbId (throw msg : M A).
Proof. intros w. apply same_rows_refl. Qed.

Lemma keeps_rows_bind {A B} kbId (m : M A) (k : A -> M B) :
  keeps_rows kbId m -> (forall a, keeps_rows kbId (k a)) -> keeps_rows kbId (m ≫= k).
Proof.
  intros Hm Hk w. specialize (Hm w). unfold mbind, M_bind, bind.
  destruct (m w) as [[a|e] w1]; simpl in *; [|done].
  eapply same_rows_trans; [exact Hm|apply Hk].
Qed.

Lemma keeps_rows_db_run kbId f :
  (forall t, jobs (f t) = jobs t) ->
  (forall t, map item_state (job_items (f t)) = map item_state (job_items t)) ->
  keeps_rows kbId (db_run kbId f).
Proof. intros H1 H2 w. apply same_rows_with_kb; simpl; [apply H1|apply H2]. Qed.

Lemma keeps_rows_db_try kbId f :
  (forall t t', f t = Ok t' -> jobs t' = jobs t /\ job_items t' = job_items t) ->
  keeps_rows kbId (db_try kbId f).
Proof.
  intros H w. unfold db_try, mbind, M_bind, bind, gets. simpl.
  destruct (f (db_of w kbId)) as [t'|e] eqn:E; [|apply same_rows_refl].
  destruct (H _ _ E) as [H1 H2]. apply same_rows_with_kb; simpl; [done|by rewrite H2].
Qed.

Lemma insert_chunk_rows c t t' :
  insert_chunk c t = Ok t' -> jobs t' = jobs t /\ job_items t' = job_items t.
Proof.
  unfold insert_chunk. destruct (existsb _ _); [done|]. destruct (negb _); [done|].
  by intros [= <-].
Qed.

Lemma keeps_rows_insert_parts kbId documentId chunkIds now parts index :
  keeps_rows kbId (insert_parts kbId documentId chunkIds now parts index).
Proof.
  revert index. induction parts as [|p parts IH]; intros index; simpl;
    [apply keeps_rows_ret|].
  apply keeps_rows_bind; [|intros _; apply IH].
  apply keeps_rows_db_try. intros t t'. apply insert_chunk_rows.
Qed.

Lemma map_item_state_touch jobItemId now t :
  map item_state (job_items (touch_item jobItemId now t)) = map item_state (job_items t).
Proof.
  unfold touch_item. simpl. rewrite map_map. apply map_ext. intros i.
  by destruct (String.eqb (item_id i) jobItemId).
Qed.

Section WithNode.
Variable node : NodeApi.
Variable USER_DATA_PATH : string.

Lemma keeps_rows_push_and_insert kbId documentId chunkIds now text (st : stream_state node) :
  keeps_rows kbId (push_and_insert node kbId documentId chunkIds now text st).
Proof.
  unfold push_and_insert. destruct (Chunker.push _ _ _ _) as [[parts carry']|];
    [|apply keeps_rows_throw].
  apply keeps_rows_bind; [apply keeps_rows_insert_parts|]. intros idx. apply keeps_rows_ret.
Qed.

Lemma keeps_rows_write_blob kbId rel buf : keeps_rows kbId (write_blob kbId rel buf).
Proof. intros w. by apply same_rows_with_kb. Qed.

Lemma keeps_rows_stream_loop kbId documentId rel chunkIds now bufs (st : stream_state node) :
  keeps_rows kbId (stream_loop node kbId documentId rel chunkIds now bufs st).
Proof.
  revert st. induction bufs as [|buf bufs IH]; intros st; simpl; [apply keeps_rows_ret|].
  apply keeps_rows_bind; [apply keeps_rows_write_blob|]. intros _.
  destruct (negb (canIndex node st)); [apply IH|].
  destruct (negb (decidedBinary node st) && bufferLooksBinary buf); [apply IH|].
  destruct (decoder_write node (decoder node st) buf) as [text dec].
  apply keeps_rows_bind; [apply keeps_rows_push_and_insert|]. intros st2. apply IH.
Qed.

Lemma keeps_rows_db_commit kbId : keeps_rows kbId (db_commit kbId).
Proof.
  intros w. unfold db_commit, mbind, M_bind, bind, gets. simpl.
  destruct (tx (kb_of w kbId)); [|apply same_rows_refl]. by apply same_rows_with_kb.
Qed.

Lemma keeps_rows_stream_finish kbId documentId chunkIds now (st : stream_state node) :
  keeps_rows kbId (stream_finish node kbId documentId chunkIds now st).
Proof.
  unfold stream_finish. apply keeps_rows_bind.
  { destruct (canIndex node st); [|apply keeps_rows_ret].
    apply keeps_rows_bind; [apply keeps_rows_push_and_insert|]. intros st'.
    destruct (fst (Chunker.flush _)); [|apply keeps_rows_ret].
    apply keeps_rows_bind; [apply keeps_rows_insert_parts|]. intros _. apply keeps_rows_ret. }
  intros _. apply keeps_rows_bind; [by apply keeps_rows_db_run|]. intros _.
  apply keeps_rows_bind; [apply keeps_rows_db_commit|]. intros _. apply keeps_rows_ret.
Qed.

(** The stream of a file, run inside the transaction that was begun on
    the rows [s]: it ends with the transaction closed and the rows of
    the loop as they were, in a result that is not 'pending' or
    'processing', or on the way to the removal of the blob. *)
Lemma on_stream_rows kbId jobItemId sourcePath documentId rel out chunkIds now s w :
  tx (kb_of w kbId) = Some s ->
  jobs s = jobs (db_of w kbId) ->
  job_items s = job_items (db_of w kbId) ->
  wp (importOneFile_on_stream node kbId jobItemId sourcePath documentId rel out chunkIds now)
     (fun r w' =>
        same_rows kbId w w' /\ tx (kb_of w' kbId) = None
        /\ match r with
           | Ok (Returned res) => result_terminal (r_status res) = true
           | Ok (Awaiting p) => exists message, p = AwaitRm rel message
           | Throw _ => False
           end) w.
Proof.
  intros Htx Hj Hi.
  assert (Hsame : wp (importOneFile_on_stream node kbId jobItemId sourcePath documentId rel
                        out chunkIds now) (fun _ w' => same_rows kbId w w') w).
  { unfold importOneFile_on_stream. apply wp_try_catch.
    eapply wp_mono.
    { apply wp_conj.
      - apply (stream_throws_inside node kbId rel s w jobItemId sourcePath). by split.
      - apply wp_keeps_rows.
        apply keeps_rows_bind; [apply keeps_rows_stream_loop|].
        intros st. destruct (stream_error out); [apply keeps_rows_throw|].
        apply keeps_rows_bind; [apply keeps_rows_stream_finish|]. intros r.
        apply keeps_rows_bind; [|intros _; apply keeps_rows_ret].
        apply keeps_rows_db_run; [done|]. intros t. apply map_item_state_touch. }
    intros [[r|p]|e] w1; [by intros [_ ?]|by intros [_ ?]|].
    intros [(Htx1 & _) (H1 & H2 & H3)].
    unfold import_catch. apply wp_bind. apply wp_ignore_errors. apply wp_db_rollback.
    rewrite Htx1. apply wp_ret. unfold same_rows, db_of. rewrite kb_of_with_kb_eq. simpl.
    split; [done|]. split; [by rewrite Hi|done]. }
  eapply wp_mono.
  { apply wp_conj; [exact Hsame|apply importOneFile_on_stream_wp]. }
  intros [[res|p]|e] w'; simpl.
  - intros [Hs [_ Hd]]. destruct Hd. split; [done|]. split; [done|].
    rewrite sd_status0. by destruct (indexed _ _ _).
  - intros [Hs [Hp Ht]]. done.
  - by intros [_ ?].
Qed.

Lemma on_stat_rows kbId jobItemId sourcePath st documentId now w :
  tx (kb_of w kbId) = None ->
  wp (importOneFile_on_stat node kbId jobItemId sourcePath st documentId now)
     (fun r w' =>
        same_rows kbId w w'
        /\ match r with
           | Ok (Returned res) =>
               result_terminal (r_status res) = true /\ tx (kb_of w' kbId) = None
           | Ok (Awaiting (AwaitStream _ _)) =>
               exists s, tx (kb_of w' kbId) = Some s
                         /\ jobs s = jobs (db_of w' kbId)
                         /\ job_items s = job_items (db_of w' kbId)
           | Ok (Awaiting (AwaitRm _ _)) => tx (kb_of w' kbId) = None
           | Ok (Awaiting AwaitStat) | Throw _ => False
           end) w.
Proof.
  intros Htx. destruct st as [| |size]; simpl.
  - apply wp_ret. by split.
  - apply wp_ret. by split.
  - apply wp_bind. apply wp_db_begin. rewrite Htx.
    apply wp_try_catch. apply wp_bind. apply wp_db_try.
    unfold db_of at 1. rewrite kb_of_with_kb_eq. simpl.
    unfold insert_document. simpl.
    destruct (existsb _ (documents (meta (kb_of w kbId)))).
    + unfold import_catch. apply wp_bind. apply wp_ignore_errors. apply wp_db_rollback.
      rewrite kb_of_with_kb_eq. simpl. apply wp_ret.
      unfold same_rows, db_of. rewrite !kb_of_with_kb_eq. done.
    + apply wp_bind. unfold create_blob. apply wp_modify. apply wp_ret.
      unfold same_rows, db_of. rewrite !kb_of_with_kb_eq. simpl.
      split; [done|]. by exists (meta (kb_of w kbId)).
Qed.

Lemma on_rm_rows kbId jobItemId rel message removed now w :
  tx (kb_of w kbId) = None ->
  wp (importOneFile_on_rm kbId jobItemId rel message removed now)
     (fun r w' =>
        same_rows kbId w w' /\ tx (kb_of w' kbId) = None
        /\ exists res, r = Ok (Returned res) /\ result_terminal (r_status res) = true) w.
Proof.
  intros Htx. unfold wp. rewrite on_rm_result. simpl.
  unfold same_rows, db_of. rewrite !kb_of_with_kb_eq. simpl.
  destruct removed; rewrite ?kb_of_with_kb_eq; simpl.
  all: split; [|split; [done|by eexists]].
  all: split; [done|]; split; [|done].
  all: apply (map_item_state_touch jobItemId now (meta (kb_of w kbId))).
Qed.

(** *** The statements of the loop on the items of the job *)

Lemma record_result_items jobId x s err now items :
  result_terminal s = true ->
  Forall (fun i => item_job_id i = jobId -> item_status i = ItemProcessing -> item_id i = x)
    items ->
  Forall (fun i => item_job_id i = jobId -> item_status i <> ItemProcessing)
    (update_where (is_item x)
       (fun i => set_item i s err now (item_started_at i) (Some now)) items)
  /\ (length (List.filter
               (fun i => String.eqb (item_job_id i) jobId && item_has ItemPending i)
               (update_where (is_item x)
                  (fun i => set_item i s err now (item_started_at i) (Some now)) items))
      <= length (List.filter
                   (fun i => String.eqb (item_job_id i) jobId && item_has ItemPending i)
                   items))%nat.
Proof.
  intros Hs. unfold update_where. induction 1 as [|i items Hi _ [IH1 IH2]]; simpl.
  { split; [constructor|lia]. }
  destruct (is_item x i) eqn:Ex; simpl.
  - split.
    + constructor; [|done]. simpl. intros _ Hp. rewrite Hp in Hs. done.
    + unfold item_has at 1. simpl.
      rewrite bool_decide_eq_false_2 by (intros ->; done). rewrite andb_false_r.
      destruct (_ && _); simpl; lia.
  - split.
    + constructor; [|done]. intros Hj Hp. unfold is_item in Ex.
      apply String.eqb_neq in Ex. by apply Ex, Hi.
    + destruct (_ && _); simpl; lia.
Qed.

Lemma take_item_items jobId (next : job_item) now items :
  In next items -> item_job_id next = jobId -> item_status next = ItemPending ->
  Forall (fun i => item_job_id i = jobId -> item_status i <> ItemProcessing) items ->
  Forall (fun i => item_job_id i = jobId -> item_status i = ItemProcessing ->
                   item_id i = item_id next)
    (update_where (is_item (item_id next))
       (fun i => set_item i ItemProcessing (item_error_message i) now (Some now)
                   (item_finished_at i)) items)
  /\ (length (List.filter
               (fun i => String.eqb (item_job_id i) jobId && item_has ItemPending i)
               (update_where (is_item (item_id next))
                  (fun i => set_item i ItemProcessing (item_error_message i) now (Some now)
                              (item_finished_at i)) items))
      < length (List.filter
                  (fun i => String.eqb (item_job_id i) jobId && item_has ItemPending i)
                  items))%nat.
Proof.
  intros Hin Hj Hp Hall. unfold update_where.
  assert (Hle : forall l,
    Forall (fun i => item_job_id i = jobId -> item_status i <> ItemProcessing) l ->
    Forall (fun i => item_job_id i = jobId -> item_status i = ItemProcessing ->
                     item_id i = item_id next)
      (map (fun r => if is_item (item_id next) r
                     then set_item r ItemProcessing (item_error_message r) now (Some now)
                            (item_finished_at r)
                     else r) l)
    /\ (length (List.filter
                 (fun i => String.eqb (item_job_id i) jobId && item_has ItemPending i)
                 (map (fun r => if is_item (item_id next) r
                                then set_item r ItemProcessing (item_error_message r) now
                                       (Some now) (item_finished_at r)
                                else r) l))
        <= length (List.filter
                     (fun i => String.eqb (item_job_id i) jobId && item_has ItemPending i)
                     l))%nat).
  { induction 1 as [|i l Hi _ [IH1 IH2]]; simpl; [split; [constructor|lia]|].
    destruct (is_item (item_id next) i) eqn:Ex; simpl.
    - split.
      + constructor; [|done]. simpl. intros _ _. by apply String.eqb_eq.
      + unfold item_has at 1. simpl. rewrite andb_false_r.
        destruct (_ && _); simpl; lia.
    - split.
      + constructor; [|done]. intros H1 H2. by destruct (Hi H1).
      + destruct (_ && _); simpl; lia. }
  split; [by apply Hle|].
  induction Hall as [|i l Hi Hall IH]; [done|].
  simpl. destruct Hin as [->|Hin].
  - assert (Hself : is_item (item_id next) next = true)
      by (unfold is_item; apply String.eqb_refl).
    assert (Hnp : item_has ItemPending next = true)
      by (unfold item_has; by apply bool_decide_eq_true).
    rewrite !Hself, Hnp, Hj, String.eqb_refl.
    match goal with
    | |- context [item_has ItemPending (set_item ?a ItemProcessing ?b ?c ?d ?e)] =>
        change (item_has ItemPending (set_item a ItemProcessing b c d e)) with false
    end.
    simpl. rewrite ?Hj, ?andb_false_r. simpl.
    destruct (Hle l Hall) as [_ Hl]. lia.
  - specialize (IH Hin).
    destruct (is_item (item_id next) i); simpl.
    + unfold item_has at 1. simpl. rewrite andb_false_r.
      destruct (_ && _); simpl; lia.
    + destruct (_ && _); simpl; lia.
Qed.

Lemma all_terminal jobId t :
  next_pending_item jobId t = None ->
  Forall (fun i => item_job_id i = jobId -> item_status i <> ItemProcessing) (job_items t) ->
  Forall (fun i => item_job_id i = jobId -> item_terminal i = true) (job_items t)
  /\ count_terminal jobId t = count_items jobId t.
Proof.
  unfold next_pending_item, count_terminal, count_items. intros Hnone Hall.
  pose proof (oldest_least item_created_at
    (List.filter (fun i => String.eqb (item_job_id i) jobId && item_has ItemPending i)
       (job_items t))) as Hold.
  rewrite Hnone in Hold. clear Hnone.
  induction Hall as [|i l Hi _ IH]; [done|].
  simpl in Hold. simpl.
  destruct (String.eqb (item_job_id i) jobId) eqn:Ej; simpl in *.
  - apply String.eqb_eq in Ej. specialize (Hi Ej).
    assert (Hst : item_has ItemPending i = false /\ item_terminal i = true).
    { unfold item_terminal, item_has in *.
      destruct (item_status i); simpl in *; done. }
    destruct Hst as [Hp Ht]. rewrite Hp in Hold. rewrite Ht. simpl.
    destruct (IH Hold) as [IH1 IH2]. split; [by constructor|lia].
  - destruct (IH Hold) as [IH1 IH2]. split; [|done].
    constructor; [|done]. intros Hj. apply String.eqb_neq in Ej. done.
Qed.

Lemma no_pending_job t :
  Forall (fun j => job_status j <> JobPending) (jobs t) -> next_pending_job t = None.
Proof.
  unfold next_pending_job. intros H.
  replace (List.filter _ (jobs t)) with (@nil job); [done|].
  induction H as [|j l Hj _ IH]; [done|]. simpl.
  unfold job_has. rewrite bool_decide_eq_false_2 by done. by rewrite andb_false_r.
Qed.

(** *** The loop from one result of [importOneFile] to the next wait *)

Lemma after_import_spec r now kbId jobId itemId w :
  exists w',
    after_import r now kbId jobId itemId w = (Ok (), w')
    /\ db_of w' kbId
       = set_progress jobId
           (count_terminal jobId (record_item_result itemId r now (db_of w kbId))) now
           (record_item_result itemId r now (db_of w kbId))
    /\ tx (kb_of w' kbId) = tx (kb_of w kbId)
    /\ process_state w' = process_state w.
Proof.
  unfold after_import, sendJobUpdate, send, db_run, modify, mbind, M_bind, bind, gets.
  simpl. eexists. split; [reflexivity|].
  unfold db_of. change (kb_of (with_sent ?f ?x) kbId) with (kb_of x kbId).
  rewrite !kb_of_with_kb_eq. done.
Qed.

Lemma loop_top_spec now kbId jobId w :
  kbId ∈ dbCache w ->
  jobId ∉ inMemoryCanceledJobs w ->
  job_status <$> find_job jobId (db_of w kbId) = Some JobProcessing ->
  match next_pending_item jobId (db_of w kbId) with
  | None =>
      exists w',
        loop_top now kbId jobId w = (Ok Exited, w')
        /\ db_of w' kbId = mark_done jobId now (db_of w kbId)
        /\ tx (kb_of w' kbId) = tx (kb_of w kbId)
        /\ process_state w' = process_state w
  | Some next =>
      exists w',
        loop_top now kbId jobId w = (Ok Suspended, w')
        /\ db_of w' kbId = mark_item_processing (item_id next) now (db_of w kbId)
        /\ tx (kb_of w' kbId) = tx (kb_of w kbId)
        /\ dbCache w' = dbCache w
        /\ inMemoryCanceledJobs w' = inMemoryCanceledJobs w
        /\ suspended w' !! kbId
           = Some {| sl_job := jobId; sl_item := item_id next;
                     sl_source := item_source_path next; sl_phase := AwaitStat |}
  end.
Proof.
  intros Hc Hn Hs. unfold loop_top, mbind, M_bind, bind, gets. simpl.
  rewrite bool_decide_eq_false_2 by done. rewrite Hs.
  destruct (next_pending_item jobId (db_of w kbId)) as [next|].
  - set (w1 := with_kb kbId _ w).
    rewrite (getDb_cached now kbId w1) by done. simpl.
    eexists. split; [reflexivity|]. simpl.
    unfold db_of. change (kb_of (with_suspended ?f ?x) kbId) with (kb_of x kbId).
    unfold w1. rewrite !kb_of_with_kb_eq. simpl.
    split; [done|]. split; [done|]. split; [done|]. split; [done|].
    by rewrite lookup_insert_eq.
  - unfold sendJobUpdate, send, db_run, modify, mbind, M_bind, bind, gets. simpl.
    eexists. split; [reflexivity|].
    unfold db_of. change (kb_of (with_sent ?f ?x) kbId) with (kb_of x kbId).
    rewrite !kb_of_with_kb_eq. done.
Qed.

Lemma find_job_update jobId (f : job -> job) t :
  (forall j, job_id (f j) = job_id j) ->
  find_job jobId (with_jobs (update_where (is_job jobId) f) t) = f <$> find_job jobId t.
Proof.
  intros Hf. unfold find_job, with_jobs, update_where. simpl.
  induction (jobs t) as [|j l IH]; simpl; [done|].
  destruct (is_job jobId j) eqn:E.
  - unfold is_job. rewrite Hf. fold (is_job jobId j). by rewrite E.
  - by rewrite E.
Qed.

Lemma none_pending_update (cond : job -> bool) (f : job -> job) l :
  (forall j, job_status j <> JobPending -> job_status (f j) <> JobPending) ->
  Forall (fun j => job_status j <> JobPending) l ->
  Forall (fun j => job_status j <> JobPending) (update_where cond f l).
Proof.
  intros Hf. unfold update_where. induction 1 as [|j l Hj _ IH]; simpl; constructor; [|done].
  destruct (cond j); [by apply Hf|done].
Qed.

Lemma filter_length_via {A B} (f : A -> B) (q : B -> bool) (l : list A) :
  length (List.filter (fun a => q (f a)) l) = length (List.filter q (map f l)).
Proof. induction l as [|a l IH]; simpl; [done|]. destruct (q (f a)); simpl; lia. Qed.

(** The facts the loop relies on are facts of the rows it reads. *)
Lemma rows_transfer jobId x t t' :
  jobs t' = jobs t ->
  map item_state (job_items t') = map item_state (job_items t) ->
  find_job jobId t' = find_job jobId t
  /\ (Forall (fun i => item_job_id i = jobId -> item_status i = ItemProcessing ->
                       item_id i = x) (job_items t) ->
      Forall (fun i => item_job_id i = jobId -> item_status i = ItemProcessing ->
                       item_id i = x) (job_items t'))
  /\ pending_items jobId t' = pending_items jobId t.
Proof.
  intros Hj Hi. split; [unfold find_job; by rewrite Hj|]. split.
  - intros H.
    apply (Forall_map item_state
             (fun v => v.1.2 = jobId -> v.2 = ItemProcessing -> v.1.1 = x)).
    rewrite Hi.
    by apply (Forall_map item_state
                (fun v => v.1.2 = jobId -> v.2 = ItemProcessing -> v.1.1 = x)).
  - unfold pending_items.
    pose proof (filter_length_via item_state
                  (fun v => String.eqb v.1.2 jobId && bool_decide (v.2 = ItemPending))) as H.
    etransitivity; [exact (H (job_items t'))|]. rewrite Hi. symmetry.
    exact (H (job_items t)).
Qed.

Lemma loop_segment_bind {A} (start : string -> M unit) now kbId jobId
    (step : M A) (k : A -> M loop_exit) a w w1 :
  step w = (Ok a, w1) ->
  loop_segment start now kbId jobId (step ≫= k) w
  = loop_segment start now kbId jobId (k a) w1.
Proof.
  intros H. unfold loop_segment, mbind, M_bind, bind. by rewrite H.
Qed.

(** After a result of [importOneFile] the loop records it and either
    takes the next pending item of the job or, when none is left, marks
    the job as done and ends. *)
Lemma loop_after_result kbId jobId x n now r w1 :
  kbId ∈ dbCache w1 ->
  jobId ∉ inMemoryCanceledJobs w1 ->
  tx (kb_of w1 kbId) = None ->
  suspended w1 !! kbId = None ->
  job_status <$> find_job jobId (db_of w1 kbId) = Some JobProcessing ->
  Forall (fun j => job_status j <> JobPending) (jobs (db_of w1 kbId)) ->
  Forall (fun i => item_job_id i = jobId -> item_status i = ItemProcessing -> item_id i = x)
    (job_items (db_of w1 kbId)) ->
  pending_items jobId (db_of w1 kbId) = n ->
  result_terminal (r_status r) = true ->
  let w' := snd (loop_segment (start_job now kbId) now kbId jobId
                   (after_import r now kbId jobId x;; loop_top now kbId jobId) w1) in
  finished kbId jobId w'
  \/ exists n', (n' < n)%nat /\ looping kbId jobId n' w' /\ waits_left w' kbId = 3%nat.
Proof.
  intros Hc Hn Htx Hsl Hst Hq Hcur Hp Hr.
  destruct (after_import_spec r now kbId jobId x w1) as (w2 & Hrun & Hdb & Htx2 & Hps).
  rewrite (loop_segment_bind _ _ _ _ _ _ () w1 w2 Hrun).
  set (t1 := db_of w1 kbId) in *.
  set (t2 := record_item_result x r now t1) in *.
  set (t3 := set_progress jobId (count_terminal jobId t2) now t2) in *.
  injection Hps as Hps1 Hps2 Hps3 Hps4.
  destruct (record_result_items jobId x (r_status r) (r_error r) now (job_items t1) Hr Hcur)
    as [Hnone Hle].
  assert (Hitems3 : job_items t3 = job_items t2) by done.
  assert (Hf2 : find_job jobId t2 = find_job jobId t1) by done.
  assert (Hf3 : find_job jobId t3
                = (fun j => set_job j (job_status j) (count_terminal jobId t2)
                              (job_error_message j) (job_started_at j) (job_finished_at j)
                              now (Some now)) <$> find_job jobId t2).
  { by apply find_job_update. }
  destruct (find_job jobId t1) as [j|] eqn:Ej; [|done]. simpl in Hst.
  injection Hst as Hst.
  assert (Hq3 : Forall (fun j => job_status j <> JobPending) (jobs t3)).
  { apply none_pending_update; [done|exact Hq]. }
  pose proof (loop_top_spec now kbId jobId w2) as Htop.
  rewrite Hdb in Htop.
  destruct (next_pending_item jobId t3) as [next|] eqn:Enext.
  - (* the next item is taken *)
    destruct Htop as (w3 & Hrun3 & Hdb3 & Htx3 & Hc3 & Hn3 & Hs3);
      [congruence|congruence|by rewrite Hf3, Hf2; simpl; rewrite Hst|].
    unfold loop_segment. rewrite Hrun3. cbn [snd]. right.
    apply next_pending_item_pending in Enext as Hnext. destruct Hnext as [Hin Hpend].
    assert (Hjob : item_job_id next = jobId).
    { unfold next_pending_item in Enext. apply oldest_In in Enext.
      apply filter_In in Enext as [_ Hb]. apply andb_true_iff in Hb as [Hb _].
      by apply String.eqb_eq. }
    rewrite Hitems3 in Hin.
    destruct (take_item_items jobId next now (job_items t2) Hin Hjob Hpend Hnone)
      as [Hcur3 Hlt].
    exists (pending_items jobId (db_of w3 kbId)). split.
    { rewrite Hdb3. clear -Hp Hle Hlt. subst n.
      unfold pending_items, mark_item_processing, t3, t2, record_item_result in *.
      simpl in *. lia. }
    split; [|unfold waits_left; by rewrite Hs3].
    split.
    + congruence.
    + congruence.
    + rewrite Hdb3. change (find_job jobId (mark_item_processing (item_id next) now t3))
        with (find_job jobId t3). rewrite Hf3, Hf2. simpl. by rewrite Hst.
    + rewrite Hdb3. exact Hq3.
    + done.
    + eexists. split; [exact Hs3|]. split; [done|]. split; [|simpl; congruence].
      rewrite Hdb3. exact Hcur3.
  - (* no item is left *)
    destruct Htop as (w3 & Hrun3 & Hdb3 & Htx3 & Hps3');
      [congruence|congruence|by rewrite Hf3, Hf2; simpl; rewrite Hst|].
    injection Hps3' as Hq1 Hq2 Hq3' Hq4.
    unfold loop_segment. rewrite Hrun3. left.
    assert (Hq4' : Forall (fun j => job_status j <> JobPending) (jobs (db_of w3 kbId))).
    { rewrite Hdb3. apply none_pending_update; [done|exact Hq3]. }
    assert (Hfin : (modify (with_running (fun r => delete kbId r));;
                    scheduleNextPendingJob (start_job now kbId) kbId) w3
                   = (Ok (), with_running (fun r => delete kbId r) w3)).
    { unfold scheduleNextPendingJob, mbind, M_bind, bind, gets, modify. simpl.
      change (db_of (with_running _ w3) kbId) with (db_of w3 kbId).
      rewrite (no_pending_job _ Hq4'). by destruct (has_paused _). }
    rewrite Hfin. cbn [snd].
    destruct (all_terminal jobId t3 Enext) as [Hterm Hcount]; [by rewrite Hitems3|].
    unfold finished. change (db_of (with_running _ w3) kbId) with (db_of w3 kbId).
    change (kb_of (with_running _ w3) kbId) with (kb_of w3 kbId).
    rewrite Hdb3. split_and!.
    + unfold mark_done. rewrite find_job_update by done. rewrite Hf3, Hf2. simpl.
      eexists. split; [reflexivity|]. split; [done|]. simpl.
      change (count_terminal jobId t2) with (count_terminal jobId t3). exact Hcount.
    + exact Hterm.
    + congruence.
    + simpl. congruence.
    + simpl. by rewrite lookup_delete_eq.
Qed.

Lemma continue_step kbId now sl (step : M import_step) w s w1 :
  step (with_suspended (fun m => delete kbId m) w) = (Ok s, w1) ->
  snd (continue_loop now kbId sl step w)
  = snd (loop_segment (start_job now kbId) now kbId (sl_job sl)
           match s with
           | Awaiting p =>
               modify (with_suspended (fun m =>
                 <[kbId := {| sl_job := sl_job sl; sl_item := sl_item sl;
                              sl_source := sl_source sl; sl_phase := p |}]> m));;
               ret Suspended
           | Returned r =>
               after_import r now kbId (sl_job sl) (sl_item sl);;
               loop_top now kbId (sl_job sl)
           end w1).
Proof.
  intros Hstep.
  unfold continue_loop, mbind at 1, M_bind at 1, bind at 1, modify at 1, ignore_errors.
  cbn [snd].
  by rewrite (loop_segment_bind _ _ _ _ _ _ s _ w1 Hstep).
Qed.

(** The loop goes on from a step of [importOneFile] that ended in a
    result. *)
Lemma continue_returned kbId jobId n now sl (step : M import_step) w res w1 :
  looping kbId jobId n w ->
  suspended w !! kbId = Some sl ->
  step (with_suspended (fun s => delete kbId s) w) = (Ok (Returned res), w1) ->
  same_rows kbId (with_suspended (fun s => delete kbId s) w) w1 ->
  tx (kb_of w1 kbId) = None ->
  result_terminal (r_status res) = true ->
  let w' := snd (continue_loop now kbId sl step w) in
  finished kbId jobId w'
  \/ exists n', (n' < n)%nat /\ looping kbId jobId n' w' /\ waits_left w' kbId = 3%nat.
Proof.
  intros [Hc Hn Hst Hq Hp (sl' & Hsl' & Hjob & Hcur & _)] Hsl Hstep (Hj & Hi & Hps) Htx Hr.
  rewrite Hsl in Hsl'. injection Hsl' as <-.
  rewrite (continue_step kbId now sl step w (Returned res) w1 Hstep).
  set (w0 := with_suspended (fun s => delete kbId s) w) in *.
  injection Hps as Hps1 Hps2 Hps3 Hps4.
  change (db_of w0 kbId) with (db_of w kbId) in *.
  destruct (rows_transfer jobId (sl_item sl) (db_of w kbId) (db_of w1 kbId) Hj Hi)
    as (Hf & Hcur1 & Hp1).
  rewrite Hjob. apply loop_after_result; try done.
  - by rewrite Hps1.
  - by rewrite Hps3.
  - rewrite Hps4. simpl. by rewrite lookup_delete_eq.
  - by rewrite Hf.
  - by rewrite Hj.
  - by apply Hcur1.
  - by rewrite Hp1.
Qed.

(** The loop is suspended again when a step of [importOneFile] ends in
    another wait. *)
Lemma continue_awaiting kbId now sl (step : M import_step) w p w1 :
  step (with_suspended (fun s => delete kbId s) w) = (Ok (Awaiting p), w1) ->
  snd (continue_loop now kbId sl step w)
  = with_suspended (fun m => <[kbId := {| sl_job := sl_job sl; sl_item := sl_item sl;
                                          sl_source := sl_source sl; sl_phase := p |}]> m) w1.
Proof.
  intros Hstep. by rewrite (continue_step kbId now sl step w (Awaiting p) w1 Hstep).
Qed.

Lemma looping_awaiting kbId jobId n sl p w w1 :
  looping kbId jobId n w ->
  suspended w !! kbId = Some sl ->
  same_rows kbId (with_suspended (fun s => delete kbId s) w) w1 ->
  match p with
  | AwaitStream _ _ =>
      exists s, tx (kb_of w1 kbId) = Some s
                /\ jobs s = jobs (db_of w1 kbId) /\ job_items s = job_items (db_of w1 kbId)
  | _ => tx (kb_of w1 kbId) = None
  end ->
  looping kbId jobId n
    (with_suspended (fun m => <[kbId := {| sl_job := sl_job sl; sl_item := sl_item sl;
                                           sl_source := sl_source sl; sl_phase := p |}]> m) w1).
Proof.
  intros [Hc Hn Hst Hq Hp (sl' & Hsl' & Hjob & Hcur & _)] Hsl (Hj & Hi & Hps) Htx.
  rewrite Hsl in Hsl'. injection Hsl' as <-.
  injection Hps as Hps1 Hps2 Hps3 Hps4.
  change (db_of (with_suspended _ w) kbId) with (db_of w kbId) in *.
  destruct (rows_transfer jobId (sl_item sl) (db_of w kbId) (db_of w1 kbId) Hj Hi)
    as (Hf & Hcur1 & Hp1).
  split; simpl;
    try change (db_of (with_suspended ?f w1) kbId) with (db_of w1 kbId);
    try change (kb_of (with_suspended ?f w1) kbId) with (kb_of w1 kbId).
  - by rewrite Hps1.
  - by rewrite Hps3.
  - by rewrite Hf.
  - by rewrite Hj.
  - by rewrite Hp1.
  - eexists. split; [by rewrite lookup_insert_eq|]. simpl. split; [done|].
    split; [by apply Hcur1|]. exact Htx.
Qed.

(** An answer the loop was waiting for brings the job closer to its
    end: fewer items are left, or fewer waits for the current item. *)
Lemma step_awaited kbId jobId n w ev :
  looping kbId jobId n w ->
  awaited kbId w ev = true ->
  let w' := step node USER_DATA_PATH ev w in
  finished kbId jobId w'
  \/ exists n', looping kbId jobId n' w'
                /\ (3 * n' + waits_left w' kbId < 3 * n + waits_left w kbId)%nat.
Proof.
  intros Hl Ha. pose proof Hl as [Hc Hn Hst Hq Hp (sl & Hsl & Hjob & Hcur & Hph)].
  unfold awaited in Ha. unfold waits_left at 2. rewrite Hsl in Ha |- *. simpl.
  set (w0 := with_suspended (fun s => delete kbId s) w).
  assert (Hdecr : forall w',
    (finished kbId jobId w'
     \/ exists n', (n' < n)%nat /\ looping kbId jobId n' w' /\ waits_left w' kbId = 3%nat) ->
    forall k, (1 <= k)%nat ->
    finished kbId jobId w'
    \/ exists n', looping kbId jobId n' w'
                  /\ (3 * n' + waits_left w' kbId < 3 * n + k)%nat).
  { intros w' [Hf|(n' & Hlt & Hl' & Hw)] k Hk; [by left|].
    right. exists n'. split; [done|]. lia. }
  destruct (sl_phase sl) as [|d rel|rel message] eqn:Ephase;
    destruct ev as [id req env|kb st documentId now|kb out chunkIds now|kb removed now|];
    try discriminate; apply bool_decide_eq_true in Ha; subst kb; cbv zeta; unfold step;
    rewrite Hsl, Ephase.
  - (* the answer of [stat] *)
    pose proof (on_stat_rows kbId (sl_item sl) (sl_source sl) st documentId now w0 Hph)
      as Hwp.
    unfold wp in Hwp.
    destruct (importOneFile_on_stat node kbId (sl_item sl) (sl_source sl) st documentId now w0)
      as [[[res|p]|e] w1] eqn:Estep; simpl in Hwp; destruct Hwp as [Hrows Hpost]; [| |done].
    + destruct Hpost as [Hr Htx].
      apply Hdecr; [|lia].
      by apply (continue_returned kbId jobId n now sl _ w res w1).
    + rewrite (continue_awaiting kbId now sl _ w p w1 Estep). right. exists n.
      destruct p as [|d rel|rel message]; [done| |].
      * split; [by apply (looping_awaiting kbId jobId n sl _ w w1)|].
        unfold waits_left. simpl. rewrite lookup_insert_eq. simpl. lia.
      * split; [by apply (looping_awaiting kbId jobId n sl _ w w1)|].
        unfold waits_left. simpl. rewrite lookup_insert_eq. simpl. lia.
  - (* the end of the stream *)
    destruct Hph as (s & Htx & Hsj & Hsi).
    pose proof (on_stream_rows kbId (sl_item sl) (sl_source sl) d rel out chunkIds now
                  s w0 Htx Hsj Hsi) as Hwp.
    unfold wp in Hwp.
    destruct (importOneFile_on_stream node kbId (sl_item sl) (sl_source sl) d rel out
                chunkIds now w0) as [[[res|p]|e] w1] eqn:Estep; simpl in Hwp;
      destruct Hwp as (Hrows & Htx1 & Hpost); [| |done].
    + apply Hdecr; [|lia].
      by apply (continue_returned kbId jobId n now sl _ w res w1).
    + rewrite (continue_awaiting kbId now sl _ w p w1 Estep). right. exists n.
      destruct Hpost as [msg ->].
      split; [by apply (looping_awaiting kbId jobId n sl _ w w1)|].
      unfold waits_left. simpl. rewrite lookup_insert_eq. simpl. lia.
  - (* the blob is removed *)
    pose proof (on_rm_rows kbId (sl_item sl) rel message removed now w0 Hph) as Hwp.
    unfold wp in Hwp.
    destruct (importOneFile_on_rm kbId (sl_item sl) rel message removed now w0)
      as [r w1] eqn:Estep.
    simpl in Hwp. destruct Hwp as (Hrows & Htx1 & res & -> & Hr).
    apply Hdecr; [|lia].
    by apply (continue_returned kbId jobId n now sl _ w res w1).
Qed.

(** An answer nobody waits for changes nothing. *)
Lemma step_not_awaited kbId w ev :
  fs_answer kbId ev = true -> awaited kbId w ev = false ->
  step node USER_DATA_PATH ev w = w.
Proof.
  unfold fs_answer, awaited. intros Hfs Ha.
  destruct ev as [id req env|kb st documentId now|kb out chunkIds now|kb removed now|];
    try discriminate; apply bool_decide_eq_true in Hfs; subst kb; simpl;
    destruct (suspended w !! kbId) as [sl|]; try done;
    destruct (sl_phase sl); try done;
    by rewrite bool_decide_eq_true_2 in Ha.
Qed.

Lemma finished_stays kbId jobId evs w :
  finished kbId jobId w ->
  Forall (fun ev => fs_answer kbId ev = true) evs ->
  run node USER_DATA_PATH evs w = w.
Proof.
  intros Hf. induction 1 as [|ev evs Hev _ IH]; simpl; [done|].
  rewrite (step_not_awaited kbId); [done|done|].
  unfold awaited. destruct Hf as (_ & _ & _ & -> & _). done.
Qed.

Lemma job_runs kbId jobId evs :
  Forall (fun ev => fs_answer kbId ev = true) evs ->
  forall n w,
  looping kbId jobId n w ->
  finished kbId jobId (run node USER_DATA_PATH evs w)
  \/ exists n',
       looping kbId jobId n' (run node USER_DATA_PATH evs w)
       /\ (answered node USER_DATA_PATH kbId evs w
           + 3 * n' + waits_left (run node USER_DATA_PATH evs w) kbId
           <= 3 * n + waits_left w kbId)%nat.
Proof.
  induction 1 as [|ev evs Hev Hevs IH]; intros n w Hl; simpl.
  - right. exists n. split; [done|lia].
  - destruct (awaited kbId w ev) eqn:Ea.
    + destruct (step_awaited kbId jobId n w ev Hl Ea) as [Hf|(n1 & Hl1 & Hlt)].
      * rewrite (finished_stays kbId jobId evs _ Hf Hevs). by left.
      * destruct (IH n1 _ Hl1) as [Hf|(n' & Hl' & Hle)]; [by left|].
        right. exists n'. split; [done|lia].
    + rewrite (step_not_awaited kbId w ev Hev Ea). by apply IH.
Qed.

(** X23: a job that is alone in the queue and is left alone runs to
    its end. From a state in which the loop of a knowledge base works
    on a job with [n] items still pending (the job is 'processing' and
    not cancelled, no job is pending), and with nothing but answers of
    the file system arriving for this knowledge base, the job is either
    still in the loop, with no more items pending than before, or it
    is 'done' with every item done, failed or skipped and
    [progress_current] equal to the number of its items; it never
    becomes 'failed'. Every answer the loop was waiting for uses up one
    of at most three waits per item, so after [3 * n + 3] such answers
    the job is done. *)
Theorem X23_job_runs_to_done
    (kbId jobId : string) (n : nat) (w : worker) (evs : list event) :
  looping kbId jobId n w ->
  Forall (fun ev => fs_answer kbId ev = true) evs ->
  let w' := run node USER_DATA_PATH evs w in
  (finished kbId jobId w'
   \/ exists n', (n' <= n)%nat /\ looping kbId jobId n' w'
                 /\ (answered node USER_DATA_PATH kbId evs w + 3 * n' + waits_left w' kbId
                     <= 3 * n + 3)%nat)
  /\ ((3 * n + 3 <= answered node USER_DATA_PATH kbId evs w)%nat -> finished kbId jobId w').
Proof.
  intros Hl Hevs.
  assert (Hw : (waits_left w kbId <= 3)%nat).
  { unfold waits_left. destruct (sl_phase <$> suspended w !! kbId) as [[]|]; lia. }
  assert (Hpos : forall n' w', looping kbId jobId n' w' -> (1 <= waits_left w' kbId)%nat).
  { intros n' w' [_ _ _ _ _ (sl & Hsl & _)]. unfold waits_left. rewrite Hsl. simpl.
    destruct (sl_phase sl); lia. }
  destruct (job_runs kbId jobId evs Hevs n w Hl) as [Hf|(n' & Hl' & Hle)].
  - split; [by left|done].
  - pose proof (Hpos _ _ Hl'). split.
    + right. exists n'. split; [lia|]. split; [done|lia].
    + intros Hge. cbv zeta in *. lia.
Qed.

End WithNode.

Lemma two_files_looping : looping "kb" "A" 1 worker_two_files.
Proof.
  split.
  - vm_compute. set_solver.
  - vm_compute. set_solver.
  - vm_compute. reflexivity.
  - vm_compute. repeat constructor; discriminate.
  - vm_compute. reflexivity.
  - eexists. split; [vm_compute; reflexivity|]. split; [reflexivity|]. split.
    + vm_compute. repeat constructor; done.
    + vm_compute. reflexivity.
Qed.

Lemma X23_job_runs_to_done_witness :
  finished "kb" "A" (run Sample.posix_ascii "/data" two_files_answers worker_two_files).
Proof.
  destruct (X23_job_runs_to_done Sample.posix_ascii "/data" "kb" "A" 1 worker_two_files
              two_files_answers two_files_looping) as [[Hf|(n' & _ & Hl & _)] _].
  - repeat constructor.
  - exact Hf.
  - exfalso. destruct Hl as [_ _ _ _ _ (sl & Hsl & _)].
    vm_compute in Hsl. discriminate.
Defined.

End CompletionFacts.

(* ------------------------------------------------------------------ *)
(** ** The progress counter counts the finished items                  *)
(* ------------------------------------------------------------------ *)

Module CounterFacts.
Import Js Kb Ingest Scheduler Handlers Progress Requests Completion Counter.
Import WpFacts OpenFacts ImportFacts IngestFacts ProgressFacts ListingFacts RequestFacts.
Import ImportFailure CompletionFacts.

(** *** Statements that keep the counter in step with the items *)

Lemma find_job_mapped jobId (g : job -> job) t :
  (forall j, job_id (g j) = job_id j) ->
  find_job jobId (with_jobs (map g) t) = g <$> find_job jobId t.
Proof.
  intros Hg. unfold find_job, with_jobs. simpl.
  induction (jobs t) as [|j l IH]; simpl; [done|].
  unfold is_job at 1. rewrite Hg. fold (is_job jobId j).
  by destruct (is_job jobId j).
Qed.

Lemma ids_update (cond : job_item -> bool) set l :
  (forall i, item_id (set i) = item_id i) ->
  map item_id (update_where cond set l) = map item_id l.
Proof.
  intros H. unfold update_where. rewrite map_map. apply map_ext.
  intros i. by destruct (cond i).
Qed.

Lemma count_terminal_update jobId (cond : job_item -> bool) set t :
  (forall i, In i (job_items t) -> cond i = true ->
             item_job_id (set i) = item_job_id i
             /\ item_terminal (set i) = item_terminal i) ->
  count_terminal jobId (with_items (update_where cond set) t) = count_terminal jobId t.
Proof.
  unfold count_terminal, with_items, update_where. simpl.
  induction (job_items t) as [|i l IH]; intros H; simpl; [done|].
  assert (Hl : forall i0, In i0 l -> cond i0 = true ->
                 item_job_id (set i0) = item_job_id i0
                 /\ item_terminal (set i0) = item_terminal i0)
    by (intros i0 Hin; apply H; by right).
  specialize (IH Hl).
  destruct (cond i) eqn:Ec.
  - destruct (H i (or_introl eq_refl) Ec) as [-> ->].
    destruct (_ && _); simpl; lia.
  - destruct (_ && _); simpl; lia.
Qed.

Lemma counted_update_jobs jobId cond set t :
  (forall j, job_id (set j) = job_id j /\ progress_current (set j) = progress_current j) ->
  counted jobId t -> counted jobId (with_jobs (update_where cond set) t).
Proof.
  intros Hs [Hn Hc]. split; [done|]. intros j'.
  unfold update_where. rewrite find_job_mapped.
  2:{ intros j. destruct (cond j); [apply Hs|done]. }
  destruct (find_job jobId t) as [j|]; simpl; [|done].
  intros [= <-]. transitivity (progress_current j).
  - destruct (cond j); [apply Hs|done].
  - by apply Hc.
Qed.

Lemma counted_update_items jobId cond set t :
  (forall i, item_id (set i) = item_id i) ->
  (forall i, In i (job_items t) -> cond i = true ->
             item_job_id (set i) = item_job_id i
             /\ item_terminal (set i) = item_terminal i) ->
  counted jobId t -> counted jobId (with_items (update_where cond set) t).
Proof.
  intros Hid Hs [Hn Hc]. split.
  - simpl. by rewrite ids_update.
  - intros j Hj. rewrite count_terminal_update by done. by apply Hc.
Qed.

Lemma same_id_same_item (l : list job_item) a b :
  NoDup (map item_id l) -> In a l -> In b l -> item_id a = item_id b -> a = b.
Proof.
  induction l as [|i l IH]; simpl; [done|].
  intros Hn [->|Ha] [->|Hb] E; [done| | |].
  - apply NoDup_cons in Hn as [Hn _]. exfalso. apply Hn. rewrite E.
    apply list_elem_of_In. by apply in_map.
  - apply NoDup_cons in Hn as [Hn _]. exfalso. apply Hn. rewrite <- E.
    apply list_elem_of_In. by apply in_map.
  - apply NoDup_cons in Hn as [_ Hn]. by apply IH.
Qed.

(** Taking the next pending item does not change the count. *)
Lemma counted_take jobId K now t next :
  next_pending_item K t = Some next ->
  counted jobId t -> counted jobId (mark_item_processing (item_id next) now t).
Proof.
  intros Hnext Hc. pose proof Hc as [Hn _].
  apply next_pending_item_pending in Hnext as [Hin Hp].
  apply counted_update_items; [done| |done].
  intros i Hi Ei. unfold is_item in Ei. apply String.eqb_eq in Ei.
  assert (i = next) as -> by (by apply (same_id_same_item (job_items t))).
  split; [done|]. unfold item_terminal, item_has. simpl. rewrite Hp. done.
Qed.

(** Nor does the recovery at start-up. *)
Lemma counted_opened jobId now t :
  counted jobId t -> counted jobId (recover now (snd (migrate_tables now t))).
Proof.
  intros Hc. destruct (migrate_tables_ok now t) as (_ & Hj & Hi & _).
  assert (H0 : counted jobId (snd (migrate_tables now t))).
  { destruct Hc as [Hn Hc]. unfold counted, find_job, count_terminal.
    rewrite Hj, Hi. by split. }
  unfold recover, recovery_statements. simpl. unfold recover_items.
  apply counted_update_items; [done| |].
  - intros i _ Ei. unfold item_has in Ei. apply bool_decide_eq_true in Ei.
    split; [done|]. unfold item_terminal, item_has. simpl. rewrite Ei. done.
  - unfold recover_jobs. by apply counted_update_jobs.
Qed.

(** After [await importOneFile] the loop writes the result of the item
    and then the count of the finished items. *)
Lemma counted_after jobId x r now t :
  NoDup (map item_id (job_items t)) ->
  counted jobId
    (set_progress jobId (count_terminal jobId (record_item_result x r now t)) now
       (record_item_result x r now t)).
Proof.
  intros Hn. split.
  - simpl. by rewrite ids_update.
  - intros j'. unfold set_progress. rewrite find_job_update by done.
    destruct (find_job jobId (record_item_result x r now t)) as [j|]; simpl; [|done].
    by intros [= <-].
Qed.

Lemma keeps_gets_bind {A B} P (f : worker -> A) (k : A -> M B) :
  (forall w, P w -> P (snd (k (f w) w))) -> preserves P (gets f ≫= k).
Proof. intros H w Hw. unfold mbind, M_bind, bind, gets. simpl. by apply H. Qed.

Lemma keeps_bind_at {A B} P (m : M A) (k : A -> M B) w :
  P (snd (m w)) -> (forall a, preserves P (k a)) -> P (snd ((m ≫= k) w)).
Proof.
  intros Hm Hk. unfold mbind, M_bind, bind.
  destruct (m w) as [[a|e] w']; simpl in *; [by apply Hk|done].
Qed.

Lemma wp_preserves {A} (P : worker -> Prop) (m : M A) w :
  preserves P m -> P w -> wp m (fun _ w' => P w') w.
Proof. intros Hm H. by apply Hm. Qed.

Section Counted.
Variable kbId : string.
Variable jobId : string.

Local Abbreviation P := (fun w : worker => counted jobId (db_of w kbId)).

Lemma counted_db_run_at kb f w :
  P w -> (kb = kbId -> counted jobId (f (db_of w kbId))) -> P (snd (db_run kb f w)).
Proof.
  intros H Hf. unfold db_run, modify. simpl. unfold db_of.
  destruct (decide (kb = kbId)) as [->|Hne].
  - rewrite kb_of_with_kb_eq. simpl. by apply Hf.
  - by rewrite kb_of_with_kb_ne.
Qed.

Lemma counted_db_run kb f :
  (forall t, counted jobId t -> counted jobId (f t)) -> preserves P (db_run kb f).
Proof. intros Hf w H. apply counted_db_run_at; [done|]. intros _. by apply Hf. Qed.

Lemma counted_same_disk (f : worker -> worker) :
  (forall w, disk (f w) = disk w) -> preserves P (modify f).
Proof.
  intros Hf. apply keeps_modify. intros w H. unfold db_of, kb_of in *. by rewrite Hf.
Qed.

Lemma counted_sendJobUpdate kb K : preserves P (sendJobUpdate kb K).
Proof.
  unfold sendJobUpdate. apply keeps_bind; [apply keeps_gets|]. intros t.
  by apply counted_same_disk.
Qed.

Lemma counted_getDb now kb : preserves P (getDb now kb).
Proof.
  intros w H. destruct (decide (kb ∈ dbCache w)) as [Hc|Hc].
  - by rewrite getDb_cached.
  - rewrite getDb_uncached by done. cbn [snd].
    change (db_of (with_dbCache ?f ?x) kbId) with (db_of x kbId).
    unfold db_of. destruct (decide (kb = kbId)) as [->|Hne].
    + rewrite kb_of_with_kb_eq. unfold opened. simpl. by apply counted_opened.
    + by rewrite kb_of_with_kb_ne.
Qed.

Lemma counted_loop_top now kb K : preserves P (loop_top now kb K).
Proof.
  unfold loop_top. apply keeps_bind; [apply keeps_gets|]. intros c.
  destruct c; [apply keeps_ret|].
  apply keeps_gets_bind. intros w Hw.
  assert (Htake : P (snd (match next_pending_item K (db_of w kb) with
             | None =>
                 db_run kb (mark_done K now);;
                 sendJobUpdate kb K;;
                 ret Exited
             | Some next =>
                 db_run kb (mark_item_processing (item_id next) now);;
                 getDb now kb;;
                 modify (with_suspended (fun s =>
                   <[kb := {| sl_job := K; sl_item := item_id next;
                              sl_source := item_source_path next;
                              sl_phase := AwaitStat |}]> s));;
                 ret Suspended
             end w))).
  { destruct (next_pending_item K (db_of w kb)) as [next|] eqn:En.
    - apply keeps_bind_at.
      + apply counted_db_run_at; [done|]. intros ->. by apply (counted_take jobId K).
      + intros _. apply keeps_bind; [apply counted_getDb|]. intros _.
        apply keeps_bind; [by apply counted_same_disk|]. intros _. apply keeps_ret.
    - clear En. revert w Hw.
      change (preserves P (db_run kb (mark_done K now);; sendJobUpdate kb K;; ret Exited)).
      apply keeps_bind.
      { apply counted_db_run. intros t. by apply counted_update_jobs. }
      intros _. apply keeps_bind; [apply counted_sendJobUpdate|]. intros _.
      apply keeps_ret. }
  destruct (job_status <$> find_job K (db_of w kb)) as [[]|]; try exact Hw; exact Htake.
Qed.

Lemma counted_schedule (start : string -> M unit) kb :
  (forall j, preserves P (start j)) -> preserves P (scheduleNextPendingJob start kb).
Proof.
  intros Hs. unfold scheduleNextPendingJob. apply keeps_bind; [apply keeps_gets|]. intros t.
  destruct (has_paused t); [apply keeps_ret|].
  destruct (next_pending_job t) as [next|]; [|apply keeps_ret].
  destruct (String.eqb (job_id next) ""); [apply keeps_ret|].
  apply keeps_ignore_errors, Hs.
Qed.

Lemma counted_loop_segment (start : string -> M unit) now kb K (body : M loop_exit) w :
  (forall j, preserves P (start j)) -> P (snd (body w)) ->
  P (snd (loop_segment start now kb K body w)).
Proof.
  intros Hs Hb. unfold loop_segment.
  assert (Hfin : preserves P (modify (with_running (fun r => delete kb r));;
                              scheduleNextPendingJob start kb)).
  { apply keeps_bind; [by apply counted_same_disk|]. intros _. by apply counted_schedule. }
  destruct (body w) as [[[]|e] w1]; simpl in Hb; [done|by apply Hfin|].
  revert Hb. generalize w1.
  change (preserves P (db_run kb (mark_failed K e now);;
                       sendJobUpdate kb K;;
                       modify (with_running (fun r => delete kb r));;
                       scheduleNextPendingJob start kb)).
  apply keeps_bind.
  { apply counted_db_run. intros t. by apply counted_update_jobs. }
  intros _. apply keeps_bind; [apply counted_sendJobUpdate|]. intros _. exact Hfin.
Qed.

Lemma counted_processImportJob fuel now kb :
  forall K, preserves P (processImportJob fuel now kb K).
Proof.
  induction fuel as [|fuel IH]; intros K; simpl; [apply keeps_ret|].
  apply keeps_bind; [apply counted_getDb|]. intros _.
  apply keeps_bind; [apply keeps_gets|]. intros running.
  destruct (other_job_running running K); [apply keeps_ret|].
  apply keeps_bind; [by apply counted_same_disk|]. intros _.
  apply keeps_bind.
  { apply counted_db_run. intros t. by apply counted_update_jobs. }
  intros _. apply keeps_bind; [apply counted_sendJobUpdate|]. intros _.
  intros w Hw. apply counted_loop_segment; [exact IH|by apply counted_loop_top].
Qed.

Lemma counted_start_job now kb K : preserves P (start_job now kb K).
Proof.
  unfold start_job. apply keeps_bind; [apply keeps_gets|]. intros fuel.
  apply keeps_ignore_errors, counted_processImportJob.
Qed.

End Counted.

Lemma same_rows_ids kbId w w' :
  same_rows kbId w w' ->
  map item_id (job_items (db_of w' kbId)) = map item_id (job_items (db_of w kbId)).
Proof.
  intros (_ & H & _).
  transitivity (map (fun v : string * string * JobItemStatus => v.1.1)
                  (map item_state (job_items (db_of w' kbId)))).
  - by rewrite map_map.
  - rewrite H. by rewrite map_map.
Qed.

Section WithNode.
Variable node : NodeApi.
Variable USER_DATA_PATH : string.

(** A step of [importOneFile] that returns leaves the items of the
    queue as they were. *)
Lemma returned_rows kbId sl ev (m : M import_step) w :
  resumed_step node kbId sl ev = Some m ->
  wp m (fun r w' => match r with
                    | Ok (Returned _) => same_rows kbId w w'
                    | _ => True
                    end) w.
Proof.
  unfold resumed_step.
  destruct (sl_phase sl) as [|documentId rel|rel message];
    destruct ev as [id req env|kb st documentId' now|kb out chunkIds now|kb removed now|];
    try done; destruct (bool_decide (kb = kbId)); try done; intros [= <-].
  - destruct (tx (kb_of w kbId)) as [s|] eqn:Htx.
    + destruct st as [| |size]; simpl.
      * apply wp_ret. apply same_rows_refl.
      * apply wp_ret. apply same_rows_refl.
      * apply wp_bind. apply wp_db_begin. by rewrite Htx.
    + eapply wp_mono; [by apply on_stat_rows|].
      intros [[res|p]|e] w'; [|done..]. by intros [? _].
  - unfold importOneFile_on_stream. apply wp_try_catch.
    eapply wp_mono.
    { apply wp_keeps_rows.
      apply keeps_rows_bind; [apply keeps_rows_stream_loop|].
      intros st. destruct (stream_error out); [apply keeps_rows_throw|].
      apply keeps_rows_bind; [apply keeps_rows_stream_finish|]. intros r.
      apply keeps_rows_bind; [|intros _; apply keeps_rows_ret].
      apply keeps_rows_db_run; [done|]. intros t. apply map_item_state_touch. }
    intros [[r|p]|e] w1; [done|done|]. intros _.
    unfold import_catch. apply wp_bind.
    unfold wp. destruct (ignore_errors (db_rollback kbId) w1) as [[[]|e1] w2]; simpl; [|done].
    done.
  - unfold wp. rewrite on_rm_result. simpl.
    unfold same_rows, db_of. rewrite !kb_of_with_kb_eq. simpl.
    destruct removed; rewrite ?kb_of_with_kb_eq; simpl.
    all: split; [done|]; split; [|done].
    all: apply (map_item_state_touch (sl_item sl) now (meta (kb_of w kbId))).
Qed.

(** The step of the worker on an answer that lets [importOneFile]
    return. *)
Lemma step_finishes kbId jobId ev w :
  finishes_item node kbId jobId ev w = true ->
  exists sl m r w1 now,
    suspended w !! kbId = Some sl /\ sl_job sl = jobId
    /\ resumed_step node kbId sl ev = Some m
    /\ m (with_suspended (fun s => delete kbId s) w) = (Ok (Returned r), w1)
    /\ step node USER_DATA_PATH ev w = snd (continue_loop now kbId sl m w).
Proof.
  unfold finishes_item.
  destruct (suspended w !! kbId) as [sl|] eqn:Hsl; [|done].
  intros H. apply andb_true_iff in H as [Hj H]. apply String.eqb_eq in Hj.
  destruct (resumed_step node kbId sl ev) as [m|] eqn:Hm; [|done].
  destruct (m (with_suspended (fun s => delete kbId s) w)) as [[[r|p]|e] w1] eqn:Em;
    try done.
  unfold resumed_step in Hm.
  destruct (sl_phase sl) as [|documentId rel|rel message] eqn:Ep;
    destruct ev as [id req env|kb st documentId' now|kb out chunkIds now|kb removed now|];
    try done; destruct (bool_decide (kb = kbId)) eqn:Ek; try done;
    apply bool_decide_eq_true in Ek as ->; injection Hm as <-;
    exists sl; eexists; exists r, w1, now;
    (split; [done|]); (split; [done|]);
    (split; [unfold resumed_step; rewrite Ep; by rewrite bool_decide_eq_true_2|]);
    (split; [exact Em|]); simpl; by rewrite Hsl, Ep.
Qed.

(** C4 (as amended): in every state the worker can reach, the progress
    counter of every job lies between 0 and the total of the job, and
    it is not ahead of the number of items of the job that are 'done',
    'failed' or 'skipped'. Whatever happens next (requests, answers of
    the file system, a crash and restart of the worker process), the job
    is still there with the same total and a counter that is not
    smaller. And whenever an answer of the file system lets
    [importOneFile] return in the run loop of the job, the loop writes
    the counter, which is then exactly the number of the job's items that
    are 'done', 'failed' or 'skipped'. *)
Theorem C4_progress_monotone_and_bounded (w : worker) (evs : list event)
    (kbId jobId : string) (j : job) :
  reachable node USER_DATA_PATH w ->
  find_job jobId (db_of w kbId) = Some j ->
  0 <= progress_current j <= progress_total j
  /\ progress_current j <= count_terminal jobId (db_of w kbId)
  /\ (exists j', find_job jobId (db_of (run node USER_DATA_PATH evs w) kbId) = Some j'
                 /\ progress_total j' = progress_total j
                 /\ progress_current j <= progress_current j'
                 /\ progress_current j' <= progress_total j')
  /\ (forall ev, finishes_item node kbId jobId ev w = true ->
        exists j', find_job jobId (db_of (step node USER_DATA_PATH ev w) kbId) = Some j'
                   /\ progress_current j'
                      = count_terminal jobId (db_of (step node USER_DATA_PATH ev w) kbId)).
Proof.
  intros Hr Hf. pose proof (reachable_Inv node USER_DATA_PATH w Hr) as HI.
  destruct (run_Inv node USER_DATA_PATH evs w HI) as [[HD' _] HW].
  pose proof HI as [HD _]. destruct (HD kbId) as [Hok _].
  split; [exact (tables_ok_bounded _ jobId j Hok Hf)|]. split; [|split].
  - destruct Hok as [_ _ H3]. apply find_job_In in Hf as [Hin <-].
    rewrite Forall_forall in H3. apply list_elem_of_In in Hin.
    destruct (H3 _ Hin) as [Hp _]. unfold db_of. lia.
  - destruct (HW kbId _ _ Hf) as (j' & Hf' & Ht & Hp).
    exists j'. split; [done|]. split; [done|]. split; [done|].
    destruct (HD' kbId) as [Hok' _].
    pose proof (tables_ok_bounded _ jobId j' Hok' Hf'). lia.
  - intros ev Hfin.
    destruct (step_Inv node USER_DATA_PATH ev w HI) as [_ HW1].
    destruct (HW1 kbId _ _ Hf) as (j' & Hf' & _).
    exists j'. split; [done|].
    destruct (step_finishes kbId jobId ev w Hfin) as (sl & m & r & w1 & now & Hsl & Hj & Hm & Em & Hstep).
    assert (Hc : counted jobId (db_of (step node USER_DATA_PATH ev w) kbId)).
    { rewrite Hstep, (continue_step kbId now sl m w (Returned r) w1 Em).
      apply counted_loop_segment; [intros K; apply counted_start_job|].
      apply keeps_bind_at; [|intros _; apply counted_loop_top].
      destruct (after_import_spec r now kbId (sl_job sl) (sl_item sl) w1)
        as (w2 & E2 & Hdb & _).
      rewrite E2. simpl. rewrite Hdb, Hj. apply counted_after.
      pose proof (returned_rows kbId sl ev m (with_suspended (fun s => delete kbId s) w) Hm)
        as Hrows.
      unfold wp in Hrows. rewrite Em in Hrows. simpl in Hrows.
      rewrite (same_rows_ids _ _ _ Hrows).
      change (db_of (with_suspended ?f ?x) kbId) with (db_of x kbId).
      by destruct Hok. }
    by apply Hc.
Qed.

End WithNode.

Lemma C4_progress_monotone_and_bounded_witness :
  exists j, find_job "A" (db_of worker_two_files "kb") = Some j
    /\ 0 <= progress_current j <= progress_total j
    /\ progress_current j <= count_terminal "A" (db_of worker_two_files "kb")
    /\ (exists j', find_job "A"
                     (db_of (run Sample.posix_ascii "/data" two_files_answers
                               worker_two_files) "kb") = Some j'
                   /\ progress_total j' = progress_total j
                   /\ progress_current j <= progress_current j'
                   /\ progress_current j' <= progress_total j')
    /\ exists j', find_job "A"
                    (db_of (step Sample.posix_ascii "/data" (StatSettled "kb" StatError "d1" 2)
                              worker_two_files) "kb") = Some j'
                  /\ progress_current j'
                     = count_terminal "A"
                         (db_of (step Sample.posix_ascii "/data"
                                   (StatSettled "kb" StatError "d1" 2) worker_two_files) "kb")
                  /\ count_terminal "A"
                       (db_of (step Sample.posix_ascii "/data"
                                 (StatSettled "kb" StatError "d1" 2) worker_two_files) "kb") = 1.
Proof.
  assert (Hr : reachable Sample.posix_ascii "/data" worker_two_files)
    by (by eexists).
  destruct (find_job "A" (db_of worker_two_files "kb")) as [j|] eqn:E.
  - exists j. split; [done|].
    destruct (C4_progress_monotone_and_bounded Sample.posix_ascii "/data"
                worker_two_files two_files_answers "kb" "A" j Hr E)
      as (H1 & H2 & H3 & H4).
    split; [done|]. split; [done|]. split; [done|].
    destruct (H4 (StatSettled "kb" StatError "d1" 2) eq_refl) as (j' & Hf & Hc).
    exists j'. split; [done|]. split; [done|]. by vm_compute.
  - exfalso. vm_compute in E. discriminate E.
Defined.

End CounterFacts.

(* ------------------------------------------------------------------ *)
(** ** [kb.importFiles]: the job and its items                         *)
(* ------------------------------------------------------------------ *)

Module ImportedFacts.
Import Js Kb Ingest Scheduler Handlers Progress Requests Imported.
Import WpFacts OpenFacts ImportFacts IngestFacts ProgressFacts ListingFacts RequestFacts.
Import CompletionFacts CounterFacts.

(** *** Statements that leave the keys of the rows alone *)

Lemma keys_update_jobs cond set t :
  (forall j, job_key (set j) = job_key j) ->
  job_keys (with_jobs (update_where cond set) t) = job_keys t
  /\ item_keys (with_jobs (update_where cond set) t) = item_keys t.
Proof.
  intros H. split; [|done]. unfold job_keys, with_jobs, update_where. simpl.
  rewrite map_map. apply map_ext. intros j. by destruct (cond j).
Qed.

Lemma keys_update_items cond set t :
  (forall i, item_key (set i) = item_key i) ->
  job_keys (with_items (update_where cond set) t) = job_keys t
  /\ item_keys (with_items (update_where cond set) t) = item_keys t.
Proof.
  intros H. split; [done|]. unfold item_keys, with_items, update_where. simpl.
  rewrite map_map. apply map_ext. intros i. by destruct (cond i).
Qed.

Lemma keys_opened now t :
  job_keys (recover now (snd (migrate_tables now t))) = job_keys t
  /\ item_keys (recover now (snd (migrate_tables now t))) = item_keys t.
Proof.
  destruct (migrate_tables_ok now t) as (_ & Hj & Hi & _).
  unfold recover, recovery_statements. simpl. unfold recover_items.
  destruct (keys_update_items (item_has ItemProcessing)
              (fun i => set_item i ItemPending (item_error_message i) now
                          (item_started_at i) (item_finished_at i))
              (recover_jobs now (snd (migrate_tables now t)))) as [E1 E2]; [done|].
  rewrite E1, E2. unfold recover_jobs.
  destruct (keys_update_jobs (job_has JobProcessing)
              (fun j => set_job j JobPaused (progress_current j) (job_error_message j)
                          (job_started_at j) (job_finished_at j) now (job_heartbeat_at j))
              (snd (migrate_tables now t))) as [E3 E4]; [done|].
  rewrite E3, E4. unfold job_keys, item_keys. by rewrite Hj, Hi.
Qed.

Section Keys.
Variable kbId : string.
Variable J : list (string * string * Z).
Variable I : list (string * string * string).

Local Abbreviation P :=
  (fun w : worker => job_keys (db_of w kbId) = J /\ item_keys (db_of w kbId) = I).

Lemma keys_db_run kb f :
  (forall t, job_keys (f t) = job_keys t /\ item_keys (f t) = item_keys t) ->
  preserves P (db_run kb f).
Proof.
  intros Hf w H. unfold db_run, modify. simpl. unfold db_of.
  destruct (decide (kb = kbId)) as [->|Hne].
  - rewrite kb_of_with_kb_eq. simpl. by destruct (Hf (meta (kb_of w kbId))) as [-> ->].
  - by rewrite kb_of_with_kb_ne.
Qed.

Lemma keys_same_disk (f : worker -> worker) :
  (forall w, disk (f w) = disk w) -> preserves P (modify f).
Proof.
  intros Hf. apply keeps_modify. intros w H. unfold db_of, kb_of in *. by rewrite Hf.
Qed.

Lemma keys_sendJobUpdate kb jobId : preserves P (sendJobUpdate kb jobId).
Proof.
  unfold sendJobUpdate. apply keeps_bind; [apply keeps_gets|]. intros t.
  by apply keys_same_disk.
Qed.

Lemma keys_getDb now kb : preserves P (getDb now kb).
Proof.
  intros w H. destruct (decide (kb ∈ dbCache w)) as [Hc|Hc].
  - by rewrite getDb_cached.
  - rewrite getDb_uncached by done. cbn [snd].
    change (db_of (with_dbCache ?f ?x) kbId) with (db_of x kbId).
    unfold db_of. destruct (decide (kb = kbId)) as [->|Hne].
    + rewrite kb_of_with_kb_eq. unfold opened. simpl.
      destruct (keys_opened now (meta (kb_of w kbId))) as [-> ->]. exact H.
    + by rewrite kb_of_with_kb_ne.
Qed.

Lemma keys_loop_top now kb jobId : preserves P (loop_top now kb jobId).
Proof.
  unfold loop_top. apply keeps_bind; [apply keeps_gets|]. intros c.
  destruct c; [apply keeps_ret|].
  apply keeps_bind; [apply keeps_gets|]. intros t.
  assert (Htake : preserves P
            (match next_pending_item jobId t with
             | None =>
                 db_run kb (mark_done jobId now);;
                 sendJobUpdate kb jobId;;
                 ret Exited
             | Some next =>
                 db_run kb (mark_item_processing (item_id next) now);;
                 getDb now kb;;
                 modify (with_suspended (fun s =>
                   <[kb := {| sl_job := jobId; sl_item := item_id next;
                              sl_source := item_source_path next;
                              sl_phase := AwaitStat |}]> s));;
                 ret Suspended
             end)).
  { destruct (next_pending_item jobId t) as [next|].
    - apply keeps_bind; [apply keys_db_run; intros t'; by apply keys_update_items|].
      intros _. apply keeps_bind; [apply keys_getDb|]. intros _.
      apply keeps_bind; [by apply keys_same_disk|]. intros _. apply keeps_ret.
    - apply keeps_bind; [apply keys_db_run; intros t'; by apply keys_update_jobs|].
      intros _. apply keeps_bind; [apply keys_sendJobUpdate|]. intros _. apply keeps_ret. }
  destruct (job_status <$> find_job jobId t) as [[]|]; try apply keeps_ret; exact Htake.
Qed.

Lemma keys_schedule (start : string -> M unit) kb :
  (forall j, preserves P (start j)) -> preserves P (scheduleNextPendingJob start kb).
Proof.
  intros Hs. unfold scheduleNextPendingJob. apply keeps_bind; [apply keeps_gets|]. intros t.
  destruct (has_paused t); [apply keeps_ret|].
  destruct (next_pending_job t) as [next|]; [|apply keeps_ret].
  destruct (String.eqb (job_id next) ""); [apply keeps_ret|].
  apply keeps_ignore_errors, Hs.
Qed.

Lemma keys_loop_segment (start : string -> M unit) now kb jobId (body : M loop_exit) :
  (forall j, preserves P (start j)) -> preserves P body ->
  preserves P (loop_segment start now kb jobId body).
Proof.
  intros Hs Hb w H. specialize (Hb w H). unfold loop_segment.
  assert (Hfin : preserves P (modify (with_running (fun r => delete kb r));;
                              scheduleNextPendingJob start kb)).
  { apply keeps_bind; [by apply keys_same_disk|]. intros _. by apply keys_schedule. }
  destruct (body w) as [[[]|e] w1]; simpl in Hb; [done|by apply Hfin|].
  revert Hb. generalize w1.
  change (preserves P (db_run kb (mark_failed jobId e now);;
                       sendJobUpdate kb jobId;;
                       modify (with_running (fun r => delete kb r));;
                       scheduleNextPendingJob start kb)).
  apply keeps_bind; [apply keys_db_run; intros t'; by apply keys_update_jobs|]. intros _.
  apply keeps_bind; [apply keys_sendJobUpdate|]. intros _. exact Hfin.
Qed.

Lemma keys_processImportJob fuel now kb :
  forall jobId, preserves P (processImportJob fuel now kb jobId).
Proof.
  induction fuel as [|fuel IH]; intros jobId; simpl; [apply keeps_ret|].
  apply keeps_bind; [apply keys_getDb|]. intros _.
  apply keeps_bind; [apply keeps_gets|]. intros running.
  destruct (other_job_running running jobId); [apply keeps_ret|].
  apply keeps_bind; [by apply keys_same_disk|]. intros _.
  apply keeps_bind; [apply keys_db_run; intros t'; by apply keys_update_jobs|]. intros _.
  apply keeps_bind; [apply keys_sendJobUpdate|]. intros _.
  apply keys_loop_segment; [exact IH|apply keys_loop_top].
Qed.

Lemma keys_start_job now kb jobId : preserves P (start_job now kb jobId).
Proof.
  unfold start_job. apply keeps_bind; [apply keeps_gets|]. intros fuel.
  apply keeps_ignore_errors, keys_processImportJob.
Qed.

End Keys.

(** *** The inserts of the request *)

Lemma existsb_snoc {A} (p : A -> bool) l x : existsb p (l ++ [x]) = existsb p l || p x.
Proof. rewrite existsb_app. simpl. by rewrite orb_false_r. Qed.

Lemma db_try_Ok kbId f w t' :
  f (db_of w kbId) = Ok t' ->
  db_try kbId f w
  = (Ok (), with_kb kbId (fun k => {| meta := t'; tx := tx k; blobs := blobs k |}) w).
Proof. intros H. unfold db_try, mbind, M_bind, bind, gets. simpl. by rewrite H. Qed.

Lemma bind_Ok {A B} (m : M A) (k : A -> M B) w a w1 :
  m w = (Ok a, w1) -> (m ≫= k) w = k a w1.
Proof. intros H. unfold mbind, M_bind, bind. by rewrite H. Qed.

Lemma insert_items_ok env kbId jobId files :
  forall n w,
    existsb (is_job jobId) (jobs (db_of w kbId)) = true ->
    NoDup files ->
    NoDup (map (uuid env) (seq n (length files))) ->
    Forall (fun id => existsb (is_item id) (job_items (db_of w kbId)) = false)
      (map (uuid env) (seq n (length files))) ->
    Forall (fun f => existsb (fun i => String.eqb (item_job_id i) jobId
                                       && String.eqb (item_source_path i) f)
                       (job_items (db_of w kbId)) = false) files ->
    exists w',
      insert_items env kbId jobId n files w = (Ok (), w')
      /\ job_keys (db_of w' kbId) = job_keys (db_of w kbId)
      /\ item_keys (db_of w' kbId)
         = item_keys (db_of w kbId)
           ++ zip_with (fun id f => (id, jobId, f)) (map (uuid env) (seq n (length files))) files
      /\ tx (kb_of w' kbId) = tx (kb_of w kbId).
Proof.
  induction files as [|f files IH]; intros n w Hjob Hnd Hids Hfresh Hpaths.
  - exists w. simpl. by rewrite app_nil_r.
  - simpl in *. apply NoDup_cons in Hnd as [Hf Hnd]. apply NoDup_cons in Hids as [Hid Hids].
    apply Forall_cons in Hfresh as [Hfr Hfresh]. apply Forall_cons in Hpaths as [Hp Hpaths].
    set (row := {| item_id := uuid env n; item_job_id := jobId; item_source_path := f;
                   item_status := ItemPending; item_error_message := None;
                   item_created_at := now env; item_updated_at := now env;
                   item_started_at := None; item_finished_at := None |}).
    assert (Hins : insert_item (uuid env n) jobId f (now env) (db_of w kbId)
                   = Ok (with_items (fun l => l ++ [row]) (db_of w kbId))).
    { unfold insert_item. by rewrite Hp, Hfr, Hjob. }
    rewrite (bind_Ok _ _ _ _ _ (db_try_Ok _ _ _ _ Hins)).
    set (w1 := with_kb kbId _ w).
    assert (Hdb : db_of w1 kbId = with_items (fun l => l ++ [row]) (db_of w kbId)).
    { unfold w1, db_of. by rewrite kb_of_with_kb_eq. }
    destruct (IH (S n) w1) as (w' & Hrun & Hj & Hi & Htx).
    + by rewrite Hdb.
    + done.
    + done.
    + rewrite Hdb. simpl. apply Forall_forall. intros id Hin.
      rewrite existsb_snoc. rewrite Forall_forall in Hfresh. rewrite (Hfresh id Hin). simpl.
      unfold is_item. simpl. apply String.eqb_neq. intros <-. done.
    + rewrite Hdb. simpl. apply Forall_forall. intros f' Hin.
      rewrite existsb_snoc. rewrite Forall_forall in Hpaths. rewrite (Hpaths f' Hin). simpl.
      apply andb_false_iff. right. apply String.eqb_neq. intros ->. done.
    + exists w'. split; [exact Hrun|]. rewrite Hj, Hi, Htx, Hdb.
      split; [done|]. split.
      * unfold item_keys. simpl. rewrite map_app. simpl. by rewrite <- app_assoc.
      * unfold w1. by rewrite kb_of_with_kb_eq.
Qed.

Lemma existsb_job_keys jobId t t' :
  job_keys t' = job_keys t ->
  existsb (is_job jobId) (jobs t') = existsb (is_job jobId) (jobs t).
Proof.
  unfold job_keys. intros H.
  assert (Hx : forall l, existsb (is_job jobId) l
                         = existsb (fun k => String.eqb k.1.1 jobId) (map job_key l)).
  { induction l as [|j l IH]; simpl; [done|]. by rewrite IH. }
  by rewrite !Hx, H.
Qed.

Lemma existsb_item_keys itemId t t' :
  item_keys t' = item_keys t ->
  existsb (is_item itemId) (job_items t') = existsb (is_item itemId) (job_items t).
Proof.
  unfold item_keys. intros H.
  assert (Hx : forall l, existsb (is_item itemId) l
                         = existsb (fun k => String.eqb k.1.1 itemId) (map item_key l)).
  { induction l as [|j l IH]; simpl; [done|]. by rewrite IH. }
  by rewrite !Hx, H.
Qed.


(** Without a job [jobId] there is no item of it either. *)
Lemma no_items_without_job jobId t :
  tables_ok t -> existsb (is_job jobId) (jobs t) = false ->
  Forall (fun i => String.eqb (item_job_id i) jobId = false) (job_items t).
Proof.
  intros [_ Hfk _] Hj. eapply Forall_impl; [exact Hfk|]. intros i Hi. simpl in Hi.
  apply String.eqb_neq. intros <-. congruence.
Qed.

Lemma count_imported jobId (ids files : list string) :
  length ids = length files ->
  length (List.filter (fun k : string * string * string => String.eqb k.1.2 jobId)
            (zip_with (fun id f => (id, jobId, f)) ids files))
  = length files.
Proof.
  revert ids. induction files as [|f files IH]; intros [|id ids] Hlen; simpl in *; try done.
  rewrite String.eqb_refl. simpl. f_equal. apply IH. lia.
Qed.

Section WithNode.
Variable node : NodeApi.
Variable USER_DATA_PATH : string.

(** X24: in a reachable state with no transaction open on the
    database, a [kb.importFiles] request that finds files and draws
    UUIDs that are not in use succeeds. It answers with the id of the
    new job; the rows of [jobs] are those from before followed by the
    new job of type 'import_files' whose [progress_total] is the number
    of files found; the rows of [job_items] are those from before
    followed by one item of the new job for each file, in the order of
    the files, each file once. So the new job has exactly
    [progress_total] items. Ids, jobs and paths of the old rows are
    unchanged. *)
Theorem X24_import_creates_job
    (env : call_env) (kbId : string) (sources : list ImportSource) (w : worker) :
  reachable node USER_DATA_PATH w ->
  validation_error (ImportFiles kbId sources) = None ->
  let files := resolveImportFileList (collect env) sources in
  files <> [] ->
  tx (kb_of w kbId) = None ->
  fresh_ids env (length files) (db_of w kbId) ->
  exists w',
    handleImportFiles env kbId sources w = (Ok (VJobId (uuid env 0)), w')
    /\ job_keys (db_of w' kbId)
       = job_keys (db_of w kbId) ++ [(uuid env 0, "import_files", Z.of_nat (length files))]
    /\ item_keys (db_of w' kbId) = item_keys (db_of w kbId) ++ imported_items env files
    /\ NoDup files
    /\ count_items (uuid env 0) (db_of w' kbId) = Z.of_nat (length files).
Proof.
  intros Hreach Hv files Hne Htx (HfJ & HfN & HfI).
  destruct (reachable_Inv node USER_DATA_PATH w Hreach) as [HD _].
  assert (Hnd : NoDup files) by apply dedupe_NoDup.
  simpl in Hv. unfold handleImportFiles. cbv zeta. fold files.
  destruct (String.eqb kbId ""); [done|].
  destruct (bool_decide (sources = [])); [done|]. clear Hv.
  (* the database is opened *)
  set (w0 := snd (ensureKbDirs kbId w)).
  destruct (getDb (now env) kbId w0) as [r1 w1] eqn:Eopen.
  assert (r1 = Ok ()) as -> by (pose proof (getDb_ok (now env) kbId w0) as H; by rewrite Eopen in H).
  rewrite (bind_Ok (ensureKbDirs kbId) _ w () w0 eq_refl), (bind_Ok _ _ w0 () w1 Eopen).
  assert (Hw1 : w1 = snd (getDb (now env) kbId w0)) by (by rewrite Eopen).
  assert (Hat : at_kb kbId w (ctl w kbId) w1).
  { rewrite Hw1. apply quiet_getDb, quiet_ensureKbDirs, at_kb_start, HD. }
  assert (Hok1 : tables_ok (db_of w1 kbId)) by (destruct Hat as (HD1 & _); apply HD1).
  assert (Htx1 : tx (kb_of w1 kbId) = None).
  { destruct Hat as (_ & _ & _ & Hc). unfold ctl in Hc. injection Hc as Hc _ _.
    rewrite Htx in Hc. destruct (tx (kb_of w1 kbId)); [|done].
    rewrite bool_decide_eq_true_2 in Hc by eauto. by rewrite bool_decide_eq_false_2 in Hc
      by (intros [? ?]; done). }
  assert (Hk1 : job_keys (db_of w1 kbId) = job_keys (db_of w kbId)
                /\ item_keys (db_of w1 kbId) = item_keys (db_of w kbId)).
  { rewrite Hw1. apply (keys_getDb kbId _ _ (now env) kbId w0).
    unfold w0, db_of. by rewrite kb_of_ensureKbDirs. }
  destruct Hk1 as [Hj1 Hi1]. clear Eopen Hat Hw1.
  rewrite bool_decide_eq_false_2 by done.
  (* BEGIN *)
  set (w2 := with_kb kbId (fun k => {| meta := meta k; tx := Some (meta k); blobs := blobs k |}) w1).
  assert (Ebegin : db_begin kbId w1 = (Ok (), w2)).
  { unfold db_begin, mbind, M_bind, bind, gets. simpl. by rewrite Htx1. }
  rewrite (bind_Ok _ _ _ _ _ Ebegin).
  assert (Hdb2 : db_of w2 kbId = db_of w1 kbId)
    by (unfold w2, db_of; by rewrite kb_of_with_kb_eq).
  (* INSERT INTO jobs *)
  set (jobId := uuid env 0).
  set (row := {| job_id := jobId; job_type := "import_files"; job_status := JobPending;
                 job_payload := sources; progress_current := 0;
                 progress_total := Z.of_nat (length files);
                 job_error_message := None; job_created_at := now env;
                 job_started_at := None; job_finished_at := None;
                 job_updated_at := now env; job_heartbeat_at := None |}).
  assert (HnoJ : existsb (is_job jobId) (jobs (db_of w1 kbId)) = false)
    by (by rewrite (existsb_job_keys jobId _ _ Hj1)).
  assert (Hjob : insert_job jobId sources (Z.of_nat (length files)) (now env) (db_of w2 kbId)
                 = Ok (with_jobs (fun l => l ++ [row]) (db_of w1 kbId))).
  { unfold insert_job. by rewrite Hdb2, HnoJ. }
  set (w3 := with_kb kbId (fun k => {| meta := with_jobs (fun l => l ++ [row]) (db_of w1 kbId);
                                       tx := tx k; blobs := blobs k |}) w2).
  assert (Hdb3 : db_of w3 kbId = with_jobs (fun l => l ++ [row]) (db_of w1 kbId))
    by (unfold w3, db_of; by rewrite kb_of_with_kb_eq).
  (* INSERT INTO job_items *)
  destruct (insert_items_ok env kbId jobId files 1 w3) as (w4 & Eitems & Hj4 & Hi4 & Htx4).
  { rewrite Hdb3. simpl. rewrite existsb_snoc. unfold is_job at 2. simpl.
    rewrite String.eqb_refl. apply orb_true_r. }
  { done. }
  { exact HfN. }
  { rewrite Hdb3. simpl. eapply Forall_impl; [exact HfI|]. intros id Hid. simpl in Hid.
    by rewrite (existsb_item_keys id _ _ Hi1). }
  { rewrite Hdb3. simpl. apply Forall_forall. intros f _.
    pose proof (no_items_without_job jobId _ Hok1 HnoJ) as Hno.
    induction Hno as [|i l Hi _ IH]; simpl; [done|]. by rewrite Hi, IH. }
  (* COMMIT *)
  set (w5 := with_kb kbId (fun k => {| meta := meta k; tx := None; blobs := blobs k |}) w4).
  assert (Ecommit : db_commit kbId w4 = (Ok (), w5)).
  { unfold db_commit, mbind, M_bind, bind, gets. simpl. rewrite Htx4.
    unfold w3, w2. by rewrite !kb_of_with_kb_eq. }
  assert (Eblock : try_catch
            (db_try kbId (insert_job jobId sources (Z.of_nat (length files)) (now env));;
             insert_items env kbId jobId 1 files;;
             db_commit kbId)
            (fun e => ignore_errors (db_rollback kbId);; throw e) w2 = (Ok (), w5)).
  { unfold try_catch.
    rewrite (bind_Ok _ _ _ _ _ (db_try_Ok _ _ _ _ Hjob)).
    fold w3. by rewrite (bind_Ok _ _ _ _ _ Eitems), Ecommit. }
  rewrite (bind_Ok _ _ _ _ _ Eblock).
  assert (Hdb5 : db_of w5 kbId = db_of w4 kbId)
    by (unfold w5, db_of; by rewrite kb_of_with_kb_eq).
  assert (Hj5 : job_keys (db_of w5 kbId)
                = job_keys (db_of w kbId) ++ [(jobId, "import_files", Z.of_nat (length files))]).
  { rewrite Hdb5, Hj4, Hdb3, <- Hj1. unfold job_keys. simpl. by rewrite map_app. }
  assert (Hi5 : item_keys (db_of w5 kbId) = item_keys (db_of w kbId) ++ imported_items env files).
  { by rewrite Hdb5, Hi4, Hdb3, <- Hi1. }
  (* the job is started and announced *)
  assert (Htail : wp (running ← gets (fun w => runningByKb w !! kbId);
                      (if running is None then start_job (now env) kbId jobId else ret ());;
                      sendJobUpdate kbId jobId;;
                      ret (VJobId jobId))
                     (fun r w' =>
                        r = Ok (VJobId jobId)
                        /\ job_keys (db_of w' kbId) = job_keys (db_of w5 kbId)
                        /\ item_keys (db_of w' kbId) = item_keys (db_of w5 kbId)) w5).
  { apply wp_bind, wp_gets.
    assert (Hrest : forall w6,
              job_keys (db_of w6 kbId) = job_keys (db_of w5 kbId)
              /\ item_keys (db_of w6 kbId) = item_keys (db_of w5 kbId) ->
              wp (sendJobUpdate kbId jobId;; ret (VJobId jobId))
                 (fun r w' =>
                    r = Ok (VJobId jobId)
                    /\ job_keys (db_of w' kbId) = job_keys (db_of w5 kbId)
                    /\ item_keys (db_of w' kbId) = item_keys (db_of w5 kbId)) w6).
    { intros w6 H6. apply wp_bind. unfold sendJobUpdate. apply wp_bind, wp_gets, wp_send.
      by apply wp_ret. }
    apply wp_bind. destruct (runningByKb w5 !! kbId).
    - apply wp_ret. by apply Hrest.
    - unfold start_job. apply wp_bind, wp_gets, wp_ignore_errors.
      eapply wp_mono.
      + apply (wp_preserves _ _ _
                 (keys_processImportJob kbId (job_keys (db_of w5 kbId))
                    (item_keys (db_of w5 kbId)) _ (now env) kbId jobId)).
        split; reflexivity.
      + intros r w6 H6. by apply Hrest. }
  unfold wp in Htail.
  match type of Htail with fst ?m = _ /\ _ => destruct m as [r w'] end. simpl in Htail.
  destruct Htail as (-> & Hj' & Hi'). exists w'.
  split; [done|]. split; [by rewrite Hj'|]. split; [by rewrite Hi'|]. split; [done|].
  (* the items of the new job *)
  unfold count_items. f_equal.
  pose proof (filter_length_via item_key (fun k => String.eqb k.1.2 jobId)) as Hvia.
  transitivity (length (List.filter (fun k => String.eqb k.1.2 jobId)
                          (item_keys (db_of w' kbId)))); [exact (Hvia _)|].
  rewrite Hi', Hi5, <- Hi1, List.filter_app, length_app.
  assert (Hold : length (List.filter (fun k => String.eqb k.1.2 jobId)
                           (item_keys (db_of w1 kbId))) = 0%nat).
  { etransitivity; [symmetry; exact (Hvia (job_items (db_of w1 kbId)))|].
    change (length (List.filter (fun i => String.eqb (item_job_id i) jobId)
                      (job_items (db_of w1 kbId))) = 0%nat).
    by rewrite (filter_none _ _ (no_items_without_job jobId _ Hok1 HnoJ)). }
  rewrite Hold. simpl.
  unfold imported_items, item_uuids. fold jobId.
  apply count_imported. by rewrite length_map, length_seq.
Qed.

End WithNode.

Lemma X24_import_creates_job_witness :
  let env := Sample.env_at 1 "A" in
  let files := resolveImportFileList (collect env) two_files in
  exists w',
    handleImportFiles env "kb" two_files initial_worker = (Ok (VJobId (uuid env 0)), w')
    /\ job_keys (db_of w' "kb")
       = job_keys (db_of initial_worker "kb")
         ++ [(uuid env 0, "import_files", Z.of_nat (length files))]
    /\ item_keys (db_of w' "kb")
       = item_keys (db_of initial_worker "kb") ++ imported_items env files
    /\ NoDup files
    /\ count_items (uuid env 0) (db_of w' "kb") = Z.of_nat (length files).
Proof.
  apply (X24_import_creates_job Sample.posix_ascii "/data" (Sample.env_at 1 "A") "kb"
           two_files initial_worker).
  - exists []. reflexivity.
  - reflexivity.
  - vm_compute. discriminate.
  - reflexivity.
  - split; [reflexivity|]. split.
    + eapply bool_decide_unpack. vm_compute. exact I.
    + vm_compute. repeat constructor.
Defined.

End ImportedFacts.

(* ------------------------------------------------------------------ *)
(** ** [kb.listJobs]: the latest jobs                                  *)
(* ------------------------------------------------------------------ *)

Module ListJobsFacts.
Import Js Kb Ingest Scheduler Handlers Requests Completion.
Import WpFacts OpenFacts ImportFacts.

Lemma newer_first_total : Total newer_first.
Proof. intros a b. unfold newer_first. lia. Qed.

Lemma newer_first_trans : Transitive newer_first.
Proof. intros a b c. unfold newer_first. lia. Qed.

Lemma sorted_take {A} (R : relation A) n (l : list A) :
  StronglySorted R l -> StronglySorted R (take n l).
Proof.
  intros H. rewrite <- (take_drop n l) in H. by apply StronglySorted_app_1_l in H.
Qed.

(** X25: [kb.listJobs] with a non-empty [kbId] succeeds and changes
    nothing but what opening the database changes. It returns the rows
    of [jobs] with the latest [created_at] first, at most 200 of them:
    all rows when there are at most 200, and otherwise 200 rows none of
    which was created before a row that is left out. *)
Theorem X25_listJobs_newest_first (env : call_env) (kbId : string) (w : worker) :
  validation_error (ListJobs kbId) = None ->
  let w1 := snd (getDb (now env) kbId w) in
  exists l rest,
    handleListJobs env kbId w = (Ok (VJobs l), w1)
    /\ StronglySorted newer_first l
    /\ length l = Nat.min 200 (length (jobs (db_of w1 kbId)))
    /\ jobs (db_of w1 kbId) ≡ₚ l ++ rest
    /\ forall a b, a ∈ l -> b ∈ rest -> job_created_at b <= job_created_at a.
Proof.
  intros Hv w1. simpl in Hv. unfold handleListJobs.
  destruct (String.eqb kbId ""); [done|]. clear Hv.
  pose proof (getDb_ok (now env) kbId w) as Hok.
  unfold mbind, M_bind, bind, gets. fold w1.
  destruct (getDb (now env) kbId w) as [r w1'] eqn:E. simpl in Hok, w1. subst r w1.
  simpl.
  pose proof (@StronglySorted_merge_sort _ newer_first _ newer_first_trans newer_first_total
                (jobs (db_of w1' kbId))) as Hs.
  exists (take 200 (merge_sort newer_first (jobs (db_of w1' kbId)))),
         (drop 200 (merge_sort newer_first (jobs (db_of w1' kbId)))).
  split; [done|]. split; [by apply sorted_take|]. split; [|split].
  - rewrite length_take. by rewrite (Permutation_length (merge_sort_Permutation _ _)).
  - rewrite take_drop. symmetry. apply merge_sort_Permutation.
  - intros a b Ha Hb. rewrite <- (take_drop 200 (merge_sort _ _)) in Hs.
    exact (StronglySorted_app_1_elem_of _ _ _ _ _ Hs Ha Hb).
Qed.

Lemma X25_listJobs_newest_first_witness :
  exists l rest,
    handleListJobs (Sample.env_at 9 "u") "kb" worker_two_files
    = (Ok (VJobs l), snd (getDb 9 "kb" worker_two_files))
    /\ StronglySorted newer_first l
    /\ length l = Nat.min 200 (length (jobs (db_of (snd (getDb 9 "kb" worker_two_files)) "kb")))
    /\ jobs (db_of (snd (getDb 9 "kb" worker_two_files)) "kb") ≡ₚ l ++ rest
    /\ forall a b, a ∈ l -> b ∈ rest -> job_created_at b <= job_created_at a.
Proof.
  apply (X25_listJobs_newest_first (Sample.env_at 9 "u") "kb" worker_two_files).
  reflexivity.
Defined.

End ListJobsFacts.

(* ------------------------------------------------------------------ *)
(** ** Pausing and resuming the job that runs                          *)
(* ------------------------------------------------------------------ *)

Module PauseFacts.
Import Js Kb Ingest Scheduler Handlers Progress Requests Completion Streaming Pausing.
Import WpFacts OpenFacts ImportFacts IngestFacts ProgressFacts QueueFacts ImportFailure.
Import CompletionFacts CounterFacts ImportedFacts.




Section WithNode.
Variable node : NodeApi.
Variable USER_DATA_PATH : string.












End WithNode.




End PauseFacts.
